(** * VNDB companion client: query, cache and list-browsing layer

    A shallow embedding of the parts of the client that the specification
    talks about:

    - [Client]   : the API client module (response caches, personal-list
                   reads and writes, the membership-set fetch);
    - [ListView] : the list component [VisualNovelList.tsx] (filter builder,
                   status derivation, hydration of the personal list,
                   pagination and the asynchronous fetch flows);
    - [Markup]   : the description renderer (URL normalisation and tag
                   rendering).

    Conventions.  JavaScript strings are Rocq strings, one character per
    code unit (code units above 255 are outside the model).  JavaScript
    numbers are integers ([Z]); the places where the code meets a
    non-finite number are written out.  A value of type [unknown] coming
    from the network is a [Json] value. *)

From Stdlib Require Import ZArith List String Ascii Bool Lia DecimalString Sorted.
From stdpp Require Import gmap strings list.
Import ListNotations.

#[local] Set Warnings "-register-all".

Local Open Scope string_scope.
Local Open Scope Z_scope.

(* ===================================================================== *)
(** * Part I: definitions                                                 *)
(* ===================================================================== *)

(** ** JavaScript built-ins used by the sources *)

Module JS.

(** White space removed by [String.prototype.trim], within Latin-1:
    TAB, LF, VT, FF, CR, SPACE and NBSP. *)
Definition isWhiteSpace (c : ascii) : bool :=
  let n := nat_of_ascii c in
  ((9 <=? n)%nat && (n <=? 13)%nat) || (n =? 32)%nat || (n =? 160)%nat.

Fixpoint trimStart (s : string) : string :=
  match s with
  | EmptyString => EmptyString
  | String c rest => if isWhiteSpace c then trimStart rest else s
  end.

Fixpoint trimEnd (s : string) : string :=
  match s with
  | EmptyString => EmptyString
  | String c rest =>
      match trimEnd rest with
      | EmptyString => if isWhiteSpace c then EmptyString else String c EmptyString
      | kept => String c kept
      end
  end.

Definition trim (s : string) : string := trimEnd (trimStart s).

(** [toLowerCase] on Latin-1: A-Z, and the accented capitals except the
    multiplication sign. *)
Definition lowerChar (c : ascii) : ascii :=
  let n := nat_of_ascii c in
  if ((65 <=? n)%nat && (n <=? 90)%nat)
     || ((192 <=? n)%nat && (n <=? 222)%nat && negb (n =? 215)%nat)
  then ascii_of_nat (n + 32) else c.

Fixpoint toLowerCase (s : string) : string :=
  match s with
  | EmptyString => EmptyString
  | String c rest => String (lowerChar c) (toLowerCase rest)
  end.

Definition startsWith (s prefix : string) : bool := String.prefix prefix s.

Definition isDigit (c : ascii) : bool :=
  let n := nat_of_ascii c in (48 <=? n)%nat && (n <=? 57)%nat.

Definition isLetter (c : ascii) : bool :=
  let n := nat_of_ascii c in
  ((65 <=? n)%nat && (n <=? 90)%nat) || ((97 <=? n)%nat && (n <=? 122)%nat).

(** [s.replace(/[^\d]/g, '')] *)
Fixpoint keepDigits (s : string) : string :=
  match s with
  | EmptyString => EmptyString
  | String c rest => if isDigit c then String c (keepDigits rest) else keepDigits rest
  end.

Fixpoint digitsValue (acc : Z) (s : string) : Z :=
  match s with
  | EmptyString => acc
  | String c rest => digitsValue (10 * acc + (Z.of_nat (nat_of_ascii c) - 48)) rest
  end.

(** Decimal literals at or above this bound convert to [Infinity]. *)
Definition INFINITY_THRESHOLD : Z := 2 ^ 1024 - 2 ^ 970.

(** [Number(s)] for a string of decimal digits, followed by the
    [Number.isFinite] test: [None] stands for a non-finite result.  The
    empty string converts to 0. *)
Definition finiteNumberOfDigits (s : string) : option Z :=
  let n := digitsValue 0 s in
  if n <? INFINITY_THRESHOLD then Some n else None.

(** [String(n)] for an integer [n] (exact for safe integers). *)
Definition numberToString (n : Z) : string :=
  NilZero.string_of_int (Z.to_int n).

(** A decoded JSON document. *)
Inductive Json : Type :=
| JNull
| JBool (b : bool)
| JNumber (n : Z)
| JString (s : string)
| JArray (items : list Json)
| JObject (fields : list (string * Json)).

(** [Boolean(v)] for a JSON value. *)
Definition truthy (v : Json) : bool :=
  match v with
  | JNull => false
  | JBool b => b
  | JNumber n => negb (n =? 0)
  | JString s => negb (String.eqb s "")
  | JArray _ | JObject _ => true
  end.

Fixpoint assoc (key : string) (fields : list (string * Json)) : option Json :=
  match fields with
  | [] => None
  | (k, v) :: rest => if String.eqb k key then Some v else assoc key rest
  end.

(** [v.key] where [v] is known not to be [null]: [None] is [undefined].
    Only own data properties of objects are visible to the property names
    the sources read ([results], [more], [id], [labels]). *)
Definition property (v : Json) (key : string) : option Json :=
  match v with
  | JObject fields => assoc key fields
  | _ => None
  end.

End JS.

Import JS.

(* --------------------------------------------------------------------- *)
(** ** [async] functions run to completion                                *)
(* --------------------------------------------------------------------- *)

Module Async.

(** How a call of an [async] function ends. *)
Inductive Completion (A : Type) : Type :=
| Returned (value : A)
| Threw (message : string).
Arguments Returned {A} value.
Arguments Threw {A} message.

(** An [async] function over a state [S], run to completion: a state
    transformer with exceptions.  A throw keeps the state reached so
    far. *)
Definition M (S A : Type) : Type := S -> Completion A * S.

Definition ret {S A} (a : A) : M S A := fun st => (Returned a, st).

Definition throw {S A} (message : string) : M S A := fun st => (Threw message, st).

Definition bind {S A B} (c : M S A) (k : A -> M S B) : M S B :=
  fun st =>
    match c st with
    | (Returned a, st') => k a st'
    | (Threw message, st') => (Threw message, st')
    end.

(** [try { c } catch (e) { handler(e.message) }] *)
Definition tryCatch {S A} (c : M S A) (handler : string -> M S A) : M S A :=
  fun st =>
    match c st with
    | (Returned a, st') => (Returned a, st')
    | (Threw message, st') => handler message st'
    end.

Declare Scope async_scope.
Delimit Scope async_scope with async.
Notation "x <- c ;; k" := (bind c (fun x => k))
  (at level 100, c at next level, right associativity) : async_scope.
Notation "c ;; k" := (bind c (fun _ => k))
  (at level 100, right associativity) : async_scope.

End Async.

Import Async.

(* --------------------------------------------------------------------- *)
(** ** The API client                                                     *)
(* --------------------------------------------------------------------- *)

Module Client.

Definition CACHE_TIME_TO_LIVE_MILLISECONDS : Z := 5 * 60 * 1000.

Record CacheEntry : Type := { expiresAt : Z; payload : Json }.

(** A cache store is a [Map<string, {expiresAt, payload}>]. *)
Abbreviation CacheStore := (gmap string CacheEntry).

(** [readFromCache], with the value of [Date.now()] passed in.  The result
    pairs the returned value ([JNull] is JavaScript's [null]) with the
    store after the call. *)
Definition readFromCache (now : Z) (cacheStore : CacheStore) (cacheKey : string)
  : Json * CacheStore :=
  match cacheStore !! cacheKey with
  | None => (JNull, cacheStore)
  | Some cachedEntry =>
      if now >? expiresAt cachedEntry
      then (JNull, delete cacheKey cacheStore)
      else (payload cachedEntry, cacheStore)
  end.

Definition writeToCache (now : Z) (cacheStore : CacheStore) (cacheKey : string)
    (newPayload : Json) : CacheStore :=
  <[cacheKey := {| expiresAt := now + CACHE_TIME_TO_LIVE_MILLISECONDS;
                   payload := newPayload |}]> cacheStore.

(** *** The transport *)

Record HttpRequest : Type := {
  method : string;
  url : string;
  headers : list (string * string);
  body : option Json  (* the value given to [JSON.stringify]; [None]: no body *)
}.

(** A response of [fetch]: [bodyText] is what [text()] resolves to and
    [bodyJson] what [json()] resolves to; [None] means that the call
    rejects. *)
Record HttpResponse : Type := {
  status : Z;
  bodyText : option string;
  bodyJson : option Json
}.

(** [Response.ok]: the status is in the range 200-299. *)
Definition ok (networkResponse : HttpResponse) : bool :=
  (200 <=? status networkResponse) && (status networkResponse <=? 299).

(** [fetch] resolves with a response or rejects (the request never
    reached the remote, or no answer came back). *)
Inductive FetchOutcome : Type :=
| Resolved (networkResponse : HttpResponse)
| Rejected (message : string).

(** What the module takes from its platform: the world outside the client
    (the remote and the wall clock) as a state [Env], [Date.now()],
    [fetch], [JSON.stringify] and the build flag [import.meta.env.DEV]. *)
Class Platform : Type := {
  Env : Type;
  dateNow : Env -> Z;
  fetch : HttpRequest -> Env -> FetchOutcome * Env;
  JSON_stringify : Json -> string;
  DEV : bool
}.

Section WithPlatform.
Context `{P : Platform}.

(** The module's state: the world, the personal-list cache, and the
    requests issued so far with what [fetch] answered, in order
    ([exchanges] is a trace kept for the statements; the code has no
    such variable). *)
Record ClientState : Type := {
  env : Env;
  userListQueryCache : CacheStore;
  exchanges : list (HttpRequest * FetchOutcome)
}.

(** The API functions are [async] functions over the module state. *)
Definition Async (A : Type) : Type := M ClientState A.

End WithPlatform.

Section Operations.
Context `{P : Platform}.
Local Open Scope async_scope.

(** [await fetch(url, init)] *)
Definition awaitFetch (request : HttpRequest) : Async HttpResponse :=
  fun st =>
    let (outcome, env') := fetch request (env st) in
    let st' := {| env := env';
                  userListQueryCache := userListQueryCache st;
                  exchanges := (exchanges st ++ [(request, outcome)])%list |} in
    match outcome with
    | Resolved networkResponse => (Returned networkResponse, st')
    | Rejected message => (Threw message, st')
    end.

(** [await networkResponse.json()] *)
Definition awaitJson (networkResponse : HttpResponse) : Async Json :=
  match bodyJson networkResponse with
  | Some decoded => ret decoded
  | None => throw "Unexpected token in JSON"
  end.

(** [await networkResponse.text()] *)
Definition awaitText (networkResponse : HttpResponse) : Async string :=
  match bodyText networkResponse with
  | Some text => ret text
  | None => throw "body stream already read"
  end.

(** [readFromCache(userListQueryCache, cacheKey)] *)
Definition readUserListCache (cacheKey : string) : Async Json :=
  fun st =>
    let (found, store') := readFromCache (dateNow (env st)) (userListQueryCache st) cacheKey in
    (Returned found,
     {| env := env st; userListQueryCache := store'; exchanges := exchanges st |}).

(** [writeToCache(userListQueryCache, cacheKey, payload)] *)
Definition writeUserListCache (cacheKey : string) (newPayload : Json) : Async unit :=
  fun st =>
    (Returned tt,
     {| env := env st;
        userListQueryCache :=
          writeToCache (dateNow (env st)) (userListQueryCache st) cacheKey newPayload;
        exchanges := exchanges st |}).

(** [userListQueryCache.clear()] *)
Definition clearUserListCache : Async unit :=
  fun st => (Returned tt, {| env := env st; userListQueryCache := ∅; exchanges := exchanges st |}).

Definition VNDB_DIRECT_BASE_URL : string := "https://api.vndb.org/kana".
Definition VNDB_PROXY_BASE_PATH : string := "/api/vndb".
Definition VNDB_API_BASE_URL : string :=
  if DEV then VNDB_PROXY_BASE_PATH else VNDB_DIRECT_BASE_URL.

Definition buildVndbApiUrl (endpointPath : string) : string :=
  VNDB_API_BASE_URL ++ endpointPath.

Definition normalizeVisualNovelIdentifier (visualNovelIdentifier : string) : string :=
  let normalizedRawIdentifier := toLowerCase (trim visualNovelIdentifier) in
  if startsWith normalizedRawIdentifier "v"
  then normalizedRawIdentifier
  else "v" ++ normalizedRawIdentifier.

Definition normalizeUserIdentifier (userIdentifier : string) : string :=
  if startsWith (toLowerCase userIdentifier) "u"
  then toLowerCase userIdentifier
  else "u" ++ userIdentifier.

Definition authorizationHeader (authenticationToken : string) : string * string :=
  ("Authorization", "Token " ++ authenticationToken).

Definition jsonContentType : string * string := ("Content-Type", "application/json").

(** [v.key] as the code reads it from a decoded payload: reading a
    property of [null] throws a [TypeError]. *)
Definition readProperty (v : Json) (key : string) : Async (option Json) :=
  match v with
  | JNull => throw "Cannot read properties of null"
  | _ => ret (property v key)
  end.

(** *** [fetchAuthenticatedUserVisualNovelList] *)

Definition LABELS_ENABLED_FIELDS : string :=
  "id, labels.id, labels.label, vn.id, vn.title, vn.rating, vn.image.id, vn.image.url, vn.image.thumbnail, vn.image.sexual".

Definition MINIMAL_COMPATIBILITY_FIELDS : string :=
  "id, vn.id, vn.title, vn.rating, vn.image.id, vn.image.url, vn.image.thumbnail, vn.image.sexual".

Definition ulistPayload (normalizedUserIdentifier fields : string)
    (maximumResults pageNumber : Z) : list (string * Json) :=
  [("user", JString normalizedUserIdentifier);
   ("fields", JString fields);
   ("results", JNumber maximumResults);
   ("page", JNumber pageNumber)].

Definition executeUlistRequest (authenticationToken : string)
    (requestPayload : list (string * Json)) : Async HttpResponse :=
  awaitFetch {| method := "POST";
                url := buildVndbApiUrl "/ulist";
                headers := [jsonContentType; authorizationHeader authenticationToken];
                body := Some (JObject requestPayload) |}.

Definition fetchAuthenticatedUserVisualNovelList
    (authenticationToken userIdentifier : string)
    (pageNumberArgument maximumResultsArgument : option Z) : Async Json :=
  let pageNumber := default 1 pageNumberArgument in
  let maximumResults := default 50 maximumResultsArgument in
  let normalizedUserIdentifier := normalizeUserIdentifier userIdentifier in
  let labelsEnabledPayload :=
    ulistPayload normalizedUserIdentifier LABELS_ENABLED_FIELDS maximumResults pageNumber in
  let minimalCompatibilityPayload :=
    ulistPayload normalizedUserIdentifier MINIMAL_COMPATIBILITY_FIELDS maximumResults pageNumber in
  let cacheKey :=
    JSON_stringify (JObject (("cacheVersion", JNumber 3)
                             :: ("token", JString authenticationToken)
                             :: labelsEnabledPayload)) in
  cachedPayload <- readUserListCache cacheKey ;;
  if truthy cachedPayload then ret cachedPayload
  else
    firstResponse <- executeUlistRequest authenticationToken labelsEnabledPayload ;;
    networkResponse <-
      (if negb (ok firstResponse) && (status firstResponse =? 400)
       then executeUlistRequest authenticationToken minimalCompatibilityPayload
       else ret firstResponse) ;;
    if negb (ok networkResponse)
    then throw ("Network boundary failure: Unable to retrieve user visual novel list (HTTP "
                ++ numberToString (status networkResponse) ++ ").")
    else
      responsePayload <- awaitJson networkResponse ;;
      writeUserListCache cacheKey responsePayload ;;
      ret responsePayload.

(** *** [addVisualNovelToAuthenticatedUserList] *)

Definition executePatchRequest (targetApiEndpoint authenticationToken : string)
    (requestPayload : Json) : Async HttpResponse :=
  tryCatch
    (awaitFetch {| method := "PATCH";
                   url := targetApiEndpoint;
                   headers := [jsonContentType; authorizationHeader authenticationToken];
                   body := Some requestPayload |})
    (fun message =>
       throw ("Add-to-list request failed before reaching VNDB API: " ++ message)).

Definition addVisualNovelToAuthenticatedUserList
    (authenticationToken visualNovelIdentifier : string)
    (labelIdentifierArgument : option Z) : Async unit :=
  let labelIdentifier := default 5 labelIdentifierArgument in
  if String.eqb (trim visualNovelIdentifier) ""
  then throw "Add-to-list failure: Missing visual novel identifier."
  else
    let normalizedVisualNovelIdentifier :=
      normalizeVisualNovelIdentifier visualNovelIdentifier in
    let targetApiEndpoint := buildVndbApiUrl ("/ulist/" ++ normalizedVisualNovelIdentifier) in
    firstResponse <-
      executePatchRequest targetApiEndpoint authenticationToken
        (JObject [("labels_set", JArray [JNumber labelIdentifier])]) ;;
    networkResponse <-
      (if negb (ok firstResponse) && (status firstResponse =? 400)
       then executePatchRequest targetApiEndpoint authenticationToken
              (JObject [("labels", JArray [JNumber labelIdentifier])])
       else ret firstResponse) ;;
    if negb (ok networkResponse)
    then
      responseBodyText <- tryCatch (awaitText networkResponse) (fun _ => ret "") ;;
      let normalizedResponseBodyText := trim responseBodyText in
      let detailedErrorSuffix :=
        if String.eqb normalizedResponseBodyText "" then ""
        else " - " ++ normalizedResponseBodyText in
      throw ("Network boundary failure: Unable to add visual novel to user list (HTTP "
             ++ numberToString (status networkResponse) ++ ")" ++ detailedErrorSuffix)
    else clearUserListCache.

(** *** [updateAuthenticatedUserVisualNovelStatusLabel] *)

Definition STATUS_LABEL_IDENTIFIERS : list Z := [1; 2; 3; 4; 5; 6].

Definition updateAuthenticatedUserVisualNovelStatusLabel
    (authenticationToken visualNovelIdentifier : string)
    (statusLabelIdentifier : Z) : Async unit :=
  let normalizedVisualNovelIdentifier :=
    normalizeVisualNovelIdentifier visualNovelIdentifier in
  let targetApiEndpoint := buildVndbApiUrl ("/ulist/" ++ normalizedVisualNovelIdentifier) in
  let requestPayload :=
    JObject
      [("labels_unset",
        JArray (map JNumber
                  (List.filter (fun labelIdentifier =>
                                  negb (labelIdentifier =? statusLabelIdentifier))
                               STATUS_LABEL_IDENTIFIERS)));
       ("labels_set", JArray [JNumber statusLabelIdentifier])] in
  networkResponse <-
    awaitFetch {| method := "PATCH";
                  url := targetApiEndpoint;
                  headers := [jsonContentType; authorizationHeader authenticationToken];
                  body := Some requestPayload |} ;;
  if negb (ok networkResponse)
  then throw ("Network boundary failure: Unable to update VN list status (HTTP "
              ++ numberToString (status networkResponse) ++ ").")
  else clearUserListCache.

(** *** [removeVisualNovelFromAuthenticatedUserList] *)

Definition removeVisualNovelFromAuthenticatedUserList
    (authenticationToken visualNovelIdentifier : string) : Async unit :=
  let normalizedVisualNovelIdentifier :=
    normalizeVisualNovelIdentifier visualNovelIdentifier in
  let targetApiEndpoint := buildVndbApiUrl ("/ulist/" ++ normalizedVisualNovelIdentifier) in
  networkResponse <-
    awaitFetch {| method := "DELETE";
                  url := targetApiEndpoint;
                  headers := [authorizationHeader authenticationToken];
                  body := None |} ;;
  if negb (ok networkResponse)
  then throw ("Network boundary failure: Unable to remove visual novel from your list (HTTP "
              ++ numberToString (status networkResponse) ++ ").")
  else clearUserListCache.

(** *** [fetchAuthenticatedUserVisualNovelIdentifierSet] *)

Definition MAXIMUM_USER_LIST_PAGES : Z := 40.

(** The identifier a raw entry contributes to the set, if any:
    [rawEntry?.id] as a non-blank string or as a number. *)
Definition identifierOfRawEntry (rawEntry : Json) : option string :=
  match property rawEntry "id" with
  | Some (JString rawIdentifier) =>
      if negb (String.eqb (trim rawIdentifier) "")
      then Some (if startsWith (toLowerCase rawIdentifier) "v"
                 then toLowerCase rawIdentifier
                 else "v" ++ toLowerCase rawIdentifier)
      else None
  | Some (JNumber rawIdentifier) => Some ("v" ++ numberToString rawIdentifier)
  | _ => None
  end.

Definition addRawEntry (identifierSet : gset string) (rawEntry : Json) : gset string :=
  match identifierOfRawEntry rawEntry with
  | Some normalizedIdentifier => {[normalizedIdentifier]} ∪ identifierSet
  | None => identifierSet
  end.

Definition identifierPageRequest (authenticationToken normalizedUserIdentifier : string)
    (activePageNumber : Z) : HttpRequest :=
  {| method := "POST";
     url := buildVndbApiUrl "/ulist";
     headers := [jsonContentType; authorizationHeader authenticationToken];
     body := Some (JObject [("user", JString normalizedUserIdentifier);
                            ("fields", JString "id");
                            ("results", JNumber 100);
                            ("page", JNumber activePageNumber)]) |}.

(** The [while] loop, with the loop variables as arguments.  [fuel]
    bounds the number of iterations for the termination checker only:
    [identifierSetLoop_fuel] shows that the guard fails before the fuel
    runs out. *)
Fixpoint identifierSetLoop (fuel : nat)
    (authenticationToken normalizedUserIdentifier : string)
    (visualNovelIdentifierSet : gset string)
    (activePageNumber : Z) (hasMorePages : bool) : Async (gset string) :=
  match fuel with
  | O => ret visualNovelIdentifierSet
  | S fuel' =>
      if hasMorePages && (activePageNumber <=? MAXIMUM_USER_LIST_PAGES)
      then
        networkResponse <-
          awaitFetch (identifierPageRequest authenticationToken normalizedUserIdentifier
                                            activePageNumber) ;;
        if negb (ok networkResponse)
        then throw ("Network boundary failure: Unable to load user list identifiers (HTTP "
                    ++ numberToString (status networkResponse) ++ ").")
        else
          responsePayload <- awaitJson networkResponse ;;
          results <- readProperty responsePayload "results" ;;
          let rawEntries :=
            match results with Some (JArray items) => items | _ => [] end in
          let updatedSet := fold_left addRawEntry rawEntries visualNovelIdentifierSet in
          let more := property responsePayload "more" in
          identifierSetLoop fuel' authenticationToken normalizedUserIdentifier
            updatedSet (activePageNumber + 1)
            (match more with Some flag => truthy flag | None => false end)
      else ret visualNovelIdentifierSet
  end.

Definition fetchAuthenticatedUserVisualNovelIdentifierSet
    (authenticationToken userIdentifier : string) : Async (gset string) :=
  identifierSetLoop (Z.to_nat MAXIMUM_USER_LIST_PAGES)
    authenticationToken (normalizeUserIdentifier userIdentifier) ∅ 1 true.

End Operations.


(** *** Vocabulary of the statements about the client *)

Section Vocabulary.
Context `{P : Platform}.

(** The two shapes [addVisualNovelToAuthenticatedUserList] can send. *)
Definition patchRequest (authenticationToken visualNovelIdentifier payloadKey : string)
    (labelIdentifier : Z) : HttpRequest :=
  {| method := "PATCH";
     url := buildVndbApiUrl ("/ulist/" ++ normalizeVisualNovelIdentifier visualNovelIdentifier);
     headers := [jsonContentType; authorizationHeader authenticationToken];
     body := Some (JObject [(payloadKey, JArray [JNumber labelIdentifier])]) |}.

(** The two shapes [fetchAuthenticatedUserVisualNovelList] can send. *)
Definition ulistRequest (authenticationToken userIdentifier fields : string)
    (maximumResults pageNumber : Z) : HttpRequest :=
  {| method := "POST";
     url := buildVndbApiUrl "/ulist";
     headers := [jsonContentType; authorizationHeader authenticationToken];
     body := Some (JObject (ulistPayload (normalizeUserIdentifier userIdentifier) fields
                                         maximumResults pageNumber)) |}.

Definition ulistCacheKey (authenticationToken userIdentifier : string)
    (maximumResults pageNumber : Z) : string :=
  JSON_stringify
    (JObject (("cacheVersion", JNumber 3)
              :: ("token", JString authenticationToken)
              :: ulistPayload (normalizeUserIdentifier userIdentifier)
                              LABELS_ENABLED_FIELDS maximumResults pageNumber)).

(** The cache lookup at the head of [fetchAuthenticatedUserVisualNovelList]
    finds nothing usable. *)
Definition listCacheMiss (authenticationToken userIdentifier : string)
    (maximumResults pageNumber : Z) (st : ClientState) : Prop :=
  truthy (fst (readFromCache (dateNow (env st)) (userListQueryCache st)
                 (ulistCacheKey authenticationToken userIdentifier
                                maximumResults pageNumber))) = false.

(** The call ended by throwing. *)
Definition threw {A} (completion : Completion A) : Prop :=
  exists message, completion = Threw message.

(** How a write whose last request had the outcome [lastOutcome] ends:
    it returns exactly when the remote answered with success. *)
Definition writeEndsBy (lastOutcome : FetchOutcome) (completion : Completion unit) : Prop :=
  match lastOutcome with
  | Resolved networkResponse =>
      if ok networkResponse then completion = Returned tt else threw completion
  | Rejected _ => threw completion
  end.

(** The same for a read, which returns the decoded body. *)
Definition readEndsBy (lastOutcome : FetchOutcome) (completion : Completion Json) : Prop :=
  match lastOutcome with
  | Resolved networkResponse =>
      if ok networkResponse
      then match bodyJson networkResponse with
           | Some responsePayload => completion = Returned responsePayload
           | None => threw completion
           end
      else threw completion
  | Rejected _ => threw completion
  end.

(** What a personal-list write leaves behind: after a normal return the
    personal-list cache is empty and the last exchange is a successful
    response; after a throw the cache is as it was. *)
Definition writeOutcome (before : ClientState)
    (result : Completion unit * ClientState) : Prop :=
  match fst result with
  | Returned _ =>
      userListQueryCache (snd result) = ∅
      /\ exists earlier request networkResponse,
           exchanges (snd result)
           = (earlier ++ [(request, Resolved networkResponse)])%list
           /\ ok networkResponse = true
  | Threw _ => userListQueryCache (snd result) = userListQueryCache before
  end.

(** What a personal-list write whose last request had the outcome
    [lastOutcome] does: on a successful response it returns and the
    personal-list cache is empty; on any other outcome it throws and the
    cache is as it was. *)
Definition clearsExactlyOnSuccess (lastOutcome : FetchOutcome) (before : ClientState)
    (result : Completion unit * ClientState) : Prop :=
  match lastOutcome with
  | Resolved networkResponse =>
      if ok networkResponse
      then fst result = Returned tt /\ userListQueryCache (snd result) = ∅
      else threw (fst result)
           /\ userListQueryCache (snd result) = userListQueryCache before
  | Rejected _ =>
      threw (fst result) /\ userListQueryCache (snd result) = userListQueryCache before
  end.

(** The response is well formed for the identifier fetch and reports
    [more] with the given truth value. *)
Definition reportsMore (flag : bool) (networkResponse : HttpResponse) : Prop :=
  ok networkResponse = true
  /\ exists responsePayload,
       bodyJson networkResponse = Some responsePayload
       /\ responsePayload <> JNull
       /\ match property responsePayload "more" with
          | Some value => truthy value
          | None => false
          end = flag.

(** The pieces of a decoded page the paging loop uses. *)
Definition rawEntriesOf (responsePayload : Json) : list Json :=
  match property responsePayload "results" with
  | Some (JArray items) => items
  | _ => []
  end.

Definition moreFlagOf (responsePayload : Json) : bool :=
  match property responsePayload "more" with
  | Some flag => truthy flag
  | None => false
  end.

(** The raw entries of the pages that the exchanges [made] brought, in
    the order of arrival. *)
Definition rawEntriesIn (made : list (HttpRequest * FetchOutcome)) : list Json :=
  flat_map (fun exchange =>
              match snd exchange with
              | Resolved networkResponse =>
                  if ok networkResponse
                  then match bodyJson networkResponse with
                       | Some responsePayload => rawEntriesOf responsePayload
                       | None => []
                       end
                  else []
              | Rejected _ => []
              end)
           made.

(** The state after one more exchange. *)
Definition afterExchange (request : HttpRequest) (st : ClientState) : ClientState :=
  {| env := snd (fetch request (env st));
     userListQueryCache := userListQueryCache st;
     exchanges := exchanges st ++ [(request, fst (fetch request (env st)))] |}.

(** What the exchanges made by the paging loop look like, from page
    [firstPage] on: at most the pages up to 40; page after page in order;
    a well-formed response without a truthy [more] is the last exchange;
    every exchange but the last is a well-formed response with a truthy
    [more]. *)
Definition pagedTrace (authenticationToken normalizedUserIdentifier : string)
    (firstPage : Z) (made : list (HttpRequest * FetchOutcome)) : Prop :=
  (length made <= Z.to_nat (41 - firstPage))%nat
  /\ (forall (i : nat) request outcome,
         made !! i = Some (request, outcome) ->
         request = identifierPageRequest authenticationToken normalizedUserIdentifier
                                         (firstPage + Z.of_nat i))
  /\ (forall (i : nat) request networkResponse,
         made !! i = Some (request, Resolved networkResponse) ->
         reportsMore false networkResponse ->
         length made = S i)
  /\ (forall (i : nat) request outcome,
         made !! i = Some (request, outcome) ->
         (S i < length made)%nat ->
         exists networkResponse,
           outcome = Resolved networkResponse /\ reportsMore true networkResponse).

End Vocabulary.

(** *** Sample platforms, for concrete runs *)

Definition quote : string := String (ascii_of_nat 34) EmptyString.

(** A plain serializer (no escaping), enough to tell sample requests
    apart. *)
Fixpoint sampleStringify (v : Json) : string :=
  match v with
  | JNull => "null"
  | JBool true => "true"
  | JBool false => "false"
  | JNumber n => numberToString n
  | JString s => quote ++ s ++ quote
  | JArray items =>
      "[" ++ String.concat "," (map sampleStringify items) ++ "]"
  | JObject fields =>
      "{" ++ String.concat ","
               (map (fun entry => quote ++ fst entry ++ quote ++ ":"
                                  ++ sampleStringify (snd entry)) fields)
          ++ "}"
  end.

(** A remote that gives the scripted answers in order and then repeats
    [whenExhausted]; the clock is the first component of the world. *)
Definition scriptedPlatform (whenExhausted : FetchOutcome) : Platform :=
  {| Env := Z * list FetchOutcome;
     dateNow := fst;
     fetch := fun _ world =>
                match snd world with
                | [] => (whenExhausted, world)
                | answer :: later => (answer, (fst world, later))
                end;
     JSON_stringify := sampleStringify;
     DEV := false |}.

(** A remote that gives the same answer to every request; the world is
    the clock. *)
Definition constantPlatform (answer : FetchOutcome) : Platform :=
  {| Env := Z;
     dateNow := fun world => world;
     fetch := fun _ world => (answer, world);
     JSON_stringify := sampleStringify;
     DEV := false |}.

Definition sampleResponse (code : Z) (decoded : option Json) : FetchOutcome :=
  Resolved {| status := code; bodyText := Some ""; bodyJson := decoded |}.

Definition freshClient `{P : Platform} (world : Env) : ClientState :=
  {| env := world; userListQueryCache := ∅; exchanges := [] |}.

Definition offline : FetchOutcome := Rejected "Failed to fetch".

(** A remote that answers 400 twice, then 200. *)
Definition rejectsTwice : @ClientState (scriptedPlatform offline) :=
  @freshClient (scriptedPlatform offline)
    (0, [sampleResponse 400 None; sampleResponse 400 None; sampleResponse 200 None]).

(** A client that holds a cached page of the personal list, with a
    remote that rejects the next request with 400 and accepts the one
    after it. *)
Definition cachedPageThenRetry : @ClientState (scriptedPlatform offline) :=
  {| env := ((0, [sampleResponse 400 None; sampleResponse 200 None])
             : @Env (scriptedPlatform offline));
     userListQueryCache :=
       {[ "page-1" := {| expiresAt := 60000; payload := JObject [] |} ]};
     exchanges := [] |}.

(** A remote that answers 404 (a client error other than 400), then 200. *)
Definition notFoundOnce : @ClientState (scriptedPlatform offline) :=
  @freshClient (scriptedPlatform offline)
    (0, [sampleResponse 404 None; sampleResponse 200 None]).

(** An account whose every page claims that more pages follow. *)
Definition endlessPage : FetchOutcome :=
  sampleResponse 200
    (Some (JObject [("results", JArray [JObject [("id", JString "v17")]]);
                    ("more", JBool true)])).

End Client.

(* --------------------------------------------------------------------- *)
(** ** The list component                                                 *)
(* --------------------------------------------------------------------- *)

Module ListView.

(** *** Types of [apiTypes.ts] and of the component *)

Record VisualNovelCoverImage : Type := {
  imageId : string;
  imageUrl : string;
  thumbnail : string;
  sexual : Z
}.

Record VisualNovelDatabaseEntry : Type := {
  id : string;
  title : string;
  rating : option Z;
  image : option VisualNovelCoverImage
}.

Record VisualNovelQueryResponse : Type := {
  results : list VisualNovelDatabaseEntry;
  more : bool
}.

Record QueryParameters : Type := {
  queryFilters : Json;
  requestedFields : string;
  maxResults : Z;
  pageNumber : option Z;
  sortField : option string;
  reverseSort : option bool
}.

Inductive QueryKind : Type := KindText | KindTag | KindDeveloper.

Inductive SortField : Type :=
| SortDefault | SortTitle | SortReleased | SortRating | SortVotecount | SortId.

Inductive SortDirection : Type := Asc | Desc.

Record ListFilterState : Type := {
  languages : list string;
  originalLanguage : string;
  onlyWithScreenshots : bool;
  onlyWithDescription : bool
}.

Record ListSortState : Type := {
  field : SortField;
  direction : SortDirection
}.

Record ListQueryDescriptor : Type := {
  kind : QueryKind;
  term : string;
  tagIdentifier : option string;
  developerIdentifier : option string;
  filters : ListFilterState;
  sort : ListSortState
}.

Definition sortFieldName (sortField : SortField) : string :=
  match sortField with
  | SortDefault => "default"
  | SortTitle => "title"
  | SortReleased => "released"
  | SortRating => "rating"
  | SortVotecount => "votecount"
  | SortId => "id"
  end.

(** *** Identifier helpers *)

(** [normalizeEntryIdentifier(rawIdentifier)]; [None] as argument is
    [undefined], [None] as result is [null]. *)
Definition normalizeEntryIdentifier (rawIdentifier : option Json) : option string :=
  match rawIdentifier with
  | Some (JString rawString) =>
      if negb (String.eqb (trim rawString) "") then Some (trim rawString) else None
  | Some (JNumber rawNumber) => Some (numberToString rawNumber)
  | _ => None
  end.

Definition normalizeVisualNovelIdentifier (rawIdentifier : option Json) : option string :=
  match normalizeEntryIdentifier rawIdentifier with
  | None => None
  | Some normalizedIdentifier =>
      if String.eqb normalizedIdentifier "" then None
      else Some (if startsWith (toLowerCase normalizedIdentifier) "v"
                 then toLowerCase normalizedIdentifier
                 else "v" ++ toLowerCase normalizedIdentifier)
  end.

(** *** [deriveStatusLabelFromUnknownLabels] *)

Definition STATUS_LABEL_IDENTIFIERS : list Z := [1; 2; 3; 4; 5; 6].

(** The callback of [rawLabels.map]: a number, a string holding digits,
    or an object with such an [id]; [None] is [null]. *)
Definition normalizeRawLabel (rawLabel : Json) : option Z :=
  match rawLabel with
  | JNumber labelIdentifier => Some labelIdentifier
  | JString labelText => finiteNumberOfDigits (keepDigits labelText)
  | JObject labelFields =>
      match assoc "id" labelFields with
      | Some (JNumber labelIdentifierCandidate) => Some labelIdentifierCandidate
      | Some (JString labelIdentifierCandidate) =>
          finiteNumberOfDigits (keepDigits labelIdentifierCandidate)
      | _ => None
      end
  | _ => None
  end.

Definition normalizeLabels (rawLabels : list Json) : list Z :=
  omap normalizeRawLabel rawLabels.

(** [normalizedLabels.includes(statusLabelIdentifier)] *)
Definition includes (normalizedLabels : list Z) (statusLabelIdentifier : Z) : bool :=
  existsb (Z.eqb statusLabelIdentifier) normalizedLabels.

Definition deriveStatusLabelFromUnknownLabels (rawLabels : option Json) : option Z :=
  match rawLabels with
  | Some (JArray labelItems) =>
      let normalizedLabels := normalizeLabels labelItems in
      List.find (includes normalizedLabels) STATUS_LABEL_IDENTIFIERS
  | _ => None
  end.

(** The key under which the card of [novelEntryId] looks up the
    membership set and the status map. *)
Definition cardIdentifier (novelEntryId : string) : string :=
  if startsWith (toLowerCase novelEntryId) "v"
  then toLowerCase novelEntryId
  else "v" ++ toLowerCase novelEntryId.


(** The body of the [forEach] that builds [normalizedUserListStatuses] in
    [executeAuthenticatedUserListFetch], for an entry that is not [null]
    (reading [.vn] of [null] throws). *)
Definition recordUserListStatus (normalizedUserListStatuses : gmap string Z)
    (userListEntry : Json) : gmap string Z :=
  let rawVisualNovelPayload := property userListEntry "vn" in
  let identifierFromVn :=
    match rawVisualNovelPayload with
    | Some (JObject vnFields) => normalizeVisualNovelIdentifier (assoc "id" vnFields)
    | _ => None
    end in
  let identifierFromEntry := normalizeVisualNovelIdentifier (property userListEntry "id") in
  let normalizedVisualNovelIdentifier :=
    match identifierFromVn with
    | Some identifier => Some identifier
    | None => identifierFromEntry
    end in
  let normalizedStatusLabel :=
    deriveStatusLabelFromUnknownLabels (property userListEntry "labels") in
  match normalizedVisualNovelIdentifier, normalizedStatusLabel with
  | Some identifier, Some statusLabel =>
      if String.eqb identifier "" then normalizedUserListStatuses
      else <[identifier := statusLabel]> normalizedUserListStatuses
  | _, _ => normalizedUserListStatuses
  end.

Definition buildUserListStatuses (accumulatedUserListEntries : list Json) : gmap string Z :=
  fold_left recordUserListStatus accumulatedUserListEntries ∅.

(** *** [buildFiltersFromQueryDescriptor] *)

Definition leaf (name operator : string) (value : Json) : Json :=
  JArray [JString name; JString operator; value].

(** A property that holds an optional string is truthy when it is set and
    not empty. *)
Definition truthyIdentifier (identifier : option string) : option string :=
  match identifier with
  | Some text => if String.eqb text "" then None else Some text
  | None => None
  end.

Definition primaryClause (queryDescriptor : ListQueryDescriptor) : Json :=
  match kind queryDescriptor, truthyIdentifier (tagIdentifier queryDescriptor),
        truthyIdentifier (developerIdentifier queryDescriptor) with
  | KindTag, Some tag, _ => leaf "tag" "=" (JString tag)
  | KindDeveloper, _, Some developer =>
      leaf "developer" "=" (leaf "id" "=" (JString developer))
  | _, _, _ =>
      if negb (String.eqb (trim (term queryDescriptor)) "")
      then leaf "search" "=" (JString (term queryDescriptor))
      else leaf "id" ">=" (JString "v1")
  end.

Definition languageClauses (selected : list string) : list Json :=
  match selected with
  | [] => []
  | [languageCode] => [leaf "lang" "=" (JString languageCode)]
  | _ => [JArray (JString "or"
                  :: map (fun languageCode => leaf "lang" "=" (JString languageCode))
                         selected)]
  end.

(** The array [filterClauses] after all the pushes. *)
Definition filterClauses (queryDescriptor : ListQueryDescriptor) : list Json :=
  let activeFilters := filters queryDescriptor in
  [primaryClause queryDescriptor]
  ++ languageClauses (languages activeFilters)
  ++ (if negb (String.eqb (trim (originalLanguage activeFilters)) "")
      then [leaf "olang" "=" (JString (originalLanguage activeFilters))] else [])
  ++ (if onlyWithScreenshots activeFilters
      then [leaf "has_screenshot" "=" (JBool true)] else [])
  ++ (if onlyWithDescription activeFilters
      then [leaf "has_description" "=" (JBool true)] else []).

Definition buildFiltersFromQueryDescriptor (queryDescriptor : ListQueryDescriptor) : Json :=
  match filterClauses queryDescriptor with
  | [onlyClause] => onlyClause
  | clauses => JArray (JString "and" :: clauses)
  end.

(** *** [sortVisualNovelEntries] *)

(** [Array.prototype.sort] is stable; for a comparator that is a
    consistent ordering it is this insertion sort. *)
Fixpoint insertSorted {A} (compare : A -> A -> Z) (x : A) (sorted : list A) : list A :=
  match sorted with
  | [] => [x]
  | y :: rest =>
      if compare x y <=? 0 then x :: sorted else y :: insertSorted compare x rest
  end.

Definition stableSort {A} (compare : A -> A -> Z) (items : list A) : list A :=
  fold_right (insertSorted compare) [] items.

(** [/^\d/.test(text)] *)
Definition startsWithDigit (text : string) : bool :=
  match text with
  | String c _ => isDigit c
  | EmptyString => false
  end.

Section Sorting.
(** [a.localeCompare(b, undefined, {numeric: true, sensitivity: 'base'})]
    and [a.localeCompare(b)]: locale-dependent platform functions. *)
Variable localeCompareNumericBase : string -> string -> Z.
Variable localeCompare : string -> string -> Z.

Definition compareEntries (sortConfiguration : ListSortState)
    (firstEntry secondEntry : VisualNovelDatabaseEntry) : Z :=
  match field sortConfiguration with
  | SortTitle =>
      let normalizedFirstTitle := trim (title firstEntry) in
      let normalizedSecondTitle := trim (title secondEntry) in
      let firstTitleStartsWithDigit := startsWithDigit normalizedFirstTitle in
      let secondTitleStartsWithDigit := startsWithDigit normalizedSecondTitle in
      if negb (Bool.eqb firstTitleStartsWithDigit secondTitleStartsWithDigit)
      then (if firstTitleStartsWithDigit then -1 else 1)
      else localeCompareNumericBase normalizedFirstTitle normalizedSecondTitle
  | SortRating => default (-1) (rating firstEntry) - default (-1) (rating secondEntry)
  | SortId => localeCompare (id firstEntry) (id secondEntry)
  | _ => 0
  end.

Definition sortVisualNovelEntries (entriesToSort : list VisualNovelDatabaseEntry)
    (sortConfiguration : ListSortState) : list VisualNovelDatabaseEntry :=
  match field sortConfiguration with
  | SortDefault => entriesToSort
  | _ =>
      let sortedEntries := stableSort (compareEntries sortConfiguration) entriesToSort in
      match direction sortConfiguration with
      | Desc => rev sortedEntries
      | Asc => sortedEntries
      end
  end.
End Sorting.

(** *** [chunkArray] *)

(** [items.slice(from, to)] for indexes within range order. *)
Definition slice {A} (items : list A) (from to : nat) : list A :=
  firstn (to - from) (skipn from items).

(** The [for] loop of [chunkArray], from [index] on; it runs at most
    [length items] times because [chunkSize] is positive. *)
Fixpoint chunksFrom {A} (fuel : nat) (items : list A) (chunkSize index : nat)
  : list (list A) :=
  match fuel with
  | O => []
  | S fuel' =>
      if (index <? length items)%nat
      then slice items index (index + chunkSize)
           :: chunksFrom fuel' items chunkSize (index + chunkSize)
      else []
  end.

Definition chunkArray {A} (items : list A) (chunkSize : Z) : list (list A) :=
  if chunkSize <=? 0 then [items]
  else chunksFrom (length items) items (Z.to_nat chunkSize) 0.

(** [[...new Set(values)]]: the values in first-occurrence order. *)
Fixpoint distinctAfter (seen values : list string) : list string :=
  match values with
  | [] => []
  | value :: rest =>
      if existsb (String.eqb value) seen then distinctAfter seen rest
      else value :: distinctAfter (value :: seen) rest
  end.

Definition distinct (values : list string) : list string := distinctAfter [] values.

(** *** Hydration of the personal list
    (the second half of [executeAuthenticatedUserListFetch]) *)

Definition LIST_FIELDS : string := "id, title, rating, image.thumbnail, image.sexual".

(** [id.toLowerCase().startsWith('v') ? id : `v${id}`] *)
Definition hydrationIdentifier (entryIdentifier : string) : string :=
  if startsWith (toLowerCase entryIdentifier) "v" then entryIdentifier
  else "v" ++ entryIdentifier.

Definition identifierFilters (identifierChunk : list string) : Json :=
  match identifierChunk with
  | [onlyIdentifier] => leaf "id" "=" (JString onlyIdentifier)
  | _ => JArray (JString "or"
                 :: map (fun visualNovelIdentifier =>
                           leaf "id" "=" (JString visualNovelIdentifier))
                        identifierChunk)
  end.

Definition hydrationRequest (identifierChunk : list string) : QueryParameters :=
  {| queryFilters := identifierFilters identifierChunk;
     requestedFields := LIST_FIELDS;
     maxResults := Z.of_nat (length identifierChunk);
     pageNumber := None;
     sortField := None;
     reverseSort := None |}.

Definition hasPlaceholderEntries (normalizedVisualNovelEntries : list VisualNovelDatabaseEntry)
  : bool :=
  existsb (fun userListEntry => String.eqb (trim (title userListEntry)) "")
          normalizedVisualNovelEntries.

Definition distinctVisualNovelIdentifiers
    (normalizedVisualNovelEntries : list VisualNovelDatabaseEntry) : list string :=
  distinct (map (fun userListEntry => hydrationIdentifier (id userListEntry))
                normalizedVisualNovelEntries).

Definition recordHydratedEntry (hydratedEntriesByIdentifier : gmap string VisualNovelDatabaseEntry)
    (hydratedEntry : VisualNovelDatabaseEntry) : gmap string VisualNovelDatabaseEntry :=
  <[hydrationIdentifier (id hydratedEntry) := hydratedEntry]> hydratedEntriesByIdentifier.

Definition hydratedAndFallbackEntries
    (hydratedEntriesByIdentifier : gmap string VisualNovelDatabaseEntry)
    (normalizedVisualNovelEntries : list VisualNovelDatabaseEntry)
  : list VisualNovelDatabaseEntry :=
  map (fun userListEntry =>
         default userListEntry
                 (hydratedEntriesByIdentifier !! hydrationIdentifier (id userListEntry)))
      normalizedVisualNovelEntries.

Section Hydration.
(** The imported API function [fetchVisualNovelEntries], at the type the
    component uses it: an [async] function over the state [World] of
    the client module and the remote. *)
Context {World : Type}.
Variable fetchVisualNovelEntries : QueryParameters -> M World VisualNovelQueryResponse.
Variable localeCompareNumericBase : string -> string -> Z.
Variable localeCompare : string -> string -> Z.
Local Open Scope async_scope.

(** The [for ... of identifierChunks] loop. *)
Fixpoint hydrateChunks (identifierChunks : list (list string))
    (hydratedEntriesByIdentifier : gmap string VisualNovelDatabaseEntry)
  : M World (gmap string VisualNovelDatabaseEntry) :=
  match identifierChunks with
  | [] => ret hydratedEntriesByIdentifier
  | identifierChunk :: remainingChunks =>
      hydratedVisualNovelResponse <-
        fetchVisualNovelEntries (hydrationRequest identifierChunk) ;;
      hydrateChunks remainingChunks
        (fold_left recordHydratedEntry (results hydratedVisualNovelResponse)
                   hydratedEntriesByIdentifier)
  end.

(** From [normalizedVisualNovelEntries] to the list handed to
    [setVisualNovelDatabaseEntries]. *)
Definition hydrateUserListEntries
    (normalizedVisualNovelEntries : list VisualNovelDatabaseEntry)
    (appliedSort : ListSortState) : M World (list VisualNovelDatabaseEntry) :=
  if hasPlaceholderEntries normalizedVisualNovelEntries
  then
    let identifierChunks :=
      chunkArray (distinctVisualNovelIdentifiers normalizedVisualNovelEntries) 100 in
    hydratedEntriesByIdentifier <- hydrateChunks identifierChunks ∅ ;;
    ret (sortVisualNovelEntries localeCompareNumericBase localeCompare
           (hydratedAndFallbackEntries hydratedEntriesByIdentifier
                                       normalizedVisualNovelEntries)
           appliedSort)
  else
    ret (sortVisualNovelEntries localeCompareNumericBase localeCompare
           normalizedVisualNovelEntries appliedSort).
End Hydration.

(** *** The component state and its asynchronous flows *)

(** The [useState] cells the fetch flows read and write. *)
Record ListState : Type := {
  visualNovelDatabaseEntries : list VisualNovelDatabaseEntry;
  isDataLoading : bool;
  isLoadingAdditionalPage : bool;
  networkErrorMessage : option string;
  activeQueryDescriptor : ListQueryDescriptor;
  isViewingUserList : bool;
  currentResultPage : Z;
  hasAdditionalResults : bool;
  userListIdentifierSet : gset string
}.

Definition setVisualNovelDatabaseEntries
    (update : list VisualNovelDatabaseEntry -> list VisualNovelDatabaseEntry)
    (s : ListState) : ListState :=
  {| visualNovelDatabaseEntries := update (visualNovelDatabaseEntries s);
     isDataLoading := isDataLoading s;
     isLoadingAdditionalPage := isLoadingAdditionalPage s;
     networkErrorMessage := networkErrorMessage s;
     activeQueryDescriptor := activeQueryDescriptor s;
     isViewingUserList := isViewingUserList s;
     currentResultPage := currentResultPage s;
     hasAdditionalResults := hasAdditionalResults s;
     userListIdentifierSet := userListIdentifierSet s |}.

Definition setIsDataLoading (value : bool) (s : ListState) : ListState :=
  {| visualNovelDatabaseEntries := visualNovelDatabaseEntries s;
     isDataLoading := value;
     isLoadingAdditionalPage := isLoadingAdditionalPage s;
     networkErrorMessage := networkErrorMessage s;
     activeQueryDescriptor := activeQueryDescriptor s;
     isViewingUserList := isViewingUserList s;
     currentResultPage := currentResultPage s;
     hasAdditionalResults := hasAdditionalResults s;
     userListIdentifierSet := userListIdentifierSet s |}.

Definition setIsLoadingAdditionalPage (value : bool) (s : ListState) : ListState :=
  {| visualNovelDatabaseEntries := visualNovelDatabaseEntries s;
     isDataLoading := isDataLoading s;
     isLoadingAdditionalPage := value;
     networkErrorMessage := networkErrorMessage s;
     activeQueryDescriptor := activeQueryDescriptor s;
     isViewingUserList := isViewingUserList s;
     currentResultPage := currentResultPage s;
     hasAdditionalResults := hasAdditionalResults s;
     userListIdentifierSet := userListIdentifierSet s |}.

Definition setNetworkErrorMessage (value : option string) (s : ListState) : ListState :=
  {| visualNovelDatabaseEntries := visualNovelDatabaseEntries s;
     isDataLoading := isDataLoading s;
     isLoadingAdditionalPage := isLoadingAdditionalPage s;
     networkErrorMessage := value;
     activeQueryDescriptor := activeQueryDescriptor s;
     isViewingUserList := isViewingUserList s;
     currentResultPage := currentResultPage s;
     hasAdditionalResults := hasAdditionalResults s;
     userListIdentifierSet := userListIdentifierSet s |}.

Definition setActiveQueryDescriptor (value : ListQueryDescriptor) (s : ListState) : ListState :=
  {| visualNovelDatabaseEntries := visualNovelDatabaseEntries s;
     isDataLoading := isDataLoading s;
     isLoadingAdditionalPage := isLoadingAdditionalPage s;
     networkErrorMessage := networkErrorMessage s;
     activeQueryDescriptor := value;
     isViewingUserList := isViewingUserList s;
     currentResultPage := currentResultPage s;
     hasAdditionalResults := hasAdditionalResults s;
     userListIdentifierSet := userListIdentifierSet s |}.

Definition setCurrentResultPage (value : Z) (s : ListState) : ListState :=
  {| visualNovelDatabaseEntries := visualNovelDatabaseEntries s;
     isDataLoading := isDataLoading s;
     isLoadingAdditionalPage := isLoadingAdditionalPage s;
     networkErrorMessage := networkErrorMessage s;
     activeQueryDescriptor := activeQueryDescriptor s;
     isViewingUserList := isViewingUserList s;
     currentResultPage := value;
     hasAdditionalResults := hasAdditionalResults s;
     userListIdentifierSet := userListIdentifierSet s |}.

Definition setHasAdditionalResults (value : bool) (s : ListState) : ListState :=
  {| visualNovelDatabaseEntries := visualNovelDatabaseEntries s;
     isDataLoading := isDataLoading s;
     isLoadingAdditionalPage := isLoadingAdditionalPage s;
     networkErrorMessage := networkErrorMessage s;
     activeQueryDescriptor := activeQueryDescriptor s;
     isViewingUserList := isViewingUserList s;
     currentResultPage := currentResultPage s;
     hasAdditionalResults := value;
     userListIdentifierSet := userListIdentifierSet s |}.

Definition setUserListIdentifierSet (value : gset string) (s : ListState) : ListState :=
  {| visualNovelDatabaseEntries := visualNovelDatabaseEntries s;
     isDataLoading := isDataLoading s;
     isLoadingAdditionalPage := isLoadingAdditionalPage s;
     networkErrorMessage := networkErrorMessage s;
     activeQueryDescriptor := activeQueryDescriptor s;
     isViewingUserList := isViewingUserList s;
     currentResultPage := currentResultPage s;
     hasAdditionalResults := hasAdditionalResults s;
     userListIdentifierSet := value |}.

Definition RESULTS_PER_PAGE : Z := 20.

(** The arguments of one call of [executeDataFetchOperation]; the flow
    keeps them across its [await]. *)
Record DataFetch : Type := {
  queryDescriptor : ListQueryDescriptor;
  requestedPage : Z;
  shouldAppendResults : bool
}.

(** The request the flow hands to [fetchVisualNovelEntries]. *)
Definition queryConfiguration (flow : DataFetch) : QueryParameters :=
  let requestedSort := sort (queryDescriptor flow) in
  {| queryFilters := buildFiltersFromQueryDescriptor (queryDescriptor flow);
     requestedFields := LIST_FIELDS;
     maxResults := RESULTS_PER_PAGE;
     pageNumber := Some (requestedPage flow);
     sortField := match field requestedSort with
                  | SortDefault => None
                  | chosen => Some (sortFieldName chosen)
                  end;
     reverseSort := match field requestedSort with
                    | SortDefault => None
                    | _ => Some (match direction requestedSort with
                                 | Desc => true
                                 | Asc => false
                                 end)
                    end |}.

(** [executeDataFetchOperation] up to its [await]. *)
Definition startDataFetch (flow : DataFetch) (s : ListState) : ListState :=
  setNetworkErrorMessage None
    (if shouldAppendResults flow
     then setIsLoadingAdditionalPage true s
     else setIsDataLoading true s).

(** [executeDataFetchOperation] from the point where the awaited
    [fetchVisualNovelEntries] settles: the rest of the [try] block or the
    [catch] block, then the [finally] block. *)
Definition settleDataFetch (flow : DataFetch)
    (outcome : Completion VisualNovelQueryResponse) (s : ListState) : ListState :=
  let afterTry :=
    match outcome with
    | Returned responsePayload =>
        setActiveQueryDescriptor (queryDescriptor flow)
          (setHasAdditionalResults (more responsePayload)
             (setCurrentResultPage (requestedPage flow)
                (setVisualNovelDatabaseEntries
                   (fun currentEntries =>
                      if shouldAppendResults flow
                      then (currentEntries ++ results responsePayload)%list
                      else results responsePayload)
                   s)))
    | Threw message => setNetworkErrorMessage (Some message) s
    end in
  if shouldAppendResults flow
  then setIsLoadingAdditionalPage false afterTry
  else setIsDataLoading false afterTry.

(** [loadNextPage]: the call of [executeDataFetchOperation] it makes, if
    any.  The function is a [useCallback] closure: the state it reads is
    the state [s] of the render that created it, not the state cells as
    they are when it is called. *)
Definition loadNextPage (s : ListState) : option DataFetch :=
  if isViewingUserList s || isDataLoading s || isLoadingAdditionalPage s
     || negb (hasAdditionalResults s)
  then None
  else Some {| queryDescriptor := activeQueryDescriptor s;
               requestedPage := currentResultPage s + 1;
               shouldAppendResults := true |}.

(** [networkErrorMessage] as a condition of the JSX: [null] and the empty
    text are falsy. *)
Definition showsErrorMessage (s : ListState) : bool :=
  match networkErrorMessage s with
  | Some message => negb (String.eqb message "")
  | None => false
  end.

(** The condition [!isDataLoading && !networkErrorMessage] under which
    a render puts out the result list and, after it, the pagination
    sentinel. *)
Definition showsList (s : ListState) : bool :=
  negb (isDataLoading s) && negb (showsErrorMessage s).

(** The membership effect: the body of [executeUserListIdentifierFetch]
    after its [await], given the value of the run's own
    [hasLifecycleBeenCancelled] at that time. *)
Definition settleUserListIdentifierFetch (hasLifecycleBeenCancelled : bool)
    (outcome : Completion (gset string)) (s : ListState) : ListState :=
  if hasLifecycleBeenCancelled then s
  else match outcome with
       | Returned visualNovelIdentifierSet =>
           setUserListIdentifierSet visualNovelIdentifierSet s
       | Threw _ => setUserListIdentifierSet ∅ s
       end.

(** A browsing session: the component state, the calls of
    [executeDataFetchOperation] made so far (the flows own their
    arguments until they settle), and one [hasLifecycleBeenCancelled]
    variable per run of the membership effect.  [view] holds the state
    cells with every update applied; a [set...] call only queues a
    render, so [rendered] holds the state that the last render saw: the
    state in its closures and behind its output. *)
Record Session : Type := {
  view : ListState;
  rendered : ListState;
  dataFetches : list DataFetch;
  lifecycleCancelled : list bool
}.

Inductive Event : Type :=
| DataFetchRequested (flow : DataFetch)
    (* a handler or effect calls [executeDataFetchOperation] *)
| Render
    (* the component renders with the current state; the effect of the
       pagination observer attaches the observer to the sentinel of this
       render, with the [loadNextPage] of this render *)
| ScrollTrigger
    (* the observer reports the pagination sentinel as visible:
       [loadNextPage()]; there is no sentinel to report when the last
       render did not put out the list *)
| DataFetchSettles (flowIndex : nat) (outcome : Completion VisualNovelQueryResponse)
    (* the fetch awaited by the [flowIndex]-th call settles *)
| MembershipEffectRuns (canReadList : bool)
    (* the membership effect re-runs: cleanup of the previous run, then
       the new run; [canReadList] is [authenticatedSession &&
       hasListReadPermission] *)
| MembershipFetchSettles (runIndex : nat) (outcome : Completion (gset string)).
    (* the fetch awaited by the [runIndex]-th run settles *)

Definition step (session : Session) (event : Event) : Session :=
  match event with
  | DataFetchRequested flow =>
      {| view := startDataFetch flow (view session);
         rendered := rendered session;
         dataFetches := (dataFetches session ++ [flow])%list;
         lifecycleCancelled := lifecycleCancelled session |}
  | Render =>
      {| view := view session;
         rendered := view session;
         dataFetches := dataFetches session;
         lifecycleCancelled := lifecycleCancelled session |}
  | ScrollTrigger =>
      if showsList (rendered session)
      then
        match loadNextPage (rendered session) with
        | Some flow =>
            {| view := startDataFetch flow (view session);
               rendered := rendered session;
               dataFetches := (dataFetches session ++ [flow])%list;
               lifecycleCancelled := lifecycleCancelled session |}
        | None => session
        end
      else session
  | DataFetchSettles flowIndex outcome =>
      match dataFetches session !! flowIndex with
      | Some flow =>
          {| view := settleDataFetch flow outcome (view session);
             rendered := rendered session;
             dataFetches := dataFetches session;
             lifecycleCancelled := lifecycleCancelled session |}
      | None => session
      end
  | MembershipEffectRuns canReadList =>
      let previousRun := (length (lifecycleCancelled session) - 1)%nat in
      {| view := if canReadList then view session
                 else setUserListIdentifierSet ∅ (view session);
         rendered := rendered session;
         dataFetches := dataFetches session;
         lifecycleCancelled :=
           (<[previousRun := true]> (lifecycleCancelled session) ++ [false])%list |}
  | MembershipFetchSettles runIndex outcome =>
      match lifecycleCancelled session !! runIndex with
      | Some hasLifecycleBeenCancelled =>
          {| view := settleUserListIdentifierFetch hasLifecycleBeenCancelled outcome
                       (view session);
             rendered := rendered session;
             dataFetches := dataFetches session;
             lifecycleCancelled := lifecycleCancelled session |}
      | None => session
      end
  end.

Definition run (session : Session) (events : list Event) : Session :=
  fold_left step events session.

(** *** Vocabulary of the statements about the component *)

(** The key of the rating order: a missing rating counts as -1. *)
Definition ratingKey (entry : VisualNovelDatabaseEntry) : Z := default (-1) (rating entry).

(** No filter besides the primary clause is set. *)
Definition noExtraFilters (activeFilters : ListFilterState) : Prop :=
  languages activeFilters = []
  /\ trim (originalLanguage activeFilters) = ""
  /\ onlyWithScreenshots activeFilters = false
  /\ onlyWithDescription activeFilters = false.

(** The initial values of the [useState] cells. *)
Definition initialListState (initialFilterState : ListFilterState)
    (initialSortState : ListSortState) : ListState :=
  {| visualNovelDatabaseEntries := [];
     isDataLoading := true;
     isLoadingAdditionalPage := false;
     networkErrorMessage := None;
     activeQueryDescriptor :=
       {| kind := KindText; term := ""; tagIdentifier := None; developerIdentifier := None;
          filters := initialFilterState; sort := initialSortState |};
     isViewingUserList := false;
     currentResultPage := 1;
     hasAdditionalResults := false;
     userListIdentifierSet := ∅ |}.

Definition initialSession (initialFilterState : ListFilterState)
    (initialSortState : ListSortState) : Session :=
  {| view := initialListState initialFilterState initialSortState;
     rendered := initialListState initialFilterState initialSortState;
     dataFetches := [];
     lifecycleCancelled := [] |}.

(** The component shows search results, no fetch is marked as running,
    and the last response announced more results. *)
Definition readyForNextPage (s : ListState) : Prop :=
  isViewingUserList s = false
  /\ isDataLoading s = false
  /\ isLoadingAdditionalPage s = false
  /\ hasAdditionalResults s = true.

(** The flow started by a scroll trigger in a state that is ready for
    the next page. *)
Definition nextPageFlow (s : ListState) : DataFetch :=
  {| queryDescriptor := activeQueryDescriptor s;
     requestedPage := currentResultPage s + 1;
     shouldAppendResults := true |}.

(** The last render saw the state as it is now and put out the list, and
    the state is ready for the next page: the observer is on the
    sentinel, with a [loadNextPage] that is up to date. *)
Definition awaitsScroll (session : Session) : Prop :=
  rendered session = view session
  /\ showsList (view session) = true
  /\ readyForNextPage (view session).

(** The state after the next page [responsePayload] has been appended to
    a state that was ready for it. *)
Definition withNextPage (responsePayload : VisualNovelQueryResponse) (s : ListState)
  : ListState :=
  {| visualNovelDatabaseEntries :=
       (visualNovelDatabaseEntries s ++ results responsePayload)%list;
     isDataLoading := false;
     isLoadingAdditionalPage := false;
     networkErrorMessage := None;
     activeQueryDescriptor := activeQueryDescriptor s;
     isViewingUserList := false;
     currentResultPage := currentResultPage s + 1;
     hasAdditionalResults := more responsePayload;
     userListIdentifierSet := userListIdentifierSet s |}.

(** A fresh search: [executeDataFetchOperation(descriptor, 1, false)]. *)
Definition replaceWith (descriptor : ListQueryDescriptor) : DataFetch :=
  {| queryDescriptor := descriptor; requestedPage := 1; shouldAppendResults := false |}.

(** [fetchVisualNovelEntries] with a record of the calls made: every call
    is appended, with how it ended, to the second component of the
    world. *)
Definition recorded {World : Type}
    (fetchVisualNovelEntries : QueryParameters -> M World VisualNovelQueryResponse)
  : QueryParameters
    -> M (World * list (QueryParameters * Completion VisualNovelQueryResponse))
         VisualNovelQueryResponse :=
  fun parameters world =>
    let (completion, after) := fetchVisualNovelEntries parameters (fst world) in
    (completion, (after, (snd world ++ [(parameters, completion)])%list)).

(** No entry of a returned batch answers for [userListEntry]. *)
Definition unmatchedBy
    (calls : list (QueryParameters * Completion VisualNovelQueryResponse))
    (userListEntry : VisualNovelDatabaseEntry) : Prop :=
  forall parameters hydratedVisualNovelResponse hydratedEntry,
    In (parameters, Returned hydratedVisualNovelResponse) calls ->
    In hydratedEntry (results hydratedVisualNovelResponse) ->
    hydrationIdentifier (id hydratedEntry) <> hydrationIdentifier (id userListEntry).

(** *** Sample data *)

Definition plainFilters : ListFilterState :=
  {| languages := []; originalLanguage := "";
     onlyWithScreenshots := false; onlyWithDescription := false |}.

Definition relevanceOrder : ListSortState := {| field := SortDefault; direction := Desc |}.

Definition textQuery (searchTerm : string) : ListQueryDescriptor :=
  {| kind := KindText; term := searchTerm; tagIdentifier := None;
     developerIdentifier := None; filters := plainFilters; sort := relevanceOrder |}.

Definition sampleEntry (entryIdentifier entryTitle : string) : VisualNovelDatabaseEntry :=
  {| id := entryIdentifier; title := entryTitle; rating := None; image := None |}.

(** A remote that knows no title: every batch lookup returns nothing. *)
Definition emptyBatches : QueryParameters -> M unit VisualNovelQueryResponse :=
  fun _ world => (Returned {| results := []; more := false |}, world).

(** The component after its first page has arrived with [more] set. *)
Definition firstPageLoaded : Session :=
  run (initialSession plainFilters relevanceOrder)
    [DataFetchRequested (replaceWith (textQuery ""));
     Render;
     DataFetchSettles 0 (Returned {| results := []; more := true |});
     Render].

Definition pageOf (size : nat) (entryIdentifier : string) : list VisualNovelDatabaseEntry :=
  List.repeat (sampleEntry entryIdentifier "Title") size.

(** A comparator for runs that do not sort. *)
Definition noCompare : string -> string -> Z := fun _ _ => 0.

(** The list of the specification's example: a placeholder and a known
    entry. *)
Definition placeholderAndKnown : list VisualNovelDatabaseEntry :=
  [sampleEntry "v1" ""; sampleEntry "v2" "Known"].

Definition hydratedExample
  : Completion (list VisualNovelDatabaseEntry)
    * (unit * list (QueryParameters * Completion VisualNovelQueryResponse)) :=
  hydrateUserListEntries (recorded emptyBatches) noCompare noCompare
    placeholderAndKnown relevanceOrder (tt, []).

End ListView.

(* --------------------------------------------------------------------- *)
(** ** The description renderer                                           *)
(* --------------------------------------------------------------------- *)

Module Markup.

(** The React nodes the renderer produces. *)
Inductive ReactNode : Type :=
| Text (text : string)
| Br (key : string)
| Strong (key : string) (children : list ReactNode)
| Em (key : string) (children : list ReactNode)
| Underline (key : string) (children : list ReactNode)
| Span (key : string) (children : list ReactNode)
| Anchor (key : string) (href : string) (children : list ReactNode).

Inductive Tag : Type := TagB | TagI | TagU | TagUrl | TagRoot.

Definition tagName (tag : Tag) : string :=
  match tag with
  | TagB => "b" | TagI => "i" | TagU => "u" | TagUrl => "url" | TagRoot => "root"
  end.

Record ParsedTagNode : Type := {
  tag : Tag;
  url : option string;
  children : list ReactNode
}.

Definition extractPlainText (nodes : list ReactNode) : string :=
  trim (String.concat ""
          (map (fun node => match node with Text text => text | _ => "" end) nodes)).

(** [/^[a-zA-Z][a-zA-Z\d+\-.]*:/.test(text)] *)
Fixpoint schemeTail (text : string) : bool :=
  match text with
  | EmptyString => false
  | String c rest =>
      if Ascii.eqb c ":" then true
      else if isLetter c || isDigit c || Ascii.eqb c "+" || Ascii.eqb c "-" || Ascii.eqb c "."
           then schemeTail rest
           else false
  end.

Definition hasScheme (text : string) : bool :=
  match text with
  | String c rest => isLetter c && schemeTail rest
  | EmptyString => false
  end.

(** What the code reads from a [URL] object. *)
Record ParsedUrl : Type := {
  protocol : string;
  serialized : string  (* [parsedUrl.toString()] *)
}.

Section WithUrlParser.
(** [new URL(text)]: the platform's URL parser; [None] when the
    constructor throws. *)
Variable parseUrl : string -> option ParsedUrl.

Definition withProtocol (trimmedUrl : string) : string :=
  if hasScheme trimmedUrl then trimmedUrl else "https://" ++ trimmedUrl.

Definition allowedProtocol (scheme : string) : bool :=
  String.eqb scheme "http:" || String.eqb scheme "https:" || String.eqb scheme "mailto:".

Definition normalizeUrl (rawUrl : string) : option string :=
  let trimmedUrl := trim rawUrl in
  if (String.length trimmedUrl =? 0)%nat then None
  else
    match parseUrl (withProtocol trimmedUrl) with
    | Some parsedUrl =>
        if allowedProtocol (protocol parsedUrl) then Some (serialized parsedUrl) else None
    | None => None
    end.

Definition renderTagNode (node : ParsedTagNode) (key : string) : ReactNode :=
  match tag node with
  | TagB => Strong key (children node)
  | TagI => Em key (children node)
  | TagU => Underline key (children node)
  | _ =>
      let fallbackText := extractPlainText (children node) in
      match normalizeUrl (default fallbackText (url node)) with
      | Some resolvedUrl =>
          if String.eqb resolvedUrl "" then Span key (children node)
          else Anchor key resolvedUrl (children node)
      | None => Span key (children node)
      end
  end.

(** *** The tokens of [SUPPORTED_TOKEN_PATTERN] *)

(** Case-insensitive prefix test, for a lower-case [name]. *)
Definition startsWithIgnoringCase (text name : string) : bool :=
  startsWith (toLowerCase text) name.

Fixpoint untilBracket (text : string) : string :=
  match text with
  | EmptyString => EmptyString
  | String c rest => if Ascii.eqb c "]" then EmptyString else String c (untilBracket rest)
  end.

(** After the tag name: either the closing bracket, or an argument
    [=...] of at least one character up to the next closing bracket.
    The result is the matched text after the name, bracket excluded. *)
Definition matchArgument (afterName : string) : option string :=
  match afterName with
  | String c rest =>
      if Ascii.eqb c "]" then Some ""
      else if Ascii.eqb c "="
           then let argument := untilBracket rest in
                if (String.length argument =? 0)%nat then None
                else if startsWith (substring (String.length argument) 1 rest) "]"
                          && (String.length argument <? String.length rest)%nat
                     then Some (String c argument)
                     else None
           else None
  | EmptyString => None
  end.

(** The alternatives [b|i|u|url], tried in this order. *)
Fixpoint matchNames (names : list string) (afterSlash : string) : option string :=
  match names with
  | [] => None
  | name :: others =>
      let attempt :=
        if startsWithIgnoringCase afterSlash name
        then match matchArgument (substring (String.length name)
                                            (String.length afterSlash) afterSlash) with
             | Some argument => Some (substring 0 (String.length name) afterSlash ++ argument)
             | None => None
             end
        else None in
      match attempt with
      | Some body => Some body
      | None => matchNames others afterSlash
      end
  end.

(** A token of the pattern at the start of [text]: the matched text and
    its first capture group ([None] for a line break token). *)
Definition matchToken (text : string) : option (string * option string) :=
  match text with
  | String c afterBracket =>
      if Ascii.eqb c "["
      then
        let slash := if startsWith afterBracket "/" then "/" else "" in
        let afterSlash :=
          substring (String.length slash) (String.length afterBracket) afterBracket in
        match matchNames ["b"; "i"; "u"; "url"] afterSlash with
        | Some body => Some ("[" ++ slash ++ body ++ "]", Some (slash ++ body))
        | None =>
            if startsWithIgnoringCase text "[br]"
            then Some (substring 0 4 text, None)
            else None
        end
      else None
  | EmptyString => None
  end.

(** The pieces [matchAll] cuts the description into: the text between
    matches and the matches. *)
Inductive Segment : Type :=
| Plain (text : string)
| Token (tokenText : string) (tokenBody : option string).

Definition flush (pending : string) : list Segment :=
  if (String.length pending =? 0)%nat then [] else [Plain pending].

(** The scan of [matchAll]: [skip] counts the characters of the current
    match still to pass, [pending] is the text since the last match. *)
Fixpoint segments (text : string) (skip : nat) (pending : string) : list Segment :=
  match text with
  | EmptyString => flush pending
  | String c rest =>
      match skip with
      | S remaining => segments rest remaining pending
      | O =>
          match matchToken text with
          | Some (tokenText, tokenBody) =>
              (flush pending
               ++ Token tokenText tokenBody
                  :: segments rest (String.length tokenText - 1) "")%list
          | None => segments rest 0 (pending ++ String c "")
          end
      end
  end.

(** *** [renderVndbDescription] *)

(** [parentNode.children.push(child)] on the top of the parse stack. *)
Definition pushChild (child : ReactNode) (parseStack : list ParsedTagNode)
  : list ParsedTagNode :=
  match parseStack with
  | [] => []
  | parentNode :: below =>
      {| tag := tag parentNode;
         url := url parentNode;
         children := (children parentNode ++ [child])%list |} :: below
  end.

Definition openingTag (tokenBodyLower : string) : option Tag :=
  if String.eqb tokenBodyLower "b" then Some TagB
  else if String.eqb tokenBodyLower "i" then Some TagI
  else if String.eqb tokenBodyLower "u" then Some TagU
  else if String.eqb tokenBodyLower "url" then Some TagUrl
  else None.

(** One iteration of the loop over the matches, for a token; the parse
    stack has its top first and the root node last. *)
Definition processToken (tokenText : string) (tokenBody : option string)
    (matchIndex : Z) (parseStack : list ParsedTagNode) : list ParsedTagNode :=
  if String.eqb (toLowerCase tokenText) "[br]"
  then pushChild (Br ("br-" ++ numberToString matchIndex)) parseStack
  else
    let tokenBodyRaw := default "" tokenBody in
    let tokenBodyLower := toLowerCase tokenBodyRaw in
    if startsWith tokenBodyLower "/"
    then
      let closingTag := substring 1 (String.length tokenBodyLower) tokenBodyLower in
      match parseStack with
      | activeNode :: ((_ :: _) as below) =>
          if String.eqb (tagName (tag activeNode)) closingTag
          then pushChild (renderTagNode activeNode ("tag-" ++ numberToString matchIndex))
                         below
          else pushChild (Text tokenText) parseStack
      | _ => pushChild (Text tokenText) parseStack
      end
    else
      let isUrlTagWithArgument := startsWith tokenBodyLower "url=" in
      let openingTagName := if isUrlTagWithArgument then "url" else tokenBodyLower in
      match openingTag openingTagName with
      | Some opened =>
          {| tag := opened;
             url := if isUrlTagWithArgument
                    then Some (substring 4 (String.length tokenBodyRaw) tokenBodyRaw)
                    else None;
             children := [] |} :: parseStack
      | None => pushChild (Text tokenText) parseStack
      end.

Fixpoint processSegments (pieces : list Segment) (matchIndex : Z)
    (parseStack : list ParsedTagNode) : list ParsedTagNode :=
  match pieces with
  | [] => parseStack
  | Plain text :: later => processSegments later matchIndex (pushChild (Text text) parseStack)
  | Token tokenText tokenBody :: later =>
      processSegments later (matchIndex + 1)
        (processToken tokenText tokenBody matchIndex parseStack)
  end.

(** The final [while] loop, with the top of the parse stack apart from
    the nodes below it: unclosed tags are put back as text in front of
    their children. *)
Fixpoint unwindDangling (danglingNode : ParsedTagNode) (below : list ParsedTagNode)
  : list ReactNode :=
  match below with
  | [] => children danglingNode
  | parentNode :: remaining =>
      unwindDangling
        {| tag := tag parentNode;
           url := url parentNode;
           children := (children parentNode
                        ++ Text ("[" ++ tagName (tag danglingNode) ++ "]")
                           :: children danglingNode)%list |}
        remaining
  end.

Definition renderVndbDescription (descriptionText : string) : list ReactNode :=
  let rootNode := {| tag := TagRoot; url := None; children := [] |} in
  match processSegments (segments descriptionText 0 "") 0 [rootNode] with
  | [] => []
  | top :: below => unwindDangling top below
  end.

(** *** Vocabulary of the statements about the renderer *)

(** [href] is the serialization of a URL that the platform parsed, from
    some text put through [withProtocol], with one of the three allowed
    schemes. *)
Definition linkable (href : string) : Prop :=
  exists rawUrl parsedUrl,
    parseUrl (withProtocol (trim rawUrl)) = Some parsedUrl
    /\ (protocol parsedUrl = "http:" \/ protocol parsedUrl = "https:"
        \/ protocol parsedUrl = "mailto:")
    /\ href = serialized parsedUrl.

(** Every hyperlink in [node], at any depth, has a [linkable] target. *)
Fixpoint wellLinked (node : ReactNode) : Prop :=
  let all :=
    fix all (nodes : list ReactNode) : Prop :=
      match nodes with
      | [] => True
      | first :: others => wellLinked first /\ all others
      end in
  match node with
  | Text _ | Br _ => True
  | Strong _ inner | Em _ inner | Underline _ inner | Span _ inner => all inner
  | Anchor _ href inner => linkable href /\ all inner
  end.

(** Every node on the parse stack holds well-linked children only. *)
Definition stackWellLinked (parseStack : list ParsedTagNode) : Prop :=
  Forall (fun node => Forall wellLinked (children node)) parseStack.

End WithUrlParser.

(** *** A sample URL parser, for concrete runs *)

Fixpoint schemeOf (text : string) : string :=
  match text with
  | EmptyString => EmptyString
  | String c rest => if Ascii.eqb c ":" then ":" else String (lowerChar c) (schemeOf rest)
  end.

(** Accepts exactly the texts that start with a scheme, and reports the
    scheme in lower case; the text itself stands for its serialization. *)
Definition sampleParseUrl (text : string) : option ParsedUrl :=
  if hasScheme text
  then Some {| protocol := schemeOf text; serialized := text |}
  else None.

End Markup.

(* --------------------------------------------------------------------- *)
(** ** More of the API client                                             *)
(* --------------------------------------------------------------------- *)

Module ClientRequests.
Import Client.

Section WithPlatform.
Context `{P : Platform}.

(** The labels a status update takes away: the status labels other than
    the new one. *)
Definition otherStatusLabels (statusLabelIdentifier : Z) : list Z :=
  List.filter (fun labelIdentifier => negb (labelIdentifier =? statusLabelIdentifier))
              STATUS_LABEL_IDENTIFIERS.

(** The request of [updateAuthenticatedUserVisualNovelStatusLabel]. *)
Definition statusUpdateRequest (authenticationToken visualNovelIdentifier : string)
    (statusLabelIdentifier : Z) : HttpRequest :=
  {| method := "PATCH";
     url := buildVndbApiUrl ("/ulist/" ++ normalizeVisualNovelIdentifier visualNovelIdentifier);
     headers := [jsonContentType; authorizationHeader authenticationToken];
     body := Some (JObject
                     [("labels_unset",
                       JArray (map JNumber (otherStatusLabels statusLabelIdentifier)));
                      ("labels_set", JArray [JNumber statusLabelIdentifier])]) |}.

(** The request of [removeVisualNovelFromAuthenticatedUserList]. *)
Definition removalRequest (authenticationToken visualNovelIdentifier : string) : HttpRequest :=
  {| method := "DELETE";
     url := buildVndbApiUrl ("/ulist/" ++ normalizeVisualNovelIdentifier visualNovelIdentifier);
     headers := [authorizationHeader authenticationToken];
     body := None |}.

(** The exchanges a call added to the trace. *)
Definition madeBy {A} (before : ClientState) (result : Completion A * ClientState)
    (made : list (HttpRequest * FetchOutcome)) : Prop :=
  exchanges (snd result) = (exchanges before ++ made)%list.

End WithPlatform.

(** *** Sample runs *)

(** One page of a personal list, as the remote sends it. *)
Definition listPagePayload : Json :=
  JObject [("results",
            JArray [JObject [("id", JString "V17"); ("labels", JArray [JNumber 2])];
                    JObject [("id", JNumber 4)]]);
           ("more", JBool false)].

(** A remote that answers the next request with that page. *)
Definition answersWithPage : @ClientState (scriptedPlatform offline) :=
  @freshClient (scriptedPlatform offline) (0, [sampleResponse 200 (Some listPagePayload)]).

(** A remote that accepts a write and then answers with that page. *)
Definition acceptsThenAnswers : @ClientState (scriptedPlatform offline) :=
  @freshClient (scriptedPlatform offline)
    (0, [sampleResponse 200 None; sampleResponse 200 (Some listPagePayload)]).

End ClientRequests.

(* --------------------------------------------------------------------- *)
(** ** More about the list component                                      *)
(* --------------------------------------------------------------------- *)

Module ListViewMore.
Import ListView.

(** The status map holds statuses 1 to 6 under prefixed keys. *)
Definition wellFormedStatuses (statuses : gmap string Z) : Prop :=
  forall key statusLabel,
    statuses !! key = Some statusLabel ->
    1 <= statusLabel <= 6 /\ startsWith key "v" = true.

(** *** Sample data *)

Definition ratedEntry (entryIdentifier : string) (entryRating : option Z)
  : VisualNovelDatabaseEntry :=
  {| id := entryIdentifier; title := "Title"; rating := entryRating; image := None |}.

Definition ratedEntries : list VisualNovelDatabaseEntry :=
  [ratedEntry "v1" (Some 70); ratedEntry "v2" None; ratedEntry "v3" (Some 85)].

Definition byRatingAscending : ListSortState := {| field := SortRating; direction := Asc |}.

(** One entry of the personal list as the server sends it. *)
Definition playingEntry : Json :=
  JObject [("id", JString "v17"); ("labels", JArray [JNumber 2])].

End ListViewMore.

(* --------------------------------------------------------------------- *)
(** ** The search form of the list component                              *)
(* --------------------------------------------------------------------- *)

Module SearchForm.
Import ListView.

(** [values.includes(value)] on an array of strings. *)
Definition includesText (values : list string) (value : string) : bool :=
  existsb (String.eqb value) values.

(** The update that [handleLanguageFilterToggle] hands to
    [setDraftFilters]. *)
Definition handleLanguageFilterToggle (languageCode : string)
    (currentFilters : ListFilterState) : ListFilterState :=
  let isLanguageAlreadySelected := includesText (languages currentFilters) languageCode in
  {| languages :=
       if isLanguageAlreadySelected
       then List.filter (fun currentLanguageCode =>
                           negb (String.eqb currentLanguageCode languageCode))
                        (languages currentFilters)
       else (languages currentFilters ++ [languageCode])%list;
     originalLanguage := originalLanguage currentFilters;
     onlyWithScreenshots := onlyWithScreenshots currentFilters;
     onlyWithDescription := onlyWithDescription currentFilters |}.

(** The initial value of [recentSearchTerms].  [parsedSearchTerms] is
    what [JSON.parse] gives for the stored text; [None]: nothing is
    stored, or the stored text does not parse. *)
Definition initialRecentSearchTerms (parsedSearchTerms : option Json) : list string :=
  match parsedSearchTerms with
  | Some (JArray items) =>
      firstn 8 (omap (fun searchTerm =>
                        match searchTerm with
                        | JString text =>
                            if negb (String.eqb (trim text) "") then Some text else None
                        | _ => None
                        end)
                     items)
  | _ => []
  end.

(** [registerRecentSearchTerm], as a function of the current value of
    [recentSearchTerms]. *)
Definition registerRecentSearchTerm (searchTerm : string)
    (currentSearchTerms : list string) : list string :=
  let normalizedSearchTerm := trim searchTerm in
  if String.eqb normalizedSearchTerm "" then currentSearchTerms
  else
    firstn 8
      (normalizedSearchTerm
       :: List.filter (fun existingSearchTerm =>
                         negb (String.eqb (toLowerCase existingSearchTerm)
                                          (toLowerCase normalizedSearchTerm)))
                      currentSearchTerms).

(** The searches of a session, registered one after the other. *)
Definition registerAll (searchTerms : list string) (currentSearchTerms : list string)
  : list string :=
  fold_left (fun registered searchTerm => registerRecentSearchTerm searchTerm registered)
            searchTerms currentSearchTerms.

(** No two terms are equal up to case. *)
Definition distinctUpToCase (searchTerms : list string) : Prop :=
  NoDup (map toLowerCase searchTerms).

Section SortControls.
Variables localeCompareNumericBase localeCompare : string -> string -> Z.





End SortControls.

(** *** Sample data *)

Definition englishAndJapanese : ListFilterState :=
  {| languages := ["en"; "ja"]; originalLanguage := "";
     onlyWithScreenshots := false; onlyWithDescription := false |}.

End SearchForm.

(* --------------------------------------------------------------------- *)
(** ** More about the description renderer                                *)
(* --------------------------------------------------------------------- *)

Module MarkupText.
Import Markup.

(** The text has no opening bracket. *)
Fixpoint bracketFree (text : string) : bool :=
  match text with
  | EmptyString => true
  | String c rest => negb (Ascii.eqb c "[") && bracketFree rest
  end.

(** The characters a segment stands for. *)
Definition segmentText (piece : Segment) : string :=
  match piece with
  | Plain text => text
  | Token tokenText _ => tokenText
  end.

Definition joinSegments (pieces : list Segment) : string :=
  String.concat "" (map segmentText pieces).

(** A text piece is not empty, a token starts with an opening bracket. *)
Definition properPiece (piece : Segment) : Prop :=
  match piece with
  | Plain text => text <> ""
  | Token tokenText _ => startsWith tokenText "[" = true
  end.

(** [text.slice(count)] *)
Fixpoint dropChars (count : nat) (text : string) : string :=
  match count, text with
  | O, _ => text
  | S _, EmptyString => EmptyString
  | S remaining, String _ rest => dropChars remaining rest
  end.

End MarkupText.

(* --------------------------------------------------------------------- *)
(** ** The reads of the API client                                        *)
(* --------------------------------------------------------------------- *)

Module ClientReads.
Import Client.

(** The query caches of the module other than the personal-list cache. *)
Inductive CacheName : Type :=
| ListQueries | DetailQueries | ReleaseQueries | TagQueries
| CharacterQueries | TraitQueries | StatsQueries.

Section WithPlatform.
Context `{P : Platform}.

(** The state of the whole module: the state the writes work on, and the
    other caches. *)
Record ModuleState : Type := {
  client : ClientState;
  listQueryCache : CacheStore;
  detailQueryCache : CacheStore;
  releaseQueryCache : CacheStore;
  tagQueryCache : CacheStore;
  characterQueryCache : CacheStore;
  traitQueryCache : CacheStore;
  statsQueryCache : CacheStore
}.

Definition Reads (A : Type) : Type := M ModuleState A.

Definition cacheOf (name : CacheName) (ms : ModuleState) : CacheStore :=
  match name with
  | ListQueries => listQueryCache ms
  | DetailQueries => detailQueryCache ms
  | ReleaseQueries => releaseQueryCache ms
  | TagQueries => tagQueryCache ms
  | CharacterQueries => characterQueryCache ms
  | TraitQueries => traitQueryCache ms
  | StatsQueries => statsQueryCache ms
  end.

Definition withCache (name : CacheName) (store : CacheStore) (ms : ModuleState)
  : ModuleState :=
  {| client := client ms;
     listQueryCache := match name with ListQueries => store | _ => listQueryCache ms end;
     detailQueryCache := match name with DetailQueries => store | _ => detailQueryCache ms end;
     releaseQueryCache :=
       match name with ReleaseQueries => store | _ => releaseQueryCache ms end;
     tagQueryCache := match name with TagQueries => store | _ => tagQueryCache ms end;
     characterQueryCache :=
       match name with CharacterQueries => store | _ => characterQueryCache ms end;
     traitQueryCache := match name with TraitQueries => store | _ => traitQueryCache ms end;
     statsQueryCache := match name with StatsQueries => store | _ => statsQueryCache ms end |}.

Definition withClient (st : ClientState) (ms : ModuleState) : ModuleState :=
  {| client := st;
     listQueryCache := listQueryCache ms;
     detailQueryCache := detailQueryCache ms;
     releaseQueryCache := releaseQueryCache ms;
     tagQueryCache := tagQueryCache ms;
     characterQueryCache := characterQueryCache ms;
     traitQueryCache := traitQueryCache ms;
     statsQueryCache := statsQueryCache ms |}.

(** A step on the state of the writes, within the module state. *)
Definition liftClient {A} (call : Async A) : Reads A :=
  fun ms =>
    let (completion, st) := call (client ms) in
    (completion, withClient st ms).

(** [readFromCache(<name>, cacheKey)] *)
Definition readCache (name : CacheName) (cacheKey : string) : Reads Json :=
  fun ms =>
    let (found, store) :=
      readFromCache (dateNow (env (client ms))) (cacheOf name ms) cacheKey in
    (Returned found, withCache name store ms).

(** [writeToCache(<name>, cacheKey, payload)] *)
Definition writeCache (name : CacheName) (cacheKey : string) (newPayload : Json)
  : Reads unit :=
  fun ms =>
    (Returned tt,
     withCache name
       (writeToCache (dateNow (env (client ms))) (cacheOf name ms) cacheKey newPayload) ms).

(** A POST of a JSON body without credentials. *)
Definition postRequest (targetApiEndpoint : string) (requestPayload : Json) : HttpRequest :=
  {| method := "POST";
     url := targetApiEndpoint;
     headers := [jsonContentType];
     body := Some requestPayload |}.

Local Open Scope async_scope.

(** *** [fetchVisualNovelDetailedPayloadByFields] *)

Definition detailRequestPayload (visualNovelIdentifier fieldSelection : string) : Json :=
  JObject [("filters", JArray [JString "id"; JString "=";
                               JString (normalizeVisualNovelIdentifier visualNovelIdentifier)]);
           ("fields", JString fieldSelection);
           ("results", JNumber 1)].

Definition fetchVisualNovelDetailedPayloadByFields
    (visualNovelIdentifier fieldSelection : string) : Reads Json :=
  let targetApiEndpoint := buildVndbApiUrl "/vn" in
  if String.eqb (trim visualNovelIdentifier) ""
  then throw "Detail lookup failure: Missing visual novel identifier."
  else
    let requestPayload := detailRequestPayload visualNovelIdentifier fieldSelection in
    let cacheKey := JSON_stringify requestPayload in
    cachedPayload <- readCache DetailQueries cacheKey ;;
    if truthy cachedPayload then ret cachedPayload
    else
      networkResponse <- liftClient (awaitFetch (postRequest targetApiEndpoint requestPayload)) ;;
      if negb (ok networkResponse)
      then throw ("Network boundary failure: Unable to retrieve visual novel details (HTTP "
                  ++ numberToString (status networkResponse) ++ ").")
      else
        rawResponsePayload <- liftClient (awaitJson networkResponse) ;;
        rawResults <- liftClient (readProperty rawResponsePayload "results") ;;
        rawMore <- liftClient (readProperty rawResponsePayload "more") ;;
        let responsePayload :=
          JObject [("results", match rawResults with
                               | Some (JArray items) => JArray items
                               | _ => JArray []
                               end);
                   ("more", JBool match rawMore with
                                  | Some value => truthy value
                                  | None => false
                                  end)] in
        writeCache DetailQueries cacheKey responsePayload ;;
        ret responsePayload.

Definition CORE_FIELD_SELECTION : string :=
  "id, title, rating, image.url, image.thumbnail, image.sexual, description, released".

Definition SUPPLEMENTAL_FIELD_SELECTION : string :=
  "id, screenshots.url, screenshots.thumbnail, tags.id, tags.name, tags.category, tags.spoiler, tags.rating, relations.id, relations.title, relations.relation, developers.id, developers.name, developers.original".

Definition fetchVisualNovelCoreDetailsById (visualNovelIdentifier : string) : Reads Json :=
  fetchVisualNovelDetailedPayloadByFields visualNovelIdentifier CORE_FIELD_SELECTION.

Definition fetchVisualNovelSupplementalDetailsById (visualNovelIdentifier : string)
  : Reads Json :=
  fetchVisualNovelDetailedPayloadByFields visualNovelIdentifier SUPPLEMENTAL_FIELD_SELECTION.

(** [prefetchVisualNovelCoreDetailsById] *)
Definition prefetchVisualNovelCoreDetailsById (visualNovelIdentifier : string) : Reads unit :=
  tryCatch (fetchVisualNovelCoreDetailsById visualNovelIdentifier ;; ret tt)
           (fun _ => ret tt).

(** *** Vocabulary *)

(** A detail payload as the module builds it: a list of results and a
    flag. *)
Definition detailShaped (responsePayload : Json) : Prop :=
  exists items anotherPage,
    responsePayload = JObject [("results", JArray items); ("more", JBool anotherPage)].

(** The detail cache holds payloads that the module built. *)
Definition detailCacheShaped (ms : ModuleState) : Prop :=
  forall cacheKey cachedEntry,
    detailQueryCache ms !! cacheKey = Some cachedEntry ->
    detailShaped (payload cachedEntry).

(** The call made no request. *)
Definition silent {A} (before : ModuleState) (result : Completion A * ModuleState) : Prop :=
  exchanges (client (snd result)) = exchanges (client before).

Definition freshModule (world : Env) : ModuleState :=
  {| client := freshClient world;
     listQueryCache := ∅; detailQueryCache := ∅; releaseQueryCache := ∅;
     tagQueryCache := ∅; characterQueryCache := ∅; traitQueryCache := ∅;
     statsQueryCache := ∅ |}.

End WithPlatform.

(** *** Sample data *)

Definition detailAnswer : Json :=
  JObject [("results", JArray [JObject [("id", JString "v17"); ("title", JString "Saya")]]);
           ("more", JBool false)].

(** A remote that answers the first request with the details of v17 and
    is unreachable afterwards. *)
Definition answersOnce : @ModuleState (scriptedPlatform offline) :=
  @freshModule (scriptedPlatform offline) (0, [sampleResponse 200 (Some detailAnswer)]).

Definition unreachable : @ModuleState (scriptedPlatform offline) :=
  @freshModule (scriptedPlatform offline) (0, []).

End ClientReads.

(* --------------------------------------------------------------------- *)
(** ** Tag and trait metadata                                             *)
(* --------------------------------------------------------------------- *)

Module ClientMetadata.
Import Client ClientReads ListView.

(** The default order of [Array.prototype.sort] on strings: by code
    units, a proper prefix first. *)
Definition compareCodeUnits (first second : string) : Z :=
  match String.compare first second with
  | Lt => -1
  | Eq => 0
  | Gt => 1
  end.

(** [[...new Set(identifiers.filter((identifier) => identifier.trim() !== ''))].sort()] *)
Definition normalizeIdentifiers (identifiers : list string) : list string :=
  stableSort compareCodeUnits
    (distinct (List.filter (fun identifier => negb (String.eqb (trim identifier) ""))
                           identifiers)).

Definition identifierFilter (normalizedIdentifiers : list string) : Json :=
  match normalizedIdentifiers with
  | [onlyIdentifier] => JArray [JString "id"; JString "="; JString onlyIdentifier]
  | _ =>
      JArray (JString "or"
              :: map (fun identifier => JArray [JString "id"; JString "="; JString identifier])
                     normalizedIdentifiers)
  end.

Definition metadataRequestPayload (fieldSelection : string)
    (normalizedIdentifiers : list string) : Json :=
  JObject [("filters", identifierFilter normalizedIdentifiers);
           ("fields", JString fieldSelection);
           ("results", JNumber (Z.of_nat (length normalizedIdentifiers)))].

Definition emptyResponse : Json :=
  JObject [("results", JArray []); ("more", JBool false)].

Section WithPlatform.
Context `{P : Platform}.
Local Open Scope async_scope.

Definition fetchTraitMetadataByIds (traitIdentifiers : list string) : Reads Json :=
  let normalizedTraitIdentifiers := normalizeIdentifiers traitIdentifiers in
  if (length normalizedTraitIdentifiers =? 0)%nat then ret emptyResponse
  else
    let targetApiEndpoint := buildVndbApiUrl "/trait" in
    let requestPayload :=
      metadataRequestPayload "id, name, group_name" normalizedTraitIdentifiers in
    let cacheKey := JSON_stringify requestPayload in
    cachedPayload <- readCache TraitQueries cacheKey ;;
    if truthy cachedPayload then ret cachedPayload
    else
      networkResponse <- liftClient (awaitFetch (postRequest targetApiEndpoint requestPayload)) ;;
      if negb (ok networkResponse)
      then throw ("Network boundary failure: Unable to retrieve trait metadata (HTTP "
                  ++ numberToString (status networkResponse) ++ ").")
      else
        responsePayload <- liftClient (awaitJson networkResponse) ;;
        writeCache TraitQueries cacheKey responsePayload ;;
        ret responsePayload.

Definition fetchTagMetadataByIds (tagIdentifiers : list string) : Reads Json :=
  let normalizedTagIdentifiers := normalizeIdentifiers tagIdentifiers in
  if (length normalizedTagIdentifiers =? 0)%nat then ret emptyResponse
  else
    let targetApiEndpoint := buildVndbApiUrl "/tag" in
    let requestPayload :=
      metadataRequestPayload "id, name, category" normalizedTagIdentifiers in
    let cacheKey := JSON_stringify requestPayload in
    cachedPayload <- readCache TagQueries cacheKey ;;
    if truthy cachedPayload then ret cachedPayload
    else
      networkResponse <- liftClient (awaitFetch (postRequest targetApiEndpoint requestPayload)) ;;
      if negb (ok networkResponse)
      then throw "Network boundary failure: Unable to retrieve tag metadata."
      else
        responsePayload <- liftClient (awaitJson networkResponse) ;;
        writeCache TagQueries cacheKey responsePayload ;;
        ret responsePayload.

End WithPlatform.

(** The two lists name the same identifiers, blank ones apart. *)
Definition sameIdentifiers (first second : list string) : Prop :=
  forall identifier, trim identifier <> "" -> (In identifier first <-> In identifier second).

(** [first] is not after [second] in the order of code units. *)
Definition notAfter (first second : string) : Prop := String.compare first second <> Gt.

End ClientMetadata.

(* --------------------------------------------------------------------- *)
(** ** Normalisation of what the remote sends                             *)
(* --------------------------------------------------------------------- *)

Module Payloads.
Import Client.

(** [text.includes(part)] *)
Fixpoint includesSubstring (text part : string) : bool :=
  startsWith text part
  || match text with
     | EmptyString => false
     | String _ rest => includesSubstring rest part
     end.

(** [value && typeof value === 'object'] *)
Definition isObjectLike (value : Json) : bool :=
  match value with
  | JObject _ | JArray _ => true
  | _ => false
  end.

(** [typeof value.key === 'string' ? value.key : undefined] *)
Definition stringProperty (value : Json) (key : string) : option string :=
  match property value key with
  | Some (JString text) => Some text
  | _ => None
  end.

(** [typeof x === 'string' && x.trim() !== '' ? x.trim() : undefined] *)
Definition trimmedIfFilled (candidate : option string) : option string :=
  match candidate with
  | Some text => if negb (String.eqb (trim text) "") then Some (trim text) else None
  | None => None
  end.

(** *** [extractLabelIds] of [fetchAuthenticatedUserVisualNovelListEntry] *)

(** [Number(text.replace(/[^\d]/g, ''))], pushed when it is finite. *)
Definition pushDigitsOf (labelIdentifiers : list Z) (text : string) : list Z :=
  match finiteNumberOfDigits (keepDigits text) with
  | Some numericLabelIdentifier => (labelIdentifiers ++ [numericLabelIdentifier])%list
  | None => labelIdentifiers
  end.

(** The callback of [rawLabels.forEach]; the state is [labelIdentifiers]. *)
Definition pushLabelIdentifier (labelIdentifiers : list Z) (rawLabel : Json) : list Z :=
  match rawLabel with
  | JNumber number => (labelIdentifiers ++ [number])%list
  | JString text => pushDigitsOf labelIdentifiers text
  | _ =>
      if isObjectLike rawLabel
      then match property rawLabel "id" with
           | Some (JNumber labelIdentifierCandidate) =>
               (labelIdentifiers ++ [labelIdentifierCandidate])%list
           | Some (JString labelIdentifierCandidate) =>
               pushDigitsOf labelIdentifiers labelIdentifierCandidate
           | _ => labelIdentifiers
           end
      else labelIdentifiers
  end.

(** [None] as argument is [undefined]. *)
Definition extractLabelIds (rawLabels : option Json) : list Z :=
  match rawLabels with
  | Some (JArray items) => fold_left pushLabelIdentifier items []
  | _ => []
  end.

(** *** The store links of [fetchVisualNovelStoreLinksById] *)

Record VisualNovelExternalLinkEntry : Type := {
  linkUrl : string;
  linkLabel : string;
  linkSource : option string;
  releaseId : option string;
  releaseTitle : option string
}.

Definition ALLOWED_STORE_NAMES : list string :=
  ["steam"; "jast usa"; "jast"; "gog"; "mangagamer"].

Definition isAllowedStoreLink (externalSource : option string) (externalLabel : string)
  : bool :=
  let normalizedSourceName := toLowerCase (default "" externalSource) in
  let normalizedLabelName := toLowerCase externalLabel in
  existsb (fun allowedStoreName =>
             includesSubstring normalizedSourceName allowedStoreName
             || includesSubstring normalizedLabelName allowedStoreName)
          ALLOWED_STORE_NAMES.

Definition dedupeKey (externalUrl externalLabel : string) : string :=
  toLowerCase externalUrl ++ "|" ++ toLowerCase externalLabel.

(** The callback of [externalLinks.forEach]; the state is
    [normalizedStoreLinks] and [dedupeKeySet]. *)
Definition recordExternalLink (releaseIdentifier releaseTitleText : option string)
    (collected : list VisualNovelExternalLinkEntry * gset string)
    (externalLinkEntry : Json) : list VisualNovelExternalLinkEntry * gset string :=
  if negb (isObjectLike externalLinkEntry) then collected
  else
    let externalUrl :=
      match stringProperty externalLinkEntry "url" with
      | Some text => trim text
      | None => ""
      end in
    if String.eqb externalUrl "" then collected
    else
      let externalLabel :=
        match trimmedIfFilled (stringProperty externalLinkEntry "label") with
        | Some labelText => labelText
        | None =>
            match trimmedIfFilled (stringProperty externalLinkEntry "name") with
            | Some nameText => nameText
            | None => "External Link"
            end
        end in
      let externalSource := trimmedIfFilled (stringProperty externalLinkEntry "name") in
      if negb (isAllowedStoreLink externalSource externalLabel) then collected
      else
        let key := dedupeKey externalUrl externalLabel in
        if decide (key ∈ snd collected) then collected
        else
          ((fst collected
            ++ [{| linkUrl := externalUrl;
                   linkLabel := externalLabel;
                   linkSource := externalSource;
                   releaseId := releaseIdentifier;
                   releaseTitle := releaseTitleText |}])%list,
           snd collected ∪ {[ key ]}).

(** The callback of [releaseEntries.forEach]. *)
Definition recordRelease (collected : list VisualNovelExternalLinkEntry * gset string)
    (releaseEntry : Json) : list VisualNovelExternalLinkEntry * gset string :=
  if negb (isObjectLike releaseEntry) then collected
  else
    let releaseIdentifier :=
      match property releaseEntry "id" with
      | Some (JString text) => Some text
      | Some (JNumber number) => Some ("r" ++ numberToString number)
      | _ => None
      end in
    let releaseTitleText :=
      match stringProperty releaseEntry "title" with
      | Some text => if negb (String.eqb (trim text) "") then Some text else None
      | None => None
      end in
    let externalLinks :=
      match property releaseEntry "extlinks" with
      | Some (JArray items) => items
      | _ => []
      end in
    fold_left (recordExternalLink releaseIdentifier releaseTitleText) externalLinks collected.

(** [normalizedStoreLinks] for a decoded response that is not [null]. *)
Definition normalizeStoreLinks (responsePayload : Json) : list VisualNovelExternalLinkEntry :=
  let releaseEntries :=
    match property responsePayload "results" with
    | Some (JArray items) => items
    | _ => []
    end in
  fst (fold_left recordRelease releaseEntries ([], ∅)).

(** What holds of every store link shown. *)
Definition properStoreLink (storeLink : VisualNovelExternalLinkEntry) : Prop :=
  linkUrl storeLink <> ""
  /\ trim (linkUrl storeLink) = linkUrl storeLink
  /\ linkLabel storeLink <> ""
  /\ isAllowedStoreLink (linkSource storeLink) (linkLabel storeLink) = true.

Definition keyOfStoreLink (storeLink : VisualNovelExternalLinkEntry) : string :=
  dedupeKey (linkUrl storeLink) (linkLabel storeLink).

(** The invariant of the two loops: the links collected are proper, their
    keys are the members of the key set, and no key occurs twice. *)
Definition storeLinksInvariant
    (collected : list VisualNovelExternalLinkEntry * gset string) : Prop :=
  Forall properStoreLink (fst collected)
  /\ (forall key, key ∈ snd collected <-> In key (map keyOfStoreLink (fst collected)))
  /\ NoDup (map keyOfStoreLink (fst collected)).

(** *** Sample data *)

Definition steamRelease : Json :=
  JObject [("id", JString "r1");
           ("title", JString "Saya no Uta");
           ("extlinks",
            JArray [JObject [("url", JString " https://store.steampowered.com/app/1 ");
                             ("label", JString "Steam")];
                    JObject [("url", JString "https://STORE.steampowered.com/app/1");
                             ("label", JString "steam")];
                    JObject [("url", JString "https://example.org/");
                             ("label", JString "Official website")]])].

End Payloads.

(* --------------------------------------------------------------------- *)
(** ** The lookup of one entry of the personal list                       *)
(* --------------------------------------------------------------------- *)

Module ClientListEntry.
Import Client Payloads.

(** The result of [fetchAuthenticatedUserVisualNovelListEntry]. *)
Record ListEntryStatus : Type := { isInList : bool; labels : list Z }.

Definition notInList : ListEntryStatus := {| isInList := false; labels := [] |}.

Definition LABEL_FIELDS : string := "id, labels.id, labels.label".

Definition filteredPayload (normalizedUserIdentifier normalizedVisualNovelIdentifier : string)
  : list (string * Json) :=
  [("user", JString normalizedUserIdentifier);
   ("fields", JString LABEL_FIELDS);
   ("filters", JArray [JString "id"; JString "="; JString normalizedVisualNovelIdentifier]);
   ("results", JNumber 1)].

Definition labelsPayload (normalizedUserIdentifier : string) (activePageNumber : Z)
  : list (string * Json) :=
  [("user", JString normalizedUserIdentifier);
   ("fields", JString LABEL_FIELDS);
   ("results", JNumber 100);
   ("page", JNumber activePageNumber)].

Definition lookupFailure (networkResponse : HttpResponse) : string :=
  "Network boundary failure: Unable to read list status for visual novel (HTTP "
  ++ numberToString (status networkResponse) ++ ").".

(** The callback of [rawEntries.find], for an entry that is not [null]. *)
Definition entryMatches (normalizedVisualNovelIdentifier : string) (entry : Json) : bool :=
  match property entry "id" with
  | Some (JString rawIdentifier) =>
      if negb (String.eqb (trim rawIdentifier) "")
      then
        let normalizedEntryIdentifier :=
          if startsWith (toLowerCase rawIdentifier) "v"
          then toLowerCase rawIdentifier
          else "v" ++ toLowerCase rawIdentifier in
        String.eqb normalizedEntryIdentifier normalizedVisualNovelIdentifier
      else false
  | Some (JNumber rawIdentifier) =>
      String.eqb ("v" ++ numberToString rawIdentifier) normalizedVisualNovelIdentifier
  | _ => false
  end.

Section WithPlatform.
Context `{P : Platform}.
Local Open Scope async_scope.

(** [executeFilteredLookup]; [None] is [null]. *)
Definition executeFilteredLookup
    (authenticationToken normalizedUserIdentifier normalizedVisualNovelIdentifier : string)
  : Async (option ListEntryStatus) :=
  networkResponse <-
    executeUlistRequest authenticationToken
      (filteredPayload normalizedUserIdentifier normalizedVisualNovelIdentifier) ;;
  if negb (ok networkResponse)
  then
    if status networkResponse =? 400 then ret None
    else throw (lookupFailure networkResponse)
  else
    responsePayload <- awaitJson networkResponse ;;
    results <- readProperty responsePayload "results" ;;
    let firstEntry :=
      match results with
      | Some (JArray items) => head items
      | _ => None
      end in
    match firstEntry with
    | Some entry =>
        if truthy entry
        then ret (Some {| isInList := true;
                          labels := extractLabelIds (property entry "labels") |})
        else ret (Some notInList)
    | None => ret (Some notInList)
    end.

(** [rawEntries.find(...)]: reading [id] of an entry that is [null]
    throws. *)
Fixpoint findMatchingEntry (normalizedVisualNovelIdentifier : string)
    (rawEntries : list Json) : Async (option Json) :=
  match rawEntries with
  | [] => ret None
  | entry :: rest =>
      match entry with
      | JNull => throw "Cannot read properties of null"
      | _ =>
          if entryMatches normalizedVisualNovelIdentifier entry then ret (Some entry)
          else findMatchingEntry normalizedVisualNovelIdentifier rest
      end
  end.

(** The [while] loop, with the loop variables as arguments; [fuel] is for
    the termination checker, the guard ends the loop. *)
Fixpoint listEntryLoop (fuel : nat)
    (authenticationToken userIdentifier normalizedUserIdentifier
       normalizedVisualNovelIdentifier : string)
    (activePageNumber : Z) (hasMorePages : bool) : Async ListEntryStatus :=
  match fuel with
  | O => ret notInList
  | S fuel' =>
      if hasMorePages && (activePageNumber <=? 40)
      then
        networkResponse <-
          executeUlistRequest authenticationToken
            (labelsPayload normalizedUserIdentifier activePageNumber) ;;
        if negb (ok networkResponse) && (status networkResponse =? 400)
        then
          identifierSet <-
            fetchAuthenticatedUserVisualNovelIdentifierSet authenticationToken
              userIdentifier ;;
          ret {| isInList := bool_decide (normalizedVisualNovelIdentifier ∈ identifierSet);
                 labels := [] |}
        else if negb (ok networkResponse)
        then throw (lookupFailure networkResponse)
        else
          responsePayload <- awaitJson networkResponse ;;
          results <- readProperty responsePayload "results" ;;
          let rawEntries :=
            match results with Some (JArray items) => items | _ => [] end in
          matchingEntry <- findMatchingEntry normalizedVisualNovelIdentifier rawEntries ;;
          match matchingEntry with
          | Some entry =>
              ret {| isInList := true;
                     labels := extractLabelIds (property entry "labels") |}
          | None =>
              listEntryLoop fuel' authenticationToken userIdentifier
                normalizedUserIdentifier normalizedVisualNovelIdentifier
                (activePageNumber + 1)
                (match property responsePayload "more" with
                 | Some flag => truthy flag
                 | None => false
                 end)
          end
      else ret notInList
  end.

Definition fetchAuthenticatedUserVisualNovelListEntry
    (authenticationToken userIdentifier visualNovelIdentifier : string)
  : Async ListEntryStatus :=
  let normalizedVisualNovelIdentifier :=
    normalizeVisualNovelIdentifier visualNovelIdentifier in
  let normalizedUserIdentifier := normalizeUserIdentifier userIdentifier in
  directLookupResult <-
    executeFilteredLookup authenticationToken normalizedUserIdentifier
      normalizedVisualNovelIdentifier ;;
  match directLookupResult with
  | Some directResult => ret directResult
  | None =>
      listEntryLoop 40 authenticationToken userIdentifier normalizedUserIdentifier
        normalizedVisualNovelIdentifier 1 true
  end.

(** *** Vocabulary *)

(** A POST to [/ulist] under the token. *)
Definition ulistPost (authenticationToken : string) (requestPayload : Json) : HttpRequest :=
  {| method := "POST";
     url := buildVndbApiUrl "/ulist";
     headers := [jsonContentType; authorizationHeader authenticationToken];
     body := Some requestPayload |}.

Definition isUlistPost (authenticationToken : string)
    (exchange : HttpRequest * FetchOutcome) : Prop :=
  exists requestPayload, fst exchange = ulistPost authenticationToken requestPayload.

(** Whatever the state, the call makes at most [bound] requests, all of
    them POSTs to [/ulist] under the token. *)
Definition sendsAtMost {A} (authenticationToken : string) (bound : nat) (call : Async A)
  : Prop :=
  forall st,
    exists made,
      exchanges (snd (call st)) = (exchanges st ++ made)%list
      /\ (length made <= bound)%nat
      /\ Forall (isUlistPost authenticationToken) made.

(** The remote rejected the request with status 400. *)
Definition rejectedAsBadRequest (outcome : FetchOutcome) : Prop :=
  exists networkResponse, outcome = Resolved networkResponse /\ status networkResponse = 400.

End WithPlatform.

(** *** Sample data *)

(** A remote that rejects the filtered lookup and then serves one page
    that holds the entry with label 2. *)
Definition filterUnsupported : @ClientState (scriptedPlatform offline) :=
  @freshClient (scriptedPlatform offline)
    (0, [sampleResponse 400 None;
         sampleResponse 200
           (Some (JObject [("results",
                            JArray [JObject [("id", JString "v17");
                                             ("labels", JArray [JObject [("id", JNumber 2)]])]]);
                           ("more", JBool false)]))]).

(** A remote that answers the filtered lookup with an empty list. *)
Definition acceptsThenAnswersNothing : @ClientState (scriptedPlatform offline) :=
  @freshClient (scriptedPlatform offline)
    (0, [sampleResponse 200 (Some (JObject [("results", JArray [])]))]).

End ClientListEntry.

(* --------------------------------------------------------------------- *)
(** ** The characters of a visual novel                                   *)
(* --------------------------------------------------------------------- *)

Module ClientCharacters.
Import Client ClientReads ClientMetadata ClientListEntry.

(** [text.replace(/^v/i, '')] *)
Definition withoutLeadingV (text : string) : string :=
  match text with
  | String c rest => if Ascii.eqb c "v" || Ascii.eqb c "V" then rest else text
  | EmptyString => text
  end.

Definition visualNovelCharacterFieldCandidates : list string :=
  ["id, characters.id, characters.name, characters.original, characters.image.url, characters.image.thumbnail, characters.image.sexual";
   "id, chars.id, chars.name, chars.original, chars.image.url, chars.image.thumbnail, chars.image.sexual"].

(** The callback of [reduce] in [normalizeCharacterCollection]: the
    entry it pushes, if any.  An entry passes when it is an object with
    an [id] that is a text or a number and a [name] that is a text, the
    identifier and the name not empty; an array has neither. *)
Definition normalizeCharacterEntry (rawCharacterEntry : Json) : option Json :=
  let normalizedCharacterIdentifier :=
    match property rawCharacterEntry "id" with
    | Some (JString identifier) => Some identifier
    | Some (JNumber identifier) => Some ("c" ++ numberToString identifier)
    | _ => None
    end in
  let normalizedCharacterName :=
    match property rawCharacterEntry "name" with
    | Some (JString name) => Some name
    | _ => None
    end in
  match normalizedCharacterIdentifier, normalizedCharacterName with
  | Some identifier, Some name =>
      if String.eqb identifier "" || String.eqb name "" then None
      else Some (JObject
                   [("id", JString identifier);
                    ("name", JString name);
                    ("original", match property rawCharacterEntry "original" with
                                 | Some (JString original) => JString original
                                 | _ => JNull
                                 end);
                    ("image", match property rawCharacterEntry "image" with
                              | Some (JObject fields) => JObject fields
                              | Some (JArray items) => JArray items
                              | _ => JNull
                              end)])
  | _, _ => None
  end.

(** [{ results: entries, more: false }] *)
Definition characterResponse (entries : list Json) : Json :=
  JObject [("results", JArray entries); ("more", JBool false)].

(** [normalizeCharacterCollection]: the [results] of the response it
    returns; its [more] is [false]. *)
Definition normalizeCharacterCollection (rawCollection : option Json) : list Json :=
  match rawCollection with
  | Some (JArray items) => omap normalizeCharacterEntry items
  | _ => []
  end.

(** [normalizeCharacterCollection(firstVisualNovelEntry?.characters ??
    firstVisualNovelEntry?.chars)], from the [results] of the payload. *)
Definition nestedCharacters (results : option Json) : list Json :=
  let firstVisualNovelEntry :=
    match results with
    | Some (JArray items) => head items
    | _ => None
    end in
  normalizeCharacterCollection
    match firstVisualNovelEntry with
    | None | Some JNull => None
    | Some entry =>
        match property entry "characters" with
        | None | Some JNull => property entry "chars"
        | Some characters => Some characters
        end
    end.

Definition visualNovelRequestPayload (normalizedVisualNovelIdentifier fieldCandidate : string)
  : list (string * Json) :=
  [("filters", JArray [JString "id"; JString "="; JString normalizedVisualNovelIdentifier]);
   ("fields", JString fieldCandidate);
   ("results", JNumber 1)].

Definition sharedRequestPayload : list (string * Json) :=
  [("fields", JString "id, name, original, image.url, image.thumbnail, image.sexual");
   ("results", JNumber 100);
   ("sort", JString "name");
   ("reverse", JBool false)].

(** [filterCandidates]; [numericVisualNovelIdentifier] is given when
    the number is finite and greater than 0. *)
Definition filterCandidates (normalizedVisualNovelIdentifier : string)
    (numericVisualNovelIdentifier : option Json) : list Json :=
  ([JArray [JString "vn"; JString "=";
            JArray [JString "id"; JString "="; JString normalizedVisualNovelIdentifier]];
    JArray [JString "vn"; JString "="; JString normalizedVisualNovelIdentifier];
    JArray [JString "vns"; JString "=";
            JArray [JString "id"; JString "="; JString normalizedVisualNovelIdentifier]]]
   ++ match numericVisualNovelIdentifier with
      | Some numericIdentifier =>
          [JArray [JString "vn"; JString "="; numericIdentifier];
           JArray [JString "vn"; JString "=";
                   JArray [JString "id"; JString "="; numericIdentifier]];
           JArray [JString "vns"; JString "=";
                   JArray [JString "id"; JString "="; numericIdentifier]]]
      | None => []
      end)%list.

Definition characterFailure (networkResponse : HttpResponse) : string :=
  "Network boundary failure: Unable to retrieve characters for visual novel (HTTP "
  ++ numberToString (status networkResponse) ++ ").".

Section WithPlatform.
Context `{P : Platform}.

(** [Number(text)] as a JSON value when it is finite and greater than 0,
    and [None] otherwise. *)
Variable positiveNumber : string -> option Json.

Local Open Scope async_scope.

(** The cache key of the first loop:
    [JSON.stringify({ characterSource: 'vn', ...requestPayload })]. *)
Definition fieldCacheKey (normalizedVisualNovelIdentifier fieldCandidate : string) : string :=
  JSON_stringify
    (JObject (("characterSource", JString "vn")
              :: visualNovelRequestPayload normalizedVisualNovelIdentifier fieldCandidate)).

(** The cache key of the second loop: [JSON.stringify(requestPayload)]. *)
Definition filterCacheKey (filterCandidate : Json) : string :=
  JSON_stringify (JObject (sharedRequestPayload ++ [("filters", filterCandidate)])).

(** The request of the first loop for a field candidate. *)
Definition visualNovelRequest (normalizedVisualNovelIdentifier fieldCandidate : string)
  : HttpRequest :=
  postRequest (buildVndbApiUrl "/vn")
    (JObject (visualNovelRequestPayload normalizedVisualNovelIdentifier fieldCandidate)).

(** The request of the second loop for a filter candidate. *)
Definition characterRequest (filterCandidate : Json) : HttpRequest :=
  postRequest (buildVndbApiUrl "/character")
    (JObject (sharedRequestPayload ++ [("filters", filterCandidate)])).

(** The first loop, over the field candidates still to try: [Some] is
    the value that the function returns from inside the loop, [None]
    means that the loop ran to its end. *)
Fixpoint tryFieldCandidates (normalizedVisualNovelIdentifier : string)
    (fieldCandidates : list string) : Reads (option Json) :=
  match fieldCandidates with
  | [] => ret None
  | fieldCandidate :: later =>
      let cacheKey := fieldCacheKey normalizedVisualNovelIdentifier fieldCandidate in
      cachedPayload <- readCache CharacterQueries cacheKey ;;
      if truthy cachedPayload then ret (Some cachedPayload)
      else
        networkResponse <-
          liftClient (awaitFetch (visualNovelRequest normalizedVisualNovelIdentifier
                                    fieldCandidate)) ;;
        if negb (ok networkResponse)
        then
          if status networkResponse =? 400
          then tryFieldCandidates normalizedVisualNovelIdentifier later
          else throw (characterFailure networkResponse)
        else
          responsePayload <- liftClient (awaitJson networkResponse) ;;
          results <- liftClient (readProperty responsePayload "results") ;;
          let normalizedCharacterPayload := nestedCharacters results in
          if (0 <? length normalizedCharacterPayload)%nat
          then
            writeCache CharacterQueries cacheKey
              (characterResponse normalizedCharacterPayload) ;;
            ret (Some (characterResponse normalizedCharacterPayload))
          else tryFieldCandidates normalizedVisualNovelIdentifier later
  end.

(** The second loop, over the filter candidates still to try. *)
Fixpoint tryFilterCandidates (candidates : list Json) : Reads (option Json) :=
  match candidates with
  | [] => ret None
  | filterCandidate :: later =>
      let cacheKey := filterCacheKey filterCandidate in
      cachedPayload <- readCache CharacterQueries cacheKey ;;
      if truthy cachedPayload then ret (Some cachedPayload)
      else
        networkResponse <- liftClient (awaitFetch (characterRequest filterCandidate)) ;;
        if negb (ok networkResponse)
        then
          if status networkResponse =? 400
          then tryFilterCandidates later
          else throw (characterFailure networkResponse)
        else
          responsePayload <- liftClient (awaitJson networkResponse) ;;
          writeCache CharacterQueries cacheKey responsePayload ;;
          ret (Some responsePayload)
  end.

Definition fetchCharacterEntriesByVisualNovelId (visualNovelIdentifier : string)
  : Reads Json :=
  let normalizedVisualNovelIdentifier :=
    normalizeVisualNovelIdentifier visualNovelIdentifier in
  let numericVisualNovelIdentifier :=
    positiveNumber (withoutLeadingV normalizedVisualNovelIdentifier) in
  fromFieldCandidates <-
    tryFieldCandidates normalizedVisualNovelIdentifier
      visualNovelCharacterFieldCandidates ;;
  match fromFieldCandidates with
  | Some responsePayload => ret responsePayload
  | None =>
      fromFilterCandidates <-
        tryFilterCandidates
          (filterCandidates normalizedVisualNovelIdentifier numericVisualNovelIdentifier) ;;
      match fromFilterCandidates with
      | Some responsePayload => ret responsePayload
      | None => ret emptyResponse
      end
  end.

(** *** Vocabulary *)

(** The request shapes of the lookup, in the order in which it tries
    them: the two field candidates, then the filter candidates. *)
Definition candidateRequests (visualNovelIdentifier : string) : list HttpRequest :=
  let normalizedVisualNovelIdentifier :=
    normalizeVisualNovelIdentifier visualNovelIdentifier in
  (map (visualNovelRequest normalizedVisualNovelIdentifier)
       visualNovelCharacterFieldCandidates
   ++ map characterRequest
        (filterCandidates normalizedVisualNovelIdentifier
           (positiveNumber (withoutLeadingV normalizedVisualNovelIdentifier))))%list.

(** The character cache holds nothing under the keys of the shapes. *)
Definition characterCacheMiss (visualNovelIdentifier : string) (ms : ModuleState) : Prop :=
  let normalizedVisualNovelIdentifier :=
    normalizeVisualNovelIdentifier visualNovelIdentifier in
  (forall fieldCandidate,
      In fieldCandidate visualNovelCharacterFieldCandidates ->
      characterQueryCache ms !! fieldCacheKey normalizedVisualNovelIdentifier fieldCandidate
      = None)
  /\ (forall filterCandidate,
         In filterCandidate
            (filterCandidates normalizedVisualNovelIdentifier
               (positiveNumber (withoutLeadingV normalizedVisualNovelIdentifier))) ->
         characterQueryCache ms !! filterCacheKey filterCandidate = None).

(** The module state after one more exchange. *)
Definition afterRequest (request : HttpRequest) (ms : ModuleState) : ModuleState :=
  withClient (afterExchange request (client ms)) ms.

(** How a loop over the request shapes [requests] that made the
    exchanges [made] went: the requests made are the first of
    [requests], in order; a request rejected with status 400 is followed
    by the next shape, and by the end of the loop when it was the last;
    the loop runs to its end only after every shape, and it does when
    every request was rejected with status 400; a response that is a
    failure other than status 400 is the last exchange and is thrown. *)
Definition triedInOrder (requests : list HttpRequest)
    (made : list (HttpRequest * FetchOutcome)) (completion : Completion (option Json))
  : Prop :=
  map fst made = take (length made) requests
  /\ (requests <> [] -> made <> [])
  /\ (forall (i : nat) request outcome,
         made !! i = Some (request, outcome) ->
         rejectedAsBadRequest outcome ->
         ((S i < length requests)%nat -> (S i < length made)%nat)
         /\ (S i = length requests -> completion = Returned None))
  /\ (completion = Returned None -> length made = length requests)
  /\ (Forall (fun exchange => rejectedAsBadRequest (snd exchange)) made ->
      completion = Returned None)
  /\ (forall (i : nat) request networkResponse,
         made !! i = Some (request, Resolved networkResponse) ->
         ok networkResponse = false ->
         status networkResponse <> 400 ->
         S i = length made /\ completion = Threw (characterFailure networkResponse)).

End WithPlatform.

(** *** Sample data *)

(** A conversion that agrees with [Number] on texts of decimal digits,
    which are all that the sample runs convert. *)
Definition numberOfDecimalDigits (text : string) : option Json :=
  if forallb isDigit (list_ascii_of_string text)
  then match finiteNumberOfDigits text with
       | Some n => if 0 <? n then Some (JNumber n) else None
       | None => None
       end
  else None.

(** A remote that rejects every request with status 400. *)
Definition rejectsAll : Platform := scriptedPlatform (sampleResponse 400 None).

End ClientCharacters.

(* --------------------------------------------------------------------- *)
(** ** The character view                                                 *)
(* --------------------------------------------------------------------- *)

Module CharacterView.
Import Payloads.

Definition normalizeTraitGroupLabel (rawGroupLabel : string) : string :=
  let normalizedGroupLabel := toLowerCase rawGroupLabel in
  if includesSubstring normalizedGroupLabel "hair" then "Hair"
  else if includesSubstring normalizedGroupLabel "eye" then "Eyes"
  else if includesSubstring normalizedGroupLabel "body" then "Body"
  else if includesSubstring normalizedGroupLabel "cloth"
          || includesSubstring normalizedGroupLabel "outfit" then "Clothes"
  else if includesSubstring normalizedGroupLabel "personality" then "Personality"
  else if includesSubstring normalizedGroupLabel "role" then "Role"
  else if includesSubstring normalizedGroupLabel "engage" then "Engages In"
  else if includesSubstring normalizedGroupLabel "subject" then "Subject Of"
  else "Other".

Definition TRAIT_GROUP_LABELS : list string :=
  ["Hair"; "Eyes"; "Body"; "Clothes"; "Personality"; "Role"; "Engages In"; "Subject Of";
   "Other"].

Record TraitChip : Type := { traitId : string; traitName : string }.

(** The initial value of [groupedTraits]: every group, empty. *)
Definition emptyGroups : gmap string (list TraitChip) :=
  list_to_map (map (fun groupLabel => (groupLabel, [])) TRAIT_GROUP_LABELS).

(** The trait an entry of [characterData.traits] stands for, if the entry
    passes the test of the loop: it is truthy and has a string [id] and a
    string [name]. *)
Definition traitOfEntry (traitEntry : Json) : option TraitChip :=
  match stringProperty traitEntry "id", stringProperty traitEntry "name" with
  | Some identifier, Some name => Some {| traitId := identifier; traitName := name |}
  | _, _ => None
  end.

(** [traitGroupByIdentifier] is a plain object ([{}], then the result of
    [Object.fromEntries]): besides its own properties it has the members
    it inherits from [Object.prototype].  These are their names; their
    values are functions and, for [__proto__], the prototype itself: not
    one of them is nullish, not one is a string. *)
Definition OBJECT_PROTOTYPE_KEYS : list string :=
  ["constructor"; "__defineGetter__"; "__defineSetter__"; "hasOwnProperty";
   "__lookupGetter__"; "__lookupSetter__"; "isPrototypeOf"; "propertyIsEnumerable";
   "toString"; "valueOf"; "__proto__"; "toLocaleString"].

(** What reading a property of a plain object gives. *)
Inductive PropertyRead : Type :=
| OwnValue (value : Json)
| InheritedMember
| Undefined.

(** [plainObject[key]], for a plain object with the own properties
    [ownProperties]: an own property hides an inherited member of the
    same name. *)
Definition readPlainObject (ownProperties : gmap string Json) (key : string)
  : PropertyRead :=
  match ownProperties !! key with
  | Some value => OwnValue value
  | None =>
      if existsb (String.eqb key) OBJECT_PROTOTYPE_KEYS then InheritedMember else Undefined
  end.

(** The group a trait is shown in:
    [normalizeTraitGroupLabel(traitGroupByIdentifier[id] ?? 'Other')].
    [??] replaces [undefined] and [null] only; the call of [toLowerCase]
    on a value that is not a string throws a [TypeError]. *)
Definition groupOfTrait (traitGroupByIdentifier : gmap string Json) (trait : TraitChip)
  : Completion string :=
  match readPlainObject traitGroupByIdentifier (traitId trait) with
  | Undefined => Returned (normalizeTraitGroupLabel "Other")
  | OwnValue JNull => Returned (normalizeTraitGroupLabel "Other")
  | OwnValue (JString rawGroupLabel) => Returned (normalizeTraitGroupLabel rawGroupLabel)
  | OwnValue _ => Threw "rawGroupLabel.toLowerCase is not a function"
  | InheritedMember => Threw "rawGroupLabel.toLowerCase is not a function"
  end.

(** The callback of [forEach] in [groupedCharacterTraits]. *)
Definition recordTrait (traitGroupByIdentifier : gmap string Json)
    (groupedTraits : gmap string (list TraitChip)) (traitEntry : Json)
  : Completion (gmap string (list TraitChip)) :=
  match traitOfEntry traitEntry with
  | None => Returned groupedTraits
  | Some trait =>
      match groupOfTrait traitGroupByIdentifier trait with
      | Returned traitGroupLabel =>
          Returned
            (<[traitGroupLabel :=
                 (default [] (groupedTraits !! traitGroupLabel) ++ [trait])%list]>
               groupedTraits)
      | Threw message => Threw message
      end
  end.

(** [forEach] over the traits: an exception of the callback ends the
    loop. *)
Fixpoint forEachTrait (traitGroupByIdentifier : gmap string Json) (traits : list Json)
    (groupedTraits : gmap string (list TraitChip))
  : Completion (gmap string (list TraitChip)) :=
  match traits with
  | [] => Returned groupedTraits
  | traitEntry :: later =>
      match recordTrait traitGroupByIdentifier groupedTraits traitEntry with
      | Returned recorded => forEachTrait traitGroupByIdentifier later recorded
      | Threw message => Threw message
      end
  end.

(** [groupedCharacterTraits]; [traits] is [characterData?.traits ?? []]. *)
Definition groupedCharacterTraits (traits : list Json)
    (traitGroupByIdentifier : gmap string Json)
  : Completion (gmap string (list TraitChip)) :=
  forEachTrait traitGroupByIdentifier traits emptyGroups.

(** The traits of the character that the view can show, in the order
    given. *)
Definition shownTraits (traits : list Json) : list TraitChip := omap traitOfEntry traits.

Definition inGroup (traitGroupByIdentifier : gmap string Json) (groupLabel : string)
    (trait : TraitChip) : bool :=
  match groupOfTrait traitGroupByIdentifier trait with
  | Returned traitGroupLabel => String.eqb traitGroupLabel groupLabel
  | Threw _ => false
  end.

(** The groups hold, each in the order given, the traits processed so far
    that belong to them, and there is no other group. *)
Definition groupsHold (traitGroupByIdentifier : gmap string Json)
    (processed : list TraitChip) (groupedTraits : gmap string (list TraitChip)) : Prop :=
  forall groupLabel,
    groupedTraits !! groupLabel
    = if decide (In groupLabel TRAIT_GROUP_LABELS)
      then Some (List.filter (inGroup traitGroupByIdentifier groupLabel) processed)
      else None.

(** *** Sample data *)

Definition sampleTraits : list Json :=
  [JObject [("id", JString "i1"); ("name", JString "Black hair")];
   JObject [("id", JString "i2"); ("name", JString "Kind")];
   JObject [("id", JNumber 3); ("name", JString "No identifier text")];
   JObject [("id", JString "i4"); ("name", JString "Long hair")]].

Definition sampleTraitGroups : gmap string Json :=
  {[ "i1" := JString "Hair"; "i2" := JString "Personality";
     "i4" := JString "Hair style" ]}.

(** A trait whose identifier is the name of an inherited member. *)
Definition inheritedNameTraits : list Json :=
  [JObject [("id", JString "i1"); ("name", JString "Black hair")];
   JObject [("id", JString "constructor"); ("name", JString "Builder")]].

End CharacterView.

(* --------------------------------------------------------------------- *)
(** ** The application shell                                              *)
(* --------------------------------------------------------------------- *)

Module App.
Import Client ListView SearchForm.

(** [VisualNovelAuthInfoResponse] of [apiTypes.ts] *)
Record VisualNovelAuthInfoResponse : Type := {
  authId : string;
  authUsername : string;
  authPermissions : list string
}.

Record AuthenticatedSession : Type := {
  token : string;
  userId : string;
  username : string;
  permissions : list string
}.

(** The part of the state of [RootApplication] that authentication
    touches; [storedAuthenticationToken] is the entry of [localStorage]
    under [AUTH_TOKEN_STORAGE_KEY]. *)
Record AppState : Type := {
  authenticatedSession : option AuthenticatedSession;
  storedAuthenticationToken : option string;
  authenticationErrorMessage : option string;
  tokenInputValue : string;
  isAuthenticationInFlight : bool;
  isMenuPanelVisible : bool
}.

Section Handlers.
Context `{P : Platform}.

(** The decoded body of [/authinfo], with the type that
    [fetchAuthenticationInfoByToken] declares for it. *)
Variable asAuthInfo : Json -> VisualNovelAuthInfoResponse.

Local Open Scope async_scope.

Definition authInfoRequest (authenticationToken : string) : HttpRequest :=
  {| method := "GET";
     url := buildVndbApiUrl "/authinfo";
     headers := [authorizationHeader authenticationToken];
     body := None |}.

(** [fetchAuthenticationInfoByToken] of the API client *)
Definition fetchAuthenticationInfoByToken (authenticationToken : string)
  : Async VisualNovelAuthInfoResponse :=
  networkResponse <- awaitFetch (authInfoRequest authenticationToken) ;;
  if negb (ok networkResponse)
  then throw "Authentication failure: Invalid token or unauthorized request."
  else
    decoded <- awaitJson networkResponse ;;
    ret (asAuthInfo decoded).

(** [applyAuthenticationToken]: its result, the application state and the
    client state when its promise settles. *)
Definition applyAuthenticationToken (authenticationToken : string)
    (app : AppState) (st : ClientState) : bool * AppState * ClientState :=
  match fetchAuthenticationInfoByToken authenticationToken st with
  | (Returned authenticationInfo, st') =>
      (true,
       {| authenticatedSession :=
            Some {| token := authenticationToken;
                    userId := authId authenticationInfo;
                    username := authUsername authenticationInfo;
                    permissions := authPermissions authenticationInfo |};
          storedAuthenticationToken := Some authenticationToken;
          authenticationErrorMessage := None;
          tokenInputValue := "";
          isAuthenticationInFlight := false;
          isMenuPanelVisible := false |},
       st')
  | (Threw message, st') =>
      (false,
       {| authenticatedSession := None;
          storedAuthenticationToken := None;
          authenticationErrorMessage := Some message;
          tokenInputValue := tokenInputValue app;
          isAuthenticationInFlight := false;
          isMenuPanelVisible := isMenuPanelVisible app |},
       st')
  end.

(** [handleAuthenticationFormSubmit], run until the promise of
    [applyAuthenticationToken] settles. *)
Definition handleAuthenticationFormSubmit (app : AppState) (st : ClientState)
  : AppState * ClientState :=
  if String.eqb (trim (tokenInputValue app)) ""
  then ({| authenticatedSession := authenticatedSession app;
           storedAuthenticationToken := storedAuthenticationToken app;
           authenticationErrorMessage := Some "Please enter a VNDB API token.";
           tokenInputValue := tokenInputValue app;
           isAuthenticationInFlight := isAuthenticationInFlight app;
           isMenuPanelVisible := isMenuPanelVisible app |},
        st)
  else
    let '(_, app', st') := applyAuthenticationToken (trim (tokenInputValue app)) app st in
    (app', st').

(** [handleAddVisualNovelToUserList]; [None] as label is an omitted
    argument. *)
Definition handleAddVisualNovelToUserList (session : option AuthenticatedSession)
    (visualNovelIdentifier : string) (labelIdentifierArgument : option Z) : Async unit :=
  let labelIdentifier := default 5 labelIdentifierArgument in
  match session with
  | None => throw "Authentication required to add visual novels to your list."
  | Some activeSession =>
      if negb (includesText (permissions activeSession) "listwrite")
      then throw "Your token does not include `listwrite` permission."
      else addVisualNovelToAuthenticatedUserList (token activeSession)
             visualNovelIdentifier (Some labelIdentifier)
  end.

(** [handleUpdateVisualNovelUserListStatus] *)
Definition handleUpdateVisualNovelUserListStatus (session : option AuthenticatedSession)
    (visualNovelIdentifier : string) (statusLabelIdentifier : Z) : Async unit :=
  match session with
  | None => throw "Authentication required to update visual novel status."
  | Some activeSession =>
      if negb (includesText (permissions activeSession) "listwrite")
      then throw "Your token does not include `listwrite` permission."
      else updateAuthenticatedUserVisualNovelStatusLabel (token activeSession)
             visualNovelIdentifier statusLabelIdentifier
  end.

End Handlers.

(** The session may write to the personal list. *)
Definition canWrite (session : option AuthenticatedSession) : bool :=
  match session with
  | Some activeSession => includesText (permissions activeSession) "listwrite"
  | None => false
  end.

(** The stored token is the token of the session, and there is none
    without a session. *)
Definition tokenInStep (app : AppState) : Prop :=
  storedAuthenticationToken app = option_map token (authenticatedSession app).

(** *** The callbacks that the list component hands to a card *)


(** [onMarkedAsAdded], as an update of [userListIdentifierSet]. *)
Definition onMarkedAsAdded (visualNovelIdentifier : string) (currentSet : gset string)
  : gset string :=
  currentSet ∪ {[ cardIdentifier visualNovelIdentifier ]}.

(** *** Sample data *)

Definition signedOut : AppState :=
  {| authenticatedSession := None;
     storedAuthenticationToken := None;
     authenticationErrorMessage := None;
     tokenInputValue := " abcd-efgh ";
     isAuthenticationInFlight := false;
     isMenuPanelVisible := true |}.

Definition readerAndWriter (_ : Json) : VisualNovelAuthInfoResponse :=
  {| authId := "u7"; authUsername := "saya"; authPermissions := ["listread"; "listwrite"] |}.

Definition readOnlySession : AuthenticatedSession :=
  {| token := "abcd-efgh"; userId := "u7"; username := "saya"; permissions := ["listread"] |}.


(** A remote that accepts the next request. *)
Definition acceptsOnce : @ClientState (scriptedPlatform offline) :=
  @freshClient (scriptedPlatform offline) (0, [sampleResponse 200 (Some (JObject []))]).

End App.

(* --------------------------------------------------------------------- *)
(** ** The development server ([vite.config.ts])                          *)
(* --------------------------------------------------------------------- *)

Module DevServer.
Import Client MarkupText.

Definition PROXY_KEY : string := "/api/vndb".
Definition PROXY_TARGET : string := "https://api.vndb.org".

(** [rewrite: (path) => path.replace(/^\/api\/vndb/, '/kana')] *)
Definition rewrite (path : string) : string :=
  if startsWith path "/api/vndb" then "/kana" ++ dropChars 9 path else path.

(** Where the development server sends a request of the page: a path
    under the proxy key goes to the target with the rewritten path;
    [None]: the request is not proxied. *)
Definition proxied (path : string) : option string :=
  if startsWith path PROXY_KEY then Some (PROXY_TARGET ++ rewrite path) else None.

(** A development build. *)
Definition devPlatform : Platform :=
  {| Env := Z;
     dateNow := fun world => world;
     fetch := fun _ world => (offline, world);
     JSON_stringify := sampleStringify;
     DEV := true |}.

End DevServer.

(* ===================================================================== *)
(** * Part II: properties                                                 *)
(* ===================================================================== *)

(** ** The response cache *)

Section CacheFacts.
Import Client.

Lemma readFromCache_fresh (now : Z) (cacheStore : gmap string CacheEntry)
    (cacheKey : string) (cachedEntry : CacheEntry) :
  cacheStore !! cacheKey = Some cachedEntry ->
  now <= expiresAt cachedEntry ->
  readFromCache now cacheStore cacheKey = (payload cachedEntry, cacheStore).
Proof.
  intros Hfound Hfresh. unfold readFromCache. rewrite Hfound.
  destruct (Z.gtb_spec now (expiresAt cachedEntry)); [lia | reflexivity].
Qed.

Lemma readFromCache_expired (now : Z) (cacheStore : gmap string CacheEntry)
    (cacheKey : string) (cachedEntry : CacheEntry) :
  cacheStore !! cacheKey = Some cachedEntry ->
  now > expiresAt cachedEntry ->
  readFromCache now cacheStore cacheKey = (JNull, delete cacheKey cacheStore).
Proof.
  intros Hfound Hstale. unfold readFromCache. rewrite Hfound.
  destruct (Z.gtb_spec now (expiresAt cachedEntry)); [reflexivity | lia].
Qed.

Lemma writeToCache_lookup (now : Z) (cacheStore : gmap string CacheEntry)
    (cacheKey : string) (newPayload : Json) :
  writeToCache now cacheStore cacheKey newPayload !! cacheKey
  = Some {| expiresAt := now + CACHE_TIME_TO_LIVE_MILLISECONDS; payload := newPayload |}.
Proof. unfold writeToCache. apply lookup_insert_eq. Qed.

(** C5.  A read never hands out an entry once the clock is past the
    entry's [expiresAt]: such a read answers [null] and removes the entry.
    A write followed by a read of the same key at the same instant gives
    back the payload, and so does every read up to five minutes (300000
    ms) later; a read after that is a miss and leaves the key absent. *)
Theorem cache_entry_never_served_past_expiry
    (cacheStore : gmap string CacheEntry) (cacheKey : string)
    (newPayload : Json) (writeTime readTime : Z) :
  (forall cachedEntry,
      cacheStore !! cacheKey = Some cachedEntry ->
      readTime > expiresAt cachedEntry ->
      fst (readFromCache readTime cacheStore cacheKey) = JNull
      /\ snd (readFromCache readTime cacheStore cacheKey) !! cacheKey = None)
  /\ readFromCache writeTime (writeToCache writeTime cacheStore cacheKey newPayload) cacheKey
     = (newPayload, writeToCache writeTime cacheStore cacheKey newPayload)
  /\ (readTime <= writeTime + 300000 ->
      readFromCache readTime (writeToCache writeTime cacheStore cacheKey newPayload) cacheKey
      = (newPayload, writeToCache writeTime cacheStore cacheKey newPayload))
  /\ (readTime > writeTime + 300000 ->
      readFromCache readTime (writeToCache writeTime cacheStore cacheKey newPayload) cacheKey
      = (JNull, delete cacheKey cacheStore)
      /\ delete cacheKey cacheStore !! cacheKey = None).
Proof.
  assert (Httl : CACHE_TIME_TO_LIVE_MILLISECONDS = 300000) by reflexivity.
  pose proof (writeToCache_lookup writeTime cacheStore cacheKey newPayload) as Hwritten.
  split; [ | split; [ | split]].
  - intros cachedEntry Hfound Hstale.
    rewrite (readFromCache_expired _ _ _ _ Hfound Hstale). simpl.
    split; [reflexivity | apply lookup_delete_eq].
  - rewrite (readFromCache_fresh _ _ _ _ Hwritten); [reflexivity | simpl; lia].
  - intros Hfresh.
    rewrite (readFromCache_fresh _ _ _ _ Hwritten); [reflexivity | simpl; lia].
  - intros Hstale.
    rewrite (readFromCache_expired _ _ _ _ Hwritten); [ | simpl; lia].
    split; [ | apply lookup_delete_eq].
    unfold writeToCache. by rewrite delete_insert_eq.
Qed.

Lemma cache_entry_never_served_past_expiry_witness :
  readFromCache 300001 (writeToCache 0 ∅ "k" (JString "payload")) "k"
  = (JNull, delete "k" ∅)
  /\ delete "k" (∅ : gmap string CacheEntry) !! "k" = None.
Proof.
  apply (cache_entry_never_served_past_expiry ∅ "k" (JString "payload") 0 300001).
  lia.
Defined.

End CacheFacts.

(** ** The filter expression builder *)

Section FilterFacts.
Import ListView.

Lemma string_eqb_false_iff (a b : string) : String.eqb a b = false <-> a <> b.
Proof. destruct (String.eqb_spec a b); split; congruence. Qed.

Lemma filterClauses_no_extra (queryDescriptor : ListQueryDescriptor) :
  noExtraFilters (filters queryDescriptor) ->
  filterClauses queryDescriptor = [primaryClause queryDescriptor].
Proof.
  intros (Hlanguages & Horiginal & Hscreenshots & Hdescription).
  unfold filterClauses.
  rewrite Hlanguages, Horiginal, Hscreenshots, Hdescription. reflexivity.
Qed.

Lemma languageClauses_length (selected : list string) :
  (length (languageClauses selected) <= 1)%nat
  /\ (languageClauses selected = [] -> selected = []).
Proof.
  destruct selected as [|first [|second others]]; simpl; split; (lia || congruence).
Qed.

Lemma primaryClause_text (queryDescriptor : ListQueryDescriptor) :
  kind queryDescriptor = KindText ->
  trim (term queryDescriptor) <> "" ->
  primaryClause queryDescriptor = leaf "search" "=" (JString (term queryDescriptor)).
Proof.
  intros Hkind Hterm. unfold primaryClause. rewrite Hkind.
  apply string_eqb_false_iff in Hterm. rewrite Hterm.
  destruct (truthyIdentifier (tagIdentifier queryDescriptor));
    destruct (truthyIdentifier (developerIdentifier queryDescriptor)); reflexivity.
Qed.

(** The specification's wording fails for a term of white space only: it is
    not empty, there are no extra filters, and the builder answers the
    identifier clause instead of the free-text leaf. *)
Lemma blank_term_is_not_a_text_leaf :
  let queryDescriptor :=
    {| kind := KindText; term := " "; tagIdentifier := None; developerIdentifier := None;
       filters := {| languages := []; originalLanguage := "";
                     onlyWithScreenshots := false; onlyWithDescription := false |};
       sort := {| field := SortDefault; direction := Desc |} |} in
  term queryDescriptor <> ""
  /\ noExtraFilters (filters queryDescriptor)
  /\ buildFiltersFromQueryDescriptor queryDescriptor = leaf "id" ">=" (JString "v1")
  /\ buildFiltersFromQueryDescriptor queryDescriptor
     <> leaf "search" "=" (JString (term queryDescriptor)).
Proof.
  repeat split; try reflexivity; discriminate.
Qed.

(** C4, amended.  The builder always has at least one leaf clause; it
    returns that clause unwrapped when it is the only one, which is the
    case exactly when no extra filter is set, and otherwise returns one
    AND node over all the clauses in order.  A text-kind descriptor whose
    term is not blank (not empty once trimmed) and which has no extra
    filters yields the bare free-text leaf; the same term with two
    selected languages yields the AND of the text leaf and of the OR of
    the two language leaves. *)
Theorem filter_builder_shape (queryDescriptor : ListQueryDescriptor) :
  ((exists onlyClause,
       filterClauses queryDescriptor = [onlyClause]
       /\ buildFiltersFromQueryDescriptor queryDescriptor = onlyClause)
   \/ ((2 <= length (filterClauses queryDescriptor))%nat
       /\ buildFiltersFromQueryDescriptor queryDescriptor
          = JArray (JString "and" :: filterClauses queryDescriptor)))
  /\ (length (filterClauses queryDescriptor) = 1%nat
      <-> noExtraFilters (filters queryDescriptor))
  /\ (kind queryDescriptor = KindText ->
      trim (term queryDescriptor) <> "" ->
      noExtraFilters (filters queryDescriptor) ->
      buildFiltersFromQueryDescriptor queryDescriptor
      = leaf "search" "=" (JString (term queryDescriptor)))
  /\ (forall firstLanguage secondLanguage,
        kind queryDescriptor = KindText ->
        trim (term queryDescriptor) <> "" ->
        languages (filters queryDescriptor) = [firstLanguage; secondLanguage] ->
        trim (originalLanguage (filters queryDescriptor)) = "" ->
        onlyWithScreenshots (filters queryDescriptor) = false ->
        onlyWithDescription (filters queryDescriptor) = false ->
        buildFiltersFromQueryDescriptor queryDescriptor
        = JArray [JString "and";
                  leaf "search" "=" (JString (term queryDescriptor));
                  JArray [JString "or";
                          leaf "lang" "=" (JString firstLanguage);
                          leaf "lang" "=" (JString secondLanguage)]]).
Proof.
  split; [ | split; [ | split]].
  - unfold buildFiltersFromQueryDescriptor.
    destruct (filterClauses queryDescriptor) as [|firstClause [|secondClause others]] eqn:Hclauses.
    + unfold filterClauses in Hclauses. discriminate.
    + left. exists firstClause. split; reflexivity.
    + right. split; [simpl; lia | reflexivity].
  - split.
    + intros Hone. unfold filterClauses in Hone.
      destruct (languageClauses_length (languages (filters queryDescriptor)))
        as [_ Hnone].
      repeat split.
      * apply Hnone.
        destruct (languageClauses (languages (filters queryDescriptor))); [reflexivity | ].
        simpl in Hone. rewrite !length_app in Hone. simpl in Hone. lia.
      * destruct (String.eqb_spec (trim (originalLanguage (filters queryDescriptor))) "")
          as [Hblank | Hset]; [assumption | ].
        simpl in Hone. rewrite !length_app in Hone. simpl in Hone. lia.
      * destruct (onlyWithScreenshots (filters queryDescriptor)); [ | reflexivity].
        simpl in Hone. rewrite !length_app in Hone. simpl in Hone. lia.
      * destruct (onlyWithDescription (filters queryDescriptor)); [ | reflexivity].
        simpl in Hone. rewrite !length_app in Hone. simpl in Hone. lia.
    + intros Hnone. rewrite (filterClauses_no_extra _ Hnone). reflexivity.
  - intros Hkind Hterm Hnone. unfold buildFiltersFromQueryDescriptor.
    rewrite (filterClauses_no_extra _ Hnone). apply primaryClause_text; assumption.
  - intros firstLanguage secondLanguage Hkind Hterm Hlanguages Horiginal Hscreenshots
           Hdescription.
    unfold buildFiltersFromQueryDescriptor, filterClauses.
    rewrite Hlanguages, Horiginal, Hscreenshots, Hdescription.
    rewrite (primaryClause_text _ Hkind Hterm). reflexivity.
Qed.

Lemma filter_builder_shape_witness :
  let steinsGate (selected : list string) :=
    {| kind := KindText; term := "Steins;Gate";
       tagIdentifier := None; developerIdentifier := None;
       filters := {| languages := selected; originalLanguage := "";
                     onlyWithScreenshots := false; onlyWithDescription := false |};
       sort := {| field := SortDefault; direction := Desc |} |} in
  buildFiltersFromQueryDescriptor (steinsGate [])
  = JArray [JString "search"; JString "="; JString "Steins;Gate"]
  /\ buildFiltersFromQueryDescriptor (steinsGate ["en"; "ja"])
     = JArray [JString "and";
               JArray [JString "search"; JString "="; JString "Steins;Gate"];
               JArray [JString "or";
                       JArray [JString "lang"; JString "="; JString "en"];
                       JArray [JString "lang"; JString "="; JString "ja"]]].
Proof.
  intros steinsGate. split.
  - apply (filter_builder_shape (steinsGate [])).
    + reflexivity.
    + discriminate.
    + repeat split.
  - apply (filter_builder_shape (steinsGate ["en"; "ja"]));
      try reflexivity; discriminate.
Defined.

End FilterFacts.

(** ** Status derivation *)

Section StatusFacts.
Import ListView.

Lemma includes_In (normalizedLabels : list Z) (statusLabelIdentifier : Z) :
  includes normalizedLabels statusLabelIdentifier = true
  <-> In statusLabelIdentifier normalizedLabels.
Proof.
  unfold includes. rewrite existsb_exists. split.
  - intros (found & Hin & Heq). apply Z.eqb_eq in Heq. congruence.
  - intros Hin. exists statusLabelIdentifier. split; [assumption | apply Z.eqb_refl].
Qed.

Lemma includes_not_In (normalizedLabels : list Z) (statusLabelIdentifier : Z) :
  includes normalizedLabels statusLabelIdentifier = false
  <-> ~ In statusLabelIdentifier normalizedLabels.
Proof.
  rewrite <- includes_In. destruct (includes normalizedLabels statusLabelIdentifier);
    split; congruence.
Qed.

(** The scan over [STATUS_LABEL_IDENTIFIERS] returns the least status
    identifier present among the labels. *)
Lemma find_status_least (normalizedLabels : list Z) (derived : Z) :
  List.find (includes normalizedLabels) STATUS_LABEL_IDENTIFIERS = Some derived
  <-> (1 <= derived <= 6
       /\ In derived normalizedLabels
       /\ forall earlier, 1 <= earlier < derived -> ~ In earlier normalizedLabels).
Proof.
  unfold STATUS_LABEL_IDENTIFIERS. simpl.
  destruct (includes normalizedLabels 1) eqn:H1;
    [ | destruct (includes normalizedLabels 2) eqn:H2;
        [ | destruct (includes normalizedLabels 3) eqn:H3;
            [ | destruct (includes normalizedLabels 4) eqn:H4;
                [ | destruct (includes normalizedLabels 5) eqn:H5;
                    [ | destruct (includes normalizedLabels 6) eqn:H6]]]]];
    repeat match goal with
           | H : includes _ _ = true |- _ => apply includes_In in H
           | H : includes _ _ = false |- _ => apply includes_not_In in H
           end.
  all: split.
  all: try (intros Hfound; inversion Hfound; subst derived; clear Hfound;
            split; [lia | split; [assumption | ]];
            intros earlier Hearlier;
            assert (Hcases : earlier = 1 \/ earlier = 2 \/ earlier = 3
                             \/ earlier = 4 \/ earlier = 5) by lia;
            repeat (destruct Hcases as [Hcase | Hcases]; [subst earlier; first [assumption | lia] | ]);
            subst earlier; first [assumption | lia]).
  all: try (intros (Hrange & Hin & Hleast);
            assert (Hcases : derived = 1 \/ derived = 2 \/ derived = 3
                             \/ derived = 4 \/ derived = 5 \/ derived = 6) by lia;
            repeat (destruct Hcases as [Hcase | Hcases];
                    [subst derived;
                     first [ reflexivity | contradiction
                           | exfalso;
                             match goal with
                             | Hpresent : In ?k _ |- _ =>
                                 apply (Hleast k); [lia | exact Hpresent]
                             end ] | ]);
            subst derived;
            first [ reflexivity | contradiction
                  | exfalso;
                    match goal with
                    | Hpresent : In ?k _ |- _ =>
                        apply (Hleast k); [lia | exact Hpresent]
                    end ]).
  discriminate.
Qed.




End StatusFacts.

(** ** The API client: writes, fallback and paging *)

Section ClientFacts.
Import Client.
Context `{P : Platform}.

(** One request, seen from the caller: the world moves on, the exchange
    is recorded, the cache is untouched. *)
Lemma awaitFetch_run (request : HttpRequest) (st : ClientState) :
  awaitFetch request st
  = (match fst (fetch request (env st)) with
     | Resolved networkResponse => Returned networkResponse
     | Rejected message => Threw message
     end,
     {| env := snd (fetch request (env st));
        userListQueryCache := userListQueryCache st;
        exchanges := exchanges st ++ [(request, fst (fetch request (env st)))] |}).
Proof.
  unfold awaitFetch. destruct (fetch request (env st)) as [[networkResponse|message] env'];
    reflexivity.
Qed.

Lemma ok_400 (networkResponse : HttpResponse) :
  status networkResponse = 400 -> ok networkResponse = false.
Proof. intros Hstatus. unfold ok. rewrite Hstatus. reflexivity. Qed.

Lemma retry_condition (networkResponse : HttpResponse) :
  negb (ok networkResponse) && (status networkResponse =? 400)
  = (status networkResponse =? 400).
Proof.
  destruct (Z.eqb_spec (status networkResponse) 400) as [Hstatus|Hstatus].
  - rewrite (ok_400 _ Hstatus). reflexivity.
  - apply andb_false_r.
Qed.

Lemma update_writeOutcome (authenticationToken visualNovelIdentifier : string)
    (statusLabelIdentifier : Z) (st : ClientState) :
  writeOutcome st
    (updateAuthenticatedUserVisualNovelStatusLabel authenticationToken
       visualNovelIdentifier statusLabelIdentifier st).
Proof.
  unfold updateAuthenticatedUserVisualNovelStatusLabel, writeOutcome, bind.
  rewrite awaitFetch_run.
  destruct (fetch _ (env st)) as [[networkResponse|message] env']; simpl; [ | reflexivity].
  destruct (ok networkResponse) eqn:Hok; simpl; [ | reflexivity].
  split; [reflexivity | ]. eauto.
Qed.

Lemma remove_writeOutcome (authenticationToken visualNovelIdentifier : string)
    (st : ClientState) :
  writeOutcome st
    (removeVisualNovelFromAuthenticatedUserList authenticationToken
       visualNovelIdentifier st).
Proof.
  unfold removeVisualNovelFromAuthenticatedUserList, writeOutcome, bind.
  rewrite awaitFetch_run.
  destruct (fetch _ (env st)) as [[networkResponse|message] env']; simpl; [ | reflexivity].
  destruct (ok networkResponse) eqn:Hok; simpl; [ | reflexivity].
  split; [reflexivity | ]. eauto.
Qed.

Lemma add_writeOutcome (authenticationToken visualNovelIdentifier : string)
    (labelIdentifierArgument : option Z) (st : ClientState) :
  writeOutcome st
    (addVisualNovelToAuthenticatedUserList authenticationToken
       visualNovelIdentifier labelIdentifierArgument st).
Proof.
  unfold addVisualNovelToAuthenticatedUserList, writeOutcome.
  destruct (String.eqb (trim visualNovelIdentifier) ""); [reflexivity | ].
  unfold executePatchRequest, tryCatch, bind. rewrite awaitFetch_run.
  destruct (fetch _ (env st)) as [[firstResponse|message] env1]; simpl; [ | reflexivity].
  rewrite retry_condition.
  destruct (status firstResponse =? 400) eqn:Hretry.
  - rewrite awaitFetch_run. simpl.
    destruct (fetch _ env1) as [[secondResponse|message] env2]; simpl; [ | reflexivity].
    destruct (ok secondResponse) eqn:Hok; simpl.
    + split; [reflexivity | ].
      exists (exchanges st ++ [(patchRequest authenticationToken visualNovelIdentifier
                                  "labels_set" (default 5 labelIdentifierArgument),
                                Resolved firstResponse)])%list.
      eexists. exists secondResponse. split; [reflexivity | assumption].
    + unfold awaitText. destruct (bodyText secondResponse); reflexivity.
  - unfold ret. simpl. destruct (ok firstResponse) eqn:Hok; simpl.
    + split; [reflexivity | ]. eauto.
    + unfold awaitText. destruct (bodyText firstResponse); reflexivity.
Qed.

Lemma threw_Threw {A} (message : string) : threw (@Threw A message).
Proof. exists message. reflexivity. Qed.

Lemma update_clearsExactlyOnSuccess (authenticationToken visualNovelIdentifier : string)
    (statusLabelIdentifier : Z) (st : ClientState) :
  clearsExactlyOnSuccess
    (fst (fetch (ClientRequests.statusUpdateRequest authenticationToken
                   visualNovelIdentifier statusLabelIdentifier) (env st)))
    st
    (updateAuthenticatedUserVisualNovelStatusLabel authenticationToken
       visualNovelIdentifier statusLabelIdentifier st).
Proof.
  unfold updateAuthenticatedUserVisualNovelStatusLabel, clearsExactlyOnSuccess, bind.
  rewrite awaitFetch_run.
  change {| method := "PATCH";
            url := buildVndbApiUrl
                     ("/ulist/" ++ normalizeVisualNovelIdentifier visualNovelIdentifier);
            headers := [jsonContentType; authorizationHeader authenticationToken];
            body := _ |}
    with (ClientRequests.statusUpdateRequest authenticationToken visualNovelIdentifier
            statusLabelIdentifier).
  destruct (fst (fetch _ (env st))) as [networkResponse|message]; simpl.
  - destruct (ok networkResponse); simpl;
      (split; [first [reflexivity | apply threw_Threw] | reflexivity]).
  - split; [apply threw_Threw | reflexivity].
Qed.

Lemma remove_clearsExactlyOnSuccess (authenticationToken visualNovelIdentifier : string)
    (st : ClientState) :
  clearsExactlyOnSuccess
    (fst (fetch (ClientRequests.removalRequest authenticationToken visualNovelIdentifier)
            (env st)))
    st
    (removeVisualNovelFromAuthenticatedUserList authenticationToken
       visualNovelIdentifier st).
Proof.
  unfold removeVisualNovelFromAuthenticatedUserList, clearsExactlyOnSuccess, bind.
  rewrite awaitFetch_run.
  change {| method := "DELETE";
            url := buildVndbApiUrl
                     ("/ulist/" ++ normalizeVisualNovelIdentifier visualNovelIdentifier);
            headers := [authorizationHeader authenticationToken];
            body := None |}
    with (ClientRequests.removalRequest authenticationToken visualNovelIdentifier).
  destruct (fst (fetch _ (env st))) as [networkResponse|message]; simpl.
  - destruct (ok networkResponse); simpl;
      (split; [first [reflexivity | apply threw_Threw] | reflexivity]).
  - split; [apply threw_Threw | reflexivity].
Qed.

Lemma add_clearsExactlyOnSuccess (authenticationToken visualNovelIdentifier : string)
    (labelIdentifierArgument : option Z) (st : ClientState) :
  let firstRequest :=
    patchRequest authenticationToken visualNovelIdentifier "labels_set"
                 (default 5 labelIdentifierArgument) in
  let fallbackRequest :=
    patchRequest authenticationToken visualNovelIdentifier "labels"
                 (default 5 labelIdentifierArgument) in
  let firstOutcome := fst (fetch firstRequest (env st)) in
  let fallbackOutcome := fst (fetch fallbackRequest (snd (fetch firstRequest (env st)))) in
  trim visualNovelIdentifier <> "" ->
  clearsExactlyOnSuccess
    (match firstOutcome with
     | Resolved firstResponse =>
         if status firstResponse =? 400 then fallbackOutcome else firstOutcome
     | Rejected _ => firstOutcome
     end)
    st
    (addVisualNovelToAuthenticatedUserList authenticationToken visualNovelIdentifier
       labelIdentifierArgument st).
Proof.
  intros firstRequest fallbackRequest firstOutcome fallbackOutcome Hidentifier.
  subst firstOutcome fallbackOutcome.
  unfold addVisualNovelToAuthenticatedUserList.
  apply string_eqb_false_iff in Hidentifier. rewrite Hidentifier.
  unfold executePatchRequest, tryCatch, bind. rewrite awaitFetch_run.
  change (awaitFetch
            {| method := "PATCH";
               url := buildVndbApiUrl
                        ("/ulist/" ++ normalizeVisualNovelIdentifier visualNovelIdentifier);
               headers := [jsonContentType; authorizationHeader authenticationToken];
               body := Some (JObject [("labels",
                                       JArray [JNumber (default 5 labelIdentifierArgument)])]) |})
    with (awaitFetch fallbackRequest).
  change {| method := "PATCH";
            url := buildVndbApiUrl
                     ("/ulist/" ++ normalizeVisualNovelIdentifier visualNovelIdentifier);
            headers := [jsonContentType; authorizationHeader authenticationToken];
            body := Some (JObject [("labels_set",
                                    JArray [JNumber (default 5 labelIdentifierArgument)])]) |}
    with firstRequest.
  destruct (fst (fetch firstRequest (env st))) as [firstResponse|message] eqn:Hfirst; simpl.
  - rewrite retry_condition.
    destruct (status firstResponse =? 400) eqn:Hretry; simpl.
    + rewrite awaitFetch_run. simpl.
      destruct (fst (fetch fallbackRequest (snd (fetch firstRequest (env st)))))
        as [secondResponse|message]; simpl.
      * destruct (ok secondResponse); simpl; [split; reflexivity | ].
        unfold awaitText. destruct (bodyText secondResponse); simpl;
          (split; [apply threw_Threw | reflexivity]).
      * split; [apply threw_Threw | reflexivity].
    + unfold ret. simpl. destruct (ok firstResponse); simpl; [split; reflexivity | ].
      unfold awaitText. destruct (bodyText firstResponse); simpl;
        (split; [apply threw_Threw | reflexivity]).
  - split; [apply threw_Threw | reflexivity].
Qed.

(** C9.  Each personal-list write (add, status update, remove) empties
    the personal-list cache when it returns, and it returns only after a
    successful response to its last request; when it throws, the
    personal-list cache holds what it held before the call.  Which of
    the two happens is decided by the outcome of the last request alone:
    a successful response makes the write return with the cache emptied,
    any other outcome (a response that is not a success, a failed
    connection) makes it throw with the cache as it was.  The last
    request of a status update or a removal is its only request; the
    last request of an add is the [labels] request when the
    [labels_set] request was answered with status 400, and the
    [labels_set] request otherwise.  An add with a blank identifier
    throws before anything is sent and leaves the whole client state as
    it was. *)
Theorem writes_clear_list_cache_only_on_success
    (authenticationToken visualNovelIdentifier : string)
    (labelIdentifierArgument : option Z) (statusLabelIdentifier : Z) (st : ClientState) :
  let added :=
    addVisualNovelToAuthenticatedUserList authenticationToken
      visualNovelIdentifier labelIdentifierArgument st in
  let updated :=
    updateAuthenticatedUserVisualNovelStatusLabel authenticationToken
      visualNovelIdentifier statusLabelIdentifier st in
  let removed :=
    removeVisualNovelFromAuthenticatedUserList authenticationToken
      visualNovelIdentifier st in
  let firstRequest :=
    patchRequest authenticationToken visualNovelIdentifier "labels_set"
                 (default 5 labelIdentifierArgument) in
  let fallbackRequest :=
    patchRequest authenticationToken visualNovelIdentifier "labels"
                 (default 5 labelIdentifierArgument) in
  let firstOutcome := fst (fetch firstRequest (env st)) in
  let fallbackOutcome := fst (fetch fallbackRequest (snd (fetch firstRequest (env st)))) in
  (writeOutcome st added /\ writeOutcome st updated /\ writeOutcome st removed)
  /\ clearsExactlyOnSuccess
       (fst (fetch (ClientRequests.statusUpdateRequest authenticationToken
                      visualNovelIdentifier statusLabelIdentifier) (env st)))
       st updated
  /\ clearsExactlyOnSuccess
       (fst (fetch (ClientRequests.removalRequest authenticationToken
                      visualNovelIdentifier) (env st)))
       st removed
  /\ (trim visualNovelIdentifier = "" -> threw (fst added) /\ snd added = st)
  /\ (trim visualNovelIdentifier <> "" ->
      clearsExactlyOnSuccess
        (match firstOutcome with
         | Resolved firstResponse =>
             if status firstResponse =? 400 then fallbackOutcome else firstOutcome
         | Rejected _ => firstOutcome
         end)
        st added).
Proof.
  intros added updated removed firstRequest fallbackRequest firstOutcome fallbackOutcome.
  split; [ | split; [ | split; [ | split]]].
  - split; [apply add_writeOutcome
           | split; [apply update_writeOutcome | apply remove_writeOutcome]].
  - apply update_clearsExactlyOnSuccess.
  - apply remove_clearsExactlyOnSuccess.
  - intros Hblank. subst added. unfold addVisualNovelToAuthenticatedUserList.
    rewrite Hblank. simpl. split; [apply threw_Threw | reflexivity].
  - apply add_clearsExactlyOnSuccess.
Qed.

Lemma add_retry (authenticationToken visualNovelIdentifier : string)
    (labelIdentifierArgument : option Z) (st : ClientState)
    (firstResponse : HttpResponse) :
  let labelIdentifier := default 5 labelIdentifierArgument in
  let firstRequest :=
    patchRequest authenticationToken visualNovelIdentifier "labels_set" labelIdentifier in
  let fallbackRequest :=
    patchRequest authenticationToken visualNovelIdentifier "labels" labelIdentifier in
  let result :=
    addVisualNovelToAuthenticatedUserList authenticationToken visualNovelIdentifier
      labelIdentifierArgument st in
  trim visualNovelIdentifier <> "" ->
  fst (fetch firstRequest (env st)) = Resolved firstResponse ->
  status firstResponse = 400 ->
  let fallbackOutcome := fst (fetch fallbackRequest (snd (fetch firstRequest (env st)))) in
  exchanges (snd result)
  = (exchanges st ++ [(firstRequest, Resolved firstResponse);
                      (fallbackRequest, fallbackOutcome)])%list
  /\ writeEndsBy fallbackOutcome (fst result).
Proof.
  intros labelIdentifier firstRequest fallbackRequest result Hidentifier Hfirst Hstatus
         fallbackOutcome.
  subst result fallbackOutcome.
  unfold addVisualNovelToAuthenticatedUserList.
  apply string_eqb_false_iff in Hidentifier. rewrite Hidentifier.
  unfold executePatchRequest, tryCatch, bind. rewrite awaitFetch_run.
  fold labelIdentifier. fold firstRequest. fold fallbackRequest.
  change (awaitFetch
            {| method := "PATCH";
               url := buildVndbApiUrl
                        ("/ulist/" ++ normalizeVisualNovelIdentifier visualNovelIdentifier);
               headers := [jsonContentType; authorizationHeader authenticationToken];
               body := Some (JObject [("labels", JArray [JNumber labelIdentifier])]) |})
    with (awaitFetch fallbackRequest).
  change {| method := "PATCH";
            url := buildVndbApiUrl
                     ("/ulist/" ++ normalizeVisualNovelIdentifier visualNovelIdentifier);
            headers := [jsonContentType; authorizationHeader authenticationToken];
            body := Some (JObject [("labels_set", JArray [JNumber labelIdentifier])]) |}
    with firstRequest.
  rewrite Hfirst. simpl.
  rewrite retry_condition, Hstatus. simpl.
  rewrite awaitFetch_run. simpl.
  destruct (fst (fetch fallbackRequest (snd (fetch firstRequest (env st)))))
    as [secondResponse|message] eqn:Hsecond; simpl.
  - rewrite <- app_assoc. simpl.
    destruct (ok secondResponse); simpl.
    + split; reflexivity.
    + unfold awaitText. destruct (bodyText secondResponse); simpl;
        (split; [reflexivity | apply threw_Threw]).
  - rewrite <- app_assoc. simpl. split; [reflexivity | apply threw_Threw].
Qed.

Lemma add_no_retry (authenticationToken visualNovelIdentifier : string)
    (labelIdentifierArgument : option Z) (st : ClientState) :
  let firstRequest :=
    patchRequest authenticationToken visualNovelIdentifier "labels_set"
                 (default 5 labelIdentifierArgument) in
  let result :=
    addVisualNovelToAuthenticatedUserList authenticationToken visualNovelIdentifier
      labelIdentifierArgument st in
  let firstOutcome := fst (fetch firstRequest (env st)) in
  trim visualNovelIdentifier <> "" ->
  (forall firstResponse, firstOutcome = Resolved firstResponse ->
                         status firstResponse <> 400) ->
  exchanges (snd result) = (exchanges st ++ [(firstRequest, firstOutcome)])%list
  /\ writeEndsBy firstOutcome (fst result).
Proof.
  intros firstRequest result firstOutcome Hidentifier Hother.
  subst result.
  unfold addVisualNovelToAuthenticatedUserList.
  apply string_eqb_false_iff in Hidentifier. rewrite Hidentifier.
  unfold executePatchRequest, tryCatch, bind. rewrite awaitFetch_run.
  change {| method := "PATCH";
            url := buildVndbApiUrl
                     ("/ulist/" ++ normalizeVisualNovelIdentifier visualNovelIdentifier);
            headers := [jsonContentType; authorizationHeader authenticationToken];
            body := Some (JObject [("labels_set",
                                    JArray [JNumber (default 5 labelIdentifierArgument)])]) |}
    with firstRequest.
  fold firstOutcome.
  destruct firstOutcome as [firstResponse|message] eqn:Hfirst; simpl.
  - rewrite retry_condition.
    destruct (Z.eqb_spec (status firstResponse) 400) as [Hstatus|_];
      [exfalso; exact (Hother firstResponse eq_refl Hstatus) | ].
    unfold ret. simpl. destruct (ok firstResponse); simpl.
    + split; reflexivity.
    + unfold awaitText. destruct (bodyText firstResponse); simpl;
        (split; [reflexivity | apply threw_Threw]).
  - split; [reflexivity | apply threw_Threw].
Qed.

Lemma list_retry (authenticationToken userIdentifier : string)
    (pageNumberArgument maximumResultsArgument : option Z) (st : ClientState)
    (firstResponse : HttpResponse) :
  let pageNumber := default 1 pageNumberArgument in
  let maximumResults := default 50 maximumResultsArgument in
  let firstRequest :=
    ulistRequest authenticationToken userIdentifier LABELS_ENABLED_FIELDS
                 maximumResults pageNumber in
  let fallbackRequest :=
    ulistRequest authenticationToken userIdentifier MINIMAL_COMPATIBILITY_FIELDS
                 maximumResults pageNumber in
  let result :=
    fetchAuthenticatedUserVisualNovelList authenticationToken userIdentifier
      pageNumberArgument maximumResultsArgument st in
  listCacheMiss authenticationToken userIdentifier maximumResults pageNumber st ->
  fst (fetch firstRequest (env st)) = Resolved firstResponse ->
  status firstResponse = 400 ->
  let fallbackOutcome := fst (fetch fallbackRequest (snd (fetch firstRequest (env st)))) in
  exchanges (snd result)
  = (exchanges st ++ [(firstRequest, Resolved firstResponse);
                      (fallbackRequest, fallbackOutcome)])%list
  /\ readEndsBy fallbackOutcome (fst result).
Proof.
  intros pageNumber maximumResults firstRequest fallbackRequest result Hmiss Hfirst Hstatus
         fallbackOutcome.
  subst result fallbackOutcome.
  unfold fetchAuthenticatedUserVisualNovelList, listCacheMiss, ulistCacheKey in *.
  fold pageNumber. fold maximumResults.
  unfold bind, readUserListCache, executeUlistRequest.
  destruct (readFromCache _ _ _) as [found store'] eqn:Hread. simpl in Hmiss.
  simpl. rewrite Hmiss.
  change {| method := "POST"; url := buildVndbApiUrl "/ulist";
            headers := [jsonContentType; authorizationHeader authenticationToken];
            body := Some (JObject (ulistPayload (normalizeUserIdentifier userIdentifier)
                                                LABELS_ENABLED_FIELDS maximumResults
                                                pageNumber)) |}
    with firstRequest.
  change {| method := "POST"; url := buildVndbApiUrl "/ulist";
            headers := [jsonContentType; authorizationHeader authenticationToken];
            body := Some (JObject (ulistPayload (normalizeUserIdentifier userIdentifier)
                                                MINIMAL_COMPATIBILITY_FIELDS maximumResults
                                                pageNumber)) |}
    with fallbackRequest.
  rewrite awaitFetch_run. simpl. rewrite Hfirst. simpl.
  rewrite retry_condition, Hstatus. simpl.
  rewrite awaitFetch_run. simpl.
  destruct (fst (fetch fallbackRequest (snd (fetch firstRequest (env st)))))
    as [secondResponse|message] eqn:Hsecond; simpl.
  - rewrite <- app_assoc. simpl.
    destruct (ok secondResponse); simpl.
    + unfold awaitJson. destruct (bodyJson secondResponse); simpl;
        (split; [reflexivity | first [reflexivity | apply threw_Threw]]).
    + split; [reflexivity | apply threw_Threw].
  - rewrite <- app_assoc. simpl. split; [reflexivity | apply threw_Threw].
Qed.

Lemma list_no_retry (authenticationToken userIdentifier : string)
    (pageNumberArgument maximumResultsArgument : option Z) (st : ClientState) :
  let pageNumber := default 1 pageNumberArgument in
  let maximumResults := default 50 maximumResultsArgument in
  let firstRequest :=
    ulistRequest authenticationToken userIdentifier LABELS_ENABLED_FIELDS
                 maximumResults pageNumber in
  let result :=
    fetchAuthenticatedUserVisualNovelList authenticationToken userIdentifier
      pageNumberArgument maximumResultsArgument st in
  let firstOutcome := fst (fetch firstRequest (env st)) in
  listCacheMiss authenticationToken userIdentifier maximumResults pageNumber st ->
  (forall firstResponse, firstOutcome = Resolved firstResponse ->
                         status firstResponse <> 400) ->
  exchanges (snd result) = (exchanges st ++ [(firstRequest, firstOutcome)])%list
  /\ readEndsBy firstOutcome (fst result).
Proof.
  intros pageNumber maximumResults firstRequest result firstOutcome Hmiss Hother.
  subst result.
  unfold fetchAuthenticatedUserVisualNovelList, listCacheMiss, ulistCacheKey in *.
  fold pageNumber. fold maximumResults.
  unfold bind, readUserListCache, executeUlistRequest.
  destruct (readFromCache _ _ _) as [found store'] eqn:Hread. simpl in Hmiss.
  simpl. rewrite Hmiss.
  change {| method := "POST"; url := buildVndbApiUrl "/ulist";
            headers := [jsonContentType; authorizationHeader authenticationToken];
            body := Some (JObject (ulistPayload (normalizeUserIdentifier userIdentifier)
                                                LABELS_ENABLED_FIELDS maximumResults
                                                pageNumber)) |}
    with firstRequest.
  rewrite awaitFetch_run. simpl. fold firstOutcome.
  destruct firstOutcome as [firstResponse|message] eqn:Hfirst; simpl.
  - rewrite retry_condition.
    destruct (Z.eqb_spec (status firstResponse) 400) as [Hstatus|_];
      [exfalso; exact (Hother firstResponse eq_refl Hstatus) | ].
    unfold ret. simpl. destruct (ok firstResponse); simpl.
    + unfold awaitJson. destruct (bodyJson firstResponse); simpl;
        (split; [reflexivity | first [reflexivity | apply threw_Threw]]).
    + split; [reflexivity | apply threw_Threw].
  - split; [reflexivity | apply threw_Threw].
Qed.

(** *** The membership-set fetch *)

(** One iteration of the loop whose guard holds. *)
Lemma identifierSetLoop_step (fuel : nat) (authenticationToken normalizedUserIdentifier : string)
    (visualNovelIdentifierSet : gset string) (activePageNumber : Z) (st : ClientState) :
  activePageNumber <= 40 ->
  let request :=
    identifierPageRequest authenticationToken normalizedUserIdentifier activePageNumber in
  identifierSetLoop (S fuel) authenticationToken normalizedUserIdentifier
    visualNovelIdentifierSet activePageNumber true st
  = match fst (fetch request (env st)) with
    | Rejected message => (Threw message, afterExchange request st)
    | Resolved networkResponse =>
        if ok networkResponse
        then match bodyJson networkResponse with
             | None => (Threw "Unexpected token in JSON", afterExchange request st)
             | Some JNull => (Threw "Cannot read properties of null", afterExchange request st)
             | Some responsePayload =>
                 identifierSetLoop fuel authenticationToken normalizedUserIdentifier
                   (fold_left addRawEntry (rawEntriesOf responsePayload)
                              visualNovelIdentifierSet)
                   (activePageNumber + 1) (moreFlagOf responsePayload)
                   (afterExchange request st)
             end
        else (Threw ("Network boundary failure: Unable to load user list identifiers (HTTP "
                     ++ numberToString (status networkResponse) ++ ")."),
              afterExchange request st)
    end.
Proof.
  intros Hpage request. cbn [identifierSetLoop].
  replace (activePageNumber <=? MAXIMUM_USER_LIST_PAGES) with true
    by (symmetry; apply Z.leb_le; unfold MAXIMUM_USER_LIST_PAGES; lia).
  cbn [andb]. unfold bind at 1. rewrite awaitFetch_run. fold request.
  fold (afterExchange request st).
  destruct (fst (fetch request (env st))) as [networkResponse|message]; [ | reflexivity].
  destruct (ok networkResponse); cbn [negb]; [ | reflexivity].
  unfold bind, awaitJson.
  destruct (bodyJson networkResponse) as [responsePayload|]; [ | reflexivity].
  destruct responsePayload; reflexivity.
Qed.

(** The loop does nothing once its guard fails. *)
Lemma identifierSetLoop_exit (fuel : nat) (authenticationToken normalizedUserIdentifier : string)
    (visualNovelIdentifierSet : gset string) (activePageNumber : Z) (hasMorePages : bool)
    (st : ClientState) :
  hasMorePages = false \/ 40 < activePageNumber ->
  identifierSetLoop fuel authenticationToken normalizedUserIdentifier
    visualNovelIdentifierSet activePageNumber hasMorePages st
  = (Returned visualNovelIdentifierSet, st).
Proof.
  intros Hguard. destruct fuel as [|fuel]; [reflexivity | ].
  cbn [identifierSetLoop].
  replace (hasMorePages && (activePageNumber <=? MAXIMUM_USER_LIST_PAGES)) with false;
    [reflexivity | ].
  symmetry. destruct Hguard as [-> | Hpage]; [reflexivity | ].
  apply andb_false_intro2. apply Z.leb_gt. unfold MAXIMUM_USER_LIST_PAGES. lia.
Qed.

(** The guard, not the fuel, ends the loop: any two amounts of fuel that
    cover the pages still allowed give the same run. *)
Lemma identifierSetLoop_fuel (fuel fuel' : nat)
    (authenticationToken normalizedUserIdentifier : string)
    (visualNovelIdentifierSet : gset string) (activePageNumber : Z) (hasMorePages : bool)
    (st : ClientState) :
  (Z.to_nat (41 - activePageNumber) <= fuel)%nat ->
  (Z.to_nat (41 - activePageNumber) <= fuel')%nat ->
  identifierSetLoop fuel authenticationToken normalizedUserIdentifier
    visualNovelIdentifierSet activePageNumber hasMorePages st
  = identifierSetLoop fuel' authenticationToken normalizedUserIdentifier
      visualNovelIdentifierSet activePageNumber hasMorePages st.
Proof.
  revert fuel' visualNovelIdentifierSet activePageNumber hasMorePages st.
  induction fuel as [|fuel IH];
    intros fuel' visualNovelIdentifierSet activePageNumber hasMorePages st Hfuel Hfuel'.
  - rewrite !identifierSetLoop_exit; [reflexivity | right; lia | right; lia].
  - destruct hasMorePages;
      [ | rewrite !identifierSetLoop_exit; [reflexivity | left | left]; reflexivity].
    destruct (Z_le_gt_dec activePageNumber 40) as [Hpage|Hpage];
      [ | rewrite !identifierSetLoop_exit; [reflexivity | right; lia | right; lia]].
    destruct fuel' as [|fuel']; [lia | ].
    rewrite !identifierSetLoop_step by assumption.
    destruct (fst (fetch _ (env st))) as [networkResponse|message]; [ | reflexivity].
    destruct (ok networkResponse); [ | reflexivity].
    destruct (bodyJson networkResponse) as [responsePayload|]; [ | reflexivity].
    destruct responsePayload; try reflexivity; apply IH; lia.
Qed.

Lemma pagedTrace_nil (authenticationToken normalizedUserIdentifier : string) (firstPage : Z) :
  pagedTrace authenticationToken normalizedUserIdentifier firstPage [].
Proof.
  unfold pagedTrace. repeat split; simpl; intros; try lia; discriminate.
Qed.

Lemma pagedTrace_single (authenticationToken normalizedUserIdentifier : string)
    (firstPage : Z) (outcome : FetchOutcome) :
  firstPage <= 40 ->
  pagedTrace authenticationToken normalizedUserIdentifier firstPage
    [(identifierPageRequest authenticationToken normalizedUserIdentifier firstPage, outcome)].
Proof.
  intros Hpage. unfold pagedTrace. repeat split.
  - simpl. lia.
  - intros [|i] request outcome' Hlookup; [ | discriminate].
    injection Hlookup as <- _. f_equal. simpl. lia.
  - intros [|i] request networkResponse Hlookup _; [reflexivity | discriminate].
  - intros i request outcome' _ Hlast. simpl in Hlast. lia.
Qed.

Lemma identifierSetLoop_trace (fuel : nat)
    (authenticationToken normalizedUserIdentifier : string)
    (visualNovelIdentifierSet : gset string) (activePageNumber : Z) (hasMorePages : bool)
    (st : ClientState) :
  exists made,
    exchanges (snd (identifierSetLoop fuel authenticationToken normalizedUserIdentifier
                      visualNovelIdentifierSet activePageNumber hasMorePages st))
    = (exchanges st ++ made)%list
    /\ pagedTrace authenticationToken normalizedUserIdentifier activePageNumber made
    /\ (hasMorePages = false -> made = []).
Proof.
  revert visualNovelIdentifierSet activePageNumber hasMorePages st.
  induction fuel as [|fuel IH]; intros visualNovelIdentifierSet activePageNumber hasMorePages st.
  - exists []. simpl. rewrite app_nil_r. auto using pagedTrace_nil.
  - destruct hasMorePages;
      [ | exists []; rewrite identifierSetLoop_exit by (left; reflexivity);
          simpl; rewrite app_nil_r; auto using pagedTrace_nil ].
    destruct (Z_le_gt_dec activePageNumber 40) as [Hpage|Hpage];
      [ | exists []; rewrite identifierSetLoop_exit by (right; lia);
          simpl; rewrite app_nil_r;
          split; [reflexivity | split; [apply pagedTrace_nil | discriminate]] ].
    rewrite identifierSetLoop_step by assumption.
    set (request := identifierPageRequest authenticationToken normalizedUserIdentifier
                                          activePageNumber).
    assert (Hstop : forall outcome message,
               fst (fetch request (env st)) = outcome ->
               exists made,
                 exchanges (snd (@Threw (gset string) message, afterExchange request st))
                 = (exchanges st ++ made)%list
                 /\ pagedTrace authenticationToken normalizedUserIdentifier
                               activePageNumber made
                 /\ (true = false -> made = [])).
    { intros outcome message Houtcome. exists [(request, outcome)]. simpl.
      rewrite Houtcome.
      split; [reflexivity | split; [apply pagedTrace_single; assumption | discriminate]]. }
    destruct (fst (fetch request (env st))) as [networkResponse|message] eqn:Houtcome;
      [ | eapply Hstop; reflexivity].
    destruct (ok networkResponse) eqn:Hok; [ | eapply Hstop; reflexivity].
    destruct (bodyJson networkResponse) as [responsePayload|] eqn:Hbody;
      [ | eapply Hstop; reflexivity].
    assert (Hcontinue :
              responsePayload <> JNull ->
              exists made,
                exchanges
                  (snd (identifierSetLoop fuel authenticationToken normalizedUserIdentifier
                          (fold_left addRawEntry (rawEntriesOf responsePayload)
                                     visualNovelIdentifierSet)
                          (activePageNumber + 1) (moreFlagOf responsePayload)
                          (afterExchange request st)))
                = (exchanges st ++ made)%list
                /\ pagedTrace authenticationToken normalizedUserIdentifier
                              activePageNumber made
                /\ (true = false -> made = [])).
    { intros Hpayload.
      destruct (IH (fold_left addRawEntry (rawEntriesOf responsePayload)
                              visualNovelIdentifierSet)
                   (activePageNumber + 1) (moreFlagOf responsePayload)
                   (afterExchange request st))
        as (later & Hexchanges & (Hlength & Hrequests & Hlast & Hinner) & Hnone).
      exists ((request, Resolved networkResponse) :: later).
      split; [ | split; [ | discriminate]].
      - rewrite Hexchanges. simpl. rewrite Houtcome, <- app_assoc. reflexivity.
      - unfold pagedTrace. repeat split.
        + simpl. lia.
        + intros [|i] request' outcome' Hlookup.
          * injection Hlookup as <- _. unfold request. f_equal. simpl. lia.
          * simpl in Hlookup. rewrite (Hrequests i request' outcome' Hlookup).
            f_equal. lia.
        + intros [|i] request' networkResponse' Hlookup Hmore.
          * injection Hlookup as _ <-.
            destruct Hmore as (_ & responsePayload' & Hbody' & _ & Hflag).
            rewrite Hbody in Hbody'. injection Hbody' as <-.
            fold (moreFlagOf responsePayload) in Hflag.
            rewrite (Hnone Hflag). reflexivity.
          * simpl in Hlookup. simpl. f_equal.
            exact (Hlast i request' networkResponse' Hlookup Hmore).
        + intros [|i] request' outcome' Hlookup Hinside.
          * injection Hlookup as _ <-. exists networkResponse.
            split; [reflexivity | ].
            split; [assumption | ].
            exists responsePayload. split; [assumption | split; [assumption | ]].
            fold (moreFlagOf responsePayload).
            destruct (moreFlagOf responsePayload); [reflexivity | ].
            rewrite (Hnone eq_refl) in Hinside. simpl in Hinside. lia.
          * simpl in Hlookup. simpl in Hinside.
            apply (Hinner i request' outcome' Hlookup). lia. }
    destruct responsePayload;
      first [ apply Hcontinue; discriminate | eapply Hstop; reflexivity ].
Qed.

(** When every response is well formed and reports [more] as true, the
    loop asks for every page up to 40 and then returns. *)
Lemma identifierSetLoop_always_more (fuel : nat)
    (authenticationToken normalizedUserIdentifier : string)
    (visualNovelIdentifierSet : gset string) (activePageNumber : Z) (st : ClientState) :
  (forall request world,
      exists networkResponse,
        fst (fetch request world) = Resolved networkResponse
        /\ reportsMore true networkResponse) ->
  1 <= activePageNumber <= 41 ->
  (Z.to_nat (41 - activePageNumber) <= fuel)%nat ->
  let result :=
    identifierSetLoop fuel authenticationToken normalizedUserIdentifier
      visualNovelIdentifierSet activePageNumber true st in
  (exists finalSet, fst result = Returned finalSet)
  /\ length (exchanges (snd result))
     = (length (exchanges st) + Z.to_nat (41 - activePageNumber))%nat.
Proof.
  intros Halways. revert visualNovelIdentifierSet activePageNumber st.
  induction fuel as [|fuel IH]; intros visualNovelIdentifierSet activePageNumber st Hpage Hfuel.
  - simpl. split; [eauto | lia].
  - destruct (Z.eq_dec activePageNumber 41) as [->|Hnot41].
    + rewrite identifierSetLoop_exit by (right; lia). simpl. split; [eauto | lia].
    + rewrite identifierSetLoop_step by lia.
      destruct (Halways (identifierPageRequest authenticationToken normalizedUserIdentifier
                                               activePageNumber) (env st))
        as (networkResponse & Houtcome & Hok & responsePayload & Hbody & Hpayload & Hflag).
      rewrite Houtcome, Hok, Hbody.
      fold (moreFlagOf responsePayload) in Hflag.
      assert (Hnext :
                let result :=
                  identifierSetLoop fuel authenticationToken normalizedUserIdentifier
                    (fold_left addRawEntry (rawEntriesOf responsePayload)
                               visualNovelIdentifierSet)
                    (activePageNumber + 1) (moreFlagOf responsePayload)
                    (afterExchange
                       (identifierPageRequest authenticationToken normalizedUserIdentifier
                                              activePageNumber) st) in
                (exists finalSet, fst result = Returned finalSet)
                /\ length (exchanges (snd result))
                   = (length (exchanges st) + Z.to_nat (41 - activePageNumber))%nat).
      { rewrite Hflag.
        destruct (IH (fold_left addRawEntry (rawEntriesOf responsePayload)
                                visualNovelIdentifierSet)
                     (activePageNumber + 1)
                     (afterExchange
                        (identifierPageRequest authenticationToken normalizedUserIdentifier
                                               activePageNumber) st))
          as [Hreturned Hcount]; [lia | lia | ].
        split; [exact Hreturned | ].
        rewrite Hcount. simpl. rewrite length_app. simpl. lia. }
      destruct responsePayload; first [exact Hnext | congruence].
Qed.

(** C8.  The membership-set fetch asks for the pages 1, 2, 3, ... of the
    list one after the other and makes at most 40 requests, whatever the
    remote answers; a well-formed response whose [more] is false or
    missing is the last request of the run, and every request before the
    last was answered with a truthy [more].  The bound comes from the
    loop guard: more fuel does not change the run.  If every response
    reports [more] as true, the fetch makes exactly 40 requests and
    returns. *)
Theorem membership_fetch_stops_within_40_pages
    (authenticationToken userIdentifier : string) (st : ClientState) :
  let result :=
    fetchAuthenticatedUserVisualNovelIdentifierSet authenticationToken userIdentifier st in
  (exists made,
      exchanges (snd result) = (exchanges st ++ made)%list
      /\ (length made <= 40)%nat
      /\ pagedTrace authenticationToken (normalizeUserIdentifier userIdentifier) 1 made)
  /\ (forall extraFuel : nat,
         identifierSetLoop (40 + extraFuel) authenticationToken
           (normalizeUserIdentifier userIdentifier) ∅ 1 true st
         = result)
  /\ ((forall request world,
          exists networkResponse,
            fst (fetch request world) = Resolved networkResponse
            /\ reportsMore true networkResponse) ->
      (exists finalSet, fst result = Returned finalSet)
      /\ length (exchanges (snd result)) = (length (exchanges st) + 40)%nat).
Proof.
  intros result. subst result. unfold fetchAuthenticatedUserVisualNovelIdentifierSet.
  split; [ | split].
  - destruct (identifierSetLoop_trace (Z.to_nat MAXIMUM_USER_LIST_PAGES) authenticationToken
                (normalizeUserIdentifier userIdentifier) ∅ 1 true st)
      as (made & Hexchanges & Htrace & _).
    exists made. split; [exact Hexchanges | split; [ | exact Htrace]].
    destruct Htrace as (Hlength & _).
    change (Z.to_nat (41 - 1)) with 40%nat in Hlength. exact Hlength.
  - intros extraFuel.
    apply identifierSetLoop_fuel; change (Z.to_nat (41 - 1)) with 40%nat;
      change (Z.to_nat MAXIMUM_USER_LIST_PAGES) with 40%nat; lia.
  - intros Halways.
    exact (identifierSetLoop_always_more (Z.to_nat MAXIMUM_USER_LIST_PAGES)
             authenticationToken (normalizeUserIdentifier userIdentifier) ∅ 1 st
             Halways ltac:(lia) ltac:(apply Nat.le_refl)).
Qed.

End ClientFacts.

(** *** A concrete run of a write *)

Section FallbackRuns.
Import Client.

Lemma writes_clear_list_cache_only_on_success_witness :
  let added :=
    @addVisualNovelToAuthenticatedUserList (scriptedPlatform offline)
      "token" "v17" None cachedPageThenRetry in
  userListQueryCache cachedPageThenRetry <> ∅
  /\ fst added = Returned tt
  /\ userListQueryCache (snd added) = ∅.
Proof.
  assert (Hidentifier : trim "v17" <> "") by discriminate.
  split; [vm_compute; discriminate | ].
  exact (proj2 (proj2 (proj2 (proj2
           (writes_clear_list_cache_only_on_success (P := scriptedPlatform offline)
              "token" "v17" None 2 cachedPageThenRetry))))
           Hidentifier).
Defined.

End FallbackRuns.

(** *** A concrete run of the membership-set fetch *)

Section PagingRuns.
Import Client.

Lemma membership_fetch_stops_within_40_pages_witness :
  let result :=
    @fetchAuthenticatedUserVisualNovelIdentifierSet (constantPlatform endlessPage)
      "token" "u2" (@freshClient (constantPlatform endlessPage) 0) in
  (exists finalSet, fst result = Returned finalSet)
  /\ length (exchanges (snd result)) = 40%nat.
Proof.
  intros result.
  destruct (membership_fetch_stops_within_40_pages
              (P := constantPlatform endlessPage) "token" "u2"
              (@freshClient (constantPlatform endlessPage) 0))
    as (_ & _ & Halways).
  apply Halways.
  intros request world. eexists. split; [reflexivity | ].
  split; [reflexivity | ].
  eexists. split; [reflexivity | split; [discriminate | reflexivity]].
Defined.

End PagingRuns.

(** ** Pagination and the fetch flows of the list component *)

Section FlowFacts.
Import ListView.

Lemma loadNextPage_ready (s : ListState) :
  readyForNextPage s -> loadNextPage s = Some (nextPageFlow s).
Proof.
  intros (Hsearch & Hidle & Hno_page & Hmore). unfold loadNextPage.
  rewrite Hsearch, Hidle, Hno_page, Hmore. reflexivity.
Qed.

Lemma loadNextPage_blocked (s : ListState) :
  isDataLoading s = true \/ isLoadingAdditionalPage s = true
  \/ hasAdditionalResults s = false ->
  loadNextPage s = None.
Proof.
  intros Hblocked. unfold loadNextPage.
  destruct (isViewingUserList s), (isDataLoading s), (isLoadingAdditionalPage s),
    (hasAdditionalResults s); try reflexivity; intuition discriminate.
Qed.

Lemma loadNextPage_after_start (flow : DataFetch) (s : ListState) :
  loadNextPage (startDataFetch flow s) = None.
Proof.
  apply loadNextPage_blocked. unfold startDataFetch.
  destruct (shouldAppendResults flow); simpl; auto.
Qed.

Lemma settle_next_page (responsePayload : VisualNovelQueryResponse) (s : ListState) :
  readyForNextPage s ->
  settleDataFetch (nextPageFlow s) (Returned responsePayload)
                  (startDataFetch (nextPageFlow s) s)
  = withNextPage responsePayload s.
Proof.
  intros (Hsearch & Hidle & Hno_page & Hmore).
  unfold settleDataFetch, startDataFetch, withNextPage. simpl.
  unfold setIsLoadingAdditionalPage, setActiveQueryDescriptor, setHasAdditionalResults,
    setCurrentResultPage, setVisualNovelDatabaseEntries, setNetworkErrorMessage. simpl.
  rewrite Hsearch, Hidle. reflexivity.
Qed.

Lemma withNextPage_ready (responsePayload : VisualNovelQueryResponse) (s : ListState) :
  more responsePayload = true -> readyForNextPage (withNextPage responsePayload s).
Proof. intros Hmore. unfold readyForNextPage. simpl. auto. Qed.

Lemma run_app (session : Session) (first later : list Event) :
  run session (first ++ later) = run (run session first) later.
Proof. unfold run. apply fold_left_app. Qed.

(** The flow that a scroll trigger starts in a session that awaits
    one. *)
Lemma scroll_starts_next_page (session : Session) :
  awaitsScroll session ->
  step session ScrollTrigger
  = {| view := startDataFetch (nextPageFlow (view session)) (view session);
       rendered := view session;
       dataFetches := dataFetches session ++ [nextPageFlow (view session)];
       lifecycleCancelled := lifecycleCancelled session |}.
Proof.
  intros (Hrendered & Hshown & Hready). simpl.
  rewrite Hrendered, Hshown, (loadNextPage_ready _ Hready). reflexivity.
Qed.

(** One round: the trigger, the render with the loading flag, the
    response, the render with the new page. *)
Lemma scroll_then_settle (session : Session) (responsePayload : VisualNovelQueryResponse) :
  awaitsScroll session ->
  run session [ScrollTrigger; Render;
               DataFetchSettles (length (dataFetches session)) (Returned responsePayload);
               Render]
  = {| view := withNextPage responsePayload (view session);
       rendered := withNextPage responsePayload (view session);
       dataFetches := dataFetches session ++ [nextPageFlow (view session)];
       lifecycleCancelled := lifecycleCancelled session |}.
Proof.
  intros Hawaits. unfold run. cbn [fold_left].
  rewrite (scroll_starts_next_page _ Hawaits).
  destruct Hawaits as (Hrendered & Hshown & Hready). simpl.
  rewrite list_lookup_middle by reflexivity.
  rewrite (settle_next_page _ _ Hready). reflexivity.
Qed.

Lemma withNextPage_awaitsScroll (responsePayload : VisualNovelQueryResponse)
    (s : ListState) (flows : list DataFetch) (flags : list bool) :
  more responsePayload = true ->
  awaitsScroll {| view := withNextPage responsePayload s;
                  rendered := withNextPage responsePayload s;
                  dataFetches := flows;
                  lifecycleCancelled := flags |}.
Proof.
  intros Hmore. split; [reflexivity | split; [reflexivity | ]].
  apply withNextPage_ready. exact Hmore.
Qed.

(** A scroll trigger is decided by the last render. *)
Lemma scroll_blocked_by_last_render (session : Session) :
  showsList (rendered session) = false
  \/ isDataLoading (rendered session) = true
  \/ isLoadingAdditionalPage (rendered session) = true
  \/ hasAdditionalResults (rendered session) = false ->
  step session ScrollTrigger = session.
Proof.
  intros [Hhidden | Hblocked]; simpl.
  - rewrite Hhidden. reflexivity.
  - rewrite (loadNextPage_blocked _ Hblocked). destruct (showsList _); reflexivity.
Qed.

(** C3 (the code does this only when a render separates the triggers).
    In a session that awaits a scroll trigger, the trigger fetches page
    [currentResultPage + 1] of the active descriptor, and the response is
    appended after the entries already there, in the order of the
    response.  Three such rounds, each with its renders, with pages [p1],
    [p2], [p3] and [more] = true, true, false leave the entries followed
    by [p1], [p2], [p3]: 45 more entries for pages of 20, 20 and 5; a
    fourth trigger changes nothing.  A trigger changes nothing when the
    last render saw a loading flag set or [hasAdditionalResults] false,
    or did not put out the list: so it is with the render that follows
    the start of any fetch.  But the flags that decide are those of the
    last render, not those of the state: a second trigger that comes
    before the component has rendered again starts a second fetch of the
    same page, and both responses are appended. *)
Theorem next_page_guard_reads_the_last_render
    (session : Session) (started : DataFetch)
    (firstPage secondPage thirdPage : list VisualNovelDatabaseEntry)
    (firstResponse secondResponse : VisualNovelQueryResponse) :
  let next := length (dataFetches session) in
  let loaded :=
    run session
      [ScrollTrigger; Render;
       DataFetchSettles next (Returned {| results := firstPage; more := true |}); Render;
       ScrollTrigger; Render;
       DataFetchSettles (next + 1) (Returned {| results := secondPage; more := true |});
       Render;
       ScrollTrigger; Render;
       DataFetchSettles (next + 2) (Returned {| results := thirdPage; more := false |});
       Render] in
  let triggeredTwice := run session [ScrollTrigger; ScrollTrigger] in
  let doubled :=
    run triggeredTwice
      [DataFetchSettles next (Returned firstResponse);
       DataFetchSettles (next + 1) (Returned secondResponse)] in
  (awaitsScroll session ->
   visualNovelDatabaseEntries (view loaded)
   = (visualNovelDatabaseEntries (view session)
      ++ firstPage ++ secondPage ++ thirdPage)%list
   /\ currentResultPage (view loaded) = currentResultPage (view session) + 3
   /\ hasAdditionalResults (view loaded) = false
   /\ length (dataFetches loaded) = (length (dataFetches session) + 3)%nat
   /\ step loaded ScrollTrigger = loaded
   /\ (length firstPage = 20%nat -> length secondPage = 20%nat ->
       length thirdPage = 5%nat ->
       length (visualNovelDatabaseEntries (view loaded))
       = (length (visualNovelDatabaseEntries (view session)) + 45)%nat))
  /\ (showsList (rendered session) = false
      \/ isDataLoading (rendered session) = true
      \/ isLoadingAdditionalPage (rendered session) = true
      \/ hasAdditionalResults (rendered session) = false ->
      step session ScrollTrigger = session)
  /\ step (run session [DataFetchRequested started; Render]) ScrollTrigger
     = run session [DataFetchRequested started; Render]
  /\ (awaitsScroll session ->
      step (run session [ScrollTrigger; Render]) ScrollTrigger
      = run session [ScrollTrigger; Render])
  /\ (awaitsScroll session ->
      dataFetches triggeredTwice
      = (dataFetches session
         ++ [nextPageFlow (view session); nextPageFlow (view session)])%list
      /\ visualNovelDatabaseEntries (view doubled)
         = (visualNovelDatabaseEntries (view session)
            ++ results firstResponse ++ results secondResponse)%list
      /\ currentResultPage (view doubled) = currentResultPage (view session) + 1).
Proof.
  intros next loaded triggeredTwice doubled.
  split; [ | split; [ | split; [ | split]]].
  - intros Hawaits.
    assert (Hloaded :
              loaded
              = {| view := withNextPage {| results := thirdPage; more := false |}
                             (withNextPage {| results := secondPage; more := true |}
                                (withNextPage {| results := firstPage; more := true |}
                                   (view session)));
                   rendered := withNextPage {| results := thirdPage; more := false |}
                                 (withNextPage {| results := secondPage; more := true |}
                                    (withNextPage {| results := firstPage; more := true |}
                                       (view session)));
                   dataFetches :=
                     ((dataFetches session ++ [nextPageFlow (view session)])
                      ++ [nextPageFlow (withNextPage {| results := firstPage; more := true |}
                                          (view session))])
                     ++ [nextPageFlow
                           (withNextPage {| results := secondPage; more := true |}
                              (withNextPage {| results := firstPage; more := true |}
                                 (view session)))];
                   lifecycleCancelled := lifecycleCancelled session |}).
    { subst loaded next.
      change [ScrollTrigger; Render;
              DataFetchSettles (length (dataFetches session))
                (Returned {| results := firstPage; more := true |}); Render;
              ScrollTrigger; Render;
              DataFetchSettles (length (dataFetches session) + 1)
                (Returned {| results := secondPage; more := true |}); Render;
              ScrollTrigger; Render;
              DataFetchSettles (length (dataFetches session) + 2)
                (Returned {| results := thirdPage; more := false |}); Render]
        with ([ScrollTrigger; Render;
               DataFetchSettles (length (dataFetches session))
                 (Returned {| results := firstPage; more := true |}); Render]
              ++ [ScrollTrigger; Render;
                  DataFetchSettles (length (dataFetches session) + 1)
                    (Returned {| results := secondPage; more := true |}); Render]
              ++ [ScrollTrigger; Render;
                  DataFetchSettles (length (dataFetches session) + 2)
                    (Returned {| results := thirdPage; more := false |}); Render])%list.
      rewrite !run_app.
      rewrite (scroll_then_settle session _ Hawaits).
      set (afterFirst := {| view := withNextPage {| results := firstPage; more := true |}
                                      (view session);
                            rendered := withNextPage {| results := firstPage; more := true |}
                                          (view session);
                            dataFetches := dataFetches session ++ [nextPageFlow (view session)];
                            lifecycleCancelled := lifecycleCancelled session |}).
      replace (length (dataFetches session) + 1)%nat with (length (dataFetches afterFirst))
        by (simpl; rewrite length_app; reflexivity).
      rewrite (scroll_then_settle afterFirst _
                 (withNextPage_awaitsScroll {| results := firstPage; more := true |}
                    (view session) _ _ eq_refl)).
      set (afterSecond := {| view := withNextPage {| results := secondPage; more := true |}
                                       (view afterFirst);
                             rendered := withNextPage {| results := secondPage; more := true |}
                                           (view afterFirst);
                             dataFetches := dataFetches afterFirst
                                            ++ [nextPageFlow (view afterFirst)];
                             lifecycleCancelled := lifecycleCancelled afterFirst |}).
      replace (length (dataFetches session) + 2)%nat with (length (dataFetches afterSecond))
        by (simpl; rewrite !length_app; simpl; lia).
      rewrite (scroll_then_settle afterSecond _
                 (withNextPage_awaitsScroll {| results := secondPage; more := true |}
                    (view afterFirst) _ _ eq_refl)).
      reflexivity. }
    rewrite Hloaded. simpl.
    split; [rewrite <- !app_assoc; reflexivity | ].
    split; [lia | ].
    split; [reflexivity | ].
    split; [rewrite !length_app; simpl; lia | ].
    split; [reflexivity | ].
    intros Hfirst Hsecond Hthird. rewrite !length_app. lia.
  - apply scroll_blocked_by_last_render.
  - apply scroll_blocked_by_last_render. unfold run. simpl.
    unfold startDataFetch, showsList.
    destruct (shouldAppendResults started); simpl; auto.
  - intros Hawaits. apply scroll_blocked_by_last_render. unfold run. cbn [fold_left].
    rewrite (scroll_starts_next_page _ Hawaits). simpl. auto.
  - intros Hawaits. pose proof Hawaits as (Hrendered & Hshown & Hready).
    assert (Htwice :
              triggeredTwice
              = {| view := startDataFetch (nextPageFlow (view session))
                             (startDataFetch (nextPageFlow (view session)) (view session));
                   rendered := view session;
                   dataFetches := (dataFetches session ++ [nextPageFlow (view session)])
                                  ++ [nextPageFlow (view session)];
                   lifecycleCancelled := lifecycleCancelled session |}).
    { subst triggeredTwice. unfold run. cbn [fold_left].
      rewrite (scroll_starts_next_page _ Hawaits). simpl.
      rewrite Hshown, (loadNextPage_ready _ Hready). reflexivity. }
    split; [rewrite Htwice; simpl; rewrite <- app_assoc; reflexivity | ].
    subst doubled. rewrite Htwice. unfold run. cbn [fold_left]. simpl.
    replace (((dataFetches session ++ [nextPageFlow (view session)])
              ++ [nextPageFlow (view session)])%list !! next)
      with (Some (nextPageFlow (view session)))
      by (symmetry; rewrite <- app_assoc; apply list_lookup_middle; reflexivity).
    simpl.
    replace (((dataFetches session ++ [nextPageFlow (view session)])
              ++ [nextPageFlow (view session)])%list !! (next + 1)%nat)
      with (Some (nextPageFlow (view session)))
      by (symmetry; apply list_lookup_middle; subst next; rewrite length_app; reflexivity).
    simpl. split; [rewrite <- app_assoc; reflexivity | reflexivity].
Qed.

(** *** Superseded flows *)

Lemma settle_replace (descriptor : ListQueryDescriptor)
    (responsePayload : VisualNovelQueryResponse) (s : ListState) :
  let settled := settleDataFetch (replaceWith descriptor) (Returned responsePayload) s in
  visualNovelDatabaseEntries settled = results responsePayload
  /\ activeQueryDescriptor settled = descriptor
  /\ hasAdditionalResults settled = more responsePayload
  /\ currentResultPage settled = 1.
Proof. repeat split. Qed.

(** C1 (the code does not do this for search fetches).  Two searches are
    started, the older first; the response of the newer one arrives and
    is shown; then the response of the older one arrives.  The flow of
    [executeDataFetchOperation] holds no validity flag: it commits the
    late response, so the entries shown, the active descriptor and
    [hasAdditionalResults] are those of the older search. *)
Theorem late_search_response_replaces_newer_results
    (session : Session) (olderQuery newerQuery : ListQueryDescriptor)
    (olderResponse newerResponse : VisualNovelQueryResponse) :
  let older := length (dataFetches session) in
  let newer := (length (dataFetches session) + 1)%nat in
  let afterNewer :=
    run session [DataFetchRequested (replaceWith olderQuery);
                 DataFetchRequested (replaceWith newerQuery);
                 DataFetchSettles newer (Returned newerResponse)] in
  let afterOlder := step afterNewer (DataFetchSettles older (Returned olderResponse)) in
  visualNovelDatabaseEntries (view afterNewer) = results newerResponse
  /\ visualNovelDatabaseEntries (view afterOlder) = results olderResponse
  /\ activeQueryDescriptor (view afterOlder) = olderQuery
  /\ hasAdditionalResults (view afterOlder) = more olderResponse.
Proof.
  intros older newer afterNewer afterOlder.
  assert (Hnewer : (((dataFetches session ++ [replaceWith olderQuery])
                     ++ [replaceWith newerQuery])%list !! newer)
                   = Some (replaceWith newerQuery)).
  { apply list_lookup_middle. subst newer. rewrite length_app. reflexivity. }
  assert (Holder : (((dataFetches session ++ [replaceWith olderQuery])
                     ++ [replaceWith newerQuery])%list !! older)
                   = Some (replaceWith olderQuery)).
  { rewrite <- app_assoc. apply list_lookup_middle. reflexivity. }
  subst afterOlder afterNewer. unfold run. simpl.
  rewrite Hnewer. simpl. rewrite Holder. simpl. repeat split.
Qed.

(** The sibling flow does what the search flow misses: a run of the
    membership effect that has been superseded by a newer run leaves the
    component state as it is when its fetch settles, whatever the
    outcome. *)
Lemma superseded_membership_response_is_discarded
    (session : Session) (canReadList : bool) (outcome : Completion (gset string)) :
  let superseded := length (lifecycleCancelled session) in
  let current :=
    run session [MembershipEffectRuns true; MembershipEffectRuns canReadList] in
  step current (MembershipFetchSettles superseded outcome) = current.
Proof.
  intros superseded current. subst current. unfold run. simpl.
  set (flags := <[(length (lifecycleCancelled session) - 1)%nat := true]>
                  (lifecycleCancelled session)).
  assert (Hlength : length flags = superseded)
    by (subst flags; apply length_insert).
  replace (length (flags ++ [false])%list - 1)%nat with superseded
    by (rewrite length_app; simpl; lia).
  assert (Hflag : (<[superseded := true]> (flags ++ [false]) ++ [false])%list !! superseded
                  = Some true).
  { rewrite lookup_app_l by (rewrite length_insert, length_app; simpl; lia).
    apply list_lookup_insert_eq. rewrite length_app. simpl. lia. }
  rewrite Hflag. simpl. reflexivity.
Qed.

(** The current run of the membership effect does commit its result. *)
Lemma current_membership_response_is_committed
    (session : Session) (visualNovelIdentifierSet : gset string) :
  let current := run session [MembershipEffectRuns true] in
  userListIdentifierSet
    (view (step current (MembershipFetchSettles (length (lifecycleCancelled session))
                           (Returned visualNovelIdentifierSet))))
  = visualNovelIdentifierSet.
Proof.
  intros current. subst current. unfold run. simpl.
  rewrite list_lookup_middle by (symmetry; apply length_insert).
  reflexivity.
Qed.

End FlowFacts.

(** *** Concrete runs of the list component *)

Section FlowRuns.
Import ListView.

Lemma next_page_guard_reads_the_last_render_witness :
  visualNovelDatabaseEntries
    (view (run firstPageLoaded
             [ScrollTrigger; Render;
              DataFetchSettles 1 (Returned {| results := pageOf 20 "v1"; more := true |});
              Render;
              ScrollTrigger; Render;
              DataFetchSettles 2 (Returned {| results := pageOf 20 "v2"; more := true |});
              Render;
              ScrollTrigger; Render;
              DataFetchSettles 3 (Returned {| results := pageOf 5 "v3"; more := false |});
              Render]))
  = (pageOf 20 "v1" ++ pageOf 20 "v2" ++ pageOf 5 "v3")%list.
Proof.
  assert (Hawaits : awaitsScroll firstPageLoaded) by (repeat split).
  exact (proj1 (proj1 (next_page_guard_reads_the_last_render firstPageLoaded
                         (replaceWith (textQuery ""))
                         (pageOf 20 "v1") (pageOf 20 "v2") (pageOf 5 "v3")
                         {| results := []; more := false |}
                         {| results := []; more := false |})
                  Hawaits)).
Defined.

(** The divergence at a concrete input: the first page is shown, the
    sentinel is reported twice before the component renders again, and
    the remote answers both requests with the second page.  Page 2 is
    requested twice and shown twice. *)
Lemma second_page_is_fetched_and_appended_twice :
  let doubled :=
    run firstPageLoaded
      [ScrollTrigger;
       ScrollTrigger;
       DataFetchSettles 1
         (Returned {| results := [sampleEntry "v21" "Twenty-first"]; more := true |});
       DataFetchSettles 2
         (Returned {| results := [sampleEntry "v21" "Twenty-first"]; more := true |})] in
  map requestedPage (dataFetches doubled) = [1; 2; 2]
  /\ visualNovelDatabaseEntries (view doubled)
     = [sampleEntry "v21" "Twenty-first"; sampleEntry "v21" "Twenty-first"]
  /\ step (run firstPageLoaded [ScrollTrigger; Render]) ScrollTrigger
     = run firstPageLoaded [ScrollTrigger; Render].
Proof. repeat split. Qed.

(** The race at a concrete input: the user types "a", then "ab"; the
    response for "ab" arrives first, the response for "a" last.  The
    component ends up showing the results for "a" under the input "ab". *)
Lemma stale_search_results_are_shown :
  let raced :=
    run (initialSession plainFilters relevanceOrder)
      [DataFetchRequested (replaceWith (textQuery "a"));
       DataFetchRequested (replaceWith (textQuery "ab"));
       DataFetchSettles 1
         (Returned {| results := [sampleEntry "v2" "Abandoner"]; more := false |});
       DataFetchSettles 0
         (Returned {| results := [sampleEntry "v1" "A Kiss for the Petals"];
                      more := true |})] in
  visualNovelDatabaseEntries (view raced) = [sampleEntry "v1" "A Kiss for the Petals"]
  /\ visualNovelDatabaseEntries (view raced) <> [sampleEntry "v2" "Abandoner"]
  /\ activeQueryDescriptor (view raced) = textQuery "a".
Proof.
  repeat split. discriminate.
Qed.

End FlowRuns.

(** ** Hydration of the personal list *)

Section ListHelpers.
Import ListView.

Lemma insertSorted_Permutation {A} (compare : A -> A -> Z) (x : A) (sorted : list A) :
  Permutation (insertSorted compare x sorted) (x :: sorted).
Proof.
  induction sorted as [|y rest IH]; simpl.
  - reflexivity.
  - destruct (compare x y <=? 0).
    + reflexivity.
    + rewrite IH. apply perm_swap.
Qed.

Lemma stableSort_Permutation {A} (compare : A -> A -> Z) (items : list A) :
  Permutation (stableSort compare items) items.
Proof.
  induction items as [|x rest IH]; simpl.
  - reflexivity.
  - rewrite insertSorted_Permutation. apply perm_skip. exact IH.
Qed.

Lemma sortVisualNovelEntries_Permutation
    (localeCompareNumericBase localeCompare : string -> string -> Z)
    (entriesToSort : list VisualNovelDatabaseEntry) (sortConfiguration : ListSortState) :
  Permutation
    (sortVisualNovelEntries localeCompareNumericBase localeCompare
                            entriesToSort sortConfiguration)
    entriesToSort.
Proof.
  unfold sortVisualNovelEntries.
  destruct (field sortConfiguration); try reflexivity;
    destruct (direction sortConfiguration);
    try (etransitivity; [symmetry; apply Permutation_rev | ]);
    apply stableSort_Permutation.
Qed.

Lemma distinctAfter_In (seen values : list string) (value : string) :
  In value (distinctAfter seen values) <-> In value values /\ ~ In value seen.
Proof.
  revert seen. induction values as [|first rest IH]; intros seen; simpl.
  - tauto.
  - destruct (existsb (String.eqb first) seen) eqn:Hseen.
    + apply existsb_exists in Hseen. destruct Hseen as (known & Hknown & Heq).
      apply String.eqb_eq in Heq. subst known.
      rewrite IH. split.
      * tauto.
      * intros [[-> | Hrest] Hfresh]; [contradiction | tauto].
    + assert (Hfresh : ~ In first seen).
      { intros Hin. apply not_true_iff_false in Hseen. apply Hseen.
        apply existsb_exists. exists first. split; [assumption | apply String.eqb_refl]. }
      simpl. rewrite IH. simpl. split.
      * intros [-> | [Hrest Hnot]]; [tauto | ]. tauto.
      * intros [[-> | Hrest] Hnot]; [tauto | ].
        destruct (string_dec first value) as [-> | Hne]; [tauto | ].
        right. split; [assumption | ]. intros [Heq | Hin]; [congruence | contradiction].
Qed.

Lemma distinct_In (values : list string) (value : string) :
  In value (distinct values) <-> In value values.
Proof. unfold distinct. rewrite distinctAfter_In. simpl. tauto. Qed.

Lemma chunksFrom_concat {A} (fuel : nat) (items : list A) (chunkSize index : nat) :
  (0 < chunkSize)%nat ->
  (length items <= index + fuel)%nat ->
  concat (chunksFrom fuel items chunkSize index) = skipn index items.
Proof.
  intros Hsize. revert index.
  induction fuel as [|fuel IH]; intros index Hfuel; simpl.
  - symmetry. apply skipn_all2. lia.
  - destruct (Nat.ltb_spec index (length items)) as [Hinside | Houtside].
    + simpl. rewrite IH by lia. unfold slice.
      replace (index + chunkSize - index)%nat with chunkSize by lia.
      replace (index + chunkSize)%nat with (chunkSize + index)%nat by lia.
      rewrite <- skipn_skipn. apply firstn_skipn.
    + symmetry. apply skipn_all2. lia.
Qed.

Lemma chunkArray_concat {A} (items : list A) (chunkSize : Z) :
  concat (chunkArray items chunkSize) = items.
Proof.
  unfold chunkArray. destruct (Z.leb_spec chunkSize 0) as [Hnone | Hsize].
  - simpl. apply app_nil_r.
  - rewrite chunksFrom_concat by lia. reflexivity.
Qed.

Lemma fold_recordHydratedEntry_lookup
    (hydratedEntries : list VisualNovelDatabaseEntry)
    (hydratedEntriesByIdentifier : gmap string VisualNovelDatabaseEntry)
    (key : string) (found : VisualNovelDatabaseEntry) :
  fold_left recordHydratedEntry hydratedEntries hydratedEntriesByIdentifier !! key
  = Some found ->
  hydratedEntriesByIdentifier !! key = Some found
  \/ (In found hydratedEntries /\ hydrationIdentifier (id found) = key).
Proof.
  revert hydratedEntriesByIdentifier.
  induction hydratedEntries as [|hydratedEntry rest IH];
    intros hydratedEntriesByIdentifier Hfound; simpl in *.
  - left. exact Hfound.
  - destruct (IH _ Hfound) as [Hbefore | [Hin Hkey]].
    + unfold recordHydratedEntry in Hbefore.
      destruct (decide (hydrationIdentifier (id hydratedEntry) = key)) as [Hsame | Hother].
      * subst key. rewrite lookup_insert_eq in Hbefore.
        injection Hbefore as <-. right. split; [left; reflexivity | reflexivity].
      * rewrite lookup_insert_ne in Hbefore by assumption. left. exact Hbefore.
    + right. split; [right; exact Hin | exact Hkey].
Qed.

End ListHelpers.

Section HydrationFacts.
Import ListView.
Context {World : Type}.
Variable fetchVisualNovelEntries : QueryParameters -> M World VisualNovelQueryResponse.
Variable localeCompareNumericBase : string -> string -> Z.
Variable localeCompare : string -> string -> Z.

(** The batch loop calls the API once per chunk, in order, and every
    entry of the resulting map was there before or comes from a returned
    batch under its own identifier. *)
Lemma hydrateChunks_recorded (identifierChunks : list (list string)) :
  forall (hydratedEntriesByIdentifier : gmap string VisualNovelDatabaseEntry)
         (world : World)
         (calls : list (QueryParameters * Completion VisualNovelQueryResponse))
         completion world' calls',
    hydrateChunks (recorded fetchVisualNovelEntries) identifierChunks
                  hydratedEntriesByIdentifier (world, calls)
    = (completion, (world', calls')) ->
    exists made,
      calls' = (calls ++ made)%list
      /\ forall hydrated,
          completion = Returned hydrated ->
          map fst made = map hydrationRequest identifierChunks
          /\ forall key found,
              hydrated !! key = Some found ->
              hydratedEntriesByIdentifier !! key = Some found
              \/ exists parameters hydratedVisualNovelResponse,
                   In (parameters, Returned hydratedVisualNovelResponse) made
                   /\ In found (results hydratedVisualNovelResponse)
                   /\ hydrationIdentifier (id found) = key.
Proof.
  induction identifierChunks as [|identifierChunk remainingChunks IH];
    intros hydratedEntriesByIdentifier world calls completion world' calls' Hrun.
  - simpl in Hrun. unfold ret in Hrun. injection Hrun as <- <- <-.
    exists []. split; [symmetry; apply app_nil_r | ].
    intros hydrated Hreturned. injection Hreturned as <-.
    split; [reflexivity | ]. intros key found Hfound. left. exact Hfound.
  - simpl in Hrun. unfold bind, recorded in Hrun. simpl in Hrun.
    destruct (fetchVisualNovelEntries (hydrationRequest identifierChunk) world)
      as [[hydratedVisualNovelResponse | message] after] eqn:Hcall.
    + destruct (IH _ _ _ _ _ _ Hrun) as (later & Hcalls & Hlater).
      exists ((hydrationRequest identifierChunk, Returned hydratedVisualNovelResponse)
              :: later).
      split; [rewrite Hcalls, <- app_assoc; reflexivity | ].
      intros hydrated Hreturned.
      destruct (Hlater hydrated Hreturned) as [Hrequests Hentries].
      split; [simpl; rewrite Hrequests; reflexivity | ].
      intros key found Hfound.
      destruct (Hentries key found Hfound)
        as [Hbefore | (parameters & response & Hin & Hresult & Hkey)].
      * destruct (fold_recordHydratedEntry_lookup _ _ _ _ Hbefore)
          as [Hinitial | [Hresult Hkey]].
        -- left. exact Hinitial.
        -- right. exists (hydrationRequest identifierChunk), hydratedVisualNovelResponse.
           split; [left; reflexivity | split; assumption].
      * right. exists parameters, response.
        split; [right; exact Hin | split; assumption].
    + injection Hrun as <- <- <-.
      exists [(hydrationRequest identifierChunk, Threw message)].
      split; [reflexivity | ]. intros hydrated Hreturned. discriminate.
Qed.

Lemma hydratedAndFallbackEntries_keeps
    (hydratedEntriesByIdentifier : gmap string VisualNovelDatabaseEntry)
    (normalizedVisualNovelEntries : list VisualNovelDatabaseEntry)
    (userListEntry : VisualNovelDatabaseEntry) :
  In userListEntry normalizedVisualNovelEntries ->
  hydratedEntriesByIdentifier !! hydrationIdentifier (id userListEntry) = None ->
  In userListEntry
     (hydratedAndFallbackEntries hydratedEntriesByIdentifier normalizedVisualNovelEntries).
Proof.
  intros Hin Hnone. unfold hydratedAndFallbackEntries. apply in_map_iff.
  exists userListEntry. rewrite Hnone. split; [reflexivity | exact Hin].
Qed.

Lemma every_identifier_in_a_chunk
    (normalizedVisualNovelEntries : list VisualNovelDatabaseEntry)
    (userListEntry : VisualNovelDatabaseEntry) :
  In userListEntry normalizedVisualNovelEntries ->
  exists identifierChunk,
    In identifierChunk
       (chunkArray (distinctVisualNovelIdentifiers normalizedVisualNovelEntries) 100)
    /\ In (hydrationIdentifier (id userListEntry)) identifierChunk.
Proof.
  intros Hin.
  assert (Hlisted : In (hydrationIdentifier (id userListEntry))
                       (concat (chunkArray
                                  (distinctVisualNovelIdentifiers normalizedVisualNovelEntries)
                                  100))).
  { rewrite chunkArray_concat. unfold distinctVisualNovelIdentifiers.
    apply distinct_In. apply in_map_iff. exists userListEntry. split; [reflexivity | exact Hin]. }
  apply in_concat in Hlisted. destruct Hlisted as (identifierChunk & Hchunk & Hmember).
  exists identifierChunk. split; assumption.
Qed.

(** C2, amended.  Batch lookups are made only when at least one entry is
    a placeholder (its title is blank); they then ask, chunk by chunk,
    for the distinct identifiers of all the entries, placeholders or not.
    The list handed to the view has as many entries as the personal
    list, and an entry for which no returned batch holds a match is in
    it unchanged. *)
Theorem hydration_keeps_unmatched_entries
    (normalizedVisualNovelEntries : list VisualNovelDatabaseEntry)
    (appliedSort : ListSortState) (world world' : World)
    (calls : list (QueryParameters * Completion VisualNovelQueryResponse))
    (shown : list VisualNovelDatabaseEntry) :
  hydrateUserListEntries (recorded fetchVisualNovelEntries)
    localeCompareNumericBase localeCompare
    normalizedVisualNovelEntries appliedSort (world, [])
  = (Returned shown, (world', calls)) ->
  (if hasPlaceholderEntries normalizedVisualNovelEntries
   then map fst calls
        = map hydrationRequest
              (chunkArray (distinctVisualNovelIdentifiers normalizedVisualNovelEntries) 100)
   else calls = [])
  /\ (forall userListEntry,
         In userListEntry normalizedVisualNovelEntries ->
         exists identifierChunk,
           In identifierChunk
              (chunkArray (distinctVisualNovelIdentifiers normalizedVisualNovelEntries) 100)
           /\ In (hydrationIdentifier (id userListEntry)) identifierChunk)
  /\ length shown = length normalizedVisualNovelEntries
  /\ (forall userListEntry,
         In userListEntry normalizedVisualNovelEntries ->
         unmatchedBy calls userListEntry ->
         In userListEntry shown).
Proof.
  intros Hrun. unfold hydrateUserListEntries in Hrun.
  split; [ | split; [intros userListEntry; apply every_identifier_in_a_chunk | ]];
    destruct (hasPlaceholderEntries normalizedVisualNovelEntries).
  - unfold bind in Hrun.
    destruct (hydrateChunks _ _ _ _) as [[hydrated | message] [after made]] eqn:Hloop;
      [ | discriminate].
    unfold ret in Hrun. injection Hrun as <- <- <-.
    destruct (hydrateChunks_recorded _ _ _ _ _ _ _ Hloop) as (made' & Hmade & Hspec).
    simpl in Hmade. subst made'.
    destruct (Hspec hydrated eq_refl) as [Hrequests _]. exact Hrequests.
  - unfold ret in Hrun. injection Hrun as _ _ <-. reflexivity.
  - unfold bind in Hrun.
    destruct (hydrateChunks _ _ _ _) as [[hydrated | message] [after made]] eqn:Hloop;
      [ | discriminate].
    unfold ret in Hrun. injection Hrun as <- <- <-.
    destruct (hydrateChunks_recorded _ _ _ _ _ _ _ Hloop) as (made' & Hmade & Hspec).
    simpl in Hmade. subst made'.
    destruct (Hspec hydrated eq_refl) as [_ Hentries].
    split.
    + rewrite (Permutation_length (sortVisualNovelEntries_Permutation _ _ _ _)).
      unfold hydratedAndFallbackEntries. apply length_map.
    + intros userListEntry Hin Hunmatched.
      apply (Permutation_in _
               (Permutation_sym (sortVisualNovelEntries_Permutation _ _ _ _))).
      apply hydratedAndFallbackEntries_keeps; [exact Hin | ].
      destruct (hydrated !! hydrationIdentifier (id userListEntry)) as [found|] eqn:Hfound;
        [ | reflexivity].
      destruct (Hentries _ _ Hfound)
        as [Hempty | (parameters & response & Hcall & Hresult & Hkey)].
      * rewrite lookup_empty in Hempty. discriminate.
      * exfalso. exact (Hunmatched parameters response found Hcall Hresult Hkey).
  - unfold ret in Hrun. injection Hrun as <- _ _.
    split.
    + apply Permutation_length, sortVisualNovelEntries_Permutation.
    + intros userListEntry Hin _.
      apply (Permutation_in _
               (Permutation_sym (sortVisualNovelEntries_Permutation _ _ _ _))).
      exact Hin.
Qed.

End HydrationFacts.

(** *** A concrete run of the hydration *)

Section HydrationRuns.
Import ListView.

(** The specification's wording fails on its example: the batch lookup
    asks for [v1] and for [v2], not for [v1] alone. *)
Lemma batch_lookup_covers_known_entries_too :
  map (fun call => queryFilters (fst call)) (snd (snd hydratedExample))
  = [JArray [JString "or";
             leaf "id" "=" (JString "v1");
             leaf "id" "=" (JString "v2")]]
  /\ map (fun call => queryFilters (fst call)) (snd (snd hydratedExample))
     <> [leaf "id" "=" (JString "v1")].
Proof.
  split; [reflexivity | discriminate].
Qed.

Lemma hydration_keeps_unmatched_entries_witness :
  In (sampleEntry "v1" "") [sampleEntry "v1" ""; sampleEntry "v2" "Known"]
  /\ fst hydratedExample = Returned placeholderAndKnown.
Proof.
  split; [ | reflexivity].
  refine (proj2 (proj2 (proj2
            (hydration_keeps_unmatched_entries emptyBatches noCompare noCompare
               placeholderAndKnown relevanceOrder tt tt
               [(hydrationRequest ["v1"; "v2"], Returned {| results := []; more := false |})]
               placeholderAndKnown eq_refl))) (sampleEntry "v1" "") _ _).
  - left. reflexivity.
  - intros parameters response found Hcall Hresult.
    destruct Hcall as [Hcall | []]. injection Hcall as _ <-. destruct Hresult.
Defined.

End HydrationRuns.

(** ** The description renderer *)

Section MarkupFacts.
Import Markup.
Variable parseUrl : string -> option ParsedUrl.

Lemma allowedProtocol_true (scheme : string) :
  allowedProtocol scheme = true
  <-> scheme = "http:" \/ scheme = "https:" \/ scheme = "mailto:".
Proof.
  unfold allowedProtocol. rewrite !orb_true_iff, !String.eqb_eq. tauto.
Qed.

Lemma normalizeUrl_Some (rawUrl href : string) :
  normalizeUrl parseUrl rawUrl = Some href ->
  trim rawUrl <> ""
  /\ exists parsedUrl,
       parseUrl (withProtocol (trim rawUrl)) = Some parsedUrl
       /\ (protocol parsedUrl = "http:" \/ protocol parsedUrl = "https:"
           \/ protocol parsedUrl = "mailto:")
       /\ href = serialized parsedUrl.
Proof.
  unfold normalizeUrl. intros Hnormalized.
  destruct (trim rawUrl) as [|c rest] eqn:Htrimmed; [discriminate | ].
  split; [discriminate | ].
  simpl in Hnormalized.
  destruct (parseUrl (withProtocol (String c rest))) as [parsedUrl|]; [ | discriminate].
  destruct (allowedProtocol (protocol parsedUrl)) eqn:Hallowed; [ | discriminate].
  injection Hnormalized as <-. exists parsedUrl.
  split; [reflexivity | split; [apply allowedProtocol_true; exact Hallowed | reflexivity]].
Qed.

Lemma normalizeUrl_linkable (rawUrl href : string) :
  normalizeUrl parseUrl rawUrl = Some href -> linkable parseUrl href.
Proof.
  intros Hnormalized. apply normalizeUrl_Some in Hnormalized.
  destruct Hnormalized as (_ & parsedUrl & Hparsed & Hscheme & Hhref).
  exists rawUrl, parsedUrl. auto.
Qed.

Lemma normalizeUrl_unparseable (rawUrl : string) :
  parseUrl (withProtocol (trim rawUrl)) = None ->
  normalizeUrl parseUrl rawUrl = None.
Proof.
  intros Hfails. unfold normalizeUrl. rewrite Hfails.
  destruct (String.length (trim rawUrl) =? 0)%nat; reflexivity.
Qed.

Lemma normalizeUrl_other_scheme (rawUrl : string) (parsedUrl : ParsedUrl) :
  parseUrl (withProtocol (trim rawUrl)) = Some parsedUrl ->
  protocol parsedUrl <> "http:" ->
  protocol parsedUrl <> "https:" ->
  protocol parsedUrl <> "mailto:" ->
  normalizeUrl parseUrl rawUrl = None.
Proof.
  intros Hparsed Hhttp Hhttps Hmailto. unfold normalizeUrl. rewrite Hparsed.
  destruct (allowedProtocol (protocol parsedUrl)) eqn:Hallowed.
  - apply allowedProtocol_true in Hallowed. tauto.
  - destruct (String.length (trim rawUrl) =? 0)%nat; reflexivity.
Qed.

(** The nested conjunction in [wellLinked] is [Forall]. *)
Lemma all_wellLinked (nodes : list ReactNode) :
  (fix all (nodes : list ReactNode) : Prop :=
     match nodes with
     | [] => True
     | first :: others => wellLinked parseUrl first /\ all others
     end) nodes
  <-> Forall (wellLinked parseUrl) nodes.
Proof.
  induction nodes as [|first others IH].
  - split; [constructor | trivial].
  - rewrite Forall_cons_iff, <- IH. reflexivity.
Qed.

Lemma renderTagNode_wellLinked (node : ParsedTagNode) (key : string) :
  Forall (wellLinked parseUrl) (children node) ->
  wellLinked parseUrl (renderTagNode parseUrl node key).
Proof.
  intros Hchildren. apply all_wellLinked in Hchildren. unfold renderTagNode.
  destruct (tag node); try exact Hchildren;
    (destruct (normalizeUrl parseUrl _) as [resolvedUrl|] eqn:Hnormalized;
     [ | exact Hchildren];
     destruct (String.eqb resolvedUrl ""); [exact Hchildren | ];
     split; [exact (normalizeUrl_linkable _ _ Hnormalized) | exact Hchildren]).
Qed.

Lemma pushChild_wellLinked (child : ReactNode) (parseStack : list ParsedTagNode) :
  wellLinked parseUrl child ->
  stackWellLinked parseUrl parseStack ->
  stackWellLinked parseUrl (pushChild child parseStack).
Proof.
  intros Hchild Hstack. destruct parseStack as [|parentNode below]; [exact Hstack | ].
  unfold stackWellLinked in *. simpl.
  apply Forall_cons_iff in Hstack. destruct Hstack as [Hparent Hbelow].
  apply Forall_cons_iff. split; [ | exact Hbelow].
  simpl. apply Forall_app. split; [exact Hparent | ].
  apply Forall_cons_iff. split; [exact Hchild | constructor].
Qed.

Lemma processToken_wellLinked (tokenText : string) (tokenBody : option string)
    (matchIndex : Z) (parseStack : list ParsedTagNode) :
  stackWellLinked parseUrl parseStack ->
  stackWellLinked parseUrl (processToken parseUrl tokenText tokenBody matchIndex parseStack).
Proof.
  intros Hstack. unfold processToken.
  destruct (String.eqb (toLowerCase tokenText) "[br]");
    [apply pushChild_wellLinked; [exact I | exact Hstack] | ].
  destruct (startsWith (toLowerCase (default "" tokenBody)) "/").
  - destruct parseStack as [|activeNode [|parentNode below]];
      try (apply pushChild_wellLinked; [exact I | exact Hstack]).
    destruct (String.eqb (tagName (tag activeNode)) _);
      [ | apply pushChild_wellLinked; [exact I | exact Hstack]].
    unfold stackWellLinked in Hstack.
    apply Forall_cons_iff in Hstack. destruct Hstack as [Hactive Hbelow].
    apply pushChild_wellLinked; [ | exact Hbelow].
    apply renderTagNode_wellLinked. exact Hactive.
  - destruct (openingTag _) as [opened|];
      [ | apply pushChild_wellLinked; [exact I | exact Hstack]].
    unfold stackWellLinked. apply Forall_cons_iff. split; [constructor | exact Hstack].
Qed.

Lemma processSegments_wellLinked (pieces : list Segment) :
  forall (matchIndex : Z) (parseStack : list ParsedTagNode),
    stackWellLinked parseUrl parseStack ->
    stackWellLinked parseUrl (processSegments parseUrl pieces matchIndex parseStack).
Proof.
  induction pieces as [|piece later IH]; intros matchIndex parseStack Hstack.
  - exact Hstack.
  - destruct piece as [text | tokenText tokenBody]; simpl; apply IH.
    + apply pushChild_wellLinked; [exact I | exact Hstack].
    + apply processToken_wellLinked. exact Hstack.
Qed.

Lemma unwindDangling_wellLinked (below : list ParsedTagNode) :
  forall danglingNode,
    Forall (wellLinked parseUrl) (children danglingNode) ->
    stackWellLinked parseUrl below ->
    Forall (wellLinked parseUrl) (unwindDangling danglingNode below).
Proof.
  induction below as [|parentNode remaining IH]; intros danglingNode Hdangling Hbelow.
  - exact Hdangling.
  - simpl. unfold stackWellLinked in Hbelow.
    apply Forall_cons_iff in Hbelow. destruct Hbelow as [Hparent Hremaining].
    apply IH; [ | exact Hremaining].
    simpl. apply Forall_app. split; [exact Hparent | ].
    apply Forall_cons_iff. split; [exact I | exact Hdangling].
Qed.

Lemma renderVndbDescription_wellLinked (descriptionText : string) :
  Forall (wellLinked parseUrl) (renderVndbDescription parseUrl descriptionText).
Proof.
  unfold renderVndbDescription.
  pose proof (processSegments_wellLinked (segments descriptionText 0 "") 0
                [{| tag := TagRoot; url := None; children := [] |}]) as Hstack.
  destruct (processSegments _ _ _ _) as [|top below]; [constructor | ].
  assert (Hroot : stackWellLinked parseUrl [{| tag := TagRoot; url := None; children := [] |}])
    by (apply Forall_cons_iff; split; constructor).
  specialize (Hstack Hroot). unfold stackWellLinked in Hstack.
  apply Forall_cons_iff in Hstack. destruct Hstack as [Htop Hbelow].
  apply unwindDangling_wellLinked; assumption.
Qed.

(** C10.  For every description, every hyperlink of the rendered output,
    at any depth, points to the serialization of a URL that the platform
    parsed with scheme [http:], [https:] or [mailto:].  A url tag is
    rendered as a hyperlink only when the normalisation of its target
    succeeds, which requires such a parse; when the target does not parse
    or parses with another scheme, the normalisation answers [null] and
    the tag is rendered as a plain [span] around its content. *)
Theorem hyperlinks_only_for_allowed_schemes
    (descriptionText rawUrl key : string) (node : ParsedTagNode) :
  Forall (wellLinked parseUrl) (renderVndbDescription parseUrl descriptionText)
  /\ (forall href,
         normalizeUrl parseUrl rawUrl = Some href ->
         exists parsedUrl,
           parseUrl (withProtocol (trim rawUrl)) = Some parsedUrl
           /\ (protocol parsedUrl = "http:" \/ protocol parsedUrl = "https:"
               \/ protocol parsedUrl = "mailto:")
           /\ href = serialized parsedUrl)
  /\ (parseUrl (withProtocol (trim rawUrl)) = None ->
      normalizeUrl parseUrl rawUrl = None)
  /\ (forall parsedUrl,
         parseUrl (withProtocol (trim rawUrl)) = Some parsedUrl ->
         protocol parsedUrl <> "http:" ->
         protocol parsedUrl <> "https:" ->
         protocol parsedUrl <> "mailto:" ->
         normalizeUrl parseUrl rawUrl = None)
  /\ (tag node = TagUrl ->
      normalizeUrl parseUrl (default (extractPlainText (children node)) (url node)) = None ->
      renderTagNode parseUrl node key = Span key (children node))
  /\ (forall anchorKey href inner,
         renderTagNode parseUrl node key = Anchor anchorKey href inner ->
         tag node <> TagB /\ tag node <> TagI /\ tag node <> TagU
         /\ normalizeUrl parseUrl (default (extractPlainText (children node)) (url node))
            = Some href
         /\ inner = children node).
Proof.
  split; [apply renderVndbDescription_wellLinked | ].
  split; [intros href Hnormalized; apply (normalizeUrl_Some _ _ Hnormalized) | ].
  split; [apply normalizeUrl_unparseable | ].
  split; [apply normalizeUrl_other_scheme | ].
  split.
  - intros Htag Hnone. unfold renderTagNode. rewrite Htag, Hnone. reflexivity.
  - intros anchorKey href inner Hrendered. unfold renderTagNode in Hrendered.
    destruct (tag node); try discriminate;
      (destruct (normalizeUrl parseUrl _) as [resolvedUrl|]; [ | discriminate];
       destruct (String.eqb resolvedUrl ""); [discriminate | ];
       injection Hrendered as _ <- <-;
       repeat split; discriminate).
Qed.

End MarkupFacts.

(** *** Concrete runs of the renderer *)

Section MarkupRuns.
Import Markup.

Lemma hyperlinks_only_for_allowed_schemes_witness :
  normalizeUrl sampleParseUrl "javascript:alert(1)" = None
  /\ renderVndbDescription sampleParseUrl
       "See [url=javascript:alert(1)]this[/url] and [url=https://vndb.org/v17]that[/url]"
     = [Text "See "; Span "tag-1" [Text "this"]; Text " and ";
        Anchor "tag-3" "https://vndb.org/v17" [Text "that"]].
Proof.
  split; [ | reflexivity].
  refine (proj1 (proj2 (proj2 (proj2
            (hyperlinks_only_for_allowed_schemes sampleParseUrl
               "" "javascript:alert(1)" "tag-1"
               {| tag := TagUrl; url := Some "javascript:alert(1)"; children := [] |}))))
            {| protocol := "javascript:"; serialized := "javascript:alert(1)" |}
            eq_refl _ _ _);
    discriminate.
Defined.

End MarkupRuns.

(* ===================================================================== *)
(** * Part III: further properties of the code                            *)
(* ===================================================================== *)

(** ** Strings *)

Section StringFacts.

Lemma lowerChar_idempotent (c : ascii) : lowerChar (lowerChar c) = lowerChar c.
Proof. destruct c as [[] [] [] [] [] [] [] []]; reflexivity. Qed.

Lemma isWhiteSpace_lowerChar (c : ascii) : isWhiteSpace (lowerChar c) = isWhiteSpace c.
Proof. destruct c as [[] [] [] [] [] [] [] []]; reflexivity. Qed.

Lemma toLowerCase_idempotent (s : string) : toLowerCase (toLowerCase s) = toLowerCase s.
Proof.
  induction s as [|c rest IH]; simpl; [reflexivity | ].
  rewrite lowerChar_idempotent, IH. reflexivity.
Qed.

Lemma toLowerCase_app (s t : string) :
  toLowerCase (s ++ t) = toLowerCase s ++ toLowerCase t.
Proof. induction s as [|c rest IH]; simpl; [reflexivity | rewrite IH; reflexivity]. Qed.

Lemma trimStart_toLowerCase (s : string) :
  trimStart (toLowerCase s) = toLowerCase (trimStart s).
Proof.
  induction s as [|c rest IH]; simpl; [reflexivity | ].
  rewrite isWhiteSpace_lowerChar. destruct (isWhiteSpace c); [exact IH | reflexivity].
Qed.

Lemma trimEnd_toLowerCase (s : string) :
  trimEnd (toLowerCase s) = toLowerCase (trimEnd s).
Proof.
  induction s as [|c rest IH]; simpl; [reflexivity | ].
  rewrite IH, isWhiteSpace_lowerChar.
  destruct (trimEnd rest); simpl; [destruct (isWhiteSpace c) | ]; reflexivity.
Qed.

Lemma trim_toLowerCase (s : string) : trim (toLowerCase s) = toLowerCase (trim s).
Proof. unfold trim. rewrite trimStart_toLowerCase, trimEnd_toLowerCase. reflexivity. Qed.

Lemma trimEnd_cons (c : ascii) (rest : string) :
  isWhiteSpace c = false -> trimEnd (String c rest) = String c (trimEnd rest).
Proof. intros Hc. simpl. rewrite Hc. destruct (trimEnd rest); reflexivity. Qed.

Lemma trimEnd_idempotent (s : string) : trimEnd (trimEnd s) = trimEnd s.
Proof.
  induction s as [|c rest IH]; simpl; [reflexivity | ].
  destruct (trimEnd rest) as [|kept more] eqn:Hrest.
  - destruct (isWhiteSpace c) eqn:Hc; simpl; [reflexivity | rewrite Hc; reflexivity].
  - simpl in IH. simpl. rewrite IH. reflexivity.
Qed.

Lemma trimStart_head (s : string) (c : ascii) (rest : string) :
  trimStart s = String c rest -> isWhiteSpace c = false.
Proof.
  induction s as [|first others IH]; simpl; [discriminate | ].
  destruct (isWhiteSpace first) eqn:Hfirst; [exact IH | ].
  intros Heq. injection Heq as <- _. exact Hfirst.
Qed.

Lemma trim_idempotent (s : string) : trim (trim s) = trim s.
Proof.
  unfold trim. destruct (trimStart s) as [|c rest] eqn:Hstart; [reflexivity | ].
  pose proof (trimStart_head _ _ _ Hstart) as Hc.
  rewrite (trimEnd_cons _ _ Hc).
  change (trimStart (String c (trimEnd rest)))
    with (if isWhiteSpace c then trimStart (trimEnd rest) else String c (trimEnd rest)).
  rewrite Hc, (trimEnd_cons _ _ Hc), trimEnd_idempotent. reflexivity.
Qed.

(** A text that starts with a character other than white space and is
    trimmed at its end is left alone by [trim]. *)
Lemma trim_cons (c : ascii) (rest : string) :
  isWhiteSpace c = false -> trim (String c rest) = String c (trimEnd rest).
Proof. intros Hc. unfold trim. simpl. rewrite Hc. apply (trimEnd_cons _ _ Hc). Qed.

End StringFacts.

(** ** Identifiers *)

Section IdentifierFacts.

Lemma trimEnd_trim (s : string) : trimEnd (trim s) = trim s.
Proof. unfold trim. apply trimEnd_idempotent. Qed.

Lemma trim_lowered_trimmed (s : string) :
  trim (toLowerCase (trim s)) = toLowerCase (trim s).
Proof. rewrite trim_toLowerCase, trim_idempotent. reflexivity. Qed.

Lemma startsWith_v_cons (rest : string) : startsWith (String "v" rest) "v" = true.
Proof. unfold startsWith. simpl. destruct rest; reflexivity. Qed.

(** The canonical form built from a lower-case, trimmed text. *)
Lemma client_normalize_unfold (raw : string) :
  Client.normalizeVisualNovelIdentifier raw
  = if startsWith (toLowerCase (trim raw)) "v"
    then toLowerCase (trim raw)
    else String "v" (toLowerCase (trim raw)).
Proof. reflexivity. Qed.

Lemma client_normalize_trimmed (raw : string) :
  trim (Client.normalizeVisualNovelIdentifier raw) = Client.normalizeVisualNovelIdentifier raw.
Proof.
  rewrite client_normalize_unfold.
  destruct (startsWith (toLowerCase (trim raw)) "v").
  - apply trim_lowered_trimmed.
  - rewrite trim_cons by reflexivity. f_equal.
    rewrite <- trim_toLowerCase. apply trimEnd_trim.
Qed.

Lemma client_normalize_lowered (raw : string) :
  toLowerCase (Client.normalizeVisualNovelIdentifier raw)
  = Client.normalizeVisualNovelIdentifier raw.
Proof.
  rewrite client_normalize_unfold.
  destruct (startsWith (toLowerCase (trim raw)) "v"); simpl;
    rewrite toLowerCase_idempotent; reflexivity.
Qed.

Lemma client_normalize_prefixed (raw : string) :
  startsWith (Client.normalizeVisualNovelIdentifier raw) "v" = true.
Proof.
  rewrite client_normalize_unfold.
  destruct (startsWith (toLowerCase (trim raw)) "v") eqn:Hprefixed;
    [exact Hprefixed | apply startsWith_v_cons].
Qed.

(** X1.  The client's identifier normalisation is idempotent and gives a
    trimmed, lower-case text that starts with [v]; it does not depend on
    the case of its input nor on white space around it, and the prefixed
    and the unprefixed form of an identifier normalise to the same
    text. *)
Theorem client_identifier_normal_form (raw : string) :
  let normalized := Client.normalizeVisualNovelIdentifier raw in
  Client.normalizeVisualNovelIdentifier normalized = normalized
  /\ startsWith normalized "v" = true
  /\ toLowerCase normalized = normalized
  /\ trim normalized = normalized
  /\ Client.normalizeVisualNovelIdentifier (toLowerCase raw) = normalized
  /\ Client.normalizeVisualNovelIdentifier (trim raw) = normalized
  /\ (startsWith (toLowerCase (trim raw)) "v" = false ->
      Client.normalizeVisualNovelIdentifier (String "v" (trim raw)) = normalized).
Proof.
  intros normalized.
  assert (Hself : Client.normalizeVisualNovelIdentifier normalized = normalized).
  { rewrite client_normalize_unfold. subst normalized.
    rewrite client_normalize_trimmed, client_normalize_lowered, client_normalize_prefixed.
    reflexivity. }
  split; [exact Hself | ].
  split; [apply client_normalize_prefixed | ].
  split; [apply client_normalize_lowered | ].
  split; [apply client_normalize_trimmed | ].
  split; [ | split].
  - subst normalized. rewrite !client_normalize_unfold.
    rewrite trim_toLowerCase, toLowerCase_idempotent. reflexivity.
  - subst normalized. rewrite !client_normalize_unfold, trim_idempotent. reflexivity.
  - intros Hbare. subst normalized. rewrite !client_normalize_unfold.
    rewrite Hbare, trim_cons by reflexivity.
    rewrite trimEnd_trim.
    change (toLowerCase (String "v" (trim raw))) with (String "v" (toLowerCase (trim raw))).
    rewrite startsWith_v_cons. reflexivity.
Qed.

Lemma client_identifier_normal_form_witness :
  Client.normalizeVisualNovelIdentifier "v17" = "v17"
  /\ Client.normalizeVisualNovelIdentifier " V17 " = "v17"
  /\ Client.normalizeVisualNovelIdentifier (String "v" (trim "17"))
     = Client.normalizeVisualNovelIdentifier "17".
Proof.
  split; [reflexivity | split; [reflexivity | ]].
  apply (client_identifier_normal_form "17"). reflexivity.
Defined.

End IdentifierFacts.

(** ** More about the cache and the personal-list operations *)

Section MoreClientFacts.
Import Client ClientRequests.
Context `{P : Platform}.

(** X2.  A cache write changes the entry of its own key only, and a cache
    read changes nothing but, at most, removes the entry it was asked for:
    entries under other keys are as before, no entry appears, and a read
    of a key that is absent leaves the store as it is. *)
Theorem cache_operations_touch_one_key
    (now : Z) (cacheStore : gmap string CacheEntry) (cacheKey otherKey : string)
    (newPayload : Json) :
  cacheKey <> otherKey ->
  writeToCache now cacheStore cacheKey newPayload !! otherKey = cacheStore !! otherKey
  /\ snd (readFromCache now cacheStore cacheKey) !! otherKey = cacheStore !! otherKey
  /\ (forall anyKey, is_Some (snd (readFromCache now cacheStore cacheKey) !! anyKey) ->
                     is_Some (cacheStore !! anyKey))
  /\ (cacheStore !! cacheKey = None ->
      readFromCache now cacheStore cacheKey = (JNull, cacheStore)).
Proof.
  intros Hother. split; [ | split; [ | split]].
  - unfold writeToCache. apply lookup_insert_ne. exact Hother.
  - unfold readFromCache. destruct (cacheStore !! cacheKey) as [cachedEntry|]; [ | reflexivity].
    destruct (now >? expiresAt cachedEntry); simpl; [ | reflexivity].
    apply lookup_delete_ne. exact Hother.
  - intros anyKey. unfold readFromCache.
    destruct (cacheStore !! cacheKey) as [cachedEntry|]; [ | trivial].
    destruct (now >? expiresAt cachedEntry); simpl; [ | trivial].
    destruct (decide (cacheKey = anyKey)) as [<- | Hne].
    + rewrite lookup_delete_eq. intros [found Hfound]. discriminate.
    + rewrite lookup_delete_ne by exact Hne. trivial.
  - intros Habsent. unfold readFromCache. rewrite Habsent. reflexivity.
Qed.

Lemma cache_operations_touch_one_key_witness :
  writeToCache 0 ∅ "a" (JString "x") !! "b" = (∅ : gmap string CacheEntry) !! "b".
Proof.
  apply (cache_operations_touch_one_key 0 ∅ "a" "b" (JString "x")). discriminate.
Defined.

Lemma list_cache_hit (authenticationToken userIdentifier : string)
    (pageNumberArgument maximumResultsArgument : option Z) (st : ClientState)
    (cachedEntry : CacheEntry) :
  userListQueryCache st
    !! ulistCacheKey authenticationToken userIdentifier
         (default 50 maximumResultsArgument) (default 1 pageNumberArgument)
  = Some cachedEntry ->
  dateNow (env st) <= expiresAt cachedEntry ->
  truthy (payload cachedEntry) = true ->
  fetchAuthenticatedUserVisualNovelList authenticationToken userIdentifier
    pageNumberArgument maximumResultsArgument st
  = (Returned (payload cachedEntry), st).
Proof.
  intros Hcached Hfresh Htruthy.
  unfold fetchAuthenticatedUserVisualNovelList, bind, readUserListCache.
  unfold ulistCacheKey in Hcached.
  rewrite (readFromCache_fresh _ _ _ _ Hcached Hfresh). simpl. rewrite Htruthy.
  unfold ret. destruct st; reflexivity.
Qed.

Lemma list_success_caches (authenticationToken userIdentifier : string)
    (pageNumberArgument maximumResultsArgument : option Z) (st st' : ClientState)
    (responsePayload : Json) :
  listCacheMiss authenticationToken userIdentifier
    (default 50 maximumResultsArgument) (default 1 pageNumberArgument) st ->
  fetchAuthenticatedUserVisualNovelList authenticationToken userIdentifier
    pageNumberArgument maximumResultsArgument st
  = (Returned responsePayload, st') ->
  userListQueryCache st'
    !! ulistCacheKey authenticationToken userIdentifier
         (default 50 maximumResultsArgument) (default 1 pageNumberArgument)
  = Some {| expiresAt := dateNow (env st') + 300000; payload := responsePayload |}.
Proof.
  intros Hmiss Hrun.
  unfold fetchAuthenticatedUserVisualNovelList, listCacheMiss, ulistCacheKey in *.
  unfold bind, readUserListCache, executeUlistRequest in Hrun.
  destruct (readFromCache _ _ _) as [found store'] eqn:Hread. simpl in Hmiss.
  simpl in Hrun. rewrite Hmiss in Hrun.
  rewrite awaitFetch_run in Hrun. simpl in Hrun.
  destruct (fst (fetch _ (env st))) as [firstResponse|message]; [ | discriminate].
  rewrite retry_condition in Hrun.
  destruct (status firstResponse =? 400).
  - rewrite awaitFetch_run in Hrun. simpl in Hrun.
    destruct (fst (fetch _ _)) as [secondResponse|message]; [ | discriminate].
    destruct (ok secondResponse); simpl in Hrun; [ | discriminate].
    unfold awaitJson in Hrun.
    destruct (bodyJson secondResponse) as [decoded|]; simpl in Hrun; [ | discriminate].
    injection Hrun as <- <-. simpl. apply lookup_insert_eq.
  - unfold ret in Hrun. simpl in Hrun.
    destruct (ok firstResponse); simpl in Hrun; [ | discriminate].
    unfold awaitJson in Hrun.
    destruct (bodyJson firstResponse) as [decoded|]; simpl in Hrun; [ | discriminate].
    injection Hrun as <- <-. simpl. apply lookup_insert_eq.
Qed.

(** X3.  A page of the personal list that was fetched from the network is
    served from the cache afterwards: while the cache is as the fetch left
    it and the clock is at most five minutes past the fetch, the same call
    returns the same payload and sends nothing.  (The payload must be
    truthy: the code takes a falsy cached payload for a miss.) *)
Theorem fetched_list_page_is_served_from_cache
    (authenticationToken userIdentifier : string)
    (pageNumberArgument maximumResultsArgument : option Z)
    (st fetched later : ClientState) (responsePayload : Json) :
  listCacheMiss authenticationToken userIdentifier
    (default 50 maximumResultsArgument) (default 1 pageNumberArgument) st ->
  fetchAuthenticatedUserVisualNovelList authenticationToken userIdentifier
    pageNumberArgument maximumResultsArgument st
  = (Returned responsePayload, fetched) ->
  truthy responsePayload = true ->
  userListQueryCache later = userListQueryCache fetched ->
  dateNow (env later) <= dateNow (env fetched) + 300000 ->
  fetchAuthenticatedUserVisualNovelList authenticationToken userIdentifier
    pageNumberArgument maximumResultsArgument later
  = (Returned responsePayload, later).
Proof.
  intros Hmiss Hrun Htruthy Hcache Hclock.
  pose proof (list_success_caches _ _ _ _ _ _ _ Hmiss Hrun) as Hcached.
  rewrite <- Hcache in Hcached.
  exact (list_cache_hit _ _ _ _ later _ Hcached Hclock Htruthy).
Qed.

Lemma empty_cache_misses (authenticationToken userIdentifier : string)
    (maximumResults pageNumber : Z) (st : ClientState) :
  userListQueryCache st = ∅ ->
  listCacheMiss authenticationToken userIdentifier maximumResults pageNumber st.
Proof.
  intros Hempty. unfold listCacheMiss, readFromCache. rewrite Hempty, lookup_empty.
  reflexivity.
Qed.

Lemma list_miss_sends_request (authenticationToken userIdentifier : string)
    (pageNumberArgument maximumResultsArgument : option Z) (st : ClientState) :
  listCacheMiss authenticationToken userIdentifier
    (default 50 maximumResultsArgument) (default 1 pageNumberArgument) st ->
  exists outcome later,
    madeBy st
      (fetchAuthenticatedUserVisualNovelList authenticationToken userIdentifier
         pageNumberArgument maximumResultsArgument st)
      ((ulistRequest authenticationToken userIdentifier LABELS_ENABLED_FIELDS
                     (default 50 maximumResultsArgument) (default 1 pageNumberArgument),
        outcome) :: later).
Proof.
  intros Hmiss. unfold madeBy.
  destruct (fst (fetch (ulistRequest authenticationToken userIdentifier LABELS_ENABLED_FIELDS
                          (default 50 maximumResultsArgument)
                          (default 1 pageNumberArgument)) (env st)))
    as [firstResponse|message] eqn:Hfirst.
  - destruct (Z.eq_dec (status firstResponse) 400) as [Hstatus|Hstatus].
    + destruct (list_retry authenticationToken userIdentifier pageNumberArgument
                  maximumResultsArgument st firstResponse Hmiss Hfirst Hstatus)
        as [Hexchanges _].
      eexists. eexists. exact Hexchanges.
    + destruct (list_no_retry authenticationToken userIdentifier pageNumberArgument
                  maximumResultsArgument st Hmiss) as [Hexchanges _].
      { intros response Hresponse. rewrite Hfirst in Hresponse.
        injection Hresponse as <-. exact Hstatus. }
      eexists. exists []. exact Hexchanges.
  - destruct (list_no_retry authenticationToken userIdentifier pageNumberArgument
                maximumResultsArgument st Hmiss) as [Hexchanges _].
    { intros response Hresponse. rewrite Hfirst in Hresponse. discriminate. }
    eexists. exists []. exact Hexchanges.
Qed.

(** X4.  A personal-list write that returns invalidates every cached page
    of the personal list: whatever was cached before, the next read of any
    page by any user and token goes to the network, starting with the
    labels-enabled request. *)
Theorem list_read_after_write_goes_to_network
    (authenticationToken visualNovelIdentifier : string)
    (labelIdentifierArgument : option Z) (statusLabelIdentifier : Z)
    (readerToken userIdentifier : string)
    (pageNumberArgument maximumResultsArgument : option Z) (st : ClientState) :
  let readAfter (written : Completion unit * ClientState) :=
    fst written = Returned tt ->
    exists outcome later,
      madeBy (snd written)
        (fetchAuthenticatedUserVisualNovelList readerToken userIdentifier
           pageNumberArgument maximumResultsArgument (snd written))
        ((ulistRequest readerToken userIdentifier LABELS_ENABLED_FIELDS
                       (default 50 maximumResultsArgument) (default 1 pageNumberArgument),
          outcome) :: later) in
  readAfter (addVisualNovelToAuthenticatedUserList authenticationToken
               visualNovelIdentifier labelIdentifierArgument st)
  /\ readAfter (updateAuthenticatedUserVisualNovelStatusLabel authenticationToken
                  visualNovelIdentifier statusLabelIdentifier st)
  /\ readAfter (removeVisualNovelFromAuthenticatedUserList authenticationToken
                  visualNovelIdentifier st).
Proof.
  intros readAfter.
  assert (Hgeneral : forall written, writeOutcome st written -> readAfter written).
  { intros written Houtcome Hreturned. unfold writeOutcome in Houtcome.
    rewrite Hreturned in Houtcome. destruct Houtcome as [Hempty _].
    apply list_miss_sends_request. apply empty_cache_misses. exact Hempty. }
  split; [ | split]; apply Hgeneral.
  - apply add_writeOutcome.
  - apply update_writeOutcome.
  - apply remove_writeOutcome.
Qed.

Lemma otherStatusLabels_spec (statusLabelIdentifier labelIdentifier : Z) :
  In labelIdentifier (otherStatusLabels statusLabelIdentifier)
  <-> 1 <= labelIdentifier <= 6 /\ labelIdentifier <> statusLabelIdentifier.
Proof.
  unfold otherStatusLabels. rewrite filter_In, negb_true_iff, Z.eqb_neq.
  unfold STATUS_LABEL_IDENTIFIERS. simpl. split.
  - intros [Hmember Hne]. split; [lia | exact Hne].
  - intros [Hrange Hne]. split; [lia | exact Hne].
Qed.

Lemma otherStatusLabels_length (statusLabelIdentifier : Z) :
  1 <= statusLabelIdentifier <= 6 ->
  length (otherStatusLabels statusLabelIdentifier) = 5%nat.
Proof.
  intros Hrange.
  assert (Hcases : statusLabelIdentifier = 1 \/ statusLabelIdentifier = 2
                   \/ statusLabelIdentifier = 3 \/ statusLabelIdentifier = 4
                   \/ statusLabelIdentifier = 5 \/ statusLabelIdentifier = 6) by lia.
  destruct Hcases as [-> | [-> | [-> | [-> | [-> | ->]]]]]; reflexivity.
Qed.

(** X5.  A status update and a removal each send exactly one request,
    whatever the remote answers, also on status 400: there is no fallback
    shape for them, and they return exactly when that request succeeded.
    The update takes away the status labels other than the new one (the
    five others when the new status is one of 1 to 6) and sets the new
    one, so that an entry keeps a single status. *)
Theorem status_update_and_removal_send_one_request
    (authenticationToken visualNovelIdentifier : string)
    (statusLabelIdentifier : Z) (st : ClientState) :
  let updateRequest :=
    statusUpdateRequest authenticationToken visualNovelIdentifier statusLabelIdentifier in
  let deleteRequest := removalRequest authenticationToken visualNovelIdentifier in
  let updated :=
    updateAuthenticatedUserVisualNovelStatusLabel authenticationToken
      visualNovelIdentifier statusLabelIdentifier st in
  let removed :=
    removeVisualNovelFromAuthenticatedUserList authenticationToken
      visualNovelIdentifier st in
  madeBy st updated [(updateRequest, fst (fetch updateRequest (env st)))]
  /\ writeEndsBy (fst (fetch updateRequest (env st))) (fst updated)
  /\ madeBy st removed [(deleteRequest, fst (fetch deleteRequest (env st)))]
  /\ writeEndsBy (fst (fetch deleteRequest (env st))) (fst removed)
  /\ (forall labelIdentifier,
         In labelIdentifier (otherStatusLabels statusLabelIdentifier)
         <-> 1 <= labelIdentifier <= 6 /\ labelIdentifier <> statusLabelIdentifier)
  /\ (1 <= statusLabelIdentifier <= 6 ->
      length (otherStatusLabels statusLabelIdentifier) = 5%nat).
Proof.
  intros updateRequest deleteRequest updated removed.
  assert (Hupdated : madeBy st updated [(updateRequest, fst (fetch updateRequest (env st)))]
                     /\ writeEndsBy (fst (fetch updateRequest (env st))) (fst updated)).
  { subst updated. unfold updateAuthenticatedUserVisualNovelStatusLabel, madeBy, bind.
    rewrite awaitFetch_run.
    change {| method := "PATCH";
              url := buildVndbApiUrl
                       ("/ulist/" ++ normalizeVisualNovelIdentifier visualNovelIdentifier);
              headers := [jsonContentType; authorizationHeader authenticationToken];
              body := _ |} with updateRequest.
    destruct (fst (fetch updateRequest (env st))) as [networkResponse|message]; simpl.
    - destruct (ok networkResponse); simpl;
        (split; [reflexivity | first [reflexivity | apply threw_Threw]]).
    - split; [reflexivity | apply threw_Threw]. }
  assert (Hremoved : madeBy st removed [(deleteRequest, fst (fetch deleteRequest (env st)))]
                     /\ writeEndsBy (fst (fetch deleteRequest (env st))) (fst removed)).
  { subst removed. unfold removeVisualNovelFromAuthenticatedUserList, madeBy, bind.
    rewrite awaitFetch_run.
    change {| method := "DELETE";
              url := buildVndbApiUrl
                       ("/ulist/" ++ normalizeVisualNovelIdentifier visualNovelIdentifier);
              headers := [authorizationHeader authenticationToken];
              body := None |} with deleteRequest.
    destruct (fst (fetch deleteRequest (env st))) as [networkResponse|message]; simpl.
    - destruct (ok networkResponse); simpl;
        (split; [reflexivity | first [reflexivity | apply threw_Threw]]).
    - split; [reflexivity | apply threw_Threw]. }
  destruct Hupdated as [Hupdate_made Hupdate_end].
  destruct Hremoved as [Hremove_made Hremove_end].
  split; [exact Hupdate_made | split; [exact Hupdate_end | ]].
  split; [exact Hremove_made | split; [exact Hremove_end | ]].
  split; [intros labelIdentifier; apply otherStatusLabels_spec
         | apply otherStatusLabels_length].
Qed.

(** X6.  Adding a title with a blank identifier throws before anything is
    sent and leaves the client state as it was.  With any other
    identifier the operation sends one or two requests, never more, each a
    PATCH of the list entry of the canonical identifier; the first carries
    [labels_set] with the given label, or with 5 (wishlist) when none is
    given. *)
Theorem add_sends_at_most_two_patches
    (authenticationToken visualNovelIdentifier : string)
    (labelIdentifierArgument : option Z) (st : ClientState) :
  let added :=
    addVisualNovelToAuthenticatedUserList authenticationToken visualNovelIdentifier
      labelIdentifierArgument st in
  (trim visualNovelIdentifier = "" -> snd added = st /\ threw (fst added))
  /\ (trim visualNovelIdentifier <> "" ->
      exists firstOutcome later,
        madeBy st added
          ((patchRequest authenticationToken visualNovelIdentifier "labels_set"
                         (default 5 labelIdentifierArgument), firstOutcome) :: later)
        /\ (length later <= 1)%nat
        /\ Forall (fun exchange =>
                     method (fst exchange) = "PATCH"
                     /\ url (fst exchange)
                        = buildVndbApiUrl
                            ("/ulist/"
                             ++ normalizeVisualNovelIdentifier visualNovelIdentifier))
                  later).
Proof.
  intros added. split.
  - intros Hblank. subst added. unfold addVisualNovelToAuthenticatedUserList.
    rewrite Hblank. simpl. split; [reflexivity | apply threw_Threw].
  - intros Hidentifier. unfold madeBy.
    destruct (fst (fetch (patchRequest authenticationToken visualNovelIdentifier
                            "labels_set" (default 5 labelIdentifierArgument)) (env st)))
      as [firstResponse|message] eqn:Hfirst.
    + destruct (Z.eq_dec (status firstResponse) 400) as [Hstatus|Hstatus].
      * destruct (add_retry authenticationToken visualNovelIdentifier
                    labelIdentifierArgument st firstResponse Hidentifier Hfirst Hstatus)
          as [Hexchanges _].
        eexists. eexists. split; [exact Hexchanges | ].
        split; [simpl; lia | ].
        constructor; [split; reflexivity | constructor].
      * destruct (add_no_retry authenticationToken visualNovelIdentifier
                    labelIdentifierArgument st Hidentifier) as [Hexchanges _].
        { intros response Hresponse. rewrite Hfirst in Hresponse.
          injection Hresponse as <-. exact Hstatus. }
        eexists. exists []. split; [exact Hexchanges | ].
        split; [simpl; lia | constructor].
    + destruct (add_no_retry authenticationToken visualNovelIdentifier
                  labelIdentifierArgument st Hidentifier) as [Hexchanges _].
      { intros response Hresponse. rewrite Hfirst in Hresponse. discriminate. }
      eexists. exists []. split; [exact Hexchanges | ].
      split; [simpl; lia | constructor].
Qed.

(** *** The membership set holds canonical identifiers *)

Lemma identifierOfRawEntry_prefixed (rawEntry : Json) (normalizedIdentifier : string) :
  identifierOfRawEntry rawEntry = Some normalizedIdentifier ->
  startsWith normalizedIdentifier "v" = true.
Proof.
  unfold identifierOfRawEntry.
  destruct (property rawEntry "id") as [[| | rawNumber | rawString | |]|]; try discriminate.
  - intros Hfound. injection Hfound as <-. apply startsWith_v_cons.
  - destruct (negb (String.eqb (trim rawString) "")); [ | discriminate].
    intros Hfound. injection Hfound as <-.
    destruct (startsWith (toLowerCase rawString) "v") eqn:Hprefixed;
      [exact Hprefixed | apply startsWith_v_cons].
Qed.

Lemma identifierOfRawEntry_spec (rawEntry : Json) (identifier : string) :
  identifierOfRawEntry rawEntry = Some identifier
  <-> (exists rawIdentifier,
          property rawEntry "id" = Some (JString rawIdentifier)
          /\ trim rawIdentifier <> ""
          /\ identifier = (if startsWith (toLowerCase rawIdentifier) "v"
                           then toLowerCase rawIdentifier
                           else "v" ++ toLowerCase rawIdentifier))
      \/ (exists rawIdentifier,
             property rawEntry "id" = Some (JNumber rawIdentifier)
             /\ identifier = "v" ++ numberToString rawIdentifier).
Proof.
  unfold identifierOfRawEntry. split.
  - destruct (property rawEntry "id") as [[| | rawNumber | rawText | |]|]; try discriminate.
    + intros Hfound. injection Hfound as <-. right. exists rawNumber. split; reflexivity.
    + destruct (String.eqb_spec (trim rawText) "") as [Hblank|Hfilled]; [discriminate | ].
      simpl. intros Hfound. injection Hfound as <-. left. exists rawText.
      split; [reflexivity | split; [exact Hfilled | reflexivity]].
  - intros [(rawText & -> & Hfilled & ->) | (rawNumber & -> & ->)]; [ | reflexivity].
    apply string_eqb_false_iff in Hfilled. rewrite Hfilled. reflexivity.
Qed.

Lemma fold_addRawEntry_members (rawEntries : list Json) (identifierSet : gset string)
    (identifier : string) :
  identifier ∈ fold_left addRawEntry rawEntries identifierSet
  <-> identifier ∈ identifierSet
      \/ exists rawEntry,
           In rawEntry rawEntries /\ identifierOfRawEntry rawEntry = Some identifier.
Proof.
  revert identifierSet. induction rawEntries as [|rawEntry rest IH]; intros identifierSet.
  - simpl. split; [auto | ]. intros [Hin | (rawEntry & [] & _)]. exact Hin.
  - simpl. rewrite IH. unfold addRawEntry. split.
    + intros [Hin | (other & Hother & Hfound)].
      * destruct (identifierOfRawEntry rawEntry) as [normalizedIdentifier|] eqn:Hentry;
          [ | left; exact Hin].
        apply elem_of_union in Hin. destruct Hin as [Hnew | Hold]; [ | left; exact Hold].
        apply elem_of_singleton in Hnew. subst normalizedIdentifier.
        right. exists rawEntry. split; [left; reflexivity | exact Hentry].
      * right. exists other. split; [right; exact Hother | exact Hfound].
    + intros [Hin | (other & [<- | Hother] & Hfound)].
      * left. destruct (identifierOfRawEntry rawEntry); [ | exact Hin].
        apply elem_of_union. right. exact Hin.
      * left. rewrite Hfound. apply elem_of_union. left. apply elem_of_singleton. reflexivity.
      * right. exists other. split; assumption.
Qed.

(** The set that the loop returns holds the identifiers it started with
    and those of the raw entries of the pages it fetched, and no
    others. *)
Lemma identifierSetLoop_members (fuel : nat)
    (authenticationToken normalizedUserIdentifier : string) :
  forall (visualNovelIdentifierSet : gset string) (activePageNumber : Z)
         (hasMorePages : bool) (st st' : ClientState) (finalSet : gset string),
    identifierSetLoop fuel authenticationToken normalizedUserIdentifier
      visualNovelIdentifierSet activePageNumber hasMorePages st
    = (Returned finalSet, st') ->
    exists made,
      exchanges st' = (exchanges st ++ made)%list
      /\ forall identifier,
           identifier ∈ finalSet
           <-> identifier ∈ visualNovelIdentifierSet
               \/ exists rawEntry,
                    In rawEntry (rawEntriesIn made)
                    /\ identifierOfRawEntry rawEntry = Some identifier.
Proof.
  assert (Hnone : forall (st : ClientState) (identifierSet : gset string),
             exists made,
               exchanges st = (exchanges st ++ made)%list
               /\ forall identifier,
                    identifier ∈ identifierSet
                    <-> identifier ∈ identifierSet
                        \/ exists rawEntry,
                             In rawEntry (rawEntriesIn made)
                             /\ identifierOfRawEntry rawEntry = Some identifier).
  { intros st identifierSet. exists []. split; [rewrite app_nil_r; reflexivity | ].
    intros identifier. split; [auto | ]. intros [Hin | (rawEntry & [] & _)]. exact Hin. }
  induction fuel as [|fuel IH];
    intros visualNovelIdentifierSet activePageNumber hasMorePages st st' finalSet Hrun.
  - simpl in Hrun. unfold ret in Hrun. injection Hrun as <- <-. apply Hnone.
  - destruct hasMorePages;
      [ | rewrite identifierSetLoop_exit in Hrun by (left; reflexivity);
          injection Hrun as <- <-; apply Hnone ].
    destruct (Z_le_gt_dec activePageNumber 40) as [Hpage|Hpage];
      [ | rewrite identifierSetLoop_exit in Hrun by (right; lia);
          injection Hrun as <- <-; apply Hnone ].
    rewrite identifierSetLoop_step in Hrun by assumption.
    set (request := identifierPageRequest authenticationToken normalizedUserIdentifier
                                          activePageNumber) in *.
    destruct (fst (fetch request (env st))) as [networkResponse|message] eqn:Hfetch;
      [ | discriminate].
    destruct (ok networkResponse) eqn:Hok; [ | discriminate].
    destruct (bodyJson networkResponse) as [responsePayload|] eqn:Hbody; [ | discriminate].
    assert (Hnext :
              identifierSetLoop fuel authenticationToken normalizedUserIdentifier
                (fold_left addRawEntry (rawEntriesOf responsePayload) visualNovelIdentifierSet)
                (activePageNumber + 1) (moreFlagOf responsePayload)
                (afterExchange request st)
              = (Returned finalSet, st'))
      by (destruct responsePayload; first [discriminate | exact Hrun]).
    destruct (IH _ _ _ _ _ _ Hnext) as (made & Hmade & Hmembers).
    exists ((request, Resolved networkResponse) :: made). split.
    + rewrite Hmade. simpl. rewrite Hfetch, <- app_assoc. reflexivity.
    + intros identifier. rewrite Hmembers, fold_addRawEntry_members.
      unfold rawEntriesIn. cbn [flat_map snd]. rewrite Hok, Hbody.
      fold (rawEntriesIn made). split.
      * intros [[Hin | (rawEntry & Hentry & Hfound)] | (rawEntry & Hentry & Hfound)].
        -- left. exact Hin.
        -- right. exists rawEntry. split; [apply in_or_app; left; exact Hentry | exact Hfound].
        -- right. exists rawEntry. split; [apply in_or_app; right; exact Hentry | exact Hfound].
      * intros [Hin | (rawEntry & Hentry & Hfound)]; [left; left; exact Hin | ].
        apply in_app_or in Hentry. destruct Hentry as [Hentry | Hentry].
        -- left. right. exists rawEntry. split; assumption.
        -- right. exists rawEntry. split; assumption.
Qed.

(** X7.  When the membership-set fetch returns, its set holds the
    identifiers of the raw entries of the pages it fetched, in the form
    under which a card looks itself up, and nothing else.  A raw entry
    whose [id] is a text that is not blank puts in the lower-cased text,
    with [v] put before it when it does not start with [v]; a raw entry
    whose [id] is a number puts in [v] followed by the number; every
    member of the set comes from a raw entry of a fetched page in one of
    these two ways, and starts with [v]. *)
Theorem membership_set_holds_prefixed_identifiers
    (authenticationToken userIdentifier : string) (st st' : ClientState)
    (visualNovelIdentifierSet : gset string) :
  fetchAuthenticatedUserVisualNovelIdentifierSet authenticationToken userIdentifier st
  = (Returned visualNovelIdentifierSet, st') ->
  exists made,
    exchanges st' = (exchanges st ++ made)%list
    /\ (forall rawEntry rawIdentifier,
           In rawEntry (rawEntriesIn made) ->
           property rawEntry "id" = Some (JString rawIdentifier) ->
           trim rawIdentifier <> "" ->
           (if startsWith (toLowerCase rawIdentifier) "v"
            then toLowerCase rawIdentifier
            else "v" ++ toLowerCase rawIdentifier) ∈ visualNovelIdentifierSet)
    /\ (forall rawEntry rawIdentifier,
           In rawEntry (rawEntriesIn made) ->
           property rawEntry "id" = Some (JNumber rawIdentifier) ->
           "v" ++ numberToString rawIdentifier ∈ visualNovelIdentifierSet)
    /\ (forall identifier,
           identifier ∈ visualNovelIdentifierSet ->
           startsWith identifier "v" = true
           /\ exists rawEntry,
                In rawEntry (rawEntriesIn made)
                /\ ((exists rawIdentifier,
                        property rawEntry "id" = Some (JString rawIdentifier)
                        /\ trim rawIdentifier <> ""
                        /\ identifier = (if startsWith (toLowerCase rawIdentifier) "v"
                                         then toLowerCase rawIdentifier
                                         else "v" ++ toLowerCase rawIdentifier))
                    \/ (exists rawIdentifier,
                           property rawEntry "id" = Some (JNumber rawIdentifier)
                           /\ identifier = "v" ++ numberToString rawIdentifier))).
Proof.
  intros Hrun. unfold fetchAuthenticatedUserVisualNovelIdentifierSet in Hrun.
  destruct (identifierSetLoop_members _ _ _ _ _ _ _ _ _ Hrun) as (made & Hmade & Hmembers).
  exists made. split; [exact Hmade | ]. split; [ | split].
  - intros rawEntry rawIdentifier Hentry Hid Hfilled. apply Hmembers. right.
    exists rawEntry. split; [exact Hentry | ].
    apply identifierOfRawEntry_spec. left. exists rawIdentifier. auto.
  - intros rawEntry rawIdentifier Hentry Hid. apply Hmembers. right.
    exists rawEntry. split; [exact Hentry | ].
    apply identifierOfRawEntry_spec. right. exists rawIdentifier. auto.
  - intros identifier Hin. apply Hmembers in Hin.
    destruct Hin as [Hin | (rawEntry & Hentry & Hfound)]; [set_solver | ].
    split; [exact (identifierOfRawEntry_prefixed _ _ Hfound) | ].
    exists rawEntry. split; [exact Hentry | ].
    apply identifierOfRawEntry_spec. exact Hfound.
Qed.

End MoreClientFacts.

(** *** Concrete runs of the personal-list operations *)

Section MoreClientRuns.
Import Client ClientRequests.

Lemma fetched_list_page_is_served_from_cache_witness :
  let fetched :=
    @fetchAuthenticatedUserVisualNovelList (scriptedPlatform offline)
      "token" "u2" None None answersWithPage in
  @fetchAuthenticatedUserVisualNovelList (scriptedPlatform offline)
    "token" "u2" None None (snd fetched)
  = (Returned listPagePayload, snd fetched).
Proof.
  intros fetched.
  apply (fetched_list_page_is_served_from_cache (P := scriptedPlatform offline)
           "token" "u2" None None answersWithPage (snd fetched) (snd fetched)
           listPagePayload).
  - reflexivity.
  - reflexivity.
  - reflexivity.
  - reflexivity.
  - vm_compute. discriminate.
Defined.

Lemma list_read_after_write_goes_to_network_witness :
  let written :=
    @updateAuthenticatedUserVisualNovelStatusLabel (scriptedPlatform offline)
      "token" "v17" 2 acceptsThenAnswers in
  exists outcome later,
    madeBy (snd written)
      (@fetchAuthenticatedUserVisualNovelList (scriptedPlatform offline)
         "token" "u2" None None (snd written))
      ((@ulistRequest (scriptedPlatform offline) "token" "u2" LABELS_ENABLED_FIELDS 50 1,
        outcome) :: later).
Proof.
  intros written.
  apply (list_read_after_write_goes_to_network (P := scriptedPlatform offline)
           "token" "v17" None 2 "token" "u2" None None acceptsThenAnswers).
  reflexivity.
Defined.

Lemma status_update_and_removal_send_one_request_witness :
  length (otherStatusLabels 2) = 5%nat.
Proof.
  apply (status_update_and_removal_send_one_request (P := scriptedPlatform offline)
           "token" "v17" 2 acceptsThenAnswers).
  lia.
Defined.

Lemma add_sends_at_most_two_patches_witness :
  let added :=
    @addVisualNovelToAuthenticatedUserList (scriptedPlatform offline)
      "token" "   " None acceptsThenAnswers in
  snd added = acceptsThenAnswers /\ threw (fst added).
Proof.
  apply (add_sends_at_most_two_patches (P := scriptedPlatform offline)
           "token" "   " None acceptsThenAnswers).
  reflexivity.
Defined.

Lemma membership_set_holds_prefixed_identifiers_witness :
  let fetched :=
    @fetchAuthenticatedUserVisualNovelIdentifierSet (scriptedPlatform offline)
      "token" "u2" answersWithPage in
  fst fetched = Returned {["v4"; "v17"]}
  /\ exists made,
       exchanges (snd fetched) = (exchanges answersWithPage ++ made)%list
       /\ In (JObject [("id", JString "V17"); ("labels", JArray [JNumber 2])])
             (rawEntriesIn made).
Proof.
  intros fetched.
  assert (Hrun : fetched = (Returned {["v4"; "v17"]}, snd fetched)) by reflexivity.
  split; [reflexivity | ].
  destruct (membership_set_holds_prefixed_identifiers (P := scriptedPlatform offline)
              "token" "u2" answersWithPage (snd fetched) {["v4"; "v17"]} Hrun)
    as (made & Hmade & _ & _ & Hfrom).
  exists made. split; [exact Hmade | ].
  apply app_inv_head in Hmade. subst made. left. reflexivity.
Defined.

End MoreClientRuns.

(** ** Chunks, batches and sorting in the list component *)

Section MoreListFacts.
Import ListView.

Lemma slice_length {A} (items : list A) (chunkSize index : nat) :
  (index < length items)%nat ->
  (0 < chunkSize)%nat ->
  (1 <= length (slice items index (index + chunkSize)) <= chunkSize)%nat.
Proof.
  intros Hinside Hsize. unfold slice.
  rewrite length_firstn, length_skipn. lia.
Qed.

Lemma chunksFrom_lengths {A} (fuel : nat) (items : list A) (chunkSize : nat) :
  (0 < chunkSize)%nat ->
  forall index,
    Forall (fun chunk => (1 <= length chunk <= chunkSize)%nat)
           (chunksFrom fuel items chunkSize index).
Proof.
  intros Hsize. induction fuel as [|fuel IH]; intros index; simpl; [constructor | ].
  destruct (Nat.ltb_spec index (length items)) as [Hinside | Houtside]; [ | constructor].
  constructor; [apply slice_length; assumption | apply IH].
Qed.

Lemma chunkArray_lengths {A} (items : list A) (chunkSize : Z) :
  0 < chunkSize ->
  Forall (fun chunk => (1 <= length chunk <= Z.to_nat chunkSize)%nat)
         (chunkArray items chunkSize).
Proof.
  intros Hsize. unfold chunkArray.
  destruct (Z.leb_spec chunkSize 0); [lia | ].
  apply chunksFrom_lengths. lia.
Qed.

(** X8.  [chunkArray] cuts a list into consecutive pieces: the pieces put
    together give the list back, in order.  For a positive chunk size
    every piece is non-empty and has at most that many elements; for a
    chunk size of zero or less the list is the only piece. *)
Theorem chunkArray_cuts_into_bounded_pieces {A} (items : list A) (chunkSize : Z) :
  concat (chunkArray items chunkSize) = items
  /\ (chunkSize <= 0 -> chunkArray items chunkSize = [items])
  /\ (0 < chunkSize ->
      Forall (fun chunk => (1 <= length chunk <= Z.to_nat chunkSize)%nat)
             (chunkArray items chunkSize)).
Proof.
  split; [apply chunkArray_concat | split].
  - intros Hnone. unfold chunkArray.
    destruct (Z.leb_spec chunkSize 0); [reflexivity | lia].
  - apply chunkArray_lengths.
Qed.

Lemma chunkArray_cuts_into_bounded_pieces_witness :
  Forall (fun chunk => (1 <= length chunk <= Z.to_nat 2)%nat)
         (chunkArray ["a"; "b"; "c"; "d"; "e"] 2)
  /\ chunkArray ["a"; "b"; "c"; "d"; "e"] 2 = [["a"; "b"]; ["c"; "d"]; ["e"]].
Proof.
  split; [ | reflexivity].
  apply (chunkArray_cuts_into_bounded_pieces ["a"; "b"; "c"; "d"; "e"] 2). lia.
Defined.

Lemma distinctAfter_NoDup (seen values : list string) : NoDup (distinctAfter seen values).
Proof.
  revert seen. induction values as [|value rest IH]; intros seen; simpl.
  - constructor.
  - destruct (existsb (String.eqb value) seen); [apply IH | ].
    apply NoDup_cons_2; [ | apply IH].
    rewrite list_elem_of_In, distinctAfter_In. simpl. tauto.
Qed.

(** X9.  The hydration batches ask for every identifier of the personal
    list exactly once: no batch is empty, none holds more than 100
    identifiers, no identifier occurs twice across the batches, the
    identifiers asked for are those of the entries, and each request
    limits its results to the size of its batch. *)
Theorem hydration_batches_are_bounded_and_disjoint
    (normalizedVisualNovelEntries : list VisualNovelDatabaseEntry) :
  let identifierChunks :=
    chunkArray (distinctVisualNovelIdentifiers normalizedVisualNovelEntries) 100 in
  Forall (fun identifierChunk => (1 <= length identifierChunk <= 100)%nat) identifierChunks
  /\ NoDup (concat identifierChunks)
  /\ (forall identifier,
         In identifier (concat identifierChunks)
         <-> exists userListEntry,
               In userListEntry normalizedVisualNovelEntries
               /\ hydrationIdentifier (id userListEntry) = identifier)
  /\ Forall (fun identifierChunk =>
               maxResults (hydrationRequest identifierChunk)
               = Z.of_nat (length identifierChunk))
            identifierChunks.
Proof.
  intros identifierChunks. subst identifierChunks.
  rewrite chunkArray_concat.
  split; [ | split; [ | split]].
  - apply (chunkArray_lengths
             (distinctVisualNovelIdentifiers normalizedVisualNovelEntries) 100). lia.
  - apply distinctAfter_NoDup.
  - intros identifier. unfold distinctVisualNovelIdentifiers.
    rewrite distinct_In, in_map_iff. split.
    + intros (userListEntry & Hkey & Hin). exists userListEntry. split; assumption.
    + intros (userListEntry & Hin & Hkey). exists userListEntry. split; assumption.
  - apply Forall_forall. intros identifierChunk _. reflexivity.
Qed.

(** *** Client-side sorting *)

Lemma stableSort_constant {A} (items : list A) : stableSort (fun _ _ => 0) items = items.
Proof.
  induction items as [|x rest IH]; simpl; [reflexivity | ].
  rewrite IH. destruct rest; reflexivity.
Qed.

Lemma insertSorted_sorted {A} (compare : A -> A -> Z) (key : A -> Z) (x : A)
    (sorted : list A) :
  (forall a b, (compare a b <=? 0) = (key a <=? key b)) ->
  StronglySorted (fun a b => key a <= key b) sorted ->
  StronglySorted (fun a b => key a <= key b) (insertSorted compare x sorted).
Proof.
  intros Hcompare. induction sorted as [|y rest IH]; intros Hsorted; simpl.
  - repeat constructor.
  - apply StronglySorted_inv in Hsorted. destruct Hsorted as [Hrest Hhead].
    rewrite Hcompare. destruct (Z.leb_spec (key x) (key y)) as [Hle | Hgt].
    + constructor; [constructor; assumption | ].
      constructor; [exact Hle | ].
      apply (Forall_impl _ _ _ Hhead). intros other Hother. lia.
    + constructor; [apply IH; exact Hrest | ].
      apply (Permutation_Forall (Permutation_sym (insertSorted_Permutation compare x rest))).
      constructor; [lia | exact Hhead].
Qed.

Lemma stableSort_sorted {A} (compare : A -> A -> Z) (key : A -> Z) (items : list A) :
  (forall a b, (compare a b <=? 0) = (key a <=? key b)) ->
  StronglySorted (fun a b => key a <= key b) (stableSort compare items).
Proof.
  intros Hcompare. induction items as [|x rest IH]; simpl.
  - constructor.
  - apply insertSorted_sorted; assumption.
Qed.

Lemma StronglySorted_snoc {A} (R : A -> A -> Prop) (items : list A) (last : A) :
  StronglySorted R items ->
  Forall (fun other => R other last) items ->
  StronglySorted R (items ++ [last]).
Proof.
  induction items as [|x rest IH]; intros Hsorted Hlast; simpl.
  - repeat constructor.
  - apply StronglySorted_inv in Hsorted. destruct Hsorted as [Hrest Hhead].
    apply Forall_cons_iff in Hlast. destruct Hlast as [Hx Hothers].
    constructor; [apply IH; assumption | ].
    apply Forall_app. split; [exact Hhead | constructor; [exact Hx | constructor]].
Qed.

Lemma StronglySorted_rev {A} (R : A -> A -> Prop) (items : list A) :
  StronglySorted R items -> StronglySorted (fun a b => R b a) (rev items).
Proof.
  induction items as [|x rest IH]; intros Hsorted; simpl.
  - constructor.
  - apply StronglySorted_inv in Hsorted. destruct Hsorted as [Hrest Hhead].
    apply StronglySorted_snoc; [apply IH; exact Hrest | ].
    apply Forall_rev. exact Hhead.
Qed.

Section WithCollation.
Variable localeCompareNumericBase : string -> string -> Z.
Variable localeCompare : string -> string -> Z.

(** X10.  Sorting the entries client-side never loses or duplicates an
    entry.  With the default field the list is returned as it is.  The
    fields [released] and [votecount] have no comparator: ascending
    leaves the order as it is and descending reverses it.  With the field
    [rating] the result is in order of rating, entries without a rating
    counting as -1: non-decreasing when ascending, non-increasing when
    descending. *)
Theorem client_side_sort_orders_by_rating
    (entriesToSort : list VisualNovelDatabaseEntry) (sortConfiguration : ListSortState) :
  let sorted :=
    sortVisualNovelEntries localeCompareNumericBase localeCompare
      entriesToSort sortConfiguration in
  Permutation sorted entriesToSort
  /\ (field sortConfiguration = SortDefault -> sorted = entriesToSort)
  /\ (field sortConfiguration = SortReleased \/ field sortConfiguration = SortVotecount ->
      sorted = match direction sortConfiguration with
               | Asc => entriesToSort
               | Desc => rev entriesToSort
               end)
  /\ (field sortConfiguration = SortRating ->
      match direction sortConfiguration with
      | Asc => StronglySorted (fun a b => ratingKey a <= ratingKey b) sorted
      | Desc => StronglySorted (fun a b => ratingKey b <= ratingKey a) sorted
      end).
Proof.
  intros sorted. subst sorted.
  split; [apply sortVisualNovelEntries_Permutation | ].
  split; [ | split].
  - intros Hfield. unfold sortVisualNovelEntries. rewrite Hfield. reflexivity.
  - intros Hfield. unfold sortVisualNovelEntries.
    assert (Hconstant : compareEntries localeCompareNumericBase localeCompare sortConfiguration
                        = fun _ _ => 0).
    { unfold compareEntries. destruct Hfield as [-> | ->]; reflexivity. }
    rewrite Hconstant, stableSort_constant.
    destruct Hfield as [-> | ->]; reflexivity.
  - intros Hfield. unfold sortVisualNovelEntries. rewrite Hfield.
    assert (Hcompare : forall a b,
               (compareEntries localeCompareNumericBase localeCompare sortConfiguration a b
                <=? 0)
               = (ratingKey a <=? ratingKey b)).
    { intros a b. unfold compareEntries, ratingKey. rewrite Hfield.
      destruct (Z.leb_spec (default (-1) (rating a) - default (-1) (rating b)) 0);
        destruct (Z.leb_spec (default (-1) (rating a)) (default (-1) (rating b)));
        first [reflexivity | lia]. }
    destruct (direction sortConfiguration).
    + apply stableSort_sorted. exact Hcompare.
    + apply (StronglySorted_rev (fun a b => ratingKey a <= ratingKey b)).
      apply stableSort_sorted. exact Hcompare.
Qed.

End WithCollation.

End MoreListFacts.

(** ** Failed fetches, the status map and the join keys *)

Section MoreFlowFacts.
Import ListView ListViewMore.

(** X11.  A fetch that fails leaves the results in the state: the
    entries, the page counter, [hasAdditionalResults], the active
    descriptor and the membership set are as before, and the message of
    the failure is stored.  A message that is not empty is put out in
    place of the list: after a next-page load has failed and the
    component has rendered, neither the list nor the sentinel is
    mounted, so that a scroll trigger starts nothing, although the state
    itself is ready for the next page.  The start of the next fetch
    clears the message. *)
Theorem failed_fetch_shows_the_error_in_place_of_the_list
    (session : Session) (flow following : DataFetch) (message : string) :
  let failed := settleDataFetch flow (Threw message) (view session) in
  let failedRound :=
    run session [ScrollTrigger; Render;
                 DataFetchSettles (length (dataFetches session)) (Threw message);
                 Render] in
  (visualNovelDatabaseEntries failed = visualNovelDatabaseEntries (view session)
   /\ currentResultPage failed = currentResultPage (view session)
   /\ hasAdditionalResults failed = hasAdditionalResults (view session)
   /\ activeQueryDescriptor failed = activeQueryDescriptor (view session)
   /\ userListIdentifierSet failed = userListIdentifierSet (view session)
   /\ networkErrorMessage failed = Some message)
  /\ (message <> "" -> showsErrorMessage failed = true /\ showsList failed = false)
  /\ (awaitsScroll session -> message <> "" ->
      visualNovelDatabaseEntries (view failedRound)
      = visualNovelDatabaseEntries (view session)
      /\ networkErrorMessage (view failedRound) = Some message
      /\ rendered failedRound = view failedRound
      /\ readyForNextPage (view failedRound)
      /\ showsList (view failedRound) = false
      /\ step failedRound ScrollTrigger = failedRound)
  /\ networkErrorMessage (startDataFetch following failed) = None.
Proof.
  intros failed failedRound.
  assert (Hshown : message <> "" -> showsErrorMessage failed = true).
  { intros Hfilled. subst failed. unfold showsErrorMessage, settleDataFetch.
    destruct (shouldAppendResults flow); simpl;
      (destruct (String.eqb_spec message ""); [contradiction | reflexivity]). }
  split; [ | split; [ | split]].
  - subst failed. unfold settleDataFetch.
    destruct (shouldAppendResults flow); repeat split.
  - intros Hfilled. split; [exact (Hshown Hfilled) | ].
    unfold showsList. rewrite (Hshown Hfilled). apply andb_false_r.
  - intros Hawaits Hfilled.
    assert (Hround :
              failedRound
              = {| view := settleDataFetch (nextPageFlow (view session)) (Threw message)
                             (startDataFetch (nextPageFlow (view session)) (view session));
                   rendered := settleDataFetch (nextPageFlow (view session)) (Threw message)
                                 (startDataFetch (nextPageFlow (view session)) (view session));
                   dataFetches := dataFetches session ++ [nextPageFlow (view session)];
                   lifecycleCancelled := lifecycleCancelled session |}).
    { subst failedRound. unfold run. cbn [fold_left].
      rewrite (scroll_starts_next_page _ Hawaits). simpl.
      rewrite list_lookup_middle by reflexivity. reflexivity. }
    destruct Hawaits as (Hrendered & Hlist & Hsearch & Hidle & Hno_page & Hmore).
    assert (Hhidden :
              showsList (settleDataFetch (nextPageFlow (view session)) (Threw message)
                           (startDataFetch (nextPageFlow (view session)) (view session)))
              = false).
    { unfold showsList, showsErrorMessage. simpl.
      destruct (String.eqb_spec message ""); [contradiction | ]. apply andb_false_r. }
    rewrite Hround.
    split; [reflexivity | ]. split; [reflexivity | ]. split; [reflexivity | ].
    split; [repeat split; simpl; assumption | ].
    split; [exact Hhidden | ].
    apply scroll_blocked_by_last_render. left. exact Hhidden.
  - subst failed. unfold startDataFetch. destruct (shouldAppendResults following); reflexivity.
Qed.

Lemma component_normalize_prefixed (rawIdentifier : option Json) (normalized : string) :
  ListView.normalizeVisualNovelIdentifier rawIdentifier = Some normalized ->
  startsWith normalized "v" = true.
Proof.
  unfold ListView.normalizeVisualNovelIdentifier.
  destruct (normalizeEntryIdentifier rawIdentifier) as [entryIdentifier|]; [ | discriminate].
  destruct (String.eqb entryIdentifier ""); [discriminate | ].
  intros Hfound. injection Hfound as <-.
  destruct (startsWith (toLowerCase entryIdentifier) "v") eqn:Hprefixed;
    [exact Hprefixed | apply startsWith_v_cons].
Qed.

Lemma derived_status_in_range (rawLabels : option Json) (derived : Z) :
  deriveStatusLabelFromUnknownLabels rawLabels = Some derived -> 1 <= derived <= 6.
Proof.
  unfold deriveStatusLabelFromUnknownLabels.
  destruct rawLabels as [[| | | | labelItems |]|]; try discriminate.
  intros Hfound. apply find_status_least in Hfound. tauto.
Qed.

Lemma recordUserListStatus_wellFormed (statuses : gmap string Z) (userListEntry : Json) :
  wellFormedStatuses statuses ->
  wellFormedStatuses (recordUserListStatus statuses userListEntry).
Proof.
  intros Hstatuses. unfold recordUserListStatus.
  set (identifierFromVn :=
         match property userListEntry "vn" with
         | Some (JObject vnFields) =>
             ListView.normalizeVisualNovelIdentifier (assoc "id" vnFields)
         | _ => None
         end).
  assert (Hvn : forall identifier, identifierFromVn = Some identifier ->
                                   startsWith identifier "v" = true).
  { subst identifierFromVn. intros identifier.
    destruct (property userListEntry "vn") as [[| | | | |vnFields]|]; try discriminate.
    apply component_normalize_prefixed. }
  destruct identifierFromVn as [fromVn|];
    [ | destruct (ListView.normalizeVisualNovelIdentifier (property userListEntry "id"))
          as [fromEntry|] eqn:Hentry; [ | exact Hstatuses] ];
    (destruct (deriveStatusLabelFromUnknownLabels (property userListEntry "labels"))
       as [statusLabel|] eqn:Hderived; [ | exact Hstatuses]);
    (match goal with
     | |- wellFormedStatuses (if String.eqb ?identifier "" then _ else _) =>
         destruct (String.eqb identifier ""); [exact Hstatuses | ];
         intros key found Hfound;
         destruct (decide (identifier = key)) as [<- | Hother];
         [ rewrite lookup_insert_eq in Hfound; injection Hfound as <-;
           split; [exact (derived_status_in_range _ _ Hderived) | ]
         | rewrite lookup_insert_ne in Hfound by exact Hother;
           exact (Hstatuses key found Hfound) ]
     end).
  - apply Hvn. reflexivity.
  - exact (component_normalize_prefixed _ _ Hentry).
Qed.

(** X12.  Whatever the entries of the personal list look like, the status
    map built from them holds only statuses from 1 to 6, under keys that
    start with [v]; an entry is in the map only if one of the list entries
    has a status label. *)
Theorem status_map_holds_statuses_under_prefixed_keys
    (accumulatedUserListEntries : list Json) (key : string) (statusLabel : Z) :
  buildUserListStatuses accumulatedUserListEntries !! key = Some statusLabel ->
  1 <= statusLabel <= 6
  /\ startsWith key "v" = true
  /\ exists userListEntry,
       In userListEntry accumulatedUserListEntries
       /\ deriveStatusLabelFromUnknownLabels (property userListEntry "labels") <> None.
Proof.
  unfold buildUserListStatuses. intros Hfound.
  assert (Hgeneral : forall entries statuses,
             wellFormedStatuses statuses ->
             fold_left recordUserListStatus entries statuses !! key = Some statusLabel ->
             (1 <= statusLabel <= 6 /\ startsWith key "v" = true)
             /\ (statuses !! key = Some statusLabel
                 \/ exists userListEntry,
                      In userListEntry entries
                      /\ deriveStatusLabelFromUnknownLabels (property userListEntry "labels")
                         <> None)).
  { induction entries as [|userListEntry rest IH]; intros statuses Hstatuses Hlookup.
    - simpl in Hlookup. split; [exact (Hstatuses _ _ Hlookup) | left; exact Hlookup].
    - simpl in Hlookup.
      destruct (IH _ (recordUserListStatus_wellFormed _ userListEntry Hstatuses) Hlookup)
        as [Hshape [Hrecorded | (later & Hin & Hlater)]].
      + split; [exact Hshape | ].
        destruct (deriveStatusLabelFromUnknownLabels (property userListEntry "labels"))
          as [derived|] eqn:Hderived.
        * right. exists userListEntry. split; [left; reflexivity | ].
          rewrite Hderived. discriminate.
        * left. unfold recordUserListStatus in Hrecorded. rewrite Hderived in Hrecorded.
          destruct (match property userListEntry "vn" with
                    | Some (JObject vnFields) =>
                        ListView.normalizeVisualNovelIdentifier (assoc "id" vnFields)
                    | _ => None
                    end); [exact Hrecorded | ].
          destruct (ListView.normalizeVisualNovelIdentifier (property userListEntry "id"));
            exact Hrecorded.
      + split; [exact Hshape | ]. right. exists later. split; [right; exact Hin | exact Hlater]. }
  destruct (Hgeneral accumulatedUserListEntries ∅) as [[Hrange Hkey] [Hempty | Hentry]].
  - intros anyKey anyStatus Hlookup. rewrite lookup_empty in Hlookup. discriminate.
  - exact Hfound.
  - rewrite lookup_empty in Hempty. discriminate.
  - split; [exact Hrange | split; [exact Hkey | exact Hentry]].
Qed.

(** X13.  For an identifier given as text without white space around it,
    the keys of the component agree with the canonical identifier of the
    client: the key of the status map, the key a card looks up, and the
    member that the membership-set fetch records are all the client's
    normal form, whatever the case of the text and whether or not it has
    the prefix. *)
Theorem join_keys_agree_with_client_normal_form (rawIdentifier : string) :
  trim rawIdentifier = rawIdentifier ->
  rawIdentifier <> "" ->
  let canonical := Client.normalizeVisualNovelIdentifier rawIdentifier in
  ListView.normalizeVisualNovelIdentifier (Some (JString rawIdentifier)) = Some canonical
  /\ cardIdentifier rawIdentifier = canonical
  /\ Client.identifierOfRawEntry (JObject [("id", JString rawIdentifier)]) = Some canonical
  /\ cardIdentifier canonical = canonical.
Proof.
  intros Htrimmed Hpresent canonical. subst canonical.
  rewrite client_normalize_unfold, Htrimmed.
  assert (Hnonblank : String.eqb rawIdentifier "" = false)
    by (apply string_eqb_false_iff; exact Hpresent).
  split; [ | split; [ | split]].
  - unfold ListView.normalizeVisualNovelIdentifier, normalizeEntryIdentifier.
    rewrite Htrimmed, Hnonblank. simpl. rewrite Hnonblank.
    destruct (startsWith (toLowerCase rawIdentifier) "v"); reflexivity.
  - unfold cardIdentifier.
    destruct (startsWith (toLowerCase rawIdentifier) "v"); reflexivity.
  - unfold Client.identifierOfRawEntry. simpl. rewrite Htrimmed, Hnonblank. simpl.
    destruct (startsWith (toLowerCase rawIdentifier) "v"); reflexivity.
  - unfold cardIdentifier.
    destruct (startsWith (toLowerCase rawIdentifier) "v") eqn:Hprefixed.
    + rewrite toLowerCase_idempotent, Hprefixed. reflexivity.
    + change (toLowerCase (String "v" (toLowerCase rawIdentifier)))
        with (String "v" (toLowerCase (toLowerCase rawIdentifier))).
      rewrite startsWith_v_cons, toLowerCase_idempotent. reflexivity.
Qed.

End MoreFlowFacts.

(** ** Runs of the list component *)

Section MoreFlowRuns.
Import ListView ListViewMore.

Lemma client_side_sort_orders_by_rating_witness :
  StronglySorted (fun a b => ratingKey a <= ratingKey b)
    (sortVisualNovelEntries noCompare noCompare ratedEntries byRatingAscending).
Proof.
  exact (proj2 (proj2 (proj2
           (client_side_sort_orders_by_rating noCompare noCompare
              ratedEntries byRatingAscending)))
           eq_refl).
Defined.

Lemma failed_fetch_shows_the_error_in_place_of_the_list_witness :
  let failedRound :=
    run firstPageLoaded
      [ScrollTrigger; Render; DataFetchSettles 1 (Threw "Failed to fetch"); Render] in
  networkErrorMessage (view failedRound) = Some "Failed to fetch"
  /\ readyForNextPage (view failedRound)
  /\ step failedRound ScrollTrigger = failedRound.
Proof.
  assert (Hawaits : awaitsScroll firstPageLoaded) by (repeat split).
  assert (Hfilled : "Failed to fetch" <> "") by discriminate.
  destruct (proj1 (proj2 (proj2
              (failed_fetch_shows_the_error_in_place_of_the_list firstPageLoaded
                 (nextPageFlow (view firstPageLoaded))
                 (nextPageFlow (view firstPageLoaded)) "Failed to fetch")))
              Hawaits Hfilled)
    as (_ & Hmessage & _ & Hready & _ & Hnothing).
  split; [exact Hmessage | ]. split; [exact Hready | exact Hnothing].
Defined.

Lemma status_map_holds_statuses_under_prefixed_keys_witness :
  buildUserListStatuses [playingEntry] !! "v17" = Some 2
  /\ 1 <= 2 <= 6.
Proof.
  assert (Hfound : buildUserListStatuses [playingEntry] !! "v17" = Some 2)
    by (vm_compute; reflexivity).
  split; [exact Hfound | ].
  exact (proj1 (status_map_holds_statuses_under_prefixed_keys [playingEntry] "v17" 2 Hfound)).
Defined.

Lemma join_keys_agree_with_client_normal_form_witness :
  cardIdentifier "V17" = Client.normalizeVisualNovelIdentifier "V17".
Proof.
  assert (Htrimmed : trim "V17" = "V17") by reflexivity.
  assert (Hfilled : "V17" <> "") by discriminate.
  exact (proj1 (proj2 (join_keys_agree_with_client_normal_form "V17" Htrimmed Hfilled))).
Defined.

End MoreFlowRuns.

(** ** The tokens of a description *)

Section MoreMarkupFacts.
Import Markup MarkupText.

Lemma append_cons (c : ascii) (a b : string) : String c a ++ b = String c (a ++ b).
Proof. reflexivity. Qed.

Lemma append_empty_l (text : string) : "" ++ text = text.
Proof. reflexivity. Qed.

Ltac unfold_append := repeat (rewrite ?append_cons, ?append_empty_l; simpl).

Lemma append_empty_r (text : string) : text ++ "" = text.
Proof.
  induction text as [|c rest IH]; unfold_append; [reflexivity | rewrite IH; reflexivity].
Qed.

Lemma append_assoc (a b c : string) : (a ++ b) ++ c = a ++ (b ++ c).
Proof.
  induction a as [|x rest IH]; unfold_append; [reflexivity | rewrite IH; reflexivity].
Qed.

Lemma length_append (a b : string) :
  String.length (a ++ b) = (String.length a + String.length b)%nat.
Proof.
  induction a as [|x rest IH]; unfold_append; [reflexivity | rewrite IH; reflexivity].
Qed.

Lemma concat_empty_cons (first : string) (others : list string) :
  String.concat "" (first :: others) = first ++ String.concat "" others.
Proof.
  destruct others as [|second more]; simpl; [rewrite append_empty_r | ]; reflexivity.
Qed.

Lemma joinSegments_cons (piece : Segment) (pieces : list Segment) :
  joinSegments (piece :: pieces) = segmentText piece ++ joinSegments pieces.
Proof. unfold joinSegments. simpl map. apply concat_empty_cons. Qed.

Lemma joinSegments_flush (pending : string) (pieces : list Segment) :
  joinSegments (flush pending ++ pieces)%list = pending ++ joinSegments pieces.
Proof.
  unfold flush. destruct pending as [|c rest]; simpl; [reflexivity | ].
  change (Plain (String c rest) :: pieces) with ([Plain (String c rest)] ++ pieces)%list.
  simpl. rewrite joinSegments_cons. reflexivity.
Qed.

Lemma substring_whole (text : string) (count : nat) :
  (String.length text <= count)%nat -> substring 0 count text = text.
Proof.
  revert count. induction text as [|c rest IH]; intros count Hcount.
  - destruct count; reflexivity.
  - destruct count as [|count]; simpl in *; [lia | ]. rewrite IH by lia. reflexivity.
Qed.

Lemma substring_from (text : string) (start count : nat) :
  (String.length text <= start + count)%nat ->
  substring start count text = dropChars start text.
Proof.
  revert start. induction text as [|c rest IH]; intros start Hcount.
  - destruct start, count; reflexivity.
  - destruct start as [|start].
    + simpl dropChars. apply substring_whole. simpl in *. lia.
    + simpl. apply IH. simpl in Hcount. lia.
Qed.

Lemma substring_split (text : string) (count : nat) :
  substring 0 count text ++ dropChars count text = text.
Proof.
  revert count. induction text as [|c rest IH]; intros count.
  - destruct count; reflexivity.
  - destruct count as [|count]; unfold_append; [reflexivity | rewrite IH; reflexivity].
Qed.

Lemma dropChars_append (leading rest : string) :
  dropChars (String.length leading) (leading ++ rest) = rest.
Proof. induction leading as [|c others IH]; unfold_append; [reflexivity | exact IH]. Qed.

Lemma length_substring_prefix (text : string) (count : nat) :
  (count <= String.length text)%nat -> String.length (substring 0 count text) = count.
Proof.
  revert count. induction text as [|c rest IH]; intros count Hcount.
  - destruct count; simpl in *; [reflexivity | lia].
  - destruct count as [|count]; simpl in *; [reflexivity | rewrite IH by lia; reflexivity].
Qed.

Lemma length_toLowerCase (text : string) :
  String.length (toLowerCase text) = String.length text.
Proof. induction text as [|c rest IH]; simpl; [reflexivity | rewrite IH; reflexivity]. Qed.

Lemma prefix_length (leading text : string) :
  String.prefix leading text = true -> (String.length leading <= String.length text)%nat.
Proof.
  revert text. induction leading as [|c rest IH]; intros text Hprefix; simpl; [lia | ].
  destruct text as [|d others]; simpl in *; [discriminate | ].
  destruct (ascii_dec c d); [ | discriminate].
  specialize (IH _ Hprefix). lia.
Qed.

Lemma untilBracket_split (text : string) :
  exists remainder,
    text = untilBracket text ++ remainder
    /\ (remainder = "" \/ exists later, remainder = String "]" later).
Proof.
  induction text as [|c rest (remainder & Hsplit & Hremainder)]; simpl.
  - exists "". split; [reflexivity | left; reflexivity].
  - destruct (Ascii.eqb_spec c "]") as [-> | Hother].
    + exists (String "]" rest). split; [reflexivity | right; eauto].
    + exists remainder. unfold_append.
      split; [rewrite <- Hsplit; reflexivity | exact Hremainder].
Qed.

(** A matched argument, with its closing bracket, opens the text it was
    matched in. *)
Lemma matchArgument_prefix (afterName argument : string) :
  matchArgument afterName = Some argument ->
  exists suffix, afterName = argument ++ String "]" suffix.
Proof.
  unfold matchArgument. destruct afterName as [|c rest]; [discriminate | ].
  destruct (Ascii.eqb_spec c "]") as [-> | Hnot_close].
  - intros Hfound. injection Hfound as <-. exists rest. reflexivity.
  - destruct (Ascii.eqb_spec c "=") as [-> | Hnot_equal]; [ | discriminate].
    destruct (String.length (untilBracket rest) =? 0)%nat; [discriminate | ].
    destruct (startsWith _ "]" && _) eqn:Hclosed; [ | discriminate].
    intros Hfound. injection Hfound as <-.
    apply andb_prop in Hclosed. destruct Hclosed as [_ Hshorter].
    apply Nat.ltb_lt in Hshorter.
    destruct (untilBracket_split rest) as (remainder & Hsplit & [-> | (later & ->)]).
    + rewrite append_empty_r in Hsplit. rewrite <- Hsplit in Hshorter. lia.
    + exists later. unfold_append. rewrite <- Hsplit. reflexivity.
Qed.

Lemma matchNames_prefix (names : list string) (afterSlash body : string) :
  matchNames names afterSlash = Some body ->
  exists suffix, afterSlash = body ++ String "]" suffix.
Proof.
  induction names as [|name others IH]; simpl; [discriminate | ].
  destruct (startsWithIgnoringCase afterSlash name) eqn:Hname; [ | exact IH].
  destruct (matchArgument _) as [argument|] eqn:Hargument; [ | exact IH].
  intros Hfound. injection Hfound as <-.
  apply matchArgument_prefix in Hargument. destruct Hargument as (suffix & Hsplit).
  exists suffix. rewrite append_assoc, <- Hsplit.
  rewrite (substring_from afterSlash (String.length name) (String.length afterSlash)) by lia.
  symmetry. apply substring_split.
Qed.

Lemma matchToken_prefix (text tokenText : string) (tokenBody : option string) :
  matchToken text = Some (tokenText, tokenBody) ->
  exists suffix, text = tokenText ++ suffix /\ (1 <= String.length tokenText)%nat.
Proof.
  unfold matchToken. destruct text as [|c afterBracket]; [discriminate | ].
  destruct (Ascii.eqb_spec c "[") as [-> | Hother]; [ | discriminate].
  set (slash := if startsWith afterBracket "/" then "/" else "").
  assert (Hslash : afterBracket
                   = slash ++ substring (String.length slash) (String.length afterBracket)
                                        afterBracket).
  { subst slash. destruct (startsWith afterBracket "/") eqn:Hstarts.
    - destruct afterBracket as [|d rest]; [discriminate | ].
      unfold startsWith in Hstarts. cbn [String.prefix] in Hstarts.
      destruct (ascii_dec "/" d) as [<- | ]; [ | discriminate].
      unfold_append. rewrite substring_whole by lia. reflexivity.
    - unfold_append. rewrite substring_whole by lia. reflexivity. }
  destruct (matchNames _ _) as [body|] eqn:Hbody.
  - intros Hfound. injection Hfound as <- _.
    apply matchNames_prefix in Hbody. destruct Hbody as (suffix & Hsplit).
    exists suffix. split; [ | unfold_append; lia].
    unfold_append. f_equal. rewrite Hslash at 1. rewrite Hsplit.
    rewrite !append_assoc. reflexivity.
  - destruct (startsWithIgnoringCase (String "[" afterBracket) "[br]") eqn:Hbreak;
      [ | discriminate].
    intros Hfound. injection Hfound as <- _.
    exists (dropChars 4 (String "[" afterBracket)).
    split; [symmetry; exact (substring_split (String "[" afterBracket) 4) | ].
    unfold startsWithIgnoringCase, startsWith in Hbreak.
    apply prefix_length in Hbreak. rewrite length_toLowerCase in Hbreak.
    pose proof (length_substring_prefix (String "[" afterBracket) 4 Hbreak) as Hlength.
    simpl in Hlength |- *. lia.
Qed.

Lemma segments_join (text : string) :
  forall (skip : nat) (pending : string),
    (skip <= String.length text)%nat ->
    joinSegments (segments text skip pending) = pending ++ dropChars skip text.
Proof.
  induction text as [|c rest IH]; intros skip pending Hskip.
  - simpl in Hskip. replace skip with 0%nat by lia. simpl.
    rewrite <- (app_nil_r (flush pending)), joinSegments_flush. reflexivity.
  - destruct skip as [|remaining].
    + cbn [segments dropChars].
      destruct (matchToken (String c rest)) as [[tokenText tokenBody]|] eqn:Htoken.
      * apply matchToken_prefix in Htoken. destruct Htoken as (suffix & Hsplit & Hlength).
        destruct tokenText as [|first others]; [simpl in Hlength; lia | ].
        simpl in Hsplit. injection Hsplit as <- ->.
        rewrite joinSegments_flush, joinSegments_cons. simpl segmentText.
        replace (String.length (String c others) - 1)%nat
          with (String.length others) by (simpl; lia).
        rewrite IH by (rewrite length_append; lia).
        rewrite dropChars_append. unfold_append. reflexivity.
      * rewrite IH by lia. simpl. rewrite append_assoc. reflexivity.
    + simpl. apply IH. simpl in Hskip. lia.
Qed.

Lemma flush_cut (pending : string) : Forall properPiece (flush pending).
Proof.
  unfold flush. destruct pending; simpl; repeat constructor. discriminate.
Qed.

Lemma matchToken_bracket (text tokenText : string) (tokenBody : option string) :
  matchToken text = Some (tokenText, tokenBody) -> startsWith tokenText "[" = true.
Proof.
  unfold matchToken. destruct text as [|c afterBracket]; [discriminate | ].
  destruct (Ascii.eqb_spec c "[") as [-> | Hother]; [ | discriminate].
  destruct (matchNames _ _) as [body|].
  - intros Hfound. injection Hfound as <- _. unfold_append.
    unfold startsWith. cbn [String.prefix]. destruct (_ ++ _); reflexivity.
  - destruct (startsWithIgnoringCase _ "[br]"); [ | discriminate].
    intros Hfound. injection Hfound as <- _.
    unfold startsWith. cbn [String.prefix substring].
    destruct (substring 0 3 afterBracket); reflexivity.
Qed.

Lemma segments_cut (text : string) :
  forall (skip : nat) (pending : string), Forall properPiece (segments text skip pending).
Proof.
  induction text as [|c rest IH]; intros skip pending; cbn [segments]; [apply flush_cut | ].
  destruct skip as [|remaining]; [ | apply IH].
  destruct (matchToken (String c rest)) as [[tokenText tokenBody]|] eqn:Htoken; [ | apply IH].
  apply Forall_app. split; [apply flush_cut | ].
  constructor; [ | apply IH].
  exact (matchToken_bracket _ _ _ Htoken).
Qed.

(** X14.  The scan of a description loses nothing: the texts between the
    tokens and the tokens, put together in order, are the description
    again; no text piece is empty and every token found starts with an
    opening bracket. *)
Theorem segments_cover_the_description (descriptionText : string) :
  joinSegments (segments descriptionText 0 "") = descriptionText
  /\ Forall properPiece (segments descriptionText 0 "").
Proof.
  split; [apply (segments_join descriptionText 0 ""); lia | apply segments_cut].
Qed.

Section WithUrlParser.
Variable parseUrl : string -> option ParsedUrl.

Lemma segments_plain (text : string) :
  bracketFree text = true ->
  forall pending, segments text 0 pending = flush (pending ++ text).
Proof.
  induction text as [|c rest IH]; intros Hfree pending.
  - simpl. rewrite append_empty_r. reflexivity.
  - simpl in Hfree. apply andb_prop in Hfree. destruct Hfree as [Hc Hrest].
    cbn [segments]. unfold matchToken.
    destruct (Ascii.eqb c "["); [discriminate | ].
    rewrite (IH Hrest). rewrite append_assoc. reflexivity.
Qed.

(** X15.  A description without an opening bracket is rendered as it is:
    as one text node holding the whole description, or as nothing when the
    description is empty. *)
Theorem plain_description_is_rendered_unchanged (descriptionText : string) :
  bracketFree descriptionText = true ->
  renderVndbDescription parseUrl descriptionText
  = match descriptionText with
    | EmptyString => []
    | _ => [Text descriptionText]
    end.
Proof.
  intros Hfree. unfold renderVndbDescription.
  rewrite (segments_plain _ Hfree ""). simpl.
  destruct descriptionText; reflexivity.
Qed.

End WithUrlParser.

Lemma plain_description_is_rendered_unchanged_witness :
  renderVndbDescription sampleParseUrl "A quiet town by the sea."
  = [Text "A quiet town by the sea."].
Proof.
  apply (plain_description_is_rendered_unchanged sampleParseUrl "A quiet town by the sea.").
  reflexivity.
Defined.

End MoreMarkupFacts.

(** ** The search form *)

Section SearchFormFacts.
Import ListView SearchForm.

Lemma includesText_In (values : list string) (value : string) :
  includesText values value = true <-> In value values.
Proof.
  unfold includesText. rewrite existsb_exists. split.
  - intros (found & Hin & Hsame). apply String.eqb_eq in Hsame. subst. exact Hin.
  - intros Hin. exists value. split; [exact Hin | apply String.eqb_refl].
Qed.

Lemma includesText_app (first second : list string) (value : string) :
  includesText (first ++ second)%list value
  = includesText first value || includesText second value.
Proof. unfold includesText. apply existsb_app. Qed.

Lemma includesText_filter_other (values : list string) (removed value : string) :
  includesText (List.filter (fun current => negb (String.eqb current removed)) values) value
  = negb (String.eqb value removed) && includesText values value.
Proof.
  induction values as [|current rest IH]; simpl; [rewrite andb_false_r; reflexivity | ].
  destruct (String.eqb_spec current removed) as [Hremoved | Hkept]; simpl.
  - rewrite IH, Hremoved. destruct (String.eqb value removed); reflexivity.
  - rewrite IH. destruct (String.eqb_spec value current) as [Hsame | Hdifferent]; simpl.
    + rewrite Hsame. apply String.eqb_neq in Hkept. rewrite Hkept. reflexivity.
    + reflexivity.
Qed.

Lemma filter_absent (values : list string) (removed : string) :
  ~ In removed values ->
  List.filter (fun current => negb (String.eqb current removed)) values = values.
Proof.
  induction values as [|current rest IH]; intros Habsent; simpl; [reflexivity | ].
  destruct (String.eqb_spec current removed) as [-> | Hkept]; simpl.
  - exfalso. apply Habsent. left. reflexivity.
  - rewrite IH; [reflexivity | ]. intros Hin. apply Habsent. right. exact Hin.
Qed.

(** X16.  Ticking a language in the filter panel flips the selection of
    that language and of no other, and leaves the other filters alone.  A
    selection without repetitions stays so, and ticking a language that
    was not selected twice gives the filters back as they were. *)
Theorem language_toggle_flips_one_selection
    (languageCode : string) (currentFilters : ListFilterState) :
  let toggled := handleLanguageFilterToggle languageCode currentFilters in
  (forall otherCode,
      includesText (languages toggled) otherCode
      = if String.eqb otherCode languageCode
        then negb (includesText (languages currentFilters) languageCode)
        else includesText (languages currentFilters) otherCode)
  /\ originalLanguage toggled = originalLanguage currentFilters
  /\ onlyWithScreenshots toggled = onlyWithScreenshots currentFilters
  /\ onlyWithDescription toggled = onlyWithDescription currentFilters
  /\ (NoDup (languages currentFilters) -> NoDup (languages toggled))
  /\ (includesText (languages currentFilters) languageCode = false ->
      handleLanguageFilterToggle languageCode toggled = currentFilters).
Proof.
  intros toggled. subst toggled. unfold handleLanguageFilterToggle. cbn [languages
    originalLanguage onlyWithScreenshots onlyWithDescription].
  split; [ | split; [reflexivity | split; [reflexivity | split; [reflexivity | split]]]].
  - intros otherCode.
    destruct (includesText (languages currentFilters) languageCode) eqn:Hselected.
    + rewrite includesText_filter_other.
      destruct (String.eqb_spec otherCode languageCode); reflexivity.
    + rewrite includesText_app. unfold includesText at 2. simpl.
      destruct (String.eqb_spec otherCode languageCode) as [-> | Hother].
      * rewrite Hselected. reflexivity.
      * rewrite !orb_false_r. reflexivity.
  - intros Hdistinct.
    destruct (includesText (languages currentFilters) languageCode) eqn:Hselected.
    + apply NoDup_ListNoDup, List.NoDup_filter, NoDup_ListNoDup. exact Hdistinct.
    + apply NoDup_app. split; [exact Hdistinct | split].
      * intros code Hin Hlast. apply list_elem_of_singleton in Hlast. subst code.
        apply list_elem_of_In, includesText_In in Hin. congruence.
      * apply NoDup_singleton.
  - intros Habsent. rewrite Habsent.
    rewrite includesText_app. unfold includesText at 2. simpl.
    rewrite String.eqb_refl, orb_true_r.
    rewrite List.filter_app. simpl. rewrite String.eqb_refl. simpl.
    rewrite app_nil_r, filter_absent.
    + destruct currentFilters; reflexivity.
    + intros Hin. apply includesText_In in Hin. congruence.
Qed.

Lemma language_toggle_flips_one_selection_witness :
  handleLanguageFilterToggle "fr" (handleLanguageFilterToggle "fr" englishAndJapanese)
  = englishAndJapanese.
Proof.
  apply (language_toggle_flips_one_selection "fr" englishAndJapanese).
  reflexivity.
Defined.

Lemma length_firstn_le {A} (count : nat) (items : list A) :
  (length (firstn count items) <= count)%nat.
Proof. rewrite length_firstn. lia. Qed.

Lemma In_firstn {A} (count : nat) (items : list A) (item : A) :
  In item (firstn count items) -> In item items.
Proof.
  intros Hin. rewrite <- (firstn_skipn count items). apply in_or_app. left. exact Hin.
Qed.

Lemma Forall_firstn_of {A} (holds : A -> Prop) (count : nat) (items : list A) :
  Forall holds items -> Forall holds (firstn count items).
Proof.
  rewrite !List.Forall_forall. intros Hall item Hin. apply Hall. exact (In_firstn _ _ _ Hin).
Qed.

Lemma NoDup_firstn {A} (count : nat) (items : list A) :
  NoDup items -> NoDup (firstn count items).
Proof.
  intros Hdistinct. rewrite <- (firstn_skipn count items) in Hdistinct.
  apply NoDup_app in Hdistinct. tauto.
Qed.

Lemma initialRecentSearchTerms_bounded (parsedSearchTerms : option Json) :
  (length (initialRecentSearchTerms parsedSearchTerms) <= 8)%nat
  /\ Forall (fun searchTerm => trim searchTerm <> "")
            (initialRecentSearchTerms parsedSearchTerms).
Proof.
  unfold initialRecentSearchTerms.
  destruct parsedSearchTerms as [[| | | |items|]|]; simpl;
    try (split; [lia | constructor]).
  split; [apply length_firstn_le | ].
  apply Forall_firstn_of. induction items as [|item rest IH]; simpl; [constructor | ].
  destruct item as [| | |text| |]; simpl; try exact IH.
  destruct (String.eqb_spec (trim text) "") as [Hblank | Hfilled]; simpl; [exact IH | ].
  constructor; [exact Hfilled | exact IH].
Qed.

Lemma registerRecentSearchTerm_bounded (searchTerm : string)
    (currentSearchTerms : list string) :
  (length currentSearchTerms <= 8)%nat ->
  Forall (fun existing => trim existing <> "") currentSearchTerms ->
  (length (registerRecentSearchTerm searchTerm currentSearchTerms) <= 8)%nat
  /\ Forall (fun existing => trim existing <> "")
            (registerRecentSearchTerm searchTerm currentSearchTerms).
Proof.
  intros Hlength Hfilled. unfold registerRecentSearchTerm.
  destruct (String.eqb_spec (trim searchTerm) "") as [Hblank | Hterm];
    [split; assumption | ].
  split; [apply length_firstn_le | ].
  apply Forall_firstn_of. constructor.
  - rewrite trim_idempotent. exact Hterm.
  - rewrite List.Forall_forall in Hfilled |- *. intros existing Hin.
    apply List.filter_In in Hin. apply Hfilled. tauto.
Qed.

(** X17.  The list of recent searches never holds more than eight terms
    and never a blank one: whatever the browser has stored and whichever
    searches are submitted, in any order. *)
Theorem recent_searches_stay_bounded
    (parsedSearchTerms : option Json) (searchTerms : list string) :
  let recent := registerAll searchTerms (initialRecentSearchTerms parsedSearchTerms) in
  (length recent <= 8)%nat /\ Forall (fun searchTerm => trim searchTerm <> "") recent.
Proof.
  intros recent. subst recent. unfold registerAll.
  generalize (initialRecentSearchTerms_bounded parsedSearchTerms).
  generalize (initialRecentSearchTerms parsedSearchTerms) as current.
  induction searchTerms as [|searchTerm others IH]; intros current [Hlength Hfilled]; simpl.
  - split; assumption.
  - apply IH. apply registerRecentSearchTerm_bounded; assumption.
Qed.

Lemma NoDup_map_filter {A B} (image : A -> B) (keep : A -> bool) (items : list A) :
  NoDup (map image items) -> NoDup (map image (List.filter keep items)).
Proof.
  rewrite !NoDup_ListNoDup.
  induction items as [|item rest IH]; simpl; intros Hdistinct; [constructor | ].
  apply List.NoDup_cons_iff in Hdistinct. destruct Hdistinct as [Hfresh Hrest].
  destruct (keep item); simpl; [ | exact (IH Hrest)].
  constructor; [ | exact (IH Hrest)].
  intros Hin. apply Hfresh. apply in_map_iff in Hin.
  destruct Hin as (other & Hsame & Hother). apply List.filter_In in Hother.
  apply in_map_iff. exists other. tauto.
Qed.

(** X18.  Registering a search that is not blank puts the trimmed term
    first.  Every term of the new list is the trimmed term or was in the
    list before; the term occurs once up to case, so that a list without
    repetitions up to case stays so; and while the list was not full, no
    other term is lost.  A blank search changes nothing. *)
Theorem recent_search_is_moved_to_front
    (searchTerm : string) (currentSearchTerms : list string) :
  let registered := registerRecentSearchTerm searchTerm currentSearchTerms in
  (trim searchTerm = "" -> registered = currentSearchTerms)
  /\ (trim searchTerm <> "" ->
      head registered = Some (trim searchTerm)
      /\ (forall existing,
             In existing registered ->
             existing = trim searchTerm \/ In existing currentSearchTerms)
      /\ (forall existing,
             In existing (tail registered) ->
             toLowerCase existing <> toLowerCase (trim searchTerm))
      /\ (distinctUpToCase currentSearchTerms -> distinctUpToCase registered)
      /\ ((length currentSearchTerms < 8)%nat ->
          forall existing,
            In existing currentSearchTerms ->
            toLowerCase existing <> toLowerCase (trim searchTerm) ->
            In existing registered)).
Proof.
  intros registered. subst registered. unfold registerRecentSearchTerm. split.
  - intros Hblank. rewrite Hblank. reflexivity.
  - intros Hterm. destruct (String.eqb_spec (trim searchTerm) "") as [Hblank | _];
      [contradiction | ].
    set (others := List.filter _ currentSearchTerms).
    assert (Hothers : forall existing,
               In existing others <->
               In existing currentSearchTerms
               /\ toLowerCase existing <> toLowerCase (trim searchTerm)).
    { intros existing. subst others. rewrite List.filter_In, negb_true_iff.
      rewrite String.eqb_neq. reflexivity. }
    cbn [firstn head tail].
    split; [reflexivity | split; [ | split; [ | split]]].
    + intros existing [<- | Hin]; [left; reflexivity | right].
      apply In_firstn in Hin. apply Hothers in Hin. tauto.
    + intros existing Hin. apply In_firstn in Hin. apply Hothers in Hin. tauto.
    + intros Hdistinct. unfold distinctUpToCase in *.
      change (trim searchTerm :: firstn 7 others)
        with (firstn 8 (trim searchTerm :: others)).
      rewrite <- firstn_map. apply NoDup_firstn. simpl. apply NoDup_cons. split.
      * intros Hin. apply list_elem_of_In, in_map_iff in Hin.
        destruct Hin as (existing & Hsame & Hin).
        apply Hothers in Hin. tauto.
      * subst others. apply NoDup_map_filter. exact Hdistinct.
    + intros Hroom existing Hin Hdifferent. right.
      rewrite firstn_all2.
      * apply Hothers. tauto.
      * subst others. pose proof (List.filter_length_le
          (fun existingSearchTerm =>
             negb (String.eqb (toLowerCase existingSearchTerm)
                              (toLowerCase (trim searchTerm))))
          currentSearchTerms). lia.
Qed.

Lemma recent_search_is_moved_to_front_witness :
  head (registerRecentSearchTerm "  Saya " ["saya"; "Clannad"]) = Some "Saya"
  /\ distinctUpToCase (registerRecentSearchTerm "  Saya " ["saya"; "Clannad"]).
Proof.
  assert (Hterm : trim "  Saya " <> "") by (vm_compute; discriminate).
  assert (Hdistinct : distinctUpToCase ["saya"; "Clannad"]).
  { unfold distinctUpToCase. apply NoDup_ListNoDup. simpl.
    repeat constructor; simpl; intuition discriminate. }
  destruct (proj2 (recent_search_is_moved_to_front "  Saya " ["saya"; "Clannad"]) Hterm)
    as (Hfirst & _ & _ & Hkept & _).
  split; [exact Hfirst | exact (Hkept Hdistinct)].
Defined.

Section WithCollation.
Variables localeCompareNumericBase localeCompare : string -> string -> Z.


End WithCollation.


End SearchFormFacts.

(** ** The application shell *)

Section AppFacts.
Import Client ListView SearchForm App.
Context `{P : Platform}.
Variable asAuthInfo : Json -> VisualNovelAuthInfoResponse.

(** X20.  The permission gate of the application.  Without a session, or
    with a session whose token lacks the [listwrite] permission, adding a
    title and updating a status throw before the client is called:
    nothing is sent and the client state stays as it is.  With the
    permission, the handlers are the client's writes under the token of
    the session, the label of an add being 5 (wishlist) unless given. *)
Theorem list_writes_need_the_listwrite_permission
    (session : option AuthenticatedSession) (visualNovelIdentifier : string)
    (labelIdentifierArgument : option Z) (statusLabelIdentifier : Z) (st : ClientState) :
  let added :=
    handleAddVisualNovelToUserList session visualNovelIdentifier
      labelIdentifierArgument st in
  let updated :=
    handleUpdateVisualNovelUserListStatus session visualNovelIdentifier
      statusLabelIdentifier st in
  (canWrite session = false ->
   snd added = st /\ threw (fst added) /\ snd updated = st /\ threw (fst updated))
  /\ (exchanges (snd added) <> exchanges st -> canWrite session = true)
  /\ (exchanges (snd updated) <> exchanges st -> canWrite session = true)
  /\ (forall activeSession,
         session = Some activeSession ->
         canWrite session = true ->
         added = addVisualNovelToAuthenticatedUserList (token activeSession)
                   visualNovelIdentifier (Some (default 5 labelIdentifierArgument)) st
         /\ updated = updateAuthenticatedUserVisualNovelStatusLabel (token activeSession)
                        visualNovelIdentifier statusLabelIdentifier st).
Proof.
  intros added updated.
  assert (Hdenied : canWrite session = false ->
                    snd added = st /\ threw (fst added)
                    /\ snd updated = st /\ threw (fst updated)).
  { intros Hgate. subst added updated.
    unfold handleAddVisualNovelToUserList, handleUpdateVisualNovelUserListStatus.
    destruct session as [activeSession|]; simpl in *.
    - rewrite Hgate. simpl. repeat split; apply threw_Threw.
    - repeat split; apply threw_Threw. }
  split; [exact Hdenied | ].
  split; [ | split].
  - intros Hsent. destruct (canWrite session) eqn:Hgate; [reflexivity | ].
    exfalso. apply Hsent. destruct (Hdenied eq_refl) as (-> & _). reflexivity.
  - intros Hsent. destruct (canWrite session) eqn:Hgate; [reflexivity | ].
    exfalso. apply Hsent. destruct (Hdenied eq_refl) as (_ & _ & -> & _). reflexivity.
  - intros activeSession -> Hgate. subst added updated.
    unfold handleAddVisualNovelToUserList, handleUpdateVisualNovelUserListStatus.
    simpl in Hgate. rewrite Hgate. split; reflexivity.
Qed.


Lemma fetchAuthenticationInfoByToken_run (authenticationToken : string) (st : ClientState) :
  let outcome := fst (fetch (authInfoRequest authenticationToken) (env st)) in
  exchanges (snd (fetchAuthenticationInfoByToken asAuthInfo authenticationToken st))
  = (exchanges st ++ [(authInfoRequest authenticationToken, outcome)])%list
  /\ (forall authenticationInfo,
         fst (fetchAuthenticationInfoByToken asAuthInfo authenticationToken st)
         = Returned authenticationInfo ->
         exists networkResponse,
           outcome = Resolved networkResponse /\ ok networkResponse = true).
Proof.
  intros outcome. subst outcome.
  unfold fetchAuthenticationInfoByToken, bind. rewrite awaitFetch_run.
  destruct (fst (fetch (authInfoRequest authenticationToken) (env st)))
    as [networkResponse|message]; simpl.
  - destruct (ok networkResponse) eqn:Hok; simpl.
    + unfold awaitJson. destruct (bodyJson networkResponse); simpl.
      * split; [reflexivity | ]. intros _ _. exists networkResponse. tauto.
      * split; [reflexivity | ]. intros info Hreturned. discriminate.
    + split; [reflexivity | ]. intros info Hreturned. discriminate.
  - split; [reflexivity | ]. intros info Hreturned. discriminate.
Qed.

(** X22.  Signing in.  A token field that is blank sends nothing and
    leaves session and stored token alone.  Otherwise exactly one request
    is made, a GET of [/authinfo] that carries the trimmed token; when it
    settles, the stored token is the token of the session and there is
    none without a session; a session is set only if the remote answered
    with success, and its token is the trimmed input. *)
Theorem sign_in_keeps_session_and_stored_token_in_step
    (app : AppState) (st : ClientState) :
  let submitted := handleAuthenticationFormSubmit asAuthInfo app st in
  let authenticationToken := trim (tokenInputValue app) in
  (authenticationToken = "" ->
   snd submitted = st
   /\ authenticatedSession (fst submitted) = authenticatedSession app
   /\ storedAuthenticationToken (fst submitted) = storedAuthenticationToken app)
  /\ (authenticationToken <> "" ->
      let outcome := fst (fetch (authInfoRequest authenticationToken) (env st)) in
      exchanges (snd submitted)
      = (exchanges st ++ [(authInfoRequest authenticationToken, outcome)])%list
      /\ tokenInStep (fst submitted)
      /\ isAuthenticationInFlight (fst submitted) = false
      /\ (forall activeSession,
             authenticatedSession (fst submitted) = Some activeSession ->
             token activeSession = authenticationToken
             /\ authenticationErrorMessage (fst submitted) = None
             /\ exists networkResponse,
                  outcome = Resolved networkResponse /\ ok networkResponse = true)
      /\ (authenticatedSession (fst submitted) = None ->
          authenticationErrorMessage (fst submitted) <> None)).
Proof.
  intros submitted authenticationToken. subst submitted authenticationToken.
  unfold handleAuthenticationFormSubmit. split.
  - intros Hblank. rewrite Hblank. simpl. repeat split.
  - intros Hfilled. destruct (String.eqb_spec (trim (tokenInputValue app)) "") as [|_];
      [contradiction | ].
    unfold applyAuthenticationToken.
    destruct (fetchAuthenticationInfoByToken_run (trim (tokenInputValue app)) st)
      as [Hsent Hreturned].
    destruct (fetchAuthenticationInfoByToken asAuthInfo (trim (tokenInputValue app)) st)
      as [[authenticationInfo|message] st'] eqn:Hfetched; cbn [fst snd] in *.
    + split; [exact Hsent | ]. split; [reflexivity | ]. split; [reflexivity | ].
      split; [ | discriminate].
      intros activeSession Hsession. injection Hsession as <-. simpl.
      split; [reflexivity | ]. split; [reflexivity | ].
      exact (Hreturned authenticationInfo eq_refl).
    + split; [exact Hsent | ]. split; [reflexivity | ]. split; [reflexivity | ].
      split; [discriminate | ]. intros _. simpl. discriminate.
Qed.

End AppFacts.

Section AppRuns.
Import Client ListView SearchForm App.

Lemma list_writes_need_the_listwrite_permission_witness :
  snd (handleAddVisualNovelToUserList (Some readOnlySession) "v17" None acceptsOnce)
  = acceptsOnce.
Proof.
  assert (Hgate : canWrite (Some readOnlySession) = false) by reflexivity.
  exact (proj1 (proj1 (list_writes_need_the_listwrite_permission
                         (Some readOnlySession) "v17" None 2 acceptsOnce) Hgate)).
Defined.


Lemma sign_in_keeps_session_and_stored_token_in_step_witness :
  tokenInStep (fst (handleAuthenticationFormSubmit readerAndWriter signedOut acceptsOnce)).
Proof.
  assert (Hfilled : trim (tokenInputValue signedOut) <> "") by (vm_compute; discriminate).
  exact (proj1 (proj2 (proj2 (sign_in_keeps_session_and_stored_token_in_step
                                readerAndWriter signedOut acceptsOnce) Hfilled))).
Defined.

End AppRuns.

(** ** The development proxy *)

Section DevServerFacts.
Import Client MarkupText DevServer.

Lemma startsWith_append (leading rest : string) : startsWith (leading ++ rest) leading = true.
Proof.
  unfold startsWith. induction leading as [|c others IH];
    rewrite ?append_cons, ?append_empty_l.
  - destruct rest; reflexivity.
  - cbn [String.prefix]. destruct (ascii_dec c c); [exact IH | contradiction].
Qed.

(** X23.  The two builds reach the same endpoint.  In a production build
    a request goes to the path under [https://api.vndb.org/kana]; in a
    development build it goes to a path that the development server
    proxies, and the proxy sends it to that same URL. *)
Theorem development_proxy_reaches_the_production_endpoint
    `{P : Platform} (endpointPath : string) :
  (DEV = false -> buildVndbApiUrl endpointPath = VNDB_DIRECT_BASE_URL ++ endpointPath)
  /\ (DEV = true ->
      proxied (buildVndbApiUrl endpointPath) = Some (VNDB_DIRECT_BASE_URL ++ endpointPath)).
Proof.
  unfold buildVndbApiUrl, VNDB_API_BASE_URL. split; intros ->; [reflexivity | ].
  unfold proxied, rewrite, PROXY_KEY, VNDB_PROXY_BASE_PATH.
  rewrite (startsWith_append "/api/vndb" endpointPath).
  change 9%nat with (String.length "/api/vndb"). rewrite dropChars_append.
  reflexivity.
Qed.

Lemma development_proxy_reaches_the_production_endpoint_witness :
  proxied (@buildVndbApiUrl devPlatform "/ulist") = Some "https://api.vndb.org/kana/ulist".
Proof.
  exact (proj2 (@development_proxy_reaches_the_production_endpoint devPlatform "/ulist")
           eq_refl).
Defined.

End DevServerFacts.

(** ** The reads of the API client *)

Section ClientReadFacts.
Import Client ClientReads.
Context `{P : Platform}.

Lemma client_normalize_filled (raw : string) :
  trim (Client.normalizeVisualNovelIdentifier raw) <> "".
Proof.
  rewrite client_normalize_trimmed. intros Hempty.
  pose proof (client_normalize_prefixed raw) as Hprefixed.
  rewrite Hempty in Hprefixed. discriminate.
Qed.

Lemma client_normalize_idempotent (raw : string) :
  Client.normalizeVisualNovelIdentifier (Client.normalizeVisualNovelIdentifier raw)
  = Client.normalizeVisualNovelIdentifier raw.
Proof.
  rewrite (client_normalize_unfold (Client.normalizeVisualNovelIdentifier raw)).
  rewrite client_normalize_trimmed, client_normalize_lowered, client_normalize_prefixed.
  reflexivity.
Qed.

Lemma detail_same_normal_form (first second fieldSelection : string) (ms : ModuleState) :
  trim first <> "" -> trim second <> "" ->
  Client.normalizeVisualNovelIdentifier first = Client.normalizeVisualNovelIdentifier second ->
  fetchVisualNovelDetailedPayloadByFields first fieldSelection ms
  = fetchVisualNovelDetailedPayloadByFields second fieldSelection ms.
Proof.
  intros Hfirst Hsecond Hsame. unfold fetchVisualNovelDetailedPayloadByFields.
  apply String.eqb_neq in Hfirst, Hsecond. rewrite Hfirst, Hsecond.
  unfold detailRequestPayload. rewrite Hsame. reflexivity.
Qed.

Lemma detailShaped_truthy (responsePayload : Json) :
  detailShaped responsePayload -> truthy responsePayload = true.
Proof. intros (items & anotherPage & ->). reflexivity. Qed.

Lemma detail_payload_shaped (rawResults rawMore : option Json) :
  detailShaped
    (JObject [("results", match rawResults with
                          | Some (JArray items) => JArray items
                          | _ => JArray []
                          end);
              ("more", JBool match rawMore with
                             | Some value => truthy value
                             | None => false
                             end)]).
Proof.
  destruct rawResults as [[| | | |items|]|]; eexists; eexists; reflexivity.
Qed.

Lemma detail_keeps_shape (visualNovelIdentifier fieldSelection : string)
    (ms ms' : ModuleState) (responsePayload : Json) :
  detailCacheShaped ms ->
  fetchVisualNovelDetailedPayloadByFields visualNovelIdentifier fieldSelection ms
  = (Returned responsePayload, ms') ->
  detailShaped responsePayload /\ detailCacheShaped ms'.
Proof.
  intros Hshaped. unfold fetchVisualNovelDetailedPayloadByFields.
  destruct (String.eqb (trim visualNovelIdentifier) ""); [discriminate | ].
  set (cacheKey := JSON_stringify (detailRequestPayload visualNovelIdentifier fieldSelection)).
  unfold bind at 1. unfold readCache, readFromCache. cbn [cacheOf].
  assert (Hdeleted : detailCacheShaped (withCache DetailQueries
                                          (delete cacheKey (detailQueryCache ms)) ms)).
  { intros key entry Hfound. simpl in Hfound.
    apply lookup_delete_Some in Hfound. exact (Hshaped key entry (proj2 Hfound)). }
  assert (Hsame : detailCacheShaped (withCache DetailQueries (detailQueryCache ms) ms)).
  { intros key entry Hfound. exact (Hshaped key entry Hfound). }
  assert (Hnetwork : forall store,
             detailCacheShaped (withCache DetailQueries store ms) ->
             (networkResponse <-
                liftClient (awaitFetch (postRequest (buildVndbApiUrl "/vn")
                              (detailRequestPayload visualNovelIdentifier fieldSelection))) ;;
              if negb (ok networkResponse)
              then throw ("Network boundary failure: Unable to retrieve visual novel details (HTTP "
                          ++ numberToString (status networkResponse) ++ ").")
              else
                rawResponsePayload <- liftClient (awaitJson networkResponse) ;;
                rawResults <- liftClient (readProperty rawResponsePayload "results") ;;
                rawMore <- liftClient (readProperty rawResponsePayload "more") ;;
                writeCache DetailQueries cacheKey
                  (JObject [("results", match rawResults with
                                        | Some (JArray items) => JArray items
                                        | _ => JArray []
                                        end);
                            ("more", JBool match rawMore with
                                           | Some value => truthy value
                                           | None => false
                                           end)]) ;;
                ret (JObject [("results", match rawResults with
                                          | Some (JArray items) => JArray items
                                          | _ => JArray []
                                          end);
                              ("more", JBool match rawMore with
                                             | Some value => truthy value
                                             | None => false
                                             end)]))%async
               (withCache DetailQueries store ms)
             = (Returned responsePayload, ms') ->
             detailShaped responsePayload /\ detailCacheShaped ms').
  { intros store Hstore. unfold bind, liftClient. cbn [client withCache].
    rewrite awaitFetch_run. cbn [fst snd].
    destruct (fst (fetch _ (env (client ms)))) as [networkResponse|message];
      [ | discriminate].
    destruct (ok networkResponse); cbn [negb]; [ | discriminate].
    cbn [client withClient]. unfold awaitJson.
    destruct (bodyJson networkResponse) as [rawResponsePayload|]; [ | discriminate].
    unfold ret at 1. cbn [client withClient].
    unfold readProperty.
    destruct rawResponsePayload as [|flag|number|text|items|fields];
      try discriminate; unfold ret, writeCache; cbn [client withClient];
      intros Hrun; injection Hrun as <- <-;
      (split; [first [apply detail_payload_shaped | eexists; eexists; reflexivity] | ]);
      intros key entry Hfound; cbn in Hfound; unfold writeToCache in Hfound;
      (destruct (decide (cacheKey = key)) as [<- | Hother];
       [ rewrite lookup_insert_eq in Hfound; injection Hfound as <-;
         first [apply detail_payload_shaped | eexists; eexists; reflexivity]
       | rewrite lookup_insert_ne in Hfound by exact Hother;
         exact (Hstore key entry Hfound) ]). }
  destruct (detailQueryCache ms !! cacheKey) as [cachedEntry|] eqn:Hcached.
  - destruct (dateNow (env (client ms)) >? expiresAt cachedEntry).
    + cbn [truthy]. apply Hnetwork. exact Hdeleted.
    + destruct (truthy (payload cachedEntry)) eqn:Htruthy.
      * unfold ret. intros Hrun. injection Hrun as <- <-.
        split; [exact (Hshaped _ _ Hcached) | exact Hsame].
      * apply Hnetwork. exact Hsame.
  - cbn [truthy]. apply Hnetwork. exact Hsame.
Qed.

(** X24.  A detail lookup is keyed by the canonical identifier.  A blank
    identifier throws before the cache is read or anything is sent.  Two
    spellings of an identifier with the same normal form, and the normal
    form itself, give the same lookup: the same cache entry is read and
    the same request is sent.  A lookup that returns gives a payload with
    a list of results and a flag, and it leaves only such payloads in the
    detail cache. *)
Theorem detail_lookup_uses_the_canonical_identifier
    (visualNovelIdentifier otherSpelling fieldSelection : string) (ms : ModuleState) :
  (trim visualNovelIdentifier = "" ->
   fetchVisualNovelDetailedPayloadByFields visualNovelIdentifier fieldSelection ms
   = (Threw "Detail lookup failure: Missing visual novel identifier.", ms))
  /\ (trim visualNovelIdentifier <> "" ->
      fetchVisualNovelDetailedPayloadByFields
        (Client.normalizeVisualNovelIdentifier visualNovelIdentifier) fieldSelection ms
      = fetchVisualNovelDetailedPayloadByFields visualNovelIdentifier fieldSelection ms)
  /\ (trim visualNovelIdentifier <> "" ->
      trim otherSpelling <> "" ->
      Client.normalizeVisualNovelIdentifier otherSpelling
      = Client.normalizeVisualNovelIdentifier visualNovelIdentifier ->
      fetchVisualNovelDetailedPayloadByFields otherSpelling fieldSelection ms
      = fetchVisualNovelDetailedPayloadByFields visualNovelIdentifier fieldSelection ms)
  /\ (forall responsePayload ms',
         detailCacheShaped ms ->
         fetchVisualNovelDetailedPayloadByFields visualNovelIdentifier fieldSelection ms
         = (Returned responsePayload, ms') ->
         detailShaped responsePayload /\ detailCacheShaped ms').
Proof.
  split; [ | split; [ | split]].
  - intros Hblank. unfold fetchVisualNovelDetailedPayloadByFields.
    rewrite Hblank. reflexivity.
  - intros Hfilled. apply detail_same_normal_form;
      [apply client_normalize_filled | exact Hfilled | apply client_normalize_idempotent].
  - intros Hfilled Hother Hsame. apply detail_same_normal_form; assumption.
  - intros responsePayload ms'. apply detail_keeps_shape.
Qed.

Lemma withCache_same (name : CacheName) (ms : ModuleState) :
  withCache name (cacheOf name ms) ms = ms.
Proof. destruct ms, name; reflexivity. Qed.

Lemma detail_cache_hit (visualNovelIdentifier fieldSelection : string)
    (ms : ModuleState) (cachedEntry : CacheEntry) :
  trim visualNovelIdentifier <> "" ->
  detailQueryCache ms
    !! JSON_stringify (detailRequestPayload visualNovelIdentifier fieldSelection)
  = Some cachedEntry ->
  dateNow (env (client ms)) <= expiresAt cachedEntry ->
  truthy (payload cachedEntry) = true ->
  fetchVisualNovelDetailedPayloadByFields visualNovelIdentifier fieldSelection ms
  = (Returned (payload cachedEntry), ms).
Proof.
  intros Hfilled Hcached Hfresh Htruthy. unfold fetchVisualNovelDetailedPayloadByFields.
  apply String.eqb_neq in Hfilled. rewrite Hfilled.
  unfold bind at 1. unfold readCache. cbn [cacheOf].
  rewrite (readFromCache_fresh _ _ _ _ Hcached Hfresh). rewrite Htruthy.
  unfold ret. f_equal. exact (withCache_same DetailQueries ms).
Qed.

Lemma detail_miss_caches (visualNovelIdentifier fieldSelection : string)
    (ms : ModuleState) (networkResponse : HttpResponse) (rawResponsePayload : Json)
    (world : Env) :
  trim visualNovelIdentifier <> "" ->
  detailQueryCache ms
    !! JSON_stringify (detailRequestPayload visualNovelIdentifier fieldSelection)
  = None ->
  fetch (postRequest (buildVndbApiUrl "/vn")
           (detailRequestPayload visualNovelIdentifier fieldSelection))
        (env (client ms))
  = (Resolved networkResponse, world) ->
  ok networkResponse = true ->
  bodyJson networkResponse = Some rawResponsePayload ->
  rawResponsePayload <> JNull ->
  exists responsePayload ms',
    fetchVisualNovelDetailedPayloadByFields visualNovelIdentifier fieldSelection ms
    = (Returned responsePayload, ms')
    /\ detailShaped responsePayload
    /\ detailQueryCache ms'
         !! JSON_stringify (detailRequestPayload visualNovelIdentifier fieldSelection)
       = Some {| expiresAt := dateNow world + 300000; payload := responsePayload |}.
Proof.
  intros Hfilled Hmiss Hfetch Hok Hbody Hobject.
  unfold fetchVisualNovelDetailedPayloadByFields.
  apply String.eqb_neq in Hfilled. rewrite Hfilled.
  unfold bind at 1. unfold readCache, readFromCache. cbn [cacheOf]. rewrite Hmiss.
  cbn [truthy]. unfold bind, liftClient. cbn [client withCache].
  rewrite awaitFetch_run, Hfetch. cbn [fst snd]. rewrite Hok. cbn [negb].
  cbn [client withClient]. unfold awaitJson. rewrite Hbody.
  unfold ret at 1. cbn [client withClient]. unfold readProperty.
  destruct rawResponsePayload as [|flag|number|text|items|fields];
    try contradiction; unfold ret, writeCache; cbn [client withClient env];
    eexists; eexists;
    (split; [reflexivity | ]);
    (split; [first [apply detail_payload_shaped | eexists; eexists; reflexivity] | ]);
    cbn; unfold writeToCache; apply lookup_insert_eq.
Qed.

(** X25.  Prefetching is best effort: it never throws, whatever the
    identifier and whatever the remote does.  When it does reach the
    remote and gets the details, they are in the cache: for five minutes a
    read of the core details of the same title, under any spelling of
    its identifier, is answered without a request. *)
Theorem prefetch_never_throws_and_primes_the_cache
    (visualNovelIdentifier : string) (ms : ModuleState) :
  fst (prefetchVisualNovelCoreDetailsById visualNovelIdentifier ms) = Returned tt
  /\ (forall networkResponse rawResponsePayload world,
         trim visualNovelIdentifier <> "" ->
         detailQueryCache ms
           !! JSON_stringify (detailRequestPayload visualNovelIdentifier CORE_FIELD_SELECTION)
         = None ->
         fetch (postRequest (buildVndbApiUrl "/vn")
                  (detailRequestPayload visualNovelIdentifier CORE_FIELD_SELECTION))
               (env (client ms))
         = (Resolved networkResponse, world) ->
         ok networkResponse = true ->
         bodyJson networkResponse = Some rawResponsePayload ->
         rawResponsePayload <> JNull ->
         forall later otherSpelling,
           detailQueryCache later
           = detailQueryCache (snd (prefetchVisualNovelCoreDetailsById
                                      visualNovelIdentifier ms)) ->
           dateNow (env (client later)) <= dateNow world + 300000 ->
           trim otherSpelling <> "" ->
           Client.normalizeVisualNovelIdentifier otherSpelling
           = Client.normalizeVisualNovelIdentifier visualNovelIdentifier ->
           exists responsePayload,
             fetchVisualNovelCoreDetailsById otherSpelling later
             = (Returned responsePayload, later)
             /\ detailShaped responsePayload).
Proof.
  split.
  - unfold prefetchVisualNovelCoreDetailsById, tryCatch, bind.
    destruct (fetchVisualNovelCoreDetailsById visualNovelIdentifier ms)
      as [[responsePayload|message] ms']; reflexivity.
  - intros networkResponse rawResponsePayload world Hfilled Hmiss Hfetch Hok Hbody Hobject
           later otherSpelling Hcache Hclock Hother Hsame.
    destruct (detail_miss_caches visualNovelIdentifier CORE_FIELD_SELECTION ms
                networkResponse rawResponsePayload world
                Hfilled Hmiss Hfetch Hok Hbody Hobject)
      as (responsePayload & ms' & Hrun & Hshaped & Hcached).
    assert (Hprimed : snd (prefetchVisualNovelCoreDetailsById visualNovelIdentifier ms)
                      = ms').
    { unfold prefetchVisualNovelCoreDetailsById, tryCatch, bind,
        fetchVisualNovelCoreDetailsById. rewrite Hrun. reflexivity. }
    rewrite Hprimed in Hcache. rewrite <- Hcache in Hcached.
    exists responsePayload. split; [ | exact Hshaped].
    unfold fetchVisualNovelCoreDetailsById.
    rewrite (detail_same_normal_form otherSpelling visualNovelIdentifier
               CORE_FIELD_SELECTION later Hother Hfilled Hsame).
    exact (detail_cache_hit visualNovelIdentifier CORE_FIELD_SELECTION later _
             Hfilled Hcached Hclock (detailShaped_truthy _ Hshaped)).
Qed.

End ClientReadFacts.

Section ClientReadRuns.
Import Client ClientReads.

Lemma detail_lookup_uses_the_canonical_identifier_witness :
  fetchVisualNovelCoreDetailsById " V17 " answersOnce
  = fetchVisualNovelCoreDetailsById "17" answersOnce.
Proof.
  assert (Hfirst : trim "17" <> "") by (vm_compute; discriminate).
  assert (Hsecond : trim " V17 " <> "") by (vm_compute; discriminate).
  assert (Hsame : Client.normalizeVisualNovelIdentifier " V17 "
                  = Client.normalizeVisualNovelIdentifier "17") by (vm_compute; reflexivity).
  exact (proj1 (proj2 (proj2
           (detail_lookup_uses_the_canonical_identifier "17" " V17 "
              CORE_FIELD_SELECTION answersOnce)))
           Hfirst Hsecond Hsame).
Defined.

Lemma prefetch_never_throws_and_primes_the_cache_witness :
  exists responsePayload,
    fetchVisualNovelCoreDetailsById "V17"
      (snd (prefetchVisualNovelCoreDetailsById "17" answersOnce))
    = (Returned responsePayload, snd (prefetchVisualNovelCoreDetailsById "17" answersOnce)).
Proof.
  assert (Hfilled : trim "17" <> "") by (vm_compute; discriminate).
  assert (Hother : trim "V17" <> "") by (vm_compute; discriminate).
  assert (Hobject : detailAnswer <> JNull) by discriminate.
  destruct (proj2 (prefetch_never_throws_and_primes_the_cache "17" answersOnce)
              {| status := 200; bodyText := Some ""; bodyJson := Some detailAnswer |}
              detailAnswer (0, []) Hfilled eq_refl eq_refl eq_refl eq_refl Hobject
              (snd (prefetchVisualNovelCoreDetailsById "17" answersOnce)) "V17"
              eq_refl ltac:(vm_compute; discriminate) Hother eq_refl)
    as (responsePayload & Hrun & _).
  exists responsePayload. exact Hrun.
Defined.

End ClientReadRuns.

(** ** Store links *)

Section StoreLinkFacts.
Import Payloads.

Lemma trimmedIfFilled_filled (candidate : option string) (text : string) :
  trimmedIfFilled candidate = Some text -> text <> "" /\ trim text = text.
Proof.
  unfold trimmedIfFilled. destruct candidate as [raw|]; [ | discriminate].
  destruct (String.eqb_spec (trim raw) "") as [Hblank | Hfilled]; simpl; [discriminate | ].
  intros Hfound. injection Hfound as <-. split; [exact Hfilled | apply trim_idempotent].
Qed.

Lemma recordExternalLink_invariant (releaseIdentifier releaseTitleText : option string)
    (collected : list VisualNovelExternalLinkEntry * gset string) (externalLinkEntry : Json) :
  storeLinksInvariant collected ->
  storeLinksInvariant
    (recordExternalLink releaseIdentifier releaseTitleText collected externalLinkEntry).
Proof.
  intros Hinvariant. unfold recordExternalLink.
  destruct (isObjectLike externalLinkEntry); simpl; [ | exact Hinvariant].
  set (externalUrl := match stringProperty externalLinkEntry "url" with
                      | Some text => trim text
                      | None => ""
                      end).
  destruct (String.eqb_spec externalUrl "") as [Hblank | Hurl]; [exact Hinvariant | ].
  set (externalLabel := match trimmedIfFilled (stringProperty externalLinkEntry "label") with
                        | Some labelText => labelText
                        | None =>
                            match trimmedIfFilled (stringProperty externalLinkEntry "name") with
                            | Some nameText => nameText
                            | None => "External Link"
                            end
                        end).
  destruct (isAllowedStoreLink _ externalLabel) eqn:Hallowed; simpl; [ | exact Hinvariant].
  destruct (decide (dedupeKey externalUrl externalLabel ∈ snd collected)) as [Hknown | Hnew];
    [exact Hinvariant | ].
  destruct Hinvariant as (Hproper & Hkeys & Hdistinct).
  unfold storeLinksInvariant. cbn [fst snd].
  assert (Hlabel : externalLabel <> "").
  { subst externalLabel.
    destruct (trimmedIfFilled (stringProperty externalLinkEntry "label")) as [labelText|]
      eqn:Hlabel; [exact (proj1 (trimmedIfFilled_filled _ _ Hlabel)) | ].
    destruct (trimmedIfFilled (stringProperty externalLinkEntry "name")) as [nameText|]
      eqn:Hname; [exact (proj1 (trimmedIfFilled_filled _ _ Hname)) | discriminate]. }
  assert (Htrimmed : trim externalUrl = externalUrl).
  { subst externalUrl. destruct (stringProperty externalLinkEntry "url");
      [apply trim_idempotent | reflexivity]. }
  split; [ | split].
  - apply Forall_app. split; [exact Hproper | ].
    constructor; [ | constructor]. repeat split; assumption.
  - intros key. rewrite map_app, in_app_iff, elem_of_union, elem_of_singleton, Hkeys.
    simpl. unfold keyOfStoreLink. simpl. intuition congruence.
  - rewrite map_app. apply NoDup_app. split; [exact Hdistinct | split].
    + intros key Hin Hlast. apply list_elem_of_singleton in Hlast. subst key.
      apply Hnew, Hkeys, list_elem_of_In. exact Hin.
    + apply NoDup_singleton.
Qed.

Lemma fold_recordExternalLink_invariant (releaseIdentifier releaseTitleText : option string)
    (externalLinks : list Json) :
  forall collected,
    storeLinksInvariant collected ->
    storeLinksInvariant
      (fold_left (recordExternalLink releaseIdentifier releaseTitleText)
                 externalLinks collected).
Proof.
  induction externalLinks as [|externalLinkEntry rest IH]; intros collected Hinvariant;
    simpl; [exact Hinvariant | ].
  apply IH, recordExternalLink_invariant, Hinvariant.
Qed.

Lemma fold_recordRelease_invariant (releaseEntries : list Json) :
  forall collected,
    storeLinksInvariant collected ->
    storeLinksInvariant (fold_left recordRelease releaseEntries collected).
Proof.
  induction releaseEntries as [|releaseEntry rest IH]; intros collected Hinvariant;
    simpl; [exact Hinvariant | ].
  apply IH. unfold recordRelease.
  destruct (isObjectLike releaseEntry); simpl; [ | exact Hinvariant].
  apply fold_recordExternalLink_invariant, Hinvariant.
Qed.

(** X26.  The store links shown for a title.  Whatever the remote sends,
    every link kept has a URL that is not empty and has no white space
    around it, a label that is not empty, and the name of one of the
    allowed stores in its source or in its label, up to case; and no two
    links agree, up to case, in both URL and label. *)
Theorem store_links_are_allowed_and_distinct (responsePayload : Json) :
  Forall properStoreLink (normalizeStoreLinks responsePayload)
  /\ NoDup (map keyOfStoreLink (normalizeStoreLinks responsePayload)).
Proof.
  unfold normalizeStoreLinks.
  assert (Hempty : storeLinksInvariant ([], ∅)).
  { split; [constructor | split; [ | constructor]].
    intros key. simpl. rewrite elem_of_empty. tauto. }
  destruct (fold_recordRelease_invariant
              match property responsePayload "results" with
              | Some (JArray items) => items
              | _ => []
              end _ Hempty) as (Hproper & _ & Hdistinct).
  split; assumption.
Qed.

Lemma store_links_are_allowed_and_distinct_witness :
  normalizeStoreLinks (JObject [("results", JArray [steamRelease])])
  = [{| linkUrl := "https://store.steampowered.com/app/1";
        linkLabel := "Steam";
        linkSource := None;
        releaseId := Some "r1";
        releaseTitle := Some "Saya no Uta" |}]
  /\ Forall properStoreLink (normalizeStoreLinks (JObject [("results", JArray [steamRelease])])).
Proof.
  split; [vm_compute; reflexivity | ].
  exact (proj1 (store_links_are_allowed_and_distinct
                  (JObject [("results", JArray [steamRelease])]))).
Defined.

End StoreLinkFacts.

(** ** Tag and trait metadata *)

Section MetadataFacts.
Import Client ClientReads ListView ClientMetadata.

Lemma ascii_compare_spec (a b : ascii) :
  CompareSpec (a = b) (N_of_ascii a < N_of_ascii b)%N (N_of_ascii b < N_of_ascii a)%N
              (Ascii.compare a b).
Proof.
  unfold Ascii.compare. destruct (N.compare_spec (N_of_ascii a) (N_of_ascii b)) as [Hsame| |];
    constructor; try assumption.
  rewrite <- (ascii_N_embedding a), Hsame. apply ascii_N_embedding.
Qed.

Lemma notAfter_trans (a b c : string) : notAfter a b -> notAfter b c -> notAfter a c.
Proof.
  unfold notAfter. revert b c.
  induction a as [|x a' IH]; intros [|y b'] [|z c']; simpl; intros Hab Hbc;
    try congruence.
  revert Hab Hbc.
  destruct (ascii_compare_spec x y) as [Hxy | Hxy | Hxy];
    destruct (ascii_compare_spec y z) as [Hyz | Hyz | Hyz];
    destruct (ascii_compare_spec x z) as [Hxz | Hxz | Hxz];
    intros Hab Hbc; try congruence; try (subst; lia).
  exact (IH _ _ Hab Hbc).
Qed.

Lemma notAfter_antisym (a b : string) : notAfter a b -> notAfter b a -> a = b.
Proof.
  unfold notAfter. intros Hab Hba. apply String.compare_eq_iff.
  rewrite String.compare_antisym in Hba.
  destruct (String.compare a b); simpl in *; congruence.
Qed.

Lemma compareCodeUnits_notAfter (a b : string) :
  (compareCodeUnits a b <=? 0) = true -> notAfter a b.
Proof.
  unfold compareCodeUnits, notAfter. destruct (String.compare a b); simpl; discriminate.
Qed.

Lemma compareCodeUnits_after (a b : string) :
  (compareCodeUnits a b <=? 0) = false -> notAfter b a.
Proof.
  unfold compareCodeUnits, notAfter. rewrite (String.compare_antisym b a).
  destruct (String.compare a b); simpl; discriminate.
Qed.

Lemma insertSorted_codeUnits (x : string) (sorted : list string) :
  StronglySorted notAfter sorted ->
  StronglySorted notAfter (insertSorted compareCodeUnits x sorted).
Proof.
  induction sorted as [|y rest IH]; intros Hsorted; simpl.
  - repeat constructor.
  - apply StronglySorted_inv in Hsorted. destruct Hsorted as [Hrest Hhead].
    destruct (compareCodeUnits x y <=? 0) eqn:Hcompare.
    + apply compareCodeUnits_notAfter in Hcompare.
      constructor; [constructor; assumption | ].
      constructor; [exact Hcompare | ].
      apply (Forall_impl _ _ _ Hhead). intros other Hother.
      exact (notAfter_trans _ _ _ Hcompare Hother).
    + apply compareCodeUnits_after in Hcompare.
      constructor; [exact (IH Hrest) | ].
      apply List.Forall_forall. intros other Hin.
      apply (Permutation_in _ (insertSorted_Permutation compareCodeUnits x rest)) in Hin.
      destruct Hin as [<- | Hin]; [exact Hcompare | ].
      rewrite List.Forall_forall in Hhead. exact (Hhead other Hin).
Qed.

Lemma stableSort_codeUnits (items : list string) :
  StronglySorted notAfter (stableSort compareCodeUnits items).
Proof.
  induction items as [|x rest IH]; simpl; [constructor | ].
  apply insertSorted_codeUnits, IH.
Qed.

Lemma sorted_distinct_unique (first second : list string) :
  StronglySorted notAfter first -> StronglySorted notAfter second ->
  NoDup first -> NoDup second ->
  (forall identifier, In identifier first <-> In identifier second) ->
  first = second.
Proof.
  revert second. induction first as [|x rest IH]; intros [|y others] Hfirst Hsecond
    Hdistinct Hdistinct' Hsame.
  - reflexivity.
  - exfalso. apply (proj2 (Hsame y)). left. reflexivity.
  - exfalso. apply (proj1 (Hsame x)). left. reflexivity.
  - apply StronglySorted_inv in Hfirst, Hsecond.
    destruct Hfirst as [Hrest Hhead]. destruct Hsecond as [Hothers Hhead'].
    rewrite List.Forall_forall in Hhead, Hhead'.
    apply NoDup_cons in Hdistinct, Hdistinct'.
    destruct Hdistinct as [Hfresh Hdistinct]. destruct Hdistinct' as [Hfresh' Hdistinct'].
    rewrite list_elem_of_In in Hfresh, Hfresh'.
    assert (Hheads : x = y).
    { destruct (proj1 (Hsame x) (or_introl eq_refl)) as [Hyx | Hin]; [congruence | ].
      destruct (proj2 (Hsame y) (or_introl eq_refl)) as [Hxy | Hin']; [congruence | ].
      apply notAfter_antisym; [exact (Hhead y Hin') | exact (Hhead' x Hin)]. }
    subst y. f_equal. apply IH; try assumption.
    intros identifier. split; intros Hin.
    + destruct (proj1 (Hsame identifier) (or_intror Hin)) as [<- | Hfound];
        [contradiction | exact Hfound].
    + destruct (proj2 (Hsame identifier) (or_intror Hin)) as [<- | Hfound];
        [contradiction | exact Hfound].
Qed.

Lemma normalizeIdentifiers_In (identifiers : list string) (identifier : string) :
  In identifier (normalizeIdentifiers identifiers)
  <-> In identifier identifiers /\ trim identifier <> "".
Proof.
  unfold normalizeIdentifiers. split.
  - intros Hin. apply (Permutation_in _ (stableSort_Permutation _ _)) in Hin.
    apply distinct_In, List.filter_In in Hin. destruct Hin as [Hin Hfilled].
    apply negb_true_iff, String.eqb_neq in Hfilled. tauto.
  - intros [Hin Hfilled].
    apply (Permutation_in _ (Permutation_sym (stableSort_Permutation _ _))).
    apply distinct_In, List.filter_In. split; [exact Hin | ].
    apply negb_true_iff, String.eqb_neq. exact Hfilled.
Qed.

Lemma normalizeIdentifiers_NoDup (identifiers : list string) :
  NoDup (normalizeIdentifiers identifiers).
Proof.
  unfold normalizeIdentifiers. rewrite stableSort_Permutation. apply distinctAfter_NoDup.
Qed.

Lemma normalizeIdentifiers_same (first second : list string) :
  sameIdentifiers first second -> normalizeIdentifiers first = normalizeIdentifiers second.
Proof.
  intros Hsame. apply sorted_distinct_unique.
  - apply stableSort_codeUnits.
  - apply stableSort_codeUnits.
  - apply normalizeIdentifiers_NoDup.
  - apply normalizeIdentifiers_NoDup.
  - intros identifier. rewrite !normalizeIdentifiers_In. split.
    + intros [Hin Hfilled]. split; [apply (Hsame identifier Hfilled), Hin | exact Hfilled].
    + intros [Hin Hfilled]. split; [apply (Hsame identifier Hfilled), Hin | exact Hfilled].
Qed.

Lemma normalizeIdentifiers_blank (identifiers : list string) :
  (forall identifier, In identifier identifiers -> trim identifier = "") ->
  normalizeIdentifiers identifiers = [].
Proof.
  intros Hblank. destruct (normalizeIdentifiers identifiers) as [|identifier rest] eqn:Hnormal;
    [reflexivity | ].
  assert (Hin : In identifier (normalizeIdentifiers identifiers))
    by (rewrite Hnormal; left; reflexivity).
  apply normalizeIdentifiers_In in Hin. destruct Hin as [Hin Hfilled].
  exfalso. exact (Hfilled (Hblank identifier Hin)).
Qed.

Section WithPlatform.
Context `{P : Platform}.

(** X27.  The lookups of tag and trait metadata do not depend on the
    order of the identifiers, on repetitions, nor on blank entries: two
    lists that name the same identifiers give the same call, with the
    same request and the same cache key.  The identifiers sent are those
    given that are not blank, each once, in the order of code units.  A
    list without any such identifier returns the empty response, and
    neither the cache nor the remote is touched. *)
Theorem metadata_lookups_ignore_order_and_repetition
    (first second : list string) (ms : ModuleState) :
  (sameIdentifiers first second ->
   fetchTagMetadataByIds first ms = fetchTagMetadataByIds second ms
   /\ fetchTraitMetadataByIds first ms = fetchTraitMetadataByIds second ms)
  /\ ((forall identifier, In identifier first -> trim identifier = "") ->
      fetchTagMetadataByIds first ms = (Returned emptyResponse, ms)
      /\ fetchTraitMetadataByIds first ms = (Returned emptyResponse, ms))
  /\ NoDup (normalizeIdentifiers first)
  /\ StronglySorted notAfter (normalizeIdentifiers first)
  /\ (forall identifier,
         In identifier (normalizeIdentifiers first)
         <-> In identifier first /\ trim identifier <> "").
Proof.
  split; [ | split; [ | split; [ | split]]].
  - intros Hsame. unfold fetchTagMetadataByIds, fetchTraitMetadataByIds.
    rewrite (normalizeIdentifiers_same first second Hsame). split; reflexivity.
  - intros Hblank. unfold fetchTagMetadataByIds, fetchTraitMetadataByIds.
    rewrite (normalizeIdentifiers_blank first Hblank). split; reflexivity.
  - apply normalizeIdentifiers_NoDup.
  - apply stableSort_codeUnits.
  - apply normalizeIdentifiers_In.
Qed.

End WithPlatform.

Lemma metadata_lookups_ignore_order_and_repetition_witness :
  fetchTagMetadataByIds ["g7"; " "; "g12"; "g7"] unreachable
  = fetchTagMetadataByIds ["g12"; "g7"] unreachable.
Proof.
  apply (@metadata_lookups_ignore_order_and_repetition (scriptedPlatform offline)
           ["g7"; " "; "g12"; "g7"] ["g12"; "g7"] unreachable).
  intros identifier Hfilled. simpl. split.
  - intros [<- | [<- | [<- | [<- | []]]]]; try tauto.
  - intros [<- | [<- | []]]; tauto.
Defined.

End MetadataFacts.

(** ** Labels and traits *)

Section LabelFacts.
Import ListView Payloads.

Lemma fold_pushLabelIdentifier (items : list Json) :
  forall labelIdentifiers,
    fold_left pushLabelIdentifier items labelIdentifiers
    = (labelIdentifiers ++ normalizeLabels items)%list.
Proof.
  unfold normalizeLabels.
  induction items as [|rawLabel rest IH]; intros labelIdentifiers; simpl.
  - rewrite app_nil_r. reflexivity.
  - rewrite IH. unfold pushLabelIdentifier, normalizeRawLabel, pushDigitsOf.
    destruct rawLabel as [|flag|number|text|elements|fields]; simpl;
      try reflexivity.
    + rewrite <- app_assoc. reflexivity.
    + destruct (finiteNumberOfDigits (keepDigits text));
        [rewrite <- app_assoc | ]; reflexivity.
    + destruct (assoc "id" fields) as [[| | candidate|candidate| |]|]; try reflexivity.
      * rewrite <- app_assoc. reflexivity.
      * destruct (finiteNumberOfDigits (keepDigits candidate));
          [rewrite <- app_assoc | ]; reflexivity.
Qed.

(** X28.  The client and the list component read the labels of a list
    entry alike: the label identifiers that the lookup of one entry
    extracts are those from which the list derives the status, in the
    same order; so the status shown in the list is the first of 1 to 6
    that is among the labels the lookup reports, and there is none when
    the labels are not an array. *)
Theorem client_and_list_read_labels_alike (rawLabels : option Json) :
  (forall items, rawLabels = Some (JArray items) ->
                 extractLabelIds rawLabels = normalizeLabels items)
  /\ deriveStatusLabelFromUnknownLabels rawLabels
     = List.find (includes (extractLabelIds rawLabels)) ListView.STATUS_LABEL_IDENTIFIERS
  /\ ((forall items, rawLabels <> Some (JArray items)) ->
      extractLabelIds rawLabels = []
      /\ deriveStatusLabelFromUnknownLabels rawLabels = None).
Proof.
  split; [ | split].
  - intros items ->. unfold extractLabelIds. apply fold_pushLabelIdentifier.
  - unfold deriveStatusLabelFromUnknownLabels, extractLabelIds.
    destruct rawLabels as [[| | | |items|]|]; try reflexivity.
    rewrite fold_pushLabelIdentifier. reflexivity.
  - intros Hother. unfold deriveStatusLabelFromUnknownLabels, extractLabelIds.
    destruct rawLabels as [[| | | |items|]|]; try (split; reflexivity).
    exfalso. exact (Hother items eq_refl).
Qed.

Lemma client_and_list_read_labels_alike_witness :
  extractLabelIds (Some (JArray [JString "l7"; JObject [("id", JNumber 2)]]))
  = normalizeLabels [JString "l7"; JObject [("id", JNumber 2)]].
Proof.
  exact (proj1 (client_and_list_read_labels_alike
                  (Some (JArray [JString "l7"; JObject [("id", JNumber 2)]])))
           _ eq_refl).
Defined.

End LabelFacts.

Section TraitFacts.
Import Payloads CharacterView.

Lemma normalizeTraitGroupLabel_known (rawGroupLabel : string) :
  In (normalizeTraitGroupLabel rawGroupLabel) TRAIT_GROUP_LABELS.
Proof.
  unfold normalizeTraitGroupLabel, TRAIT_GROUP_LABELS.
  repeat match goal with
         | |- context [if ?test then _ else _] => destruct test
         end; simpl; tauto.
Qed.

Lemma emptyGroups_hold (traitGroupByIdentifier : gmap string Json) :
  groupsHold traitGroupByIdentifier [] emptyGroups.
Proof.
  intros groupLabel. destruct (decide (In groupLabel TRAIT_GROUP_LABELS)) as [Hin | Hout].
  - simpl in Hin.
    repeat (destruct Hin as [<- | Hin]; [vm_compute; reflexivity | ]). destruct Hin.
  - unfold emptyGroups. apply not_elem_of_list_to_map_1.
    rewrite list_elem_of_In. intros Hin. apply Hout. simpl in Hin |- *. exact Hin.
Qed.

Lemma groupOfTrait_known (traitGroupByIdentifier : gmap string Json) (trait : TraitChip)
    (traitGroupLabel : string) :
  groupOfTrait traitGroupByIdentifier trait = Returned traitGroupLabel ->
  In traitGroupLabel TRAIT_GROUP_LABELS.
Proof.
  unfold groupOfTrait.
  destruct (readPlainObject traitGroupByIdentifier (traitId trait)) as [[| | | | |]| |];
    try discriminate;
    intros Hlabel; injection Hlabel as <-; apply normalizeTraitGroupLabel_known.
Qed.

Lemma groupOfTrait_message (traitGroupByIdentifier : gmap string Json) (trait : TraitChip)
    (message : string) :
  groupOfTrait traitGroupByIdentifier trait = Threw message ->
  message = "rawGroupLabel.toLowerCase is not a function".
Proof.
  unfold groupOfTrait.
  destruct (readPlainObject traitGroupByIdentifier (traitId trait)) as [[| | | | |]| |];
    try discriminate; intros Hthrown; injection Hthrown as <-; reflexivity.
Qed.

Lemma recordTrait_holds (traitGroupByIdentifier : gmap string Json)
    (processed : list TraitChip) (groupedTraits : gmap string (list TraitChip))
    (traitEntry : Json) :
  groupsHold traitGroupByIdentifier processed groupedTraits ->
  match recordTrait traitGroupByIdentifier groupedTraits traitEntry with
  | Returned recorded =>
      groupsHold traitGroupByIdentifier
        (processed ++ match traitOfEntry traitEntry with
                      | Some trait => [trait]
                      | None => []
                      end)%list
        recorded
      /\ (forall trait, traitOfEntry traitEntry = Some trait ->
                        exists traitGroupLabel,
                          groupOfTrait traitGroupByIdentifier trait = Returned traitGroupLabel)
  | Threw message =>
      exists trait,
        traitOfEntry traitEntry = Some trait
        /\ groupOfTrait traitGroupByIdentifier trait = Threw message
  end.
Proof.
  intros Hhold. unfold recordTrait.
  destruct (traitOfEntry traitEntry) as [trait|];
    [ | rewrite app_nil_r; split; [exact Hhold | discriminate] ].
  destruct (groupOfTrait traitGroupByIdentifier trait) as [traitGroupLabel|message] eqn:Hgroup;
    [ | exists trait; split; [reflexivity | exact Hgroup] ].
  split; [ | intros other Hother; injection Hother as <-; eauto ].
  intros groupLabel. rewrite List.filter_app. simpl. unfold inGroup at 2. rewrite Hgroup.
  destruct (String.eqb_spec traitGroupLabel groupLabel) as [<- | Hother].
  - rewrite lookup_insert_eq, Hhold.
    destruct (decide _) as [? | Hout]; [reflexivity | ].
    exfalso. apply Hout. exact (groupOfTrait_known _ _ _ Hgroup).
  - rewrite lookup_insert_ne by exact Hother. rewrite Hhold, app_nil_r. reflexivity.
Qed.

Lemma forEachTrait_holds (traitGroupByIdentifier : gmap string Json) (traits : list Json) :
  forall processed groupedTraits,
    groupsHold traitGroupByIdentifier processed groupedTraits ->
    match forEachTrait traitGroupByIdentifier traits groupedTraits with
    | Returned recorded =>
        groupsHold traitGroupByIdentifier (processed ++ shownTraits traits)%list recorded
        /\ (forall trait, In trait (shownTraits traits) ->
                          exists traitGroupLabel,
                            groupOfTrait traitGroupByIdentifier trait
                            = Returned traitGroupLabel)
    | Threw message =>
        exists trait,
          In trait (shownTraits traits)
          /\ groupOfTrait traitGroupByIdentifier trait = Threw message
    end.
Proof.
  unfold shownTraits.
  induction traits as [|traitEntry rest IH]; intros processed groupedTraits Hhold; simpl.
  - rewrite app_nil_r. split; [exact Hhold | intros trait []].
  - pose proof (recordTrait_holds _ _ _ traitEntry Hhold) as Hrecorded.
    destruct (recordTrait traitGroupByIdentifier groupedTraits traitEntry)
      as [recorded|message].
    + destruct Hrecorded as [Hnext Hreadable]. specialize (IH _ _ Hnext).
      destruct (forEachTrait traitGroupByIdentifier rest recorded) as [final|message].
      * destruct IH as [Hfinal Hrest].
        destruct (traitOfEntry traitEntry) as [trait|]; simpl.
        -- rewrite <- app_assoc in Hfinal. split; [exact Hfinal | ].
           intros other [<- | Hother]; [apply Hreadable; reflexivity | exact (Hrest _ Hother)].
        -- rewrite app_nil_r in Hfinal. split; assumption.
      * destruct IH as (trait & Hin & Hthrown). exists trait. split; [ | exact Hthrown].
        destruct (traitOfEntry traitEntry); [right | ]; exact Hin.
    + destruct Hrecorded as (trait & Hentry & Hthrown). exists trait.
      rewrite Hentry. split; [left; reflexivity | exact Hthrown].
Qed.

(** X29.  [traitGroupByIdentifier] is read as a plain object.  A trait
    whose identifier is an own property with a text is filed under the
    group that the text normalises to; a trait whose identifier is no
    property at all is filed under Other; a trait whose identifier is not
    an own property but the name of a member inherited from
    [Object.prototype] (such as [constructor]) makes the grouping throw,
    and so does an own property that is neither a text nor [null].  When
    the group of every trait with a text identifier and a text name can
    be read, the traits are shown under the nine groups and under no
    other: each group holds, in the order given, exactly those traits
    whose group label normalises to it, so every such trait is shown in
    one group and in one only, and entries without these texts are shown
    nowhere.  When the group of one of them cannot be read, the grouping
    throws and nothing is shown. *)
Theorem every_trait_is_shown_in_one_group
    (traits : list Json) (traitGroupByIdentifier : gmap string Json) :
  let grouped := groupedCharacterTraits traits traitGroupByIdentifier in
  ((forall trait,
       In trait (shownTraits traits) ->
       exists traitGroupLabel,
         groupOfTrait traitGroupByIdentifier trait = Returned traitGroupLabel) ->
   exists groupedTraits,
     grouped = Returned groupedTraits
     /\ (forall groupLabel,
            In groupLabel TRAIT_GROUP_LABELS ->
            groupedTraits !! groupLabel
            = Some (List.filter (inGroup traitGroupByIdentifier groupLabel)
                                (shownTraits traits)))
     /\ (forall groupLabel,
            ~ In groupLabel TRAIT_GROUP_LABELS -> groupedTraits !! groupLabel = None)
     /\ (forall trait,
            In trait (shownTraits traits) ->
            exists traitGroupLabel shown,
              groupOfTrait traitGroupByIdentifier trait = Returned traitGroupLabel
              /\ groupedTraits !! traitGroupLabel = Some shown
              /\ In trait shown)
     /\ (forall groupLabel shown trait,
            groupedTraits !! groupLabel = Some shown ->
            In trait shown ->
            groupOfTrait traitGroupByIdentifier trait = Returned groupLabel
            /\ In trait (shownTraits traits)))
  /\ ((exists trait message,
          In trait (shownTraits traits)
          /\ groupOfTrait traitGroupByIdentifier trait = Threw message) ->
      grouped = Threw "rawGroupLabel.toLowerCase is not a function")
  /\ (forall trait,
         traitGroupByIdentifier !! traitId trait = None ->
         (In (traitId trait) OBJECT_PROTOTYPE_KEYS ->
          groupOfTrait traitGroupByIdentifier trait
          = Threw "rawGroupLabel.toLowerCase is not a function")
         /\ (~ In (traitId trait) OBJECT_PROTOTYPE_KEYS ->
             groupOfTrait traitGroupByIdentifier trait = Returned "Other"))
  /\ (forall trait value,
         traitGroupByIdentifier !! traitId trait = Some value ->
         groupOfTrait traitGroupByIdentifier trait
         = match value with
           | JString rawGroupLabel => Returned (normalizeTraitGroupLabel rawGroupLabel)
           | JNull => Returned "Other"
           | _ => Threw "rawGroupLabel.toLowerCase is not a function"
           end).
Proof.
  intros grouped.
  pose proof (forEachTrait_holds traitGroupByIdentifier traits [] emptyGroups
                (emptyGroups_hold traitGroupByIdentifier)) as Hhold.
  simpl in Hhold. fold (groupedCharacterTraits traits traitGroupByIdentifier) in Hhold.
  fold grouped in Hhold.
  split; [ | split; [ | split]].
  - intros Hreadable.
    destruct grouped as [groupedTraits|message];
      [ | destruct Hhold as (trait & Hin & Hthrown);
          destruct (Hreadable trait Hin) as [traitGroupLabel Hgroup]; congruence ].
    destruct Hhold as [Hhold _].
    exists groupedTraits. split; [reflexivity | ]. split; [ | split; [ | split]].
    + intros groupLabel Hknown. rewrite Hhold.
      destruct (decide _); [reflexivity | contradiction].
    + intros groupLabel Hunknown. rewrite Hhold.
      destruct (decide _); [contradiction | reflexivity].
    + intros trait Hin. destruct (Hreadable trait Hin) as [traitGroupLabel Hgroup].
      exists traitGroupLabel. rewrite Hhold.
      destruct (decide _) as [? | Hout];
        [ | exfalso; apply Hout; exact (groupOfTrait_known _ _ _ Hgroup)].
      eexists. split; [exact Hgroup | split; [reflexivity | ]].
      apply List.filter_In. split; [exact Hin | ].
      unfold inGroup. rewrite Hgroup. apply String.eqb_refl.
    + intros groupLabel shown trait Hshown Hin. rewrite Hhold in Hshown.
      destruct (decide _); [ | discriminate]. injection Hshown as <-.
      apply List.filter_In in Hin. destruct Hin as [Hin Hgroup].
      unfold inGroup in Hgroup.
      destruct (groupOfTrait traitGroupByIdentifier trait) as [traitGroupLabel|];
        [ | discriminate].
      apply String.eqb_eq in Hgroup. subst traitGroupLabel. split; [reflexivity | exact Hin].
  - intros (trait & message & Hin & Hthrown).
    destruct grouped as [groupedTraits|thrown].
    + destruct Hhold as [_ Hreadable].
      destruct (Hreadable trait Hin) as [traitGroupLabel Hgroup]. congruence.
    + destruct Hhold as (other & _ & Hother).
      rewrite (groupOfTrait_message _ _ _ Hother). reflexivity.
  - intros trait Hown. unfold groupOfTrait, readPlainObject. rewrite Hown. split.
    + intros Hinherited.
      replace (existsb (String.eqb (traitId trait)) OBJECT_PROTOTYPE_KEYS) with true;
        [reflexivity | ].
      symmetry. apply existsb_exists. exists (traitId trait).
      split; [exact Hinherited | apply String.eqb_refl].
    + intros Hplain.
      replace (existsb (String.eqb (traitId trait)) OBJECT_PROTOTYPE_KEYS) with false;
        [reflexivity | ].
      symmetry. apply not_true_is_false. intros Hfound.
      apply existsb_exists in Hfound. destruct Hfound as (name & Hname & Hsame).
      apply String.eqb_eq in Hsame. subst name. exact (Hplain Hname).
  - intros trait value Hown. unfold groupOfTrait, readPlainObject. rewrite Hown.
    destruct value; reflexivity.
Qed.

Lemma every_trait_is_shown_in_one_group_witness :
  (exists groupedTraits,
      groupedCharacterTraits sampleTraits sampleTraitGroups = Returned groupedTraits
      /\ groupedTraits !! "Hair"
         = Some [{| traitId := "i1"; traitName := "Black hair" |};
                 {| traitId := "i4"; traitName := "Long hair" |}])
  /\ groupedCharacterTraits inheritedNameTraits sampleTraitGroups
     = Threw "rawGroupLabel.toLowerCase is not a function".
Proof.
  split.
  - assert (Hreadable :
              forall trait,
                In trait (shownTraits sampleTraits) ->
                exists traitGroupLabel,
                  groupOfTrait sampleTraitGroups trait = Returned traitGroupLabel).
    { intros trait Hin. simpl in Hin.
      destruct Hin as [<- | [<- | [<- | []]]]; eexists; vm_compute; reflexivity. }
    destruct (proj1 (every_trait_is_shown_in_one_group sampleTraits sampleTraitGroups)
                Hreadable)
      as (groupedTraits & Hgrouped & Hgroups & _).
    exists groupedTraits. split; [exact Hgrouped | ].
    rewrite (Hgroups "Hair") by (simpl; tauto).
    vm_compute. reflexivity.
  - apply (proj1 (proj2 (every_trait_is_shown_in_one_group inheritedNameTraits
                           sampleTraitGroups))).
    exists {| traitId := "constructor"; traitName := "Builder" |}.
    exists "rawGroupLabel.toLowerCase is not a function".
    split; [right; left; reflexivity | vm_compute; reflexivity].
Defined.

End TraitFacts.

(** ** The lookup of one entry of the personal list *)

Section ListEntryFacts.
Import Client Payloads ClientListEntry.
Context `{P : Platform}.
Variable authenticationToken : string.

Lemma bind_ext {A B} (call : Async A) (next next' : A -> Async B) (st : ClientState) :
  (forall value st', next value st' = next' value st') ->
  bind call next st = bind call next' st.
Proof.
  intros Hsame. unfold bind. destruct (call st) as [[value|message] st']; [apply Hsame | reflexivity].
Qed.

Lemma sends_weaken {A} (bound bound' : nat) (call : Async A) :
  (bound <= bound')%nat ->
  sendsAtMost authenticationToken bound call ->
  sendsAtMost authenticationToken bound' call.
Proof.
  intros Hle Hcall st. destruct (Hcall st) as (made & Hmade & Hlength & Hposts).
  exists made. split; [exact Hmade | split; [lia | exact Hposts]].
Qed.

Lemma sends_nothing {A} (call : Async A) :
  (forall st, snd (call st) = st) -> sendsAtMost authenticationToken 0 call.
Proof.
  intros Hsame st. exists []. rewrite Hsame, app_nil_r.
  split; [reflexivity | split; [simpl; lia | constructor]].
Qed.

Lemma sends_ret {A} (value : A) : sendsAtMost authenticationToken 0 (ret value).
Proof. apply sends_nothing. reflexivity. Qed.

Lemma sends_throw {A} (message : string) :
  sendsAtMost authenticationToken 0 (@throw ClientState A message).
Proof. apply sends_nothing. reflexivity. Qed.

Lemma sends_bind {A B} (first rest : nat) (call : Async A) (next : A -> Async B) :
  sendsAtMost authenticationToken first call ->
  (forall value, sendsAtMost authenticationToken rest (next value)) ->
  sendsAtMost authenticationToken (first + rest) (bind call next).
Proof.
  intros Hcall Hnext st. destruct (Hcall st) as (made & Hmade & Hlength & Hposts).
  unfold bind. destruct (call st) as [[value|message] st']; simpl in *.
  - destruct (Hnext value st') as (later & Hlater & Hlength' & Hposts').
    exists (made ++ later)%list. rewrite Hlater, Hmade, app_assoc.
    split; [reflexivity | split; [rewrite length_app; lia | apply Forall_app; tauto]].
  - exists made. split; [exact Hmade | split; [lia | exact Hposts]].
Qed.

Lemma sends_ulist (requestPayload : list (string * Json)) :
  sendsAtMost authenticationToken 1 (executeUlistRequest authenticationToken requestPayload).
Proof.
  intros st. unfold executeUlistRequest. rewrite awaitFetch_run. cbn [snd exchanges].
  eexists. split; [reflexivity | split; [simpl; lia | ]].
  constructor; [ | constructor]. exists (JObject requestPayload). reflexivity.
Qed.

Lemma sends_membership (userIdentifier : string) :
  sendsAtMost authenticationToken 40
    (fetchAuthenticatedUserVisualNovelIdentifierSet authenticationToken userIdentifier).
Proof.
  intros st. unfold fetchAuthenticatedUserVisualNovelIdentifierSet.
  destruct (identifierSetLoop_trace (Z.to_nat MAXIMUM_USER_LIST_PAGES) authenticationToken
              (normalizeUserIdentifier userIdentifier) ∅ 1 true st)
    as (made & Hmade & (Hlength & Hrequests & _) & _).
  exists made. split; [exact Hmade | split; [exact Hlength | ]].
  apply Forall_lookup. intros i [request outcome] Hlookup.
  rewrite (Hrequests i request outcome Hlookup). eexists. reflexivity.
Qed.

Lemma sends_awaitJson (networkResponse : HttpResponse) :
  sendsAtMost authenticationToken 0 (awaitJson networkResponse).
Proof.
  apply sends_nothing. intros st. unfold awaitJson.
  destruct (bodyJson networkResponse); reflexivity.
Qed.

Lemma sends_readProperty (value : Json) (key : string) :
  sendsAtMost authenticationToken 0 (readProperty value key).
Proof. apply sends_nothing. intros st. destruct value; reflexivity. Qed.

Lemma sends_find (normalizedVisualNovelIdentifier : string) (rawEntries : list Json) :
  sendsAtMost authenticationToken 0
    (findMatchingEntry normalizedVisualNovelIdentifier rawEntries).
Proof.
  apply sends_nothing. intros st.
  induction rawEntries as [|entry rest IH]; simpl; [reflexivity | ].
  destruct entry; try reflexivity;
    destruct (entryMatches _ _); first [reflexivity | exact IH].
Qed.

Lemma sends_filtered (normalizedUserIdentifier normalizedVisualNovelIdentifier : string) :
  sendsAtMost authenticationToken 1
    (executeFilteredLookup authenticationToken normalizedUserIdentifier
       normalizedVisualNovelIdentifier).
Proof.
  unfold executeFilteredLookup.
  apply (sends_bind 1 0); [apply sends_ulist | ]. intros networkResponse.
  destruct (negb (ok networkResponse)).
  - destruct (status networkResponse =? 400); [apply sends_ret | apply sends_throw].
  - apply (sends_bind 0 0); [apply sends_awaitJson | ]. intros responsePayload.
    apply (sends_bind 0 0); [apply sends_readProperty | ]. intros results.
    destruct (match results with Some (JArray items) => head items | _ => None end)
      as [entry|]; [destruct (truthy entry) | ]; apply sends_ret.
Qed.

Lemma sends_loop (userIdentifier normalizedUserIdentifier
                    normalizedVisualNovelIdentifier : string) (fuel : nat) :
  forall (activePageNumber : Z) (hasMorePages : bool),
    sendsAtMost authenticationToken (Z.to_nat (41 - activePageNumber) + 40)
      (listEntryLoop fuel authenticationToken userIdentifier normalizedUserIdentifier
         normalizedVisualNovelIdentifier activePageNumber hasMorePages).
Proof.
  induction fuel as [|fuel IH]; intros activePageNumber hasMorePages.
  - apply (sends_weaken 0); [lia | apply sends_ret].
  - cbn [listEntryLoop].
    destruct (hasMorePages && (activePageNumber <=? 40)) eqn:Hguard;
      [ | apply (sends_weaken 0); [lia | apply sends_ret]].
    apply andb_prop in Hguard. destruct Hguard as [_ Hpage]. apply Z.leb_le in Hpage.
    apply (sends_weaken (1 + (Z.to_nat (41 - (activePageNumber + 1)) + 40))); [lia | ].
    apply sends_bind; [apply sends_ulist | ]. intros networkResponse.
    destruct (negb (ok networkResponse) && (status networkResponse =? 400)).
    + apply (sends_weaken (40 + 0)); [lia | ].
      apply sends_bind; [apply sends_membership | ]. intros identifierSet. apply sends_ret.
    + destruct (negb (ok networkResponse));
        [apply (sends_weaken 0); [lia | apply sends_throw] | ].
      apply (sends_bind 0); [apply sends_awaitJson | ]. intros responsePayload.
      apply (sends_bind 0); [apply sends_readProperty | ]. intros results.
      apply (sends_bind 0); [apply sends_find | ]. intros [entry|].
      * apply (sends_weaken 0); [lia | apply sends_ret].
      * apply IH.
Qed.

Lemma listEntryLoop_fuel (userIdentifier normalizedUserIdentifier
                            normalizedVisualNovelIdentifier : string) (fuel : nat) :
  forall (fuel' : nat) (activePageNumber : Z) (hasMorePages : bool) (st : ClientState),
    (Z.to_nat (41 - activePageNumber) <= fuel)%nat ->
    (Z.to_nat (41 - activePageNumber) <= fuel')%nat ->
    listEntryLoop fuel authenticationToken userIdentifier normalizedUserIdentifier
      normalizedVisualNovelIdentifier activePageNumber hasMorePages st
    = listEntryLoop fuel' authenticationToken userIdentifier normalizedUserIdentifier
        normalizedVisualNovelIdentifier activePageNumber hasMorePages st.
Proof.
  assert (Hexit : forall fuel activePageNumber hasMorePages st,
             hasMorePages && (activePageNumber <=? 40) = false ->
             listEntryLoop fuel authenticationToken userIdentifier normalizedUserIdentifier
               normalizedVisualNovelIdentifier activePageNumber hasMorePages st
             = (Returned notInList, st)).
  { intros [|n] activePageNumber hasMorePages st Hguard; [reflexivity | ].
    cbn [listEntryLoop]. rewrite Hguard. reflexivity. }
  induction fuel as [|fuel IH]; intros fuel' activePageNumber hasMorePages st Hfuel Hfuel'.
  - rewrite !Hexit; [reflexivity | | ];
      apply andb_false_intro2, Z.leb_gt; lia.
  - destruct (hasMorePages && (activePageNumber <=? 40)) eqn:Hguard;
      [ | rewrite !Hexit by exact Hguard; reflexivity].
    pose proof Hguard as Hpage. apply andb_prop in Hpage. destruct Hpage as [_ Hpage].
    apply Z.leb_le in Hpage.
    destruct fuel' as [|fuel']; [lia | ].
    cbn [listEntryLoop]. rewrite Hguard.
    apply bind_ext. intros networkResponse st1.
    destruct (negb (ok networkResponse) && (status networkResponse =? 400)); [reflexivity | ].
    destruct (negb (ok networkResponse)); [reflexivity | ].
    apply bind_ext. intros responsePayload st2.
    apply bind_ext. intros results st3.
    apply bind_ext. intros [entry|] st4; [reflexivity | ].
    apply IH; lia.
Qed.

(** X30.  The lookup of one entry of the personal list sends at most 81
    requests, whatever the remote answers: the filtered lookup, at most
    40 pages of the list, and at most 40 pages of the identifier
    fallback; every one of them is a POST to [/ulist] under the token of
    the caller.  The first request is the filtered lookup, and unless the
    remote rejects it with status 400 it is the only one.  The bound of
    40 pages, not the fuel of the model, ends the paging. *)
Theorem list_entry_lookup_sends_at_most_81_requests
    (userIdentifier visualNovelIdentifier : string) (st : ClientState) :
  let result :=
    fetchAuthenticatedUserVisualNovelListEntry authenticationToken userIdentifier
      visualNovelIdentifier st in
  let filteredRequest :=
    ulistPost authenticationToken
      (JObject (filteredPayload (normalizeUserIdentifier userIdentifier)
                  (normalizeVisualNovelIdentifier visualNovelIdentifier))) in
  let firstOutcome := fst (fetch filteredRequest (env st)) in
  (exists later,
      exchanges (snd result) = (exchanges st ++ (filteredRequest, firstOutcome) :: later)%list
      /\ (length later <= 80)%nat
      /\ Forall (isUlistPost authenticationToken) later
      /\ (~ rejectedAsBadRequest firstOutcome -> later = []))
  /\ (forall extraFuel activePageNumber hasMorePages st',
         1 <= activePageNumber ->
         listEntryLoop (40 + extraFuel) authenticationToken userIdentifier
           (normalizeUserIdentifier userIdentifier)
           (normalizeVisualNovelIdentifier visualNovelIdentifier)
           activePageNumber hasMorePages st'
         = listEntryLoop 40 authenticationToken userIdentifier
             (normalizeUserIdentifier userIdentifier)
             (normalizeVisualNovelIdentifier visualNovelIdentifier)
             activePageNumber hasMorePages st').
Proof.
  intros result filteredRequest firstOutcome. split.
  - subst result. unfold fetchAuthenticatedUserVisualNovelListEntry.
    unfold bind at 1. unfold executeFilteredLookup at 1. unfold bind at 1.
    unfold executeUlistRequest at 1. rewrite awaitFetch_run.
    change {| method := "POST"; url := buildVndbApiUrl "/ulist";
              headers := [jsonContentType; authorizationHeader authenticationToken];
              body := Some (JObject (filteredPayload (normalizeUserIdentifier userIdentifier)
                                       (normalizeVisualNovelIdentifier visualNovelIdentifier)))
           |} with filteredRequest.
    fold firstOutcome.
    assert (Hdone : forall (completion : Completion ListEntryStatus) (st1 : ClientState),
               exchanges st1 = (exchanges st ++ [(filteredRequest, firstOutcome)])%list ->
               exists later,
                 exchanges (snd (completion, st1))
                 = (exchanges st ++ (filteredRequest, firstOutcome) :: later)%list
                 /\ (length later <= 80)%nat
                 /\ Forall (isUlistPost authenticationToken) later
                 /\ (~ rejectedAsBadRequest firstOutcome -> later = [])).
    { intros completion st1 Hsent. exists []. simpl.
      split; [exact Hsent | split; [lia | split; [constructor | reflexivity]]]. }
    destruct firstOutcome as [networkResponse|message] eqn:Houtcome;
      [ | apply Hdone; reflexivity].
    destruct (ok networkResponse) eqn:Hok; cbn [negb].
    + unfold bind, awaitJson.
      destruct (bodyJson networkResponse) as [responsePayload|];
        [ | apply Hdone; reflexivity].
      unfold ret at 1. unfold readProperty.
      destruct responsePayload as [|flag|number|text|items|fields];
        try (apply Hdone; reflexivity);
        unfold ret at 1; cbn [property];
        repeat match goal with
               | |- context [match ?scrutinee with Some _ => _ | None => _ end] =>
                   destruct scrutinee
               | |- context [match ?scrutinee with JArray _ => _ | _ => _ end] =>
                   destruct scrutinee
               | |- context [if truthy ?entry then _ else _] => destruct (truthy entry)
               end; apply Hdone; reflexivity.
    + destruct (status networkResponse =? 400) eqn:Hstatus;
        [ | apply Hdone; reflexivity].
      unfold ret at 1.
      match goal with
      | |- context [listEntryLoop _ _ _ _ _ _ _ ?st1] =>
          destruct (sends_loop userIdentifier (normalizeUserIdentifier userIdentifier)
                      (normalizeVisualNovelIdentifier visualNovelIdentifier) 40 1 true st1)
            as (later & Hlater & Hlength & Hposts)
      end.
      exists later. rewrite Hlater. cbn [exchanges]. rewrite <- app_assoc.
      split; [reflexivity | split; [simpl in Hlength; lia | split; [exact Hposts | ]]].
      intros Hnot. exfalso. apply Hnot. exists networkResponse.
      split; [reflexivity | apply Z.eqb_eq; exact Hstatus].
  - intros extraFuel activePageNumber hasMorePages st' Hpage.
    apply listEntryLoop_fuel; lia.
Qed.

End ListEntryFacts.

Section ListEntryRuns.
Import Client Payloads ClientListEntry.

Lemma list_entry_lookup_sends_at_most_81_requests_witness :
  length (exchanges (snd (fetchAuthenticatedUserVisualNovelListEntry "token" "u7" "V17"
                            acceptsThenAnswersNothing)))
  = 1%nat.
Proof.
  destruct (proj1 (list_entry_lookup_sends_at_most_81_requests "token" "u7" "V17"
                     acceptsThenAnswersNothing))
    as (later & Hmade & _ & _ & Honly).
  rewrite Hmade, Honly; [reflexivity | ].
  intros (networkResponse & Hresolved & Hstatus).
  vm_compute in Hresolved. injection Hresolved as <-. discriminate.
Defined.

(** The paging path at a concrete input: the remote rejects the filtered
    lookup, and the first page holds the entry. *)
Example list_entry_is_found_by_paging :
  fetchAuthenticatedUserVisualNovelListEntry "token" "7" "17" filterUnsupported
  = (Returned {| isInList := true; labels := [2] |},
     snd (fetchAuthenticatedUserVisualNovelListEntry "token" "7" "17" filterUnsupported))
  /\ length (exchanges (snd (fetchAuthenticatedUserVisualNovelListEntry "token" "7" "17"
                               filterUnsupported))) = 2%nat.
Proof. split; vm_compute; reflexivity. Qed.

End ListEntryRuns.

(** ** The compatibility fallback, call site by call site *)

Section CharacterLookupFacts.
Import Client ClientReads ClientMetadata ClientListEntry ClientCharacters.
Context `{P : Platform}.
Variable positiveNumber : string -> option Json.

Lemma readCache_miss (cacheKey : string) (ms : ModuleState) :
  characterQueryCache ms !! cacheKey = None ->
  readCache CharacterQueries cacheKey ms = (Returned JNull, ms).
Proof.
  intros Hmiss. unfold readCache, readFromCache. cbn [cacheOf]. rewrite Hmiss.
  f_equal. destruct ms; reflexivity.
Qed.

Lemma liftClient_awaitFetch (request : HttpRequest) (ms : ModuleState) :
  liftClient (awaitFetch request) ms
  = (match fst (fetch request (env (client ms))) with
     | Resolved networkResponse => Returned networkResponse
     | Rejected message => Threw message
     end,
     afterRequest request ms).
Proof. unfold liftClient. rewrite awaitFetch_run. reflexivity. Qed.

Lemma tryFilterCandidates_step (filterCandidate : Json) (later : list Json)
    (ms : ModuleState) :
  characterQueryCache ms !! filterCacheKey filterCandidate = None ->
  let request := characterRequest filterCandidate in
  tryFilterCandidates (filterCandidate :: later) ms
  = match fst (fetch request (env (client ms))) with
    | Rejected message => (Threw message, afterRequest request ms)
    | Resolved networkResponse =>
        if ok networkResponse
        then match bodyJson networkResponse with
             | None => (Threw "Unexpected token in JSON", afterRequest request ms)
             | Some responsePayload =>
                 (Returned (Some responsePayload),
                  snd (writeCache CharacterQueries (filterCacheKey filterCandidate)
                         responsePayload (afterRequest request ms)))
             end
        else if status networkResponse =? 400
             then tryFilterCandidates later (afterRequest request ms)
             else (Threw (characterFailure networkResponse), afterRequest request ms)
    end.
Proof.
  intros Hmiss request. cbn [tryFilterCandidates].
  unfold bind at 1. rewrite (readCache_miss _ _ Hmiss). cbn [truthy].
  unfold bind at 1. rewrite liftClient_awaitFetch. fold request.
  destruct (fst (fetch request (env (client ms)))) as [networkResponse|message];
    [ | reflexivity].
  destruct (ok networkResponse); cbn [negb];
    [ | destruct (status networkResponse =? 400); reflexivity].
  unfold bind, liftClient, awaitJson.
  destruct (bodyJson networkResponse) as [responsePayload|]; reflexivity.
Qed.

Lemma tryFieldCandidates_step (normalizedVisualNovelIdentifier fieldCandidate : string)
    (later : list string) (ms : ModuleState) :
  characterQueryCache ms !! fieldCacheKey normalizedVisualNovelIdentifier fieldCandidate
  = None ->
  let request := visualNovelRequest normalizedVisualNovelIdentifier fieldCandidate in
  tryFieldCandidates normalizedVisualNovelIdentifier (fieldCandidate :: later) ms
  = match fst (fetch request (env (client ms))) with
    | Rejected message => (Threw message, afterRequest request ms)
    | Resolved networkResponse =>
        if ok networkResponse
        then match bodyJson networkResponse with
             | None => (Threw "Unexpected token in JSON", afterRequest request ms)
             | Some JNull =>
                 (Threw "Cannot read properties of null", afterRequest request ms)
             | Some responsePayload =>
                 let normalizedCharacterPayload :=
                   nestedCharacters (property responsePayload "results") in
                 if (0 <? length normalizedCharacterPayload)%nat
                 then (Returned (Some (characterResponse normalizedCharacterPayload)),
                       snd (writeCache CharacterQueries
                              (fieldCacheKey normalizedVisualNovelIdentifier fieldCandidate)
                              (characterResponse normalizedCharacterPayload)
                              (afterRequest request ms)))
                 else tryFieldCandidates normalizedVisualNovelIdentifier later
                        (afterRequest request ms)
             end
        else if status networkResponse =? 400
             then tryFieldCandidates normalizedVisualNovelIdentifier later
                    (afterRequest request ms)
             else (Threw (characterFailure networkResponse), afterRequest request ms)
    end.
Proof.
  intros Hmiss request. cbn [tryFieldCandidates].
  unfold bind at 1. rewrite (readCache_miss _ _ Hmiss). cbn [truthy].
  unfold bind at 1. rewrite liftClient_awaitFetch. fold request.
  destruct (fst (fetch request (env (client ms)))) as [networkResponse|message];
    [ | reflexivity].
  destruct (ok networkResponse); cbn [negb];
    [ | destruct (status networkResponse =? 400); reflexivity].
  unfold bind at 1. unfold liftClient at 1. unfold awaitJson.
  destruct (bodyJson networkResponse) as [responsePayload|]; [ | reflexivity].
  unfold ret at 1. unfold bind at 1. unfold liftClient at 1. unfold readProperty.
  destruct responsePayload; try reflexivity;
    unfold ret at 1; cbv zeta;
    match goal with
    | |- context [(0 <? length ?entries)%nat] => destruct (0 <? length entries)%nat
    end; reflexivity.
Qed.

Lemma not_rejected_when_ok (networkResponse : HttpResponse) :
  ok networkResponse = true -> ~ rejectedAsBadRequest (Resolved networkResponse).
Proof.
  intros Hok (other & Hsame & Hstatus). injection Hsame as <-.
  rewrite (ok_400 _ Hstatus) in Hok. discriminate.
Qed.

Lemma tried_nil : triedInOrder [] [] (Returned None).
Proof.
  unfold triedInOrder. repeat split; try reflexivity; try discriminate; try contradiction.
Qed.

Lemma tried_none_made (made : list (HttpRequest * FetchOutcome))
    (completion : Completion (option Json)) :
  triedInOrder [] made completion -> made = [] /\ completion = Returned None.
Proof.
  intros (Hprefix & _ & _ & _ & Hall & _).
  assert (Hnone : made = []).
  { rewrite take_nil in Hprefix. destruct made; [reflexivity | discriminate]. }
  split; [exact Hnone | ]. apply Hall. rewrite Hnone. constructor.
Qed.

Lemma tried_length (requests : list HttpRequest) (made : list (HttpRequest * FetchOutcome))
    (completion : Completion (option Json)) :
  triedInOrder requests made completion -> (length made <= length requests)%nat.
Proof.
  intros (Hprefix & _). apply (f_equal length) in Hprefix.
  rewrite length_map, length_take in Hprefix. lia.
Qed.

(** The exchange that ends the loop. *)
Lemma tried_end (request : HttpRequest) (outcome : FetchOutcome) (later : list HttpRequest)
    (completion : Completion (option Json)) :
  ~ rejectedAsBadRequest outcome ->
  completion <> Returned None ->
  (forall networkResponse,
      outcome = Resolved networkResponse ->
      ok networkResponse = false ->
      completion = Threw (characterFailure networkResponse)) ->
  triedInOrder (request :: later) [(request, outcome)] completion.
Proof.
  intros Hnot Hended Hfailure. unfold triedInOrder.
  split; [reflexivity | ]. split; [discriminate | ].
  split; [ | split; [ | split]].
  - intros [|i] other otherOutcome Hlookup Hrejected; [ | discriminate].
    injection Hlookup as <- <-. contradiction.
  - contradiction.
  - intros Hall. inversion Hall as [|exchange rest Hrejected _]. contradiction.
  - intros [|i] other networkResponse Hlookup Hfailed _; [ | discriminate].
    injection Hlookup as _ Hsame. split; [reflexivity | ].
    exact (Hfailure networkResponse Hsame Hfailed).
Qed.

(** An exchange after which the loop goes on. *)
Lemma tried_cons (request : HttpRequest) (outcome : FetchOutcome) (later : list HttpRequest)
    (made : list (HttpRequest * FetchOutcome)) (completion : Completion (option Json)) :
  triedInOrder later made completion ->
  (forall networkResponse,
      outcome = Resolved networkResponse ->
      ok networkResponse = false ->
      status networkResponse = 400) ->
  triedInOrder (request :: later) ((request, outcome) :: made) completion.
Proof.
  intros Hlater Hgoes_on.
  pose proof Hlater as (Hprefix & Hsome & Hnext & Hend & Hall & Hfailure).
  unfold triedInOrder. split; [simpl; rewrite Hprefix; reflexivity | ].
  split; [discriminate | ]. split; [ | split; [ | split]].
  - intros [|i] other otherOutcome Hlookup Hrejected.
    + split.
      * simpl. intros Hmore. destruct later as [|following rest]; [simpl in Hmore; lia | ].
        assert (Hfilled : made <> []) by (apply Hsome; discriminate).
        destruct made; [contradiction | simpl; lia].
      * simpl. intros Hlast. destruct later; [ | discriminate].
        exact (proj2 (tried_none_made _ _ Hlater)).
    + simpl in Hlookup. destruct (Hnext i other otherOutcome Hlookup Hrejected) as [Hmore Hlast].
      split; simpl; intros Hlength; [ | apply Hlast; lia].
      assert (S i < length made)%nat by (apply Hmore; lia). lia.
  - intros Hnone. simpl. rewrite (Hend Hnone). reflexivity.
  - intros Hevery. inversion Hevery as [|exchange rest _ Hrest]. exact (Hall Hrest).
  - intros [|i] other networkResponse Hlookup Hfailed Hstatus.
    + injection Hlookup as _ Hsame.
      exfalso. exact (Hstatus (Hgoes_on networkResponse Hsame Hfailed)).
    + simpl in Hlookup.
      destruct (Hfailure i other networkResponse Hlookup Hfailed Hstatus) as [Hlast Hthrown].
      split; [simpl; rewrite Hlast; reflexivity | exact Hthrown].
Qed.

(** A loop that ran to its end, followed by a second loop. *)
Lemma tried_app (first second : list HttpRequest)
    (madeFirst madeSecond : list (HttpRequest * FetchOutcome))
    (completion : Completion (option Json)) :
  triedInOrder first madeFirst (Returned None) ->
  triedInOrder second madeSecond completion ->
  triedInOrder (first ++ second) (madeFirst ++ madeSecond) completion.
Proof.
  intros Hfirst Hsecond.
  pose proof (tried_length _ _ _ Hsecond) as Hbound.
  destruct Hfirst as (Hprefix1 & Hsome1 & Hnext1 & Hend1 & _ & Hfailure1).
  pose proof Hsecond as (Hprefix2 & Hsome2 & Hnext2 & Hend2 & Hall2 & Hfailure2).
  specialize (Hend1 eq_refl).
  assert (Hwhole : map fst madeFirst = first).
  { rewrite Hprefix1, Hend1. apply firstn_all. }
  unfold triedInOrder. split; [ | split; [ | split; [ | split; [ | split]]]].
  - rewrite map_app, Hwhole, Hprefix2, length_app, Hend1.
    rewrite take_app_add'; reflexivity.
  - intros Hfilled Hnone. apply app_eq_nil in Hnone. destruct Hnone as [-> ->].
    simpl in Hend1. destruct first; [ | discriminate].
    apply Hsome2; [exact Hfilled | reflexivity].
  - intros i request outcome Hlookup Hrejected. rewrite !length_app.
    destruct (Nat.lt_ge_cases i (length madeFirst)) as [Hin | Hout].
    + rewrite lookup_app_l in Hlookup by exact Hin. split.
      * intros Hmore. destruct madeSecond as [|exchange rest]; [ | simpl; lia].
        destruct second as [|following others]; [simpl in Hmore; lia | ].
        exfalso. apply Hsome2; [discriminate | reflexivity].
      * intros Hlast. destruct second as [|following others]; [ | simpl in Hlast; lia].
        exact (proj2 (tried_none_made _ _ Hsecond)).
    + rewrite lookup_app_r in Hlookup by exact Hout.
      destruct (Hnext2 _ _ _ Hlookup Hrejected) as [Hmore Hlast].
      split; intros Hlength; [ | apply Hlast; lia].
      assert (S (i - length madeFirst) < length madeSecond)%nat by (apply Hmore; lia). lia.
  - intros Hnone. rewrite !length_app, Hend1, (Hend2 Hnone). reflexivity.
  - intros Hevery. apply Forall_app in Hevery. exact (Hall2 (proj2 Hevery)).
  - intros i request networkResponse Hlookup Hfailed Hstatus. rewrite length_app.
    destruct (Nat.lt_ge_cases i (length madeFirst)) as [Hin | Hout].
    + rewrite lookup_app_l in Hlookup by exact Hin.
      destruct (Hfailure1 _ _ _ Hlookup Hfailed Hstatus) as [_ Habsurd]. discriminate.
    + rewrite lookup_app_r in Hlookup by exact Hout.
      destruct (Hfailure2 _ _ _ Hlookup Hfailed Hstatus) as [Hlast Hthrown].
      split; [lia | exact Hthrown].
Qed.

(** A loop that ended the call, with the shapes that were not reached. *)
Lemma tried_stopped (first second : list HttpRequest)
    (made : list (HttpRequest * FetchOutcome)) (completion : Completion (option Json)) :
  triedInOrder first made completion ->
  completion <> Returned None ->
  triedInOrder (first ++ second) made completion.
Proof.
  intros Hfirst Hended.
  pose proof (tried_length _ _ _ Hfirst) as Hbound.
  destruct Hfirst as (Hprefix & Hsome & Hnext & Hend & Hall & Hfailure).
  unfold triedInOrder. split; [ | split; [ | split; [ | split; [ | split]]]].
  - rewrite Hprefix. symmetry. apply take_app_le. exact Hbound.
  - intros _ Hnone. apply Hended, Hall. rewrite Hnone. constructor.
  - intros i request outcome Hlookup Hrejected.
    pose proof (lookup_lt_Some _ _ _ Hlookup) as Hin.
    destruct (Hnext _ _ _ Hlookup Hrejected) as [Hmore Hlast].
    rewrite length_app. split.
    + intros Hlength. destruct (Nat.lt_ge_cases (S i) (length first)) as [Hless | Hnot].
      * exact (Hmore Hless).
      * exfalso. apply Hended, Hlast. lia.
    + intros Hlength. apply Hlast. lia.
  - intros Hnone. contradiction.
  - exact Hall.
  - exact Hfailure.
Qed.

Lemma tryFilterCandidates_tried (candidates : list Json) :
  forall ms,
    (forall filterCandidate,
        In filterCandidate candidates ->
        characterQueryCache ms !! filterCacheKey filterCandidate = None) ->
    exists made,
      exchanges (client (snd (tryFilterCandidates candidates ms)))
      = (exchanges (client ms) ++ made)%list
      /\ triedInOrder (map characterRequest candidates) made
           (fst (tryFilterCandidates candidates ms)).
Proof.
  induction candidates as [|filterCandidate later IH]; intros ms Hmiss.
  - exists []. split; [simpl; rewrite app_nil_r; reflexivity | apply tried_nil].
  - rewrite (tryFilterCandidates_step _ _ _ (Hmiss filterCandidate (or_introl eq_refl))).
    cbv zeta.
    set (request := characterRequest filterCandidate).
    destruct (fst (fetch request (env (client ms)))) as [networkResponse|message] eqn:Houtcome.
    + destruct (ok networkResponse) eqn:Hok.
      * exists [(request, Resolved networkResponse)].
        destruct (bodyJson networkResponse) as [responsePayload|];
          (split; [cbn; rewrite Houtcome; reflexivity | ]);
          (apply tried_end;
           [apply not_rejected_when_ok; exact Hok | discriminate
           | intros other Hsame Hfailed; injection Hsame as <-; congruence]).
      * destruct (status networkResponse =? 400) eqn:Hstatus.
        -- destruct (IH (afterRequest request ms)
                          (fun candidate Hin => Hmiss candidate (or_intror Hin)))
             as (made & Hmade & Htried).
           exists ((request, Resolved networkResponse) :: made). split.
           ++ rewrite Hmade. cbn. rewrite Houtcome, <- app_assoc. reflexivity.
           ++ apply tried_cons; [exact Htried | ].
              intros other Hsame _. injection Hsame as <-. apply Z.eqb_eq. exact Hstatus.
        -- exists [(request, Resolved networkResponse)].
           split; [cbn; rewrite Houtcome; reflexivity | ].
           apply tried_end.
           ++ intros (other & Hsame & Hbad). injection Hsame as <-.
              apply Z.eqb_neq in Hstatus. contradiction.
           ++ discriminate.
           ++ intros other Hsame _. injection Hsame as <-. reflexivity.
    + exists [(request, Rejected message)].
      split; [cbn; rewrite Houtcome; reflexivity | ].
      apply tried_end.
      * intros (other & Hsame & _). discriminate.
      * discriminate.
      * intros other Hsame. discriminate.
Qed.

Lemma tryFieldCandidates_tried (normalizedVisualNovelIdentifier : string)
    (fieldCandidates : list string) :
  forall ms,
    (forall fieldCandidate,
        In fieldCandidate fieldCandidates ->
        characterQueryCache ms
          !! fieldCacheKey normalizedVisualNovelIdentifier fieldCandidate
        = None) ->
    exists made,
      exchanges (client (snd (tryFieldCandidates normalizedVisualNovelIdentifier
                                fieldCandidates ms)))
      = (exchanges (client ms) ++ made)%list
      /\ triedInOrder
           (map (visualNovelRequest normalizedVisualNovelIdentifier) fieldCandidates) made
           (fst (tryFieldCandidates normalizedVisualNovelIdentifier fieldCandidates ms))
      /\ (fst (tryFieldCandidates normalizedVisualNovelIdentifier fieldCandidates ms)
          = Returned None ->
          characterQueryCache
            (snd (tryFieldCandidates normalizedVisualNovelIdentifier fieldCandidates ms))
          = characterQueryCache ms).
Proof.
  induction fieldCandidates as [|fieldCandidate later IH]; intros ms Hmiss.
  - exists []. split; [simpl; rewrite app_nil_r; reflexivity | ].
    split; [apply tried_nil | intros _; reflexivity].
  - rewrite (tryFieldCandidates_step _ _ _ _ (Hmiss fieldCandidate (or_introl eq_refl))).
    cbv zeta.
    set (request := visualNovelRequest normalizedVisualNovelIdentifier fieldCandidate).
    assert (Hgoes_on :
              forall outcome,
                fst (fetch request (env (client ms))) = outcome ->
                (forall networkResponse,
                    outcome = Resolved networkResponse ->
                    ok networkResponse = false ->
                    status networkResponse = 400) ->
                exists made,
                  exchanges (client (snd (tryFieldCandidates normalizedVisualNovelIdentifier
                                            later (afterRequest request ms))))
                  = (exchanges (client ms) ++ made)%list
                  /\ triedInOrder
                       (map (visualNovelRequest normalizedVisualNovelIdentifier)
                            (fieldCandidate :: later))
                       made
                       (fst (tryFieldCandidates normalizedVisualNovelIdentifier later
                               (afterRequest request ms)))
                  /\ (fst (tryFieldCandidates normalizedVisualNovelIdentifier later
                             (afterRequest request ms))
                      = Returned None ->
                      characterQueryCache
                        (snd (tryFieldCandidates normalizedVisualNovelIdentifier later
                                (afterRequest request ms)))
                      = characterQueryCache ms)).
    { intros outcome Houtcome Hstatus.
      destruct (IH (afterRequest request ms)
                  (fun candidate Hin => Hmiss candidate (or_intror Hin)))
        as (made & Hmade & Htried & Hkept).
      exists ((request, outcome) :: made). split; [ | split].
      - rewrite Hmade. cbn. rewrite Houtcome, <- app_assoc. reflexivity.
      - apply tried_cons; assumption.
      - exact Hkept. }
    assert (Hends :
              forall outcome (completion : Completion (option Json)) (ms' : ModuleState),
                fst (fetch request (env (client ms))) = outcome ->
                exchanges (client ms') = exchanges (client (afterRequest request ms)) ->
                ~ rejectedAsBadRequest outcome ->
                completion <> Returned None ->
                (forall networkResponse,
                    outcome = Resolved networkResponse ->
                    ok networkResponse = false ->
                    completion = Threw (characterFailure networkResponse)) ->
                exists made,
                  exchanges (client (snd (completion, ms')))
                  = (exchanges (client ms) ++ made)%list
                  /\ triedInOrder
                       (map (visualNovelRequest normalizedVisualNovelIdentifier)
                            (fieldCandidate :: later))
                       made (fst (completion, ms'))
                  /\ (fst (completion, ms') = Returned None ->
                      characterQueryCache (snd (completion, ms'))
                      = characterQueryCache ms)).
    { intros outcome completion ms' Houtcome Hsame Hnot Hended Hfailure.
      exists [(request, outcome)]. split; [ | split].
      - cbn [snd]. rewrite Hsame. cbn. rewrite Houtcome. reflexivity.
      - apply tried_end; assumption.
      - intros Hnone. contradiction. }
    destruct (fst (fetch request (env (client ms)))) as [networkResponse|message] eqn:Houtcome.
    + destruct (ok networkResponse) eqn:Hok.
      * assert (Hstays : forall other,
                   Resolved networkResponse = Resolved other ->
                   ok other = false -> status other = 400)
          by (intros other Hsame Hfailed; injection Hsame as <-; congruence).
        assert (Hthrown : forall (completion : Completion (option Json)) other,
                   Resolved networkResponse = Resolved other ->
                   ok other = false ->
                   completion = Threw (characterFailure other))
          by (intros completion other Hsame Hfailed; injection Hsame as <-; congruence).
        destruct (bodyJson networkResponse) as [responsePayload|];
          [ | apply (Hends (Resolved networkResponse));
              [reflexivity | reflexivity | apply not_rejected_when_ok; exact Hok
              | discriminate | apply Hthrown] ].
        destruct responsePayload;
          try (apply (Hends (Resolved networkResponse));
               [reflexivity | reflexivity | apply not_rejected_when_ok; exact Hok
               | discriminate | apply Hthrown]);
          match goal with
          | |- context [(0 <? length ?entries)%nat] => destruct (0 <? length entries)%nat
          end;
          first [ apply (Hends (Resolved networkResponse));
                  [reflexivity | reflexivity | apply not_rejected_when_ok; exact Hok
                  | discriminate | apply Hthrown]
                | apply (Hgoes_on (Resolved networkResponse)); [reflexivity | exact Hstays] ].
      * destruct (status networkResponse =? 400) eqn:Hstatus.
        -- apply (Hgoes_on (Resolved networkResponse)); [reflexivity | ].
           intros other Hsame _. injection Hsame as <-. apply Z.eqb_eq. exact Hstatus.
        -- apply (Hends (Resolved networkResponse)); [reflexivity | reflexivity | | | ].
           ++ intros (other & Hsame & Hbad). injection Hsame as <-.
              apply Z.eqb_neq in Hstatus. contradiction.
           ++ discriminate.
           ++ intros other Hsame _. injection Hsame as <-. reflexivity.
    + apply (Hends (Rejected message)); [reflexivity | reflexivity | | | ].
      * intros (other & Hsame & _). discriminate.
      * discriminate.
      * intros other Hsame. discriminate.
Qed.

Lemma character_lookup_tried (visualNovelIdentifier : string) (ms : ModuleState) :
  characterCacheMiss positiveNumber visualNovelIdentifier ms ->
  let looked := fetchCharacterEntriesByVisualNovelId positiveNumber visualNovelIdentifier ms in
  exists made completion,
    exchanges (client (snd looked)) = (exchanges (client ms) ++ made)%list
    /\ triedInOrder (candidateRequests positiveNumber visualNovelIdentifier) made completion
    /\ fst looked = match completion with
                    | Returned (Some responsePayload) => Returned responsePayload
                    | Returned None => Returned emptyResponse
                    | Threw message => Threw message
                    end.
Proof.
  intros [Hfields Hfilters] looked. subst looked.
  unfold fetchCharacterEntriesByVisualNovelId, candidateRequests. cbv zeta.
  cbv zeta in Hfields, Hfilters.
  set (normalizedVisualNovelIdentifier := normalizeVisualNovelIdentifier visualNovelIdentifier)
    in *.
  set (candidates := filterCandidates normalizedVisualNovelIdentifier _) in *.
  destruct (tryFieldCandidates_tried normalizedVisualNovelIdentifier
              visualNovelCharacterFieldCandidates ms Hfields)
    as (madeFirst & HmadeFirst & HtriedFirst & Hkept).
  unfold bind.
  destruct (tryFieldCandidates normalizedVisualNovelIdentifier
              visualNovelCharacterFieldCandidates ms)
    as [[[responsePayload|]|message] ms1]; unfold ret; cbn [fst snd] in *.
  - exists madeFirst, (Returned (Some responsePayload)).
    split; [exact HmadeFirst | split; [ | reflexivity]].
    apply tried_stopped; [exact HtriedFirst | discriminate].
  - assert (Hstill : forall filterCandidate,
               In filterCandidate candidates ->
               characterQueryCache ms1 !! filterCacheKey filterCandidate = None)
      by (rewrite (Hkept eq_refl); exact Hfilters).
    destruct (tryFilterCandidates_tried candidates ms1 Hstill)
      as (madeSecond & HmadeSecond & HtriedSecond).
    exists (madeFirst ++ madeSecond)%list, (fst (tryFilterCandidates candidates ms1)).
    destruct (tryFilterCandidates candidates ms1) as [[[responsePayload|]|message] ms2];
      unfold ret; cbn [fst snd] in *;
      (split; [rewrite HmadeSecond, HmadeFirst, app_assoc; reflexivity | ]);
      (split; [apply tried_app; assumption | reflexivity]).
  - exists madeFirst, (Threw message).
    split; [exact HmadeFirst | split; [ | reflexivity]].
    apply tried_stopped; [exact HtriedFirst | discriminate].
Qed.

Lemma candidateRequests_length (visualNovelIdentifier : string) :
  length (candidateRequests positiveNumber visualNovelIdentifier)
  = match positiveNumber
            (withoutLeadingV (normalizeVisualNovelIdentifier visualNovelIdentifier)) with
    | Some _ => 8%nat
    | None => 5%nat
    end.
Proof.
  unfold candidateRequests, filterCandidates. cbv zeta.
  destruct (positiveNumber _); reflexivity.
Qed.

(** The lookup of one list entry stops after the filtered lookup unless
    that was rejected with status 400. *)
Lemma list_entry_no_fallback (authenticationToken userIdentifier
                                visualNovelIdentifier : string) (st : ClientState) :
  let filteredRequest :=
    ulistPost authenticationToken
      (JObject (filteredPayload (normalizeUserIdentifier userIdentifier)
                  (normalizeVisualNovelIdentifier visualNovelIdentifier))) in
  let result :=
    fetchAuthenticatedUserVisualNovelListEntry authenticationToken userIdentifier
      visualNovelIdentifier st in
  let firstOutcome := fst (fetch filteredRequest (env st)) in
  (forall firstResponse,
      firstOutcome = Resolved firstResponse -> status firstResponse <> 400) ->
  exchanges (snd result) = (exchanges st ++ [(filteredRequest, firstOutcome)])%list
  /\ ((forall firstResponse,
          firstOutcome = Resolved firstResponse -> ok firstResponse = false) ->
      threw (fst result)).
Proof.
  intros filteredRequest result firstOutcome Hother.
  assert (Hform :
            exists completion st1,
              result = (completion, st1)
              /\ exchanges st1 = (exchanges st ++ [(filteredRequest, firstOutcome)])%list
              /\ ((forall firstResponse,
                      firstOutcome = Resolved firstResponse -> ok firstResponse = false) ->
                  threw completion)).
  { subst result. unfold fetchAuthenticatedUserVisualNovelListEntry.
    unfold bind at 1. unfold executeFilteredLookup at 1. unfold bind at 1.
    unfold executeUlistRequest at 1. rewrite awaitFetch_run.
    change {| method := "POST"; url := buildVndbApiUrl "/ulist";
              headers := [jsonContentType; authorizationHeader authenticationToken];
              body := Some (JObject (filteredPayload (normalizeUserIdentifier userIdentifier)
                                       (normalizeVisualNovelIdentifier
                                          visualNovelIdentifier)))
           |} with filteredRequest.
    fold firstOutcome.
    destruct firstOutcome as [networkResponse|message] eqn:Houtcome;
      [ | eexists; eexists; split; [reflexivity | ];
          split; [reflexivity | intros _; apply threw_Threw] ].
    destruct (ok networkResponse) eqn:Hok; cbn [negb].
    - assert (Hsucceeded : (forall firstResponse,
                               Resolved networkResponse = Resolved firstResponse ->
                               ok firstResponse = false) ->
                           forall completion : Completion ListEntryStatus, threw completion).
      { intros Hfailed. specialize (Hfailed networkResponse eq_refl). congruence. }
      unfold bind, awaitJson.
      destruct (bodyJson networkResponse) as [responsePayload|];
        [ | eexists; eexists; split; [reflexivity | ];
            split; [reflexivity | intros _; apply threw_Threw] ].
      unfold ret at 1. unfold readProperty.
      destruct responsePayload as [|flag|number|text|items|fields];
        try (eexists; eexists; split; [reflexivity | ];
             split; [reflexivity | intros _; apply threw_Threw]);
        unfold ret at 1; cbn [property];
        repeat match goal with
               | |- context [match ?scrutinee with Some _ => _ | None => _ end] =>
                   destruct scrutinee
               | |- context [match ?scrutinee with JArray _ => _ | _ => _ end] =>
                   destruct scrutinee
               | |- context [if truthy ?entry then _ else _] => destruct (truthy entry)
               end;
        (eexists; eexists; split; [reflexivity | ]);
        (split; [reflexivity | intros Hfailed; apply Hsucceeded; exact Hfailed]).
    - destruct (Z.eqb_spec (status networkResponse) 400) as [Hstatus|_];
        [exfalso; exact (Hother networkResponse eq_refl Hstatus) | ].
      eexists; eexists; split; [reflexivity | ].
      split; [reflexivity | intros _; apply threw_Threw]. }
  destruct Hform as (completion & st1 & -> & Hsent & Hthrown).
  split; [exact Hsent | exact Hthrown].
Qed.

(** The lookup of one list entry falls back twice in a row. *)
Lemma list_entry_falls_back_twice (authenticationToken userIdentifier
                                     visualNovelIdentifier : string)
    (st : ClientState) (firstResponse secondResponse : HttpResponse) :
  let normalizedUserIdentifier := normalizeUserIdentifier userIdentifier in
  let filteredRequest :=
    ulistPost authenticationToken
      (JObject (filteredPayload normalizedUserIdentifier
                  (normalizeVisualNovelIdentifier visualNovelIdentifier))) in
  let labelsRequest :=
    ulistPost authenticationToken (JObject (labelsPayload normalizedUserIdentifier 1)) in
  let identifierRequest :=
    identifierPageRequest authenticationToken normalizedUserIdentifier 1 in
  let result :=
    fetchAuthenticatedUserVisualNovelListEntry authenticationToken userIdentifier
      visualNovelIdentifier st in
  let afterFirst := snd (fetch filteredRequest (env st)) in
  let afterSecond := snd (fetch labelsRequest afterFirst) in
  let thirdOutcome := fst (fetch identifierRequest afterSecond) in
  fst (fetch filteredRequest (env st)) = Resolved firstResponse ->
  status firstResponse = 400 ->
  fst (fetch labelsRequest afterFirst) = Resolved secondResponse ->
  status secondResponse = 400 ->
  exists later,
    exchanges (snd result)
    = (exchanges st ++ [(filteredRequest, Resolved firstResponse);
                        (labelsRequest, Resolved secondResponse);
                        (identifierRequest, thirdOutcome)] ++ later)%list
    /\ ((forall thirdResponse,
            thirdOutcome = Resolved thirdResponse -> ok thirdResponse = false) ->
        later = [] /\ threw (fst result)).
Proof.
  intros normalizedUserIdentifier filteredRequest labelsRequest identifierRequest result
         afterFirst afterSecond thirdOutcome Hfirst Hfirst_status Hsecond Hsecond_status.
  assert (Hrun : result = result) by reflexivity.
  unfold result at 2 in Hrun. clearbody result.
  unfold fetchAuthenticatedUserVisualNovelListEntry in Hrun.
  fold normalizedUserIdentifier in Hrun.
  unfold bind at 1 in Hrun. unfold executeFilteredLookup at 1 in Hrun.
  unfold bind at 1 in Hrun. unfold executeUlistRequest at 1 in Hrun.
  rewrite awaitFetch_run in Hrun.
  change {| method := "POST"; url := buildVndbApiUrl "/ulist";
            headers := [jsonContentType; authorizationHeader authenticationToken];
            body := Some (JObject (filteredPayload normalizedUserIdentifier
                                     (normalizeVisualNovelIdentifier visualNovelIdentifier)))
         |} with filteredRequest in Hrun.
  rewrite Hfirst, (ok_400 _ Hfirst_status) in Hrun. cbn [negb] in Hrun.
  rewrite Hfirst_status in Hrun. cbn [Z.eqb Pos.eqb] in Hrun. unfold ret at 1 in Hrun.
  change (listEntryLoop 40) with (listEntryLoop (S 39)) in Hrun.
  cbn [listEntryLoop andb] in Hrun.
  change (1 <=? 40) with true in Hrun. cbv iota in Hrun.
  unfold bind at 1 in Hrun. unfold executeUlistRequest at 1 in Hrun.
  rewrite awaitFetch_run in Hrun. cbn [env exchanges] in Hrun.
  change {| method := "POST"; url := buildVndbApiUrl "/ulist";
            headers := [jsonContentType; authorizationHeader authenticationToken];
            body := Some (JObject (labelsPayload normalizedUserIdentifier 1)) |}
    with labelsRequest in Hrun.
  fold afterFirst in Hrun. rewrite Hsecond, (ok_400 _ Hsecond_status) in Hrun.
  cbn [negb andb] in Hrun. rewrite Hsecond_status in Hrun. cbn [Z.eqb Pos.eqb] in Hrun.
  unfold bind at 1 in Hrun. unfold fetchAuthenticatedUserVisualNovelIdentifierSet in Hrun.
  fold normalizedUserIdentifier in Hrun.
  change (Z.to_nat MAXIMUM_USER_LIST_PAGES) with (S 39) in Hrun.
  rewrite identifierSetLoop_step in Hrun by lia. cbv zeta in Hrun.
  fold identifierRequest in Hrun.
  unfold afterExchange in Hrun. cbn [env exchanges userListQueryCache] in Hrun.
  fold afterSecond in Hrun. fold thirdOutcome in Hrun.
  rewrite Hrun. clear Hrun result.
  assert (Hwrap :
            forall inner : Completion (gset string) * ClientState,
              (exists later,
                  exchanges (snd inner)
                  = (exchanges st ++ [(filteredRequest, Resolved firstResponse);
                                      (labelsRequest, Resolved secondResponse);
                                      (identifierRequest, thirdOutcome)] ++ later)%list
                  /\ ((forall thirdResponse,
                          thirdOutcome = Resolved thirdResponse ->
                          ok thirdResponse = false) ->
                      later = [] /\ threw (fst inner))) ->
              exists later,
                exchanges
                  (snd (let (completion, st') := inner in
                        match completion with
                        | Returned identifierSet =>
                            ret {| isInList :=
                                     bool_decide
                                       (normalizeVisualNovelIdentifier visualNovelIdentifier
                                        ∈ identifierSet);
                                   labels := [] |} st'
                        | Threw message => (Threw message, st')
                        end))
                = (exchanges st ++ [(filteredRequest, Resolved firstResponse);
                                    (labelsRequest, Resolved secondResponse);
                                    (identifierRequest, thirdOutcome)] ++ later)%list
                /\ ((forall thirdResponse,
                        thirdOutcome = Resolved thirdResponse ->
                        ok thirdResponse = false) ->
                    later = []
                    /\ threw (fst (let (completion, st') := inner in
                                   match completion with
                                   | Returned identifierSet =>
                                       ret {| isInList :=
                                                bool_decide
                                                  (normalizeVisualNovelIdentifier
                                                     visualNovelIdentifier ∈ identifierSet);
                                              labels := [] |} st'
                                   | Threw message => (Threw message, st')
                                   end)))).
  { intros [[identifierSet|message] st'] (later & Hlater & Hfailed); exists later;
      (split; [exact Hlater | ]); intros Hbad; destruct (Hfailed Hbad) as [Hnone Hthrown];
      (split; [exact Hnone | ]).
    - destruct Hthrown as [message Habsurd]. discriminate.
    - apply threw_Threw. }
  apply Hwrap. clear Hwrap.
  assert (Hstop : forall (message : string) (st1 : ClientState),
             exchanges st1
             = (((exchanges st ++ [(filteredRequest, Resolved firstResponse)])
                 ++ [(labelsRequest, Resolved secondResponse)])
                ++ [(identifierRequest, thirdOutcome)])%list ->
             exists later,
               exchanges (snd (@Threw (gset string) message, st1))
               = (exchanges st ++ [(filteredRequest, Resolved firstResponse);
                                   (labelsRequest, Resolved secondResponse);
                                   (identifierRequest, thirdOutcome)] ++ later)%list
               /\ ((forall thirdResponse,
                       thirdOutcome = Resolved thirdResponse -> ok thirdResponse = false) ->
                   later = [] /\ threw (fst (@Threw (gset string) message, st1)))).
  { intros message st1 Hsent. exists []. cbn [snd fst].
    rewrite Hsent, <- !app_assoc. split; [reflexivity | ].
    intros _. split; [reflexivity | apply threw_Threw]. }
  destruct thirdOutcome as [thirdResponse|message] eqn:Hthird;
    [ | apply Hstop; reflexivity ].
  destruct (ok thirdResponse) eqn:Hok; [ | apply Hstop; reflexivity ].
  destruct (bodyJson thirdResponse) as [responsePayload|]; [ | apply Hstop; reflexivity ].
  assert (Hgoes_on :
            forall (fuel : nat) (identifierSet : gset string) (page : Z) (more : bool)
                   (st1 : ClientState),
              exchanges st1
              = (((exchanges st ++ [(filteredRequest, Resolved firstResponse)])
                  ++ [(labelsRequest, Resolved secondResponse)])
                 ++ [(identifierRequest, Resolved thirdResponse)])%list ->
              exists later,
                exchanges (snd (identifierSetLoop fuel authenticationToken
                                  normalizedUserIdentifier identifierSet page more st1))
                = (exchanges st ++ [(filteredRequest, Resolved firstResponse);
                                    (labelsRequest, Resolved secondResponse);
                                    (identifierRequest, Resolved thirdResponse)] ++ later)%list
                /\ ((forall other,
                        Resolved thirdResponse = Resolved other -> ok other = false) ->
                    later = []
                    /\ threw (fst (identifierSetLoop fuel authenticationToken
                                     normalizedUserIdentifier identifierSet page more st1)))).
  { intros fuel identifierSet page more st1 Hsent.
    destruct (identifierSetLoop_trace fuel authenticationToken normalizedUserIdentifier
                identifierSet page more st1) as (later & Hlater & _).
    exists later. split.
    - rewrite Hlater, Hsent, <- !app_assoc. reflexivity.
    - intros Hfailed. specialize (Hfailed thirdResponse eq_refl). congruence. }
  destruct responsePayload; first [apply Hstop; reflexivity | apply Hgoes_on; reflexivity].
Qed.

(** C6, amended.  The compatibility fallback is taken on HTTP status
    400 and on no other outcome, and how far it goes depends on the call
    site.  [addVisualNovelToAuthenticatedUserList] ([labels_set], then
    [labels]) and [fetchAuthenticatedUserVisualNovelList] (the field list
    with labels, then the one without) send exactly one more request
    after a status 400 and end by the outcome of that request: they
    return if it succeeded and throw if it failed, also with status 400,
    without a third request; after any other outcome of the first
    request they send nothing more and end by that outcome.
    [fetchAuthenticatedUserVisualNovelListEntry] sends nothing after the
    filtered lookup unless that was rejected with status 400, and then
    it falls back twice in a row: a status 400 for the filtered lookup
    is followed by the first page with label fields, and a status 400
    for that page by the first page of identifiers only; a failure of
    that third request is thrown and nothing follows it.
    [fetchCharacterEntriesByVisualNovelId], when the character cache
    holds none of its lookups, tries its request shapes in order, each
    at most once: 5 shapes, or 8 when the identifier holds a positive
    number; every status 400 is followed by the next shape; when every
    request was rejected with status 400 all the shapes were tried and
    the call returns the empty response, not an error; a failed response
    with another status is the last exchange and is thrown. *)
Theorem fallback_on_status_400_by_call_site
    (authenticationToken visualNovelIdentifier userIdentifier : string)
    (labelIdentifierArgument pageNumberArgument maximumResultsArgument : option Z)
    (st : ClientState) (ms : ModuleState) :
  let labelIdentifier := default 5 labelIdentifierArgument in
  let pageNumber := default 1 pageNumberArgument in
  let maximumResults := default 50 maximumResultsArgument in
  let normalizedUserIdentifier := normalizeUserIdentifier userIdentifier in
  let labelsSetRequest :=
    patchRequest authenticationToken visualNovelIdentifier "labels_set" labelIdentifier in
  let labelsRequest :=
    patchRequest authenticationToken visualNovelIdentifier "labels" labelIdentifier in
  let labelsEnabledRequest :=
    ulistRequest authenticationToken userIdentifier LABELS_ENABLED_FIELDS
                 maximumResults pageNumber in
  let minimalRequest :=
    ulistRequest authenticationToken userIdentifier MINIMAL_COMPATIBILITY_FIELDS
                 maximumResults pageNumber in
  let filteredRequest :=
    ulistPost authenticationToken
      (JObject (filteredPayload normalizedUserIdentifier
                  (normalizeVisualNovelIdentifier visualNovelIdentifier))) in
  let labelsPageRequest :=
    ulistPost authenticationToken (JObject (labelsPayload normalizedUserIdentifier 1)) in
  let identifierRequest :=
    identifierPageRequest authenticationToken normalizedUserIdentifier 1 in
  let added :=
    addVisualNovelToAuthenticatedUserList authenticationToken visualNovelIdentifier
      labelIdentifierArgument st in
  let listed :=
    fetchAuthenticatedUserVisualNovelList authenticationToken userIdentifier
      pageNumberArgument maximumResultsArgument st in
  let entryRead :=
    fetchAuthenticatedUserVisualNovelListEntry authenticationToken userIdentifier
      visualNovelIdentifier st in
  let charactersRead :=
    fetchCharacterEntriesByVisualNovelId positiveNumber visualNovelIdentifier ms in
  let shapes := candidateRequests positiveNumber visualNovelIdentifier in
  (trim visualNovelIdentifier <> "" ->
   (forall firstResponse,
       fst (fetch labelsSetRequest (env st)) = Resolved firstResponse ->
       status firstResponse = 400 ->
       let fallbackOutcome :=
         fst (fetch labelsRequest (snd (fetch labelsSetRequest (env st)))) in
       exchanges (snd added)
       = (exchanges st ++ [(labelsSetRequest, Resolved firstResponse);
                           (labelsRequest, fallbackOutcome)])%list
       /\ writeEndsBy fallbackOutcome (fst added))
   /\ ((forall firstResponse,
           fst (fetch labelsSetRequest (env st)) = Resolved firstResponse ->
           status firstResponse <> 400) ->
       exchanges (snd added)
       = (exchanges st ++ [(labelsSetRequest, fst (fetch labelsSetRequest (env st)))])%list
       /\ writeEndsBy (fst (fetch labelsSetRequest (env st))) (fst added)))
  /\ (listCacheMiss authenticationToken userIdentifier maximumResults pageNumber st ->
      (forall firstResponse,
          fst (fetch labelsEnabledRequest (env st)) = Resolved firstResponse ->
          status firstResponse = 400 ->
          let fallbackOutcome :=
            fst (fetch minimalRequest (snd (fetch labelsEnabledRequest (env st)))) in
          exchanges (snd listed)
          = (exchanges st ++ [(labelsEnabledRequest, Resolved firstResponse);
                              (minimalRequest, fallbackOutcome)])%list
          /\ readEndsBy fallbackOutcome (fst listed))
      /\ ((forall firstResponse,
              fst (fetch labelsEnabledRequest (env st)) = Resolved firstResponse ->
              status firstResponse <> 400) ->
          exchanges (snd listed)
          = (exchanges st
             ++ [(labelsEnabledRequest, fst (fetch labelsEnabledRequest (env st)))])%list
          /\ readEndsBy (fst (fetch labelsEnabledRequest (env st))) (fst listed)))
  /\ ((forall firstResponse,
          fst (fetch filteredRequest (env st)) = Resolved firstResponse ->
          status firstResponse <> 400) ->
      exchanges (snd entryRead)
      = (exchanges st ++ [(filteredRequest, fst (fetch filteredRequest (env st)))])%list
      /\ ((forall firstResponse,
              fst (fetch filteredRequest (env st)) = Resolved firstResponse ->
              ok firstResponse = false) ->
          threw (fst entryRead)))
  /\ (forall firstResponse secondResponse,
         let afterFirst := snd (fetch filteredRequest (env st)) in
         let afterSecond := snd (fetch labelsPageRequest afterFirst) in
         let thirdOutcome := fst (fetch identifierRequest afterSecond) in
         fst (fetch filteredRequest (env st)) = Resolved firstResponse ->
         status firstResponse = 400 ->
         fst (fetch labelsPageRequest afterFirst) = Resolved secondResponse ->
         status secondResponse = 400 ->
         exists later,
           exchanges (snd entryRead)
           = (exchanges st ++ [(filteredRequest, Resolved firstResponse);
                               (labelsPageRequest, Resolved secondResponse);
                               (identifierRequest, thirdOutcome)] ++ later)%list
           /\ ((forall thirdResponse,
                   thirdOutcome = Resolved thirdResponse -> ok thirdResponse = false) ->
               later = [] /\ threw (fst entryRead)))
  /\ (characterCacheMiss positiveNumber visualNovelIdentifier ms ->
      exists made,
        exchanges (client (snd charactersRead)) = (exchanges (client ms) ++ made)%list
        /\ map fst made = take (length made) shapes
        /\ (forall (i : nat) request outcome,
               made !! i = Some (request, outcome) ->
               rejectedAsBadRequest outcome ->
               (S i < length shapes)%nat ->
               (S i < length made)%nat)
        /\ (Forall (fun exchange => rejectedAsBadRequest (snd exchange)) made ->
            length made = length shapes
            /\ fst charactersRead = Returned emptyResponse)
        /\ (forall (i : nat) request networkResponse,
               made !! i = Some (request, Resolved networkResponse) ->
               ok networkResponse = false ->
               status networkResponse <> 400 ->
               S i = length made
               /\ fst charactersRead = Threw (characterFailure networkResponse)))
  /\ length shapes
     = match positiveNumber
               (withoutLeadingV (normalizeVisualNovelIdentifier visualNovelIdentifier)) with
       | Some _ => 8%nat
       | None => 5%nat
       end.
Proof.
  intros labelIdentifier pageNumber maximumResults normalizedUserIdentifier labelsSetRequest
         labelsRequest labelsEnabledRequest minimalRequest filteredRequest labelsPageRequest
         identifierRequest added listed entryRead charactersRead shapes.
  split; [ | split; [ | split; [ | split; [ | split]]]].
  - intros Hidentifier. split.
    + intros firstResponse Hfirst Hstatus.
      exact (add_retry authenticationToken visualNovelIdentifier labelIdentifierArgument st
                       firstResponse Hidentifier Hfirst Hstatus).
    + intros Hother.
      exact (add_no_retry authenticationToken visualNovelIdentifier labelIdentifierArgument
                          st Hidentifier Hother).
  - intros Hmiss. split.
    + intros firstResponse Hfirst Hstatus.
      exact (list_retry authenticationToken userIdentifier pageNumberArgument
                        maximumResultsArgument st firstResponse Hmiss Hfirst Hstatus).
    + intros Hother.
      exact (list_no_retry authenticationToken userIdentifier pageNumberArgument
                           maximumResultsArgument st Hmiss Hother).
  - exact (list_entry_no_fallback authenticationToken userIdentifier visualNovelIdentifier
             st).
  - intros firstResponse secondResponse.
    exact (list_entry_falls_back_twice authenticationToken userIdentifier
             visualNovelIdentifier st firstResponse secondResponse).
  - intros Hmiss.
    destruct (character_lookup_tried visualNovelIdentifier ms Hmiss)
      as (made & completion & Hmade & Htried & Hresult).
    fold charactersRead in Hmade, Hresult. fold shapes in Htried.
    destruct Htried as (Hprefix & _ & Hnext & Hend & Hall & Hfailure).
    exists made. split; [exact Hmade | ]. split; [exact Hprefix | ].
    split; [ | split].
    + intros i request outcome Hlookup Hrejected.
      exact (proj1 (Hnext i request outcome Hlookup Hrejected)).
    + intros Hevery. specialize (Hall Hevery). split; [exact (Hend Hall) | ].
      rewrite Hresult, Hall. reflexivity.
    + intros i request networkResponse Hlookup Hfailed Hstatus.
      destruct (Hfailure i request networkResponse Hlookup Hfailed Hstatus)
        as [Hlast Hthrown].
      split; [exact Hlast | ]. rewrite Hresult, Hthrown. reflexivity.
  - apply candidateRequests_length.
Qed.

End CharacterLookupFacts.

Section FallbackSiteRuns.
Import Client ClientReads ClientMetadata ClientListEntry ClientCharacters.

Lemma fallback_on_status_400_by_call_site_witness :
  let added :=
    @addVisualNovelToAuthenticatedUserList rejectsAll "token" "v17" None
      (@freshClient rejectsAll (0, [])) in
  let charactersRead :=
    @fetchCharacterEntriesByVisualNovelId rejectsAll numberOfDecimalDigits "v17"
      (@freshModule rejectsAll (0, [])) in
  (length (exchanges (snd added)) = 2%nat /\ threw (fst added))
  /\ (length (exchanges (client (snd charactersRead))) = 8%nat
      /\ fst charactersRead = Returned emptyResponse).
Proof.
  intros added charactersRead.
  destruct (fallback_on_status_400_by_call_site (P := rejectsAll) numberOfDecimalDigits
              "token" "v17" "u2" None None None
              (@freshClient rejectsAll (0, [])) (@freshModule rejectsAll (0, [])))
    as (Hadd & _ & _ & _ & Hcharacters & Hshapes).
  split.
  - assert (Hidentifier : trim "v17" <> "") by discriminate.
    destruct (proj1 (Hadd Hidentifier)
                {| status := 400; bodyText := Some ""; bodyJson := None |}
                eq_refl eq_refl)
      as [Hexchanges Hends].
    fold added in Hexchanges, Hends.
    split; [rewrite Hexchanges; reflexivity | exact Hends].
  - assert (Hmiss : @characterCacheMiss rejectsAll numberOfDecimalDigits "v17"
                      (@freshModule rejectsAll (0, [])))
      by (split; intros candidate _; apply lookup_empty).
    destruct (Hcharacters Hmiss) as (made & Hmade & _ & _ & Hall & _).
    fold charactersRead in Hmade, Hall.
    assert (Hevery : Forall (fun exchange => rejectedAsBadRequest (snd exchange)) made).
    { simpl in Hmade. rewrite <- Hmade. vm_compute.
      repeat constructor; eexists; split; reflexivity. }
    destruct (Hall Hevery) as [Hlength Hempty].
    split; [ | exact Hempty].
    simpl in Hmade. rewrite Hmade, Hlength. exact Hshapes.
Defined.

(** The claim as the specification words it fails in three ways.  A
    client error other than 400 gets no retry: the remote rejects the
    [labels_set] request with 404, and the operation throws after that
    single request, although a fallback request would have succeeded.
    The retry is not always a single one: with a remote that rejects
    every request with status 400, the lookup of one list entry sends
    three shapes before it throws, and the character lookup sends eight.
    And the failure does not always surface: the character lookup then
    returns the empty response. *)
Lemma fallback_depends_on_status_and_call_site :
  let added :=
    @addVisualNovelToAuthenticatedUserList (scriptedPlatform offline)
      "token" "v17" None notFoundOnce in
  let entryRead :=
    @fetchAuthenticatedUserVisualNovelListEntry rejectsAll "token" "u2" "v17"
      (@freshClient rejectsAll (0, [])) in
  let charactersRead :=
    @fetchCharacterEntriesByVisualNovelId rejectsAll numberOfDecimalDigits "v17"
      (@freshModule rejectsAll (0, [])) in
  (400 <= 404 <= 499
   /\ exchanges (snd added)
      = [(@patchRequest (scriptedPlatform offline) "token" "v17" "labels_set" 5,
          sampleResponse 404 None)]
   /\ fst added
      = Threw "Network boundary failure: Unable to add visual novel to user list (HTTP 404)"
   /\ snd (env (snd added)) = [sampleResponse 200 None])
  /\ (map snd (exchanges (snd entryRead))
      = [sampleResponse 400 None; sampleResponse 400 None; sampleResponse 400 None]
      /\ map fst (exchanges (snd entryRead))
         = [@ulistPost rejectsAll "token" (JObject (filteredPayload "u2" "v17"));
            @ulistPost rejectsAll "token" (JObject (labelsPayload "u2" 1));
            @identifierPageRequest rejectsAll "token" "u2" 1]
      /\ fst entryRead
         = Threw "Network boundary failure: Unable to load user list identifiers (HTTP 400).")
  /\ (map snd (exchanges (client (snd charactersRead)))
      = repeat (sampleResponse 400 None) 8
      /\ map fst (exchanges (client (snd charactersRead)))
         = @candidateRequests rejectsAll numberOfDecimalDigits "v17"
      /\ fst charactersRead = Returned emptyResponse).
Proof.
  split; [split; [lia | vm_compute; repeat split] | ].
  split; vm_compute; repeat split.
Qed.

End FallbackSiteRuns.

